(** * The activation offload engine of [transformer_engine/pytorch/cpu_offload.py]

    A shallow embedding of the CPU offload handlers (the synchronous one and
    the asynchronous double-buffered one), of the group-commit barrier, of the
    saved-tensor hook context and of the public factory, followed by the
    properties proved about them.

    Conventions of the embedding.
    - Python objects live in a store indexed by addresses; two references are
      the same object ([is]) exactly when the addresses are equal.
    - Python [int] is [Z]; [//] and [%] are [Z.div] and [Z.modulo], which
      round the same way as Python's.
    - A Python [dict] keyed by tags is an association list in insertion order,
      because the handlers iterate over [.items()]; the window plan, which is
      only ever read by key, is a [gmap].
    - Every method runs in a state-and-exception monad over the whole [world].
    - CUDA streams only order the copies in time; a copy is modelled by its
      effect on the store, at the point where the source issues it.
    - A view that torch makes of a tensor is a new object with the contents
      of its base at that point; that the two share their storage from then
      on is not tracked. *)

From stdpp Require Import base list numbers gmap sorting.

Local Open Scope Z_scope.

(** ** Python dictionaries in insertion order *)

Section dict.
Context {K V : Type} `{EqDecision K}.

Fixpoint dict_get (k : K) (d : list (K * V)) : option V :=
match d with
| [] => None
| (k', v) :: d' => if decide (k = k') then Some v else dict_get k d'
end.

Definition dict_mem (k : K) (d : list (K * V)) : bool :=
match dict_get k d with Some _ => true | None => false end.

(** [d[k] = v]: an existing key keeps its position, a new one goes last. *)
Fixpoint dict_set (k : K) (v : V) (d : list (K * V)) : list (K * V) :=
match d with
| [] => [(k, v)]
| (k', v') :: d' =>
if decide (k = k') then (k, v) :: d' else (k', v') :: dict_set k v d'
end.

(** [d.pop(k, None)] as far as the dictionary is concerned. *)
Fixpoint dict_pop (k : K) (d : list (K * V)) : list (K * V) :=
match d with
| [] => []
| (k', v') :: d' =>
if decide (k = k') then dict_pop k d' else (k', v') :: dict_pop k d'
end.

Definition dict_keys (d : list (K * V)) : list K := d.*1.
End dict.

(** ** Objects *)

Definition addr := nat.

Inductive dev := Cpu | Cuda (i : Z).

(** The classes the module tests for with [type(...)] and [isinstance]. *)
Inductive pyclass :=
| TorchTensor            (* exactly torch.Tensor *)
| TorchParameter         (* exactly torch.nn.Parameter *)
| FakeTensor
| FunctionalTensor
| OtherTensorSubclass    (* any other class without the composite methods *)
| MXFP8TensorBase
| Float8Tensor.

(** What a variable of the handler may hold where a tensor is expected:
    [None], a reference to an object, or the pair [(device, cpu_backup)]
    returned by [offload]. *)
Inductive elem :=
| ENone
| ERef (a : addr)
| ETuple (d : dev) (cpu_backup : addr).

(** Instance attributes of a composite. *)
Record fields := mkFields {
  rowwise_data : elem;
  columnwise_data : elem;
  rowwise_scale_inv : elem;
  columnwise_scale_inv : elem;
  transpose_invalid : bool;        (* [_transpose_invalid] *)
  other_attrs : list elem;
}.

Record obj := mkObj {
  cls : pyclass;
  device : dev;
  size : list Z;
  data : list Z;                   (* the bits of the storage *)
  pinned : bool;
  activation_offloading : bool;    (* [hasattr(o, "activation_offloading")] *)
  needs_force_clear : bool;        (* [hasattr(o, "needs_force_clear")] *)
  do_not_clear : bool;             (* [_do_not_clear] set to True *)
  inst : fields;
}.

#[global] Instance dev_eq_dec : EqDecision dev.
Proof. solve_decision. Defined.
#[global] Instance pyclass_eq_dec : EqDecision pyclass.
Proof. solve_decision. Defined.
#[global] Instance elem_eq_dec : EqDecision elem.
Proof. solve_decision. Defined.

Definition no_fields : fields :=
  mkFields ENone ENone ENone ENone false [].

Definition set_data (sz dt : list Z) (d : dev) (o : obj) : obj :=
  mkObj (cls o) d sz dt (pinned o) (activation_offloading o)
        (needs_force_clear o) (do_not_clear o) (inst o).

Definition set_activation_offloading (o : obj) : obj :=
  mkObj (cls o) (device o) (size o) (data o) (pinned o) true
        (needs_force_clear o) (do_not_clear o) (inst o).

Definition set_needs_force_clear (o : obj) : obj :=
  mkObj (cls o) (device o) (size o) (data o) (pinned o)
        (activation_offloading o) true (do_not_clear o) (inst o).

Definition set_do_not_clear (o : obj) : obj :=
  mkObj (cls o) (device o) (size o) (data o) (pinned o)
        (activation_offloading o) (needs_force_clear o) true (inst o).

Definition set_inst (f : fields) (o : obj) : obj :=
  mkObj (cls o) (device o) (size o) (data o) (pinned o)
        (activation_offloading o) (needs_force_clear o) (do_not_clear o) f.

Definition set_transpose_invalid (b : bool) (f : fields) : fields :=
  mkFields (rowwise_data f) (columnwise_data f) (rowwise_scale_inv f)
           (columnwise_scale_inv f) b (other_attrs f).

(** [o.data = torch.Tensor()] / [o.data = _empty_tensor()] *)
Definition empty_storage (o : obj) : obj := set_data [0] [] Cpu o.

(** The composite capability set of a class, acting on the instance
    attributes.  [None] stands for the method raising. *)
Record methods := mkMethods {
  m_prepare_for_saving : fields → list elem * fields;
  m_restore_from_saved : fields → list elem → option fields;
  m_clear : fields → option (fields * list addr);  (* storages it empties *)
  m_get_data_tensors : fields → list elem;
}.

(** ** Exceptions and the monad *)

Inductive exn :=
| AssertionError | KeyError | IndexError | AttributeError | TypeError
| RuntimeError | ValueError.

Inductive result (A : Type) :=
| Ok (a : A)
| Raise (e : exn).
Arguments Ok {A} a.
Arguments Raise {A} e.

Definition tag := (Z * Z)%type.

Inductive slot :=
| SOne (e : elem)            (* a tensor, or the tuple of an evicted one *)
| SList (l : list elem).     (* the underlying tensors of a composite *)

Definition checker := (addr → obj) → elem → bool.

Inductive handler_class :=
| Synchronized          (* SynchronizedGroupOffloadHandler *)
| AsyncDoubleBuffer.    (* AsyncDoubleBufferGroupOffloadHandler *)

Record handler := mkHandler {
  handler_cls : handler_class;
  (* SynchronizedGroupOffloadHandler *)
  num_offload_group : Z;
  tensor_need_offloading_checker : checker;
  current_group : Z;
  tensor_count_current_group : Z;
  torch_tensor_count : Z;
  tensor_tag_to_state : list (tag * slot);
  (* AsyncDoubleBufferGroupOffloadHandler *)
  num_layers : Z;
  tensor_tag_to_buf : list (tag * slot);
  fp8_tensor_object_map : list (tag * addr);
  float8_transpose_cache_valid : list (tag * bool);
  dereferencing_list : list tag;
  offloaded_group_count : Z;
  layer_window_map : gmap Z Z;
  double_buffering : bool;
  reload_double_buffer : list elem * list elem;
  double_buffer_created : bool;
}.

Inductive call :=
| CallPrepareForSaving (self : addr)
| CallClear (self : addr)
| CallRestoreFromSaved (self : addr) (tensors : list elem).

Inductive hook_pair := HookPair.   (* (on_save_for_backward, on_get_saved_tensor) *)

Record world := mkWorld {
  objs : addr → obj;
  next_addr : addr;
  Float8Tensor_methods : methods;  (* the class is declared outside these sources *)
  calls : list call;               (* composite methods invoked so far, latest first *)
  hd : handler;
  CPUOffloadEnabled : bool;
  inside_context : bool;
  saved_tensors_default_hooks : list hook_pair;
  debug_enabled : bool;            (* TEDebugState.debug_enabled *)
}.

Definition M (A : Type) : Type := world → result (A * world).

Definition ret {A} (a : A) : M A := fun w => Ok (a, w).
Definition raise {A} (e : exn) : M A := fun _ => Raise e.
Definition bind {A B} (m : M A) (k : A → M B) : M B :=
  fun w => match m w with
           | Ok (a, w') => k a w'
           | Raise e => Raise e
           end.

Notation "'let*' x ':=' m 'in' k" := (bind m (fun x => k))
  (at level 10, x pattern, m at level 100, k at level 200).
Notation "m ;; k" := (bind m (fun _ => k))
  (at level 100, k at level 200, right associativity).

Definition get : M world := fun w => Ok (w, w).
Definition gets {A} (f : world → A) : M A := fun w => Ok (f w, w).
Definition modify (f : world → world) : M unit := fun w => Ok (tt, f w).
Definition assert_ (b : bool) : M unit :=
  if b then ret tt else raise AssertionError.
Definition when (b : bool) (m : M unit) : M unit := if b then m else ret tt.

Fixpoint for_each {A} (l : list A) (body : A → M unit) : M unit :=
  match l with
  | [] => ret tt
  | x :: l' => body x ;; for_each l' body
  end.

(** ** Access to the world *)

Definition with_objs (f : addr → obj) (w : world) : world :=
  mkWorld f (next_addr w) (Float8Tensor_methods w) (calls w) (hd w)
          (CPUOffloadEnabled w) (inside_context w)
          (saved_tensors_default_hooks w) (debug_enabled w).

Definition with_hd (h : handler) (w : world) : world :=
  mkWorld (objs w) (next_addr w) (Float8Tensor_methods w) (calls w) h
          (CPUOffloadEnabled w) (inside_context w)
          (saved_tensors_default_hooks w) (debug_enabled w).

Definition upd (a : addr) (f : obj → obj) (m : addr → obj) : addr → obj :=
  fun x => if decide (x = a) then f (m a) else m x.

Definition update_obj (a : addr) (f : obj → obj) : M unit :=
  modify (fun w => with_objs (upd a f (objs w)) w).

Definition alloc (o : obj) : M addr :=
  fun w => Ok (next_addr w,
               mkWorld (upd (next_addr w) (fun _ => o) (objs w)) (S (next_addr w))
                       (Float8Tensor_methods w) (calls w) (hd w)
                       (CPUOffloadEnabled w) (inside_context w)
                       (saved_tensors_default_hooks w) (debug_enabled w)).

Definition log_call (c : call) : M unit :=
  modify (fun w =>
    mkWorld (objs w) (next_addr w) (Float8Tensor_methods w) (c :: calls w) (hd w)
            (CPUOffloadEnabled w) (inside_context w)
            (saved_tensors_default_hooks w) (debug_enabled w)).

Definition modify_hd (f : handler → handler) : M unit :=
  modify (fun w => with_hd (f (hd w)) w).

(** Field updates of the handler. *)

Definition set_counters (cg cnt : Z) (h : handler) : handler :=
  mkHandler (handler_cls h) (num_offload_group h) (tensor_need_offloading_checker h)
    cg cnt (torch_tensor_count h) (tensor_tag_to_state h)
    (num_layers h) (tensor_tag_to_buf h) (fp8_tensor_object_map h)
    (float8_transpose_cache_valid h) (dereferencing_list h)
    (offloaded_group_count h) (layer_window_map h) (double_buffering h)
    (reload_double_buffer h) (double_buffer_created h).

Definition set_torch_tensor_count (n : Z) (h : handler) : handler :=
  mkHandler (handler_cls h) (num_offload_group h) (tensor_need_offloading_checker h)
    (current_group h) (tensor_count_current_group h) n (tensor_tag_to_state h)
    (num_layers h) (tensor_tag_to_buf h) (fp8_tensor_object_map h)
    (float8_transpose_cache_valid h) (dereferencing_list h)
    (offloaded_group_count h) (layer_window_map h) (double_buffering h)
    (reload_double_buffer h) (double_buffer_created h).

Definition set_tensor_tag_to_state (d : list (tag * slot)) (h : handler) : handler :=
  mkHandler (handler_cls h) (num_offload_group h) (tensor_need_offloading_checker h)
    (current_group h) (tensor_count_current_group h) (torch_tensor_count h) d
    (num_layers h) (tensor_tag_to_buf h) (fp8_tensor_object_map h)
    (float8_transpose_cache_valid h) (dereferencing_list h)
    (offloaded_group_count h) (layer_window_map h) (double_buffering h)
    (reload_double_buffer h) (double_buffer_created h).

Definition set_tensor_tag_to_buf (d : list (tag * slot)) (h : handler) : handler :=
  mkHandler (handler_cls h) (num_offload_group h) (tensor_need_offloading_checker h)
    (current_group h) (tensor_count_current_group h) (torch_tensor_count h)
    (tensor_tag_to_state h)
    (num_layers h) d (fp8_tensor_object_map h)
    (float8_transpose_cache_valid h) (dereferencing_list h)
    (offloaded_group_count h) (layer_window_map h) (double_buffering h)
    (reload_double_buffer h) (double_buffer_created h).

Definition set_fp8_tensor_object_map (d : list (tag * addr)) (h : handler) : handler :=
  mkHandler (handler_cls h) (num_offload_group h) (tensor_need_offloading_checker h)
    (current_group h) (tensor_count_current_group h) (torch_tensor_count h)
    (tensor_tag_to_state h)
    (num_layers h) (tensor_tag_to_buf h) d
    (float8_transpose_cache_valid h) (dereferencing_list h)
    (offloaded_group_count h) (layer_window_map h) (double_buffering h)
    (reload_double_buffer h) (double_buffer_created h).

Definition set_float8_transpose_cache_valid (d : list (tag * bool)) (h : handler) : handler :=
  mkHandler (handler_cls h) (num_offload_group h) (tensor_need_offloading_checker h)
    (current_group h) (tensor_count_current_group h) (torch_tensor_count h)
    (tensor_tag_to_state h)
    (num_layers h) (tensor_tag_to_buf h) (fp8_tensor_object_map h)
    d (dereferencing_list h)
    (offloaded_group_count h) (layer_window_map h) (double_buffering h)
    (reload_double_buffer h) (double_buffer_created h).

Definition set_dereferencing_list (l : list tag) (h : handler) : handler :=
  mkHandler (handler_cls h) (num_offload_group h) (tensor_need_offloading_checker h)
    (current_group h) (tensor_count_current_group h) (torch_tensor_count h)
    (tensor_tag_to_state h)
    (num_layers h) (tensor_tag_to_buf h) (fp8_tensor_object_map h)
    (float8_transpose_cache_valid h) l
    (offloaded_group_count h) (layer_window_map h) (double_buffering h)
    (reload_double_buffer h) (double_buffer_created h).

Definition set_offloaded_group_count (n : Z) (h : handler) : handler :=
  mkHandler (handler_cls h) (num_offload_group h) (tensor_need_offloading_checker h)
    (current_group h) (tensor_count_current_group h) (torch_tensor_count h)
    (tensor_tag_to_state h)
    (num_layers h) (tensor_tag_to_buf h) (fp8_tensor_object_map h)
    (float8_transpose_cache_valid h) (dereferencing_list h)
    n (layer_window_map h) (double_buffering h)
    (reload_double_buffer h) (double_buffer_created h).

Definition set_reload_double_buffer (b : list elem * list elem) (created : bool)
    (h : handler) : handler :=
  mkHandler (handler_cls h) (num_offload_group h) (tensor_need_offloading_checker h)
    (current_group h) (tensor_count_current_group h) (torch_tensor_count h)
    (tensor_tag_to_state h)
    (num_layers h) (tensor_tag_to_buf h) (fp8_tensor_object_map h)
    (float8_transpose_cache_valid h) (dereferencing_list h)
    (offloaded_group_count h) (layer_window_map h) (double_buffering h)
    b created.

(** ** Composite tensors *)

(** [MXFP8TensorBase], from [tensor/_internal/mxfp8_tensor_base.py]. *)
Module MXFP8.
Definition prepare_for_saving (f : fields) : list elem * fields :=
([rowwise_data f; columnwise_data f; rowwise_scale_inv f; columnwise_scale_inv f],
 mkFields ENone ENone ENone ENone (transpose_invalid f) (other_attrs f)).

(** [tensors[0]] .. [tensors[3]] raise IndexError on a shorter list. *)
Definition restore_from_saved (f : fields) (tensors : list elem) : option fields :=
match tensors with
| t0 :: t1 :: t2 :: t3 :: _ =>
Some (mkFields t0 t1 t2 t3 (transpose_invalid f) (other_attrs f))
| _ => None
end.

(** [for t in (...): if t is not None: t.data = _empty_tensor()]; a tuple
has no attribute [data] to assign. *)
Fixpoint clear_targets (ts : list elem) : option (list addr) :=
match ts with
| [] => Some []
| ENone :: ts' => clear_targets ts'
| ERef a :: ts' => cons a <$> clear_targets ts'
| ETuple _ _ :: _ => None
end.

Definition clear (f : fields) : option (fields * list addr) :=
pair f <$> clear_targets [rowwise_data f; columnwise_data f;
 rowwise_scale_inv f; columnwise_scale_inv f].

Definition get_data_tensors (f : fields) : list elem :=
[rowwise_data f; columnwise_data f].

Definition impl : methods :=
mkMethods prepare_for_saving restore_from_saved clear get_data_tensors.
End MXFP8.

(** [isinstance(o, QuantizedTensorBase)] *)
Definition is_quantized_class (c : pyclass) : bool :=
  match c with MXFP8TensorBase | Float8Tensor => true | _ => false end.

(** [isinstance(o, (FakeTensor, FunctionalTensor))] *)
Definition is_stray_class (c : pyclass) : bool :=
  match c with FakeTensor | FunctionalTensor => true | _ => false end.

Definition methods_of (w : world) (c : pyclass) : option methods :=
  match c with
  | MXFP8TensorBase => Some MXFP8.impl
  | Float8Tensor => Some (Float8Tensor_methods w)
  | _ => None
  end.

(** Method calls on an object; a class without the method raises
    AttributeError.  Every call is recorded in [calls]. *)
Definition prepare_for_saving (self : addr) : M (list elem) :=
  let* w := get in
  match methods_of w (cls (objs w self)) with
  | None => raise AttributeError
  | Some m =>
      let r := m_prepare_for_saving m (inst (objs w self)) in
      update_obj self (set_inst r.2) ;;
      log_call (CallPrepareForSaving self) ;;
      ret r.1
  end.

Definition restore_from_saved (self : addr) (tensors : list elem) : M unit :=
  let* w := get in
  match methods_of w (cls (objs w self)) with
  | None => raise AttributeError
  | Some m =>
      log_call (CallRestoreFromSaved self tensors) ;;
      match m_restore_from_saved m (inst (objs w self)) tensors with
      | None => raise IndexError
      | Some f => update_obj self (set_inst f)
      end
  end.

Definition clear (self : addr) : M unit :=
  let* w := get in
  match methods_of w (cls (objs w self)) with
  | None => raise AttributeError
  | Some m =>
      log_call (CallClear self) ;;
      match m_clear m (inst (objs w self)) with
      | None => raise AttributeError
      | Some (f, emptied) =>
          update_obj self (set_inst f) ;;
          for_each emptied (fun a => update_obj a empty_storage)
      end
  end.

Definition get_data_tensors (self : addr) : M (list elem) :=
  let* w := get in
  match methods_of w (cls (objs w self)) with
  | None => raise AttributeError
  | Some m => ret (m_get_data_tensors m (inst (objs w self)))
  end.

(** ** [mark_activation_offload] *)

(** Attribute assignment on whatever the variable holds. *)
Definition setattr (e : elem) (f : obj → obj) : M unit :=
  match e with
  | ERef a => update_obj a f
  | _ => raise AttributeError
  end.

(** The body of the inner loop over [data_tensors]. *)
Definition mark_data_tensor (t : elem) : M unit :=
  match t with
  | ENone => ret tt
  | _ => setattr t set_activation_offloading ;;
         setattr t set_needs_force_clear
  end.

Definition mark_one (tensor : elem) : M unit :=
  match tensor with
  | ENone => ret tt
  | ERef a =>
      let* c := gets (fun w => cls (objs w a)) in
      if bool_decide (c = TorchTensor ∨ c = TorchParameter) then
        update_obj a set_activation_offloading
      else
        let* data_tensors := get_data_tensors a in
        for_each data_tensors mark_data_tensor
  | ETuple _ _ => raise AttributeError      (* a tuple has no get_data_tensors *)
  end.

Definition mark_activation_offload (tensors : list elem) : M unit :=
  let* dbg := gets debug_enabled in
  if dbg then raise RuntimeError
  else for_each tensors mark_one.

Definition is_cpu_offload_enabled : M bool := gets CPUOffloadEnabled.

(** ** [SynchronizedGroupOffloadHandler] *)

Definition fresh_tensor (d : dev) (sz dt : list Z) (pin : bool) : obj :=
  mkObj TorchTensor d sz dt pin false false false no_fields.

Definition set_state (tg : tag) (s : slot) : M unit :=
  modify_hd (fun h => set_tensor_tag_to_state (dict_set tg s (tensor_tag_to_state h)) h).

Definition set_buf (tg : tag) (s : slot) : M unit :=
  modify_hd (fun h => set_tensor_tag_to_buf (dict_set tg s (tensor_tag_to_buf h)) h).

Definition is_tuple (e : elem) : bool :=
  match e with ETuple _ _ => true | _ => false end.

Definition need_offloading (t : elem) : M bool :=
  gets (fun w => tensor_need_offloading_checker (hd w) (objs w) t).

(** The default of the constructors, [lambda _: True]. *)
Definition checker_default : checker := fun _ _ => true.

Module SynchronizedGroupOffloadHandler.

Definition init (num_offload_group : Z) (chk : checker) : handler :=
mkHandler Synchronized num_offload_group chk 0 0 0 []
0 [] [] [] [] 0 ∅ false ([], []) false.

Definition groupid_reset : M unit :=
modify_hd (fun h =>
set_tensor_tag_to_state [] (set_torch_tensor_count 0 (set_counters 0 0 h))).

Definition on_group_commit_forward : M unit :=
modify_hd (fun h => set_counters (current_group h + 1) 0 h).

Definition on_group_commit_backward : M unit :=
modify_hd (fun h =>
set_counters (current_group h - 1) (tensor_count_current_group h) h) ;;
let* cg := gets (fun w => current_group (hd w)) in
assert_ (bool_decide (0 ≤ cg)).

(** [offload(src_tensor, pin_memory=True)]: a pinned host buffer of the
same size receives the contents; the state is [(device, cpu_backup)]. *)
Definition offload (src_tensor : elem) : M elem :=
match src_tensor with
| ERef a =>
let* o := gets (fun w => objs w a) in
let* cpu_backup := alloc (fresh_tensor Cpu (size o) (data o) true) in
ret (ETuple (device o) cpu_backup)
| _ => raise AttributeError
end.

(** [reload(state, non_blocking, copy_buffer)].  [Tensor.to] returns the
tensor itself when it already lives on the target device.  Both handlers
call it with the pair that [offload] returned and with nothing else; for
any other state the unpacking [dev, cpu_backup = state] is cut short to a
TypeError, as for [None] (a tensor would be unpacked along its first
dimension, which is not followed here). *)
Definition reload (state : elem) (non_blocking : option bool)
(copy_buffer : elem) : M elem :=
match state with
| ETuple dev cpu_backup =>
let* b := gets (fun w => objs w cpu_backup) in
match copy_buffer with
| ENone =>
if decide (dev = device b) then ret (ERef cpu_backup)
else
let* t := alloc (fresh_tensor dev (size b) (data b) false) in
ret (ERef t)
| ERef buf =>
let* o := gets (fun w => objs w buf) in
assert_ (bool_decide (size b = size o)) ;;
update_obj buf (fun o => set_data (size o) (data b) (device o) o) ;;
ret (ERef buf)
| ETuple _ _ => raise AttributeError
end
| _ => raise TypeError
end.

Definition tensor_push (tensor : addr) : M tag :=
let* h := gets hd in
let tensor_tag := (current_group h, tensor_count_current_group h) in
modify_hd (fun h =>
set_counters (current_group h) (tensor_count_current_group h + 1) h) ;;
assert_ (negb (dict_mem tensor_tag (tensor_tag_to_state h))) ;;
let* need := need_offloading (ERef tensor) in
(if bool_decide (current_group h < num_offload_group h) && need then
 let* state := offload (ERef tensor) in
 set_state tensor_tag (SOne state)
 else
 set_state tensor_tag (SOne (ERef tensor))) ;;
ret tensor_tag.

Definition tensor_pop (tensor_tag : tag) : M slot :=
let* h := gets hd in
match dict_get tensor_tag (tensor_tag_to_state h) with
| None => raise AssertionError
| Some state =>
modify_hd (fun h =>
set_tensor_tag_to_state (dict_pop tensor_tag (tensor_tag_to_state h)) h) ;;
match state with
| SOne (ETuple d b) =>
let* tensor := reload (ETuple d b) None ENone in
ret (SOne tensor)
| _ => ret state
end
end.

End SynchronizedGroupOffloadHandler.

(** ** [AsyncDoubleBufferGroupOffloadHandler] *)

Fixpoint fold_m {A B} (l : list A) (acc : B) (body : B → A → M B) : M B :=
  match l with
  | [] => ret acc
  | x :: l' => let* acc' := body acc x in fold_m l' acc' body
  end.

(** [for k, v in d.items()] for a dictionary [d] of the handler whose values
    the body may reassign: the keys are those present when the loop starts,
    and each value is read when its turn comes.  (Python refuses to go on when
    a key has disappeared in between.) *)
Definition fold_items {V B} (d : handler → list (tag * V)) (acc : B)
    (body : B → tag * V → M B) : M B :=
  let* keys := gets (fun w => dict_keys (d (hd w))) in
  fold_m keys acc (fun acc k =>
    let* h := gets hd in
    match dict_get k (d h) with
    | Some v => body acc (k, v)
    | None => raise RuntimeError
    end).

Definition for_items {V} (d : handler → list (tag * V))
    (body : tag * V → M unit) : M unit :=
  fold_items d tt (fun _ => body).

(** [l.remove(x)]: the first occurrence goes. *)
Fixpoint list_remove_first (x : tag) (l : list tag) : list tag :=
  match l with
  | [] => []
  | y :: l' => if decide (x = y) then l' else y :: list_remove_first x l'
  end.

(** [torch.empty_like(b)]: same size and device, contents unspecified
    (zeros here). *)
Definition empty_like (b : elem) : M elem :=
  match b with
  | ERef a =>
      let* o := gets (fun w => objs w a) in
      let* t := alloc (fresh_tensor (device o) (size o)
                         (replicate (length (data o)) 0) false) in
      ret (ERef t)
  | _ => raise TypeError
  end.

Module AsyncDoubleBufferGroupOffloadHandler.
Import SynchronizedGroupOffloadHandler.

(** One turn of the loop that fills [layer_window_map]; the state is the
map and the local variable [constant]. *)
Definition window_step (L G : Z) (st : gmap Z Z * Z) (i : Z) : gmap Z Z * Z :=
let v := (L `div` G) * (i + 1) - 1 in
if decide (i < L `mod` G) then (<[i := v + (i + 1)]> st.1, i + 1)
else (<[i := v + st.2]> st.1, st.2).

Definition build_layer_window_map (L G : Z) : gmap Z Z :=
(foldl (window_step L G) (∅, 0) (seqZ 0 G)).1.

Definition init (num_offload_group num_model_group : Z) (chk : checker)
(double_buffering : bool) : handler :=
mkHandler AsyncDoubleBuffer num_offload_group chk 0 0 0 []
num_model_group [] [] [] [] 0
(build_layer_window_map num_model_group num_offload_group)
double_buffering ([], []) false.

Definition state_append (tg : tag) (t : elem) : M unit :=
let* h := gets hd in
match dict_get tg (tensor_tag_to_state h) with
| Some (SList l) => set_state tg (SList (l ++ [t]))
| Some (SOne _) => raise AttributeError
| None => raise KeyError
end.

Definition buf_append (tg : tag) (t : elem) : M unit :=
let* h := gets hd in
match dict_get tg (tensor_tag_to_buf h) with
| Some (SList l) => set_buf tg (SList (l ++ [t]))
| Some (SOne _) => raise AttributeError
| None => raise KeyError
end.

Definition is_registered (tensor : addr) (m : list (tag * addr)) : bool :=
existsb (fun kv => bool_decide (kv.2 = tensor)) m.

(** The part of [tensor_push] run for a quantized tensor before the loop. *)
Definition push_quantized (tensor_tag : tag) (tensor : addr) : M (list elem) :=
let* tensor_list := prepare_for_saving tensor in
set_state tensor_tag (SList []) ;;
set_buf tensor_tag (SList []) ;;
let* h := gets hd in
when (is_registered tensor (fp8_tensor_object_map h))
(modify_hd (fun h =>
 set_dereferencing_list (dereferencing_list h ++ [tensor_tag]) h)) ;;
modify_hd (fun h =>
set_fp8_tensor_object_map
(dict_set tensor_tag tensor (fp8_tensor_object_map h)) h) ;;
let* o := gets (fun w => objs w tensor) in
when (bool_decide (cls o = Float8Tensor))
(modify_hd (fun h =>
 set_float8_transpose_cache_valid
 (dict_set tensor_tag (transpose_invalid (inst o))
(float8_transpose_cache_valid h)) h)) ;;
ret tensor_list.

(** The body of [for t in tensor_list]. *)
Definition push_item (is_quantized_tensor : bool) (tensor_tag : tag)
(tensor : addr) (t : elem) : M unit :=
(if is_quantized_tensor then state_append tensor_tag t
 else set_state tensor_tag (SOne t)) ;;
let* h := gets hd in
let* need := need_offloading t in
when (bool_decide (current_group h < num_offload_group h) && need)
(if is_quantized_tensor then
 buf_append tensor_tag t ;;
 clear tensor
 else set_buf tensor_tag (SOne t)).

Definition tensor_push (tensor : addr) : M tag :=
let* c := gets (fun w => cls (objs w tensor)) in
let torch_stray_tensor := is_stray_class c in
let is_quantized_tensor := is_quantized_class c in
let* h := gets hd in
if negb torch_stray_tensor then
let tensor_tag := (current_group h, tensor_count_current_group h) in
modify_hd (fun h =>
set_counters (current_group h) (tensor_count_current_group h + 1) h) ;;
assert_ (negb (dict_mem tensor_tag (tensor_tag_to_state h))) ;;
let* tensor_list :=
(if is_quantized_tensor then push_quantized tensor_tag tensor
 else ret [ERef tensor]) in
for_each tensor_list (push_item is_quantized_tensor tensor_tag tensor) ;;
ret tensor_tag
else
let tensor_tag := (-1, torch_tensor_count h) in
modify_hd (set_torch_tensor_count (torch_tensor_count h + 1)) ;;
set_state tensor_tag (SOne (ERef tensor)) ;;
ret tensor_tag.

Definition lookup_object (tensor_tag : tag) : M addr :=
let* h := gets hd in
match dict_get tensor_tag (fp8_tensor_object_map h) with
| Some o => ret o
| None => raise KeyError
end.

Definition pop_object (tensor_tag : tag) : M addr :=
let* o := lookup_object tensor_tag in
modify_hd (fun h =>
set_fp8_tensor_object_map (dict_pop tensor_tag (fp8_tensor_object_map h)) h) ;;
ret o.

(** [if tag in dereferencing_list: remove it; else: restore_from_saved] *)
Definition restore_unless_duplicate (tensor_tag : tag) (tensors : list elem)
: M unit :=
let* h := gets hd in
if bool_decide (tensor_tag ∈ dereferencing_list h) then
modify_hd (fun h =>
set_dereferencing_list
(list_remove_first tensor_tag (dereferencing_list h)) h)
else
let* o := lookup_object tensor_tag in
restore_from_saved o tensors.

Definition tensor_pop (tensor_tag : tag) : M elem :=
let* h := gets hd in
match dict_get tensor_tag (tensor_tag_to_state h) with
| None => raise AssertionError
| Some state =>
modify_hd (fun h =>
set_tensor_tag_to_state (dict_pop tensor_tag (tensor_tag_to_state h)) h) ;;
let* tensor :=
match state with
| SList l =>
restore_unless_duplicate tensor_tag l ;;
let* o := pop_object tensor_tag in
ret (ERef o)
| SOne e => ret e
end in
when (double_buffering h) (setattr tensor set_do_not_clear) ;;
modify_hd (fun h =>
set_tensor_tag_to_buf (dict_pop tensor_tag (tensor_tag_to_buf h)) h) ;;
assert_ (negb (is_tuple tensor)) ;;
ret tensor
end.

(** One element of a group being offloaded: evicted if the checker says
so, left on the device otherwise. *)
Definition offload_item (tensor_on_device : elem) : M elem :=
let* need := need_offloading tensor_on_device in
if need then offload tensor_on_device else ret tensor_on_device.

Definition bulk_offload_entry (group_to_offload : Z) (kv : tag * slot) : M unit :=
let '(tensor_tag, state) := kv in
when (bool_decide (tensor_tag.1 = group_to_offload))
match state with
| SOne (ETuple _ _) => raise AssertionError
| SList tensor_list =>
set_state tensor_tag (SList []) ;;
for_each tensor_list (fun tensor_on_device =>
let* s := offload_item tensor_on_device in
state_append tensor_tag s)
| SOne tensor_on_device =>
let* s := offload_item tensor_on_device in
set_state tensor_tag (SOne s)
end.

Definition bulk_offload_group (group_to_offload : Z) : M unit :=
for_items tensor_tag_to_state (bulk_offload_entry group_to_offload).

Definition rdb_append0 (b : elem) : M unit :=
modify_hd (fun h =>
set_reload_double_buffer
((reload_double_buffer h).1 ++ [b], (reload_double_buffer h).2)
(double_buffer_created h) h).

Definition rdb_append1 (b : elem) : M unit :=
modify_hd (fun h =>
set_reload_double_buffer
((reload_double_buffer h).1, (reload_double_buffer h).2 ++ [b])
(double_buffer_created h) h).

(** [torch.empty_like(b) if self.double_buffering else None] *)
Definition new_reload_buffer (b : elem) : M elem :=
let* db := gets (fun w => double_buffering (hd w)) in
if db then empty_like b else ret ENone.

Definition create_first_buffer (kv : tag * slot) : M unit :=
match kv.2 with
| SList buf =>
for_each buf (fun b => let* r := new_reload_buffer b in rdb_append0 r)
| SOne buf => let* r := new_reload_buffer buf in rdb_append0 r
end.

(** [if hasattr(tensor_buf, "needs_force_clear"): tensor_buf.data = torch.Tensor()]
followed by [self.tensor_tag_to_buf[tensor_tag] = None]; neither a list
nor [None] has the attribute. *)
Definition release_buf (kv : tag * slot) : M unit :=
let '(tensor_tag, tensor_buf) := kv in
let* w := get in
when (bool_decide (tensor_tag.1 = offloaded_group_count (hd w)))
(match tensor_buf with
 | SOne (ERef a) =>
 when (needs_force_clear (objs w a)) (update_obj a empty_storage)
 | _ => ret tt
 end ;;
 set_buf tensor_tag (SOne ENone)).

Definition lookup_window (i : Z) : M Z :=
let* h := gets hd in
match layer_window_map h !! i with
| Some v => ret v
| None => raise KeyError
end.

Definition synchronize_on_group_commit_forward (current_group : Z) : M unit :=
when (bool_decide (current_group = 0))
(let* h := gets hd in
 when (negb (double_buffer_created h))
 (for_items tensor_tag_to_buf create_first_buffer) ;;
 bulk_offload_group current_group) ;;
let* h := gets hd in
let* win := lookup_window (offloaded_group_count h) in
when (bool_decide (win = current_group))
(for_items tensor_tag_to_buf release_buf ;;
 when (bool_decide (offloaded_group_count h < num_offload_group h - 1))
 (bulk_offload_group (offloaded_group_count h + 1)) ;;
 modify_hd (fun h =>
 set_offloaded_group_count (offloaded_group_count h + 1) h)) ;;
let* h := gets hd in
when (negb (double_buffer_created h))
(when (bool_decide (current_group = num_layers h - 1))
 (for_each (reload_double_buffer h).1 (fun buf =>
let* r := new_reload_buffer buf in rdb_append1 r) ;;
modify_hd (fun h =>
set_reload_double_buffer (reload_double_buffer h) true h))).

Definition on_group_commit_forward : M unit :=
let* cg := gets (fun w => current_group (hd w)) in
synchronize_on_group_commit_forward cg ;;
SynchronizedGroupOffloadHandler.on_group_commit_forward.

(** [self.reload_double_buffer[double_buffer_idx][buffer_idx]
 if self.double_buffering else None] *)
Definition pick_reload_buffer (double_buffer_idx : Z) (buffer_idx : nat) : M elem :=
let* h := gets hd in
if double_buffering h then
let bufs := if decide (double_buffer_idx = 0) then (reload_double_buffer h).1
else (reload_double_buffer h).2 in
match bufs !! buffer_idx with
| Some b => ret b
| None => raise IndexError
end
else ret ENone.

(** The inner loop of [bulk_reload_group] over the elements of a
composite; the accumulator is [(tensor_list, buffer_idx)]. *)
Definition reload_item (double_buffer_idx : Z) (acc : list elem * nat)
(state_tuple : elem) : M (list elem * nat) :=
let* reload_buffer := pick_reload_buffer double_buffer_idx acc.2 in
if is_tuple state_tuple then
let* r := reload state_tuple (Some true) reload_buffer in
ret (acc.1 ++ [r], S acc.2)
else ret (acc.1 ++ [state_tuple], acc.2).

Definition write_back_transpose_flag (tensor_label : tag) : M unit :=
let* o := lookup_object tensor_label in
let* c := gets (fun w => cls (objs w o)) in
when (bool_decide (c = Float8Tensor))
(let* h := gets hd in
 match dict_get tensor_label (float8_transpose_cache_valid h) with
 | None => raise KeyError
 | Some flag =>
 modify_hd (fun h =>
 set_float8_transpose_cache_valid
 (dict_pop tensor_label (float8_transpose_cache_valid h)) h) ;;
 update_obj o (fun x => set_inst (set_transpose_invalid flag (inst x)) x)
 end).

Definition bulk_reload_entry (group_to_reload : Z) (buffer_idx : nat)
(kv : tag * slot) : M nat :=
let '(tensor_label, state) := kv in
let double_buffer_idx := group_to_reload `mod` 2 in
if bool_decide (tensor_label.1 = group_to_reload) then
let* reload_buffer := pick_reload_buffer double_buffer_idx buffer_idx in
match state with
| SOne (ETuple d b) =>
let* recovered_tensor := reload (ETuple d b) (Some true) reload_buffer in
set_state tensor_label (SOne recovered_tensor) ;;
ret (S buffer_idx)
| SList l =>
let* r := fold_m l ([], buffer_idx) (reload_item double_buffer_idx) in
restore_unless_duplicate tensor_label r.1 ;;
write_back_transpose_flag tensor_label ;;
let* o := pop_object tensor_label in
set_state tensor_label (SOne (ERef o)) ;;
ret r.2
| SOne _ => ret buffer_idx
end
else ret buffer_idx.

Definition bulk_reload_group (group_to_reload : Z) : M unit :=
let* h := gets hd in
assert_ (bool_decide (group_to_reload < num_offload_group h)) ;;
let* _ := fold_items tensor_tag_to_state 0%nat (bulk_reload_entry group_to_reload) in
ret tt.

Definition on_group_commit_backward : M unit :=
modify_hd (fun h =>
set_counters (current_group h - 1) (tensor_count_current_group h) h) ;;
let* h := gets hd in
assert_ (bool_decide (0 ≤ current_group h)) ;;
let* win := lookup_window (offloaded_group_count h - 1) in
when (bool_decide (win = current_group h))
(bulk_reload_group (offloaded_group_count h - 1) ;;
 modify_hd (fun h =>
 set_offloaded_group_count
 (offloaded_group_count h
- (if bool_decide (1 < offloaded_group_count h) then 1 else 0)) h)) ;;
when (bool_decide (current_group h = 0))
(modify_hd (set_offloaded_group_count 0)).

End AsyncDoubleBufferGroupOffloadHandler.

(** ** Dispatch on the class of the handler, the commit barrier, the hook *)

Definition handler_tensor_push (tensor : addr) : M tag :=
  let* k := gets (fun w => handler_cls (hd w)) in
  match k with
  | Synchronized => SynchronizedGroupOffloadHandler.tensor_push tensor
  | AsyncDoubleBuffer => AsyncDoubleBufferGroupOffloadHandler.tensor_push tensor
  end.

Definition handler_tensor_pop (tensor_tag : tag) : M slot :=
  let* k := gets (fun w => handler_cls (hd w)) in
  match k with
  | Synchronized => SynchronizedGroupOffloadHandler.tensor_pop tensor_tag
  | AsyncDoubleBuffer =>
      let* t := AsyncDoubleBufferGroupOffloadHandler.tensor_pop tensor_tag in
      ret (SOne t)
  end.

Definition handler_on_group_commit_forward : M unit :=
  let* k := gets (fun w => handler_cls (hd w)) in
  match k with
  | Synchronized => SynchronizedGroupOffloadHandler.on_group_commit_forward
  | AsyncDoubleBuffer => AsyncDoubleBufferGroupOffloadHandler.on_group_commit_forward
  end.

Definition handler_on_group_commit_backward : M unit :=
  let* k := gets (fun w => handler_cls (hd w)) in
  match k with
  | Synchronized => SynchronizedGroupOffloadHandler.on_group_commit_backward
  | AsyncDoubleBuffer => AsyncDoubleBufferGroupOffloadHandler.on_group_commit_backward
  end.

Module GroupCommitFunction.
Definition forward (tensor : elem) : M elem :=
handler_on_group_commit_forward ;;
ret tensor.

Definition backward (grad_output : elem) : M elem :=
handler_on_group_commit_backward ;;
ret grad_output.

(** [isinstance(o, torch.Tensor)]: of the classes here only the mixin
[MXFP8TensorBase] is not a tensor. *)
Definition is_torch_tensor (c : pyclass) : bool :=
match c with MXFP8TensorBase => false | _ => true end.

(** [tensor.view_as(tensor)], which [torch.autograd.Function.apply] puts in
the place of an input that [forward] returns as it is: a new tensor object
on the storage of the input, so with its device, size and contents, and
with none of the Python attributes that were set on the input.  The view of
a plain tensor or of a [Parameter] is a plain tensor; a class with its own
dispatch builds the view itself, and is taken here to keep the class and
the instance attributes. *)
Definition view_as_self (o : obj) : obj :=
if bool_decide (cls o = TorchTensor ∨ cls o = TorchParameter) then
mkObj TorchTensor (device o) (size o) (data o) (pinned o) false false false
no_fields
else
mkObj (cls o) (device o) (size o) (data o) (pinned o) false false false
(inst o).

(** [GroupCommitFunction.apply(tensor, cpu_offload_handler)]: [forward],
whose result is the input itself, and then the wrapping of autograd: a
tensor comes back as a view, what is not a tensor as it is. *)
Definition apply (tensor : elem) : M elem :=
let* out := forward tensor in
match out with
| ERef a =>
let* o := gets (fun w => objs w a) in
if is_torch_tensor (cls o) then
let* v := alloc (view_as_self o) in
ret (ERef v)
else ret out
| _ => ret out
end.
End GroupCommitFunction.

Definition group_prefetch_offload_commit := GroupCommitFunction.apply.

Definition set_hook_state (enabled inside : bool) (stack : list hook_pair)
    (w : world) : world :=
  mkWorld (objs w) (next_addr w) (Float8Tensor_methods w) (calls w) (hd w)
          enabled inside stack (debug_enabled w).

Module CpuOffloadSavedTensorHook.
Definition enter : M unit :=
modify (fun w =>
set_hook_state true true (HookPair :: saved_tensors_default_hooks w) w).

(** [torch._C._autograd._pop_saved_tensors_default_hooks()] refuses an
empty stack. *)
Definition exit : M unit :=
modify (fun w => set_hook_state false false (saved_tensors_default_hooks w) w) ;;
let* stack := gets saved_tensors_default_hooks in
match stack with
| [] => raise RuntimeError
| _ :: rest => modify (fun w => set_hook_state (CPUOffloadEnabled w)
(inside_context w) rest w)
end.

(** [CpuOffloadHookWithOffloadHandler] *)
Definition on_save_for_backward (tensor : addr) : M tag :=
handler_tensor_push tensor.

Definition on_get_saved_tensor (saved_state : tag) : M slot :=
handler_tensor_pop saved_state.
End CpuOffloadSavedTensorHook.

(** ** [get_cpu_offload_context] *)

Inductive context :=
| nullcontext
| CpuOffloadHookWithOffloadHandler.

Inductive synchronizer :=
| identity_lambda                        (* [lambda x: x] *)
| group_prefetch_offload_commit_async.

Definition tensor_need_offloading_checker_activations : checker :=
  fun objs t =>
    match t with
    | ERef a => activation_offloading (objs a)
    | _ => false
    end.

Definition get_cpu_offload_context (enabled : bool) (num_layers model_layers : Z)
    (offload_activations offload_weights double_buffering : bool)
    : M (context * synchronizer) :=
  if negb offload_weights && negb offload_activations then raise ValueError
  else if offload_weights && negb offload_activations then
    ret (nullcontext, identity_lambda)
  else
    modify (with_hd
      (AsyncDoubleBufferGroupOffloadHandler.init num_layers model_layers
         tensor_need_offloading_checker_activations double_buffering)) ;;
    if enabled then
      ret (CpuOffloadHookWithOffloadHandler, group_prefetch_offload_commit_async)
    else ret (nullcontext, group_prefetch_offload_commit_async).

Definition context_enter (c : context) : M unit :=
  match c with
  | nullcontext => ret tt
  | CpuOffloadHookWithOffloadHandler => CpuOffloadSavedTensorHook.enter
  end.

Definition context_exit (c : context) : M unit :=
  match c with
  | nullcontext => ret tt
  | CpuOffloadHookWithOffloadHandler => CpuOffloadSavedTensorHook.exit
  end.

Definition apply_synchronizer (s : synchronizer) (tensor : elem) : M elem :=
  match s with
  | identity_lambda => ret tensor
  | group_prefetch_offload_commit_async => group_prefetch_offload_commit tensor
  end.

(** ** Sessions *)

(** What the framework asks of a handler through the hook and the commit
    barrier: save a tensor, fetch a saved one, pass a layer boundary forward
    or backward. *)
Inductive op :=
| Push (tensor : addr)
| Pop (tensor_tag : tag)
| CommitForward
| CommitBackward.

Inductive retval :=
| RTag (t : tag)
| RTensor (s : slot)
| RUnit.

Definition run_op (o : op) : M retval :=
  match o with
  | Push t =>
      let* tg := CpuOffloadSavedTensorHook.on_save_for_backward t in ret (RTag tg)
  | Pop tg =>
      let* s := CpuOffloadSavedTensorHook.on_get_saved_tensor tg in ret (RTensor s)
  | CommitForward => let* _ := GroupCommitFunction.forward ENone in ret RUnit
  | CommitBackward => let* _ := GroupCommitFunction.backward ENone in ret RUnit
  end.

(** Runs the operations in order; the result pairs what every operation
    returned with the world it left, oldest first. *)
Fixpoint run (ops : list op) : M (list (retval * world)) :=
  match ops with
  | [] => ret []
  | o :: ops' =>
      let* r := run_op o in
      let* w := get in
      let* rest := run ops' in
      ret ((r, w) :: rest)
  end.

(** ** Vocabulary of the statements *)

(** The closed form of the window plan: window [i] ends at this layer. *)
Definition window_end (L G i : Z) : Z :=
  (L `div` G) * (i + 1) - 1 + Z.min (i + 1) (L `mod` G).

(** Both markers of [mark_activation_offload] are on the object. *)
Definition marked (w : world) (b : addr) : Prop :=
  activation_offloading (objs w b) = true ∧ needs_force_clear (objs w b) = true.

(** Modelled from the spec: the Float8-like composite (class [Float8Tensor],
    which the given sources only import).  It follows the composite contract
    of the specification: [prepare_for_saving] hands out the underlying
    tensors and detaches them, [restore_from_saved] re-attaches them, [clear]
    releases the storage it still references; in addition [clear] invalidates
    the transpose cache.  It is only used to build concrete worlds; the
    theorems hold for whatever methods a world carries. *)
Module Float8Model.
Definition prepare_for_saving (f : fields) : list elem * fields :=
([rowwise_data f; columnwise_data f; rowwise_scale_inv f],
 mkFields ENone ENone ENone (columnwise_scale_inv f)
(transpose_invalid f) (other_attrs f)).

Definition restore_from_saved (f : fields) (tensors : list elem) : option fields :=
match tensors with
| t0 :: t1 :: t2 :: _ =>
Some (mkFields t0 t1 t2 (columnwise_scale_inv f)
 (transpose_invalid f) (other_attrs f))
| _ => None
end.

Definition clear (f : fields) : option (fields * list addr) :=
pair (set_transpose_invalid true f) <$>
MXFP8.clear_targets [rowwise_data f; columnwise_data f; rowwise_scale_inv f].

Definition get_data_tensors (f : fields) : list elem :=
[rowwise_data f; columnwise_data f].

Definition impl : methods :=
mkMethods prepare_for_saving restore_from_saved clear get_data_tensors.
End Float8Model.

(** The world a successful run leaves. *)
Definition after {A} (m : M A) (w : world) : world :=
  match m w with Ok (_, w') => w' | Raise _ => w end.

(** Concrete worlds: the objects of the list sit at addresses 0, 1, ... *)
Definition world_of (os : list obj) (h : handler) : world :=
  mkWorld (fun a => nth a os (fresh_tensor Cpu [0] [] false)) (length os)
          Float8Model.impl [] h false false [] false.

Definition plain_tensor (dt : list Z) : obj :=
  fresh_tensor (Cuda 0) [Z.of_nat (length dt)] dt false.

Definition with_class (c : pyclass) (o : obj) : obj :=
  mkObj c (device o) (size o) (data o) (pinned o) (activation_offloading o)
        (needs_force_clear o) (do_not_clear o) (inst o).

Definition composite (c : pyclass) (rd cd rs cs : elem) (flag : bool) : obj :=
  mkObj c (Cuda 0) [] [] false false false false (mkFields rd cd rs cs flag []).

(** What the synchronous handler must keep between a push and the pop of
    its tag: the slot, and the objects that existed at the push. *)
Definition sync_keeps (tg : tag) (s : slot) (n : addr) (objs0 : addr → obj)
    (w : world) : Prop :=
  handler_cls (hd w) = Synchronized ∧
  dict_get tg (tensor_tag_to_state (hd w)) = Some s ∧
  (n ≤ next_addr w)%nat ∧
  ∀ a, (a < n)%nat → objs w a = objs0 a.

(** The condition under which [tensor_push] evicts at once. *)
Definition sync_evicts (w : world) (t : addr) : bool :=
  bool_decide (current_group (hd w) < num_offload_group (hd w))
  && tensor_need_offloading_checker (hd w) (objs w) (ERef t).

(** A run of [m] that succeeds relates the worlds before and after by [R]. *)
Definition preserves {A} (R : relation world) (m : M A) : Prop :=
  ∀ w a w', m w = Ok (a, w') → R w w'.

(** The part of the handler that the tensor maps do not touch. *)
Record counters := mkCounters {
  c_cls : handler_class;
  c_num_offload_group : Z;
  c_checker : checker;
  c_current_group : Z;
  c_tensor_count : Z;
  c_torch_tensor_count : Z;
  c_num_layers : Z;
  c_offloaded_group_count : Z;
  c_layer_window_map : gmap Z Z;
  c_double_buffering : bool;
}.

Definition counters_of (h : handler) : counters :=
  mkCounters (handler_cls h) (num_offload_group h) (tensor_need_offloading_checker h)
    (current_group h) (tensor_count_current_group h) (torch_tensor_count h)
    (num_layers h) (offloaded_group_count h) (layer_window_map h)
    (double_buffering h).

Definition same_counters : relation world :=
  fun w w' => counters_of (hd w') = counters_of (hd w).

(** How the two commits move the counters, as functions of the window
    looked up. *)
Definition forward_counters (win : Z) (c : counters) : counters :=
  mkCounters (c_cls c) (c_num_offload_group c) (c_checker c)
    (c_current_group c + 1) 0 (c_torch_tensor_count c) (c_num_layers c)
    (if decide (win = c_current_group c) then c_offloaded_group_count c + 1
     else c_offloaded_group_count c)
    (c_layer_window_map c) (c_double_buffering c).

Definition backward_counters (win : Z) (c : counters) : counters :=
  mkCounters (c_cls c) (c_num_offload_group c) (c_checker c)
    (c_current_group c - 1) (c_tensor_count c) (c_torch_tensor_count c)
    (c_num_layers c)
    (if decide (c_current_group c - 1 = 0) then 0
     else if decide (win = c_current_group c - 1) then
       c_offloaded_group_count c
       - (if decide (1 < c_offloaded_group_count c) then 1 else 0)
     else c_offloaded_group_count c)
    (c_layer_window_map c) (c_double_buffering c).

(** The tags handed out during a run. *)
Definition tag_of (rw : retval * world) : option tag :=
  match rw.1 with RTag t => Some t | _ => None end.

Definition tags_of (rs : list (retval * world)) : list tag := omap tag_of rs.

(** Operations of the forward pass, and of the reverse pass. *)
Definition forward_op (o : op) : Prop := o ≠ CommitBackward.

Definition backward_op (o : op) : Prop :=
  match o with Push _ => False | _ => True end.

(** A tag that a push made in world [w] or later in the same forward pass
    can still return. *)
Definition not_yet_used (w : world) (tg : tag) : Prop :=
  (tg.1 = -1 ∧ torch_tensor_count (hd w) ≤ tg.2) ∨
  (0 ≤ tg.1 ∧
   (current_group (hd w) < tg.1 ∨
    (current_group (hd w) = tg.1 ∧ tensor_count_current_group (hd w) ≤ tg.2))).

(** Whether a run succeeds. *)
Definition succeeds {A} (m : M A) (w : world) : bool :=
  match m w with Ok _ => true | Raise _ => false end.

(** What a successful run returned. *)
Definition results_of (ops : list op) (w : world) : list (retval * world) :=
  match run ops w with Ok (rs, _) => rs | Raise _ => [] end.

(** A world left by a forward pass that was never unwound: the hook has been
    entered and one marked tensor pushed, so that [tensor_tag_to_state] and
    [tensor_tag_to_buf] are not empty. *)
Definition leaking_world : world :=
  after (CpuOffloadSavedTensorHook.on_save_for_backward 0%nat)
    (after CpuOffloadSavedTensorHook.enter
       (world_of [set_activation_offloading (plain_tensor [1; 2])]
          (AsyncDoubleBufferGroupOffloadHandler.init 1 1
             tensor_need_offloading_checker_activations false))).

(** The handler at the start of a session: the asynchronous handler built
    for [G] offload groups over [L] layers, both counters at zero. *)
Definition session_start (G L : Z) (w : world) : Prop :=
  handler_cls (hd w) = AsyncDoubleBuffer ∧
  num_offload_group (hd w) = G ∧
  num_layers (hd w) = L ∧
  layer_window_map (hd w) =
    AsyncDoubleBufferGroupOffloadHandler.build_layer_window_map L G ∧
  current_group (hd w) = 0 ∧
  offloaded_group_count (hd w) = 0.

(** [offloaded_group_count] after each operation of a run. *)
Definition group_counts (rs : list (retval * world)) : list Z :=
  (fun rw => offloaded_group_count (hd rw.2)) <$> rs.

#[global] Instance op_eq_dec : EqDecision op.
Proof. solve_decision. Defined.

Definition commits_forward (ops : list op) : nat :=
  length (filter (fun o => o = CommitForward) ops).

Definition commits_backward (ops : list op) : nat :=
  length (filter (fun o => o = CommitBackward) ops).

(** The configuration a session never changes. *)
Definition async_config (G L : Z) (w : world) : Prop :=
  handler_cls (hd w) = AsyncDoubleBuffer ∧
  num_offload_group (hd w) = G ∧
  num_layers (hd w) = L ∧
  layer_window_map (hd w) =
    AsyncDoubleBufferGroupOffloadHandler.build_layer_window_map L G.

(** During the forward pass [offloaded_group_count] is the number of windows
    that ended before the current group. *)
Definition forward_inv (G L : Z) (w : world) : Prop :=
  async_config G L w ∧
  0 ≤ current_group (hd w) ∧
  0 ≤ offloaded_group_count (hd w) ≤ G ∧
  ∀ i, 0 ≤ i < G →
       (i < offloaded_group_count (hd w) ↔ window_end L G i < current_group (hd w)).

(** During the reverse pass it is that number again, except that it stays at
    one until the current group is back at zero. *)
Definition backward_inv (G L : Z) (w : world) : Prop :=
  async_config G L w ∧
  ((current_group (hd w) = 0 ∧ offloaded_group_count (hd w) = 0) ∨
   (1 ≤ current_group (hd w) ∧
    1 ≤ offloaded_group_count (hd w) ≤ G ∧
    (∀ i, 0 ≤ i < G → window_end L G i < current_group (hd w) →
          i < offloaded_group_count (hd w)) ∧
    (∀ i, 1 ≤ i < offloaded_group_count (hd w) →
          window_end L G i < current_group (hd w)))).

(** No tensor is held by the handler and no reload buffer was allocated. *)
Definition empty_maps (w : world) : Prop :=
  tensor_tag_to_state (hd w) = [] ∧
  tensor_tag_to_buf (hd w) = [] ∧
  (reload_double_buffer (hd w)).1 = [].

(** Nothing outside the handler changed, and its composite bookkeeping
    did not either. *)
Definition untouched (w w' : world) : Prop :=
  objs w' = objs w ∧ next_addr w' = next_addr w ∧ calls w' = calls w ∧
  fp8_tensor_object_map (hd w') = fp8_tensor_object_map (hd w) ∧
  dereferencing_list (hd w') = dereferencing_list (hd w) ∧
  CPUOffloadEnabled w' = CPUOffloadEnabled w ∧
  saved_tensors_default_hooks w' = saved_tensors_default_hooks w.

(** The synchronizer called at one layer boundary after the other. *)
Fixpoint apply_each (s : synchronizer) (ts : list elem) : M (list elem) :=
  match ts with
  | [] => ret []
  | t :: ts' =>
      let* r := apply_synchronizer s t in
      let* rs := apply_each s ts' in
      ret (r :: rs)
  end.

(** What a successful run returned. *)
Definition value_of {A} (m : M A) (w : world) : option A :=
  match m w with Ok (a, _) => Some a | Raise _ => None end.

(** Whether a tag has no slot, a single value, or the list of a composite. *)
Inductive slot_kind := KAbsent | KOne | KList.

Definition kind_of (s : option slot) : slot_kind :=
  match s with
  | None => KAbsent
  | Some (SOne _) => KOne
  | Some (SList _) => KList
  end.

(** Steps that leave the bookkeeping of composites alone: the object map,
    the list of duplicates, the saved flags and the call log are the same,
    every slot keeps its kind, objects are only added, and the objects that
    exist keep their class and their instance attributes. *)
Definition bookkeeping_kept : relation world :=
  fun w w' =>
    fp8_tensor_object_map (hd w') = fp8_tensor_object_map (hd w) ∧
    dereferencing_list (hd w') = dereferencing_list (hd w) ∧
    float8_transpose_cache_valid (hd w') = float8_transpose_cache_valid (hd w) ∧
    calls w' = calls w ∧
    Float8Tensor_methods w' = Float8Tensor_methods w ∧
    (next_addr w ≤ next_addr w')%nat ∧
    (∀ a, cls (objs w' a) = cls (objs w a) ∨ (next_addr w ≤ a)%nat) ∧
    (∀ a, inst (objs w' a) = inst (objs w a) ∨ (next_addr w ≤ a)%nat) ∧
    (∀ tg, kind_of (dict_get tg (tensor_tag_to_state (hd w')))
           = kind_of (dict_get tg (tensor_tag_to_state (hd w)))).

(** A step that, in the store, changes at most the instance attributes of
    [self]. *)
Definition only_inst_of (self : addr) (w w' : world) : Prop :=
  next_addr w' = next_addr w ∧
  Float8Tensor_methods w' = Float8Tensor_methods w ∧
  (∀ a, cls (objs w' a) = cls (objs w a)) ∧
  (∀ a, a ≠ self → inst (objs w' a) = inst (objs w a)).

(** Steps that work on the store alone: the handler and the call log are the
    same, objects are only added, and the objects that exist keep their class
    and their instance attributes. *)
Definition store_only : relation world :=
  fun w w' =>
    hd w' = hd w ∧ calls w' = calls w ∧
    Float8Tensor_methods w' = Float8Tensor_methods w ∧
    (next_addr w ≤ next_addr w')%nat ∧
    (∀ a, cls (objs w' a) = cls (objs w a) ∨ (next_addr w ≤ a)%nat) ∧
    (∀ a, inst (objs w' a) = inst (objs w a) ∨ (next_addr w ≤ a)%nat).

(** Calls of [restore_from_saved] on [c] recorded so far. *)
Definition is_restore_of (c : addr) (cl : call) : bool :=
  match cl with
  | CallRestoreFromSaved self _ => bool_decide (self = c)
  | _ => false
  end.

Definition restores (c : addr) (w : world) : nat :=
  length (filter (fun cl => is_restore_of c cl = true) (calls w)).

(** What happens to the composite registered under [tg] when the tag is
    popped or its group reloaded: it leaves the object map, and it is
    restored from [l] unless the tag was on the list of duplicates. *)
Definition retired (tg : tag) (o : addr) (l : list elem) (w w' : world) : Prop :=
  dict_get tg (fp8_tensor_object_map (hd w)) = Some o ∧
  fp8_tensor_object_map (hd w') = dict_pop tg (fp8_tensor_object_map (hd w)) ∧
  ((tg ∈ dereferencing_list (hd w) ∧
    dereferencing_list (hd w')
      = list_remove_first tg (dereferencing_list (hd w)) ∧
    calls w' = calls w) ∨
   (tg ∉ dereferencing_list (hd w) ∧
    dereferencing_list (hd w') = dereferencing_list (hd w) ∧
    calls w' = CallRestoreFromSaved o l :: calls w)).

(** The flag that [tensor_push] would read from the Float8 composite [t] in
    world [w]: [tensor._transpose_invalid] as [prepare_for_saving] leaves
    it. *)
Definition captured_flag (w : world) (t : addr) : bool :=
  transpose_invalid
    (m_prepare_for_saving (Float8Tensor_methods w) (inst (objs w t))).2.

(** The composite bookkeeping and the call log are the same. *)
Definition ledger_kept (w w' : world) : Prop :=
  fp8_tensor_object_map (hd w') = fp8_tensor_object_map (hd w) ∧
  dereferencing_list (hd w') = dereferencing_list (hd w) ∧
  float8_transpose_cache_valid (hd w') = float8_transpose_cache_valid (hd w) ∧
  calls w' = calls w.

(** No object is added, and every object keeps its class and its instance
    attributes. *)
Definition attrs_kept (w w' : world) : Prop :=
  next_addr w' = next_addr w ∧
  Float8Tensor_methods w' = Float8Tensor_methods w ∧
  (∀ a, cls (objs w' a) = cls (objs w a)) ∧
  (∀ a, inst (objs w' a) = inst (objs w a)).

(** What the steps of a session do to the bookkeeping of composites. *)
Inductive event :=
| Quiet                                   (* slots keep their kind *)
| Still                                   (* slots are the same *)
| Reloaded (tg : tag)                     (* a host copy comes back *)
| Stored (tg : tag)                       (* a tensor gets a slot *)
| Registered (tg : tag) (t : addr)        (* a composite gets a slot *)
| Taken (tg : tag) (e : elem)             (* a single value leaves *)
| Retired (tg : tag) (o : addr) (by_reload : bool).
                                          (* a composite leaves the object map *)

Definition effect (ev : event) (w w' : world) : Prop :=
  match ev with
  | Quiet => bookkeeping_kept w w'
  | Still =>
      bookkeeping_kept w w' ∧
      tensor_tag_to_state (hd w') = tensor_tag_to_state (hd w)
  | Reloaded tg =>
      bookkeeping_kept w w' ∧
      ∃ d b r,
        dict_get tg (tensor_tag_to_state (hd w)) = Some (SOne (ETuple d b)) ∧
        tensor_tag_to_state (hd w')
          = dict_set tg (SOne r) (tensor_tag_to_state (hd w))
  | Stored tg =>
      ledger_kept w w' ∧ attrs_kept w w' ∧
      (tg.1 = -1 ∨ dict_get tg (tensor_tag_to_state (hd w)) = None) ∧
      ∃ e, tensor_tag_to_state (hd w')
             = dict_set tg (SOne e) (tensor_tag_to_state (hd w))
  | Registered tg t =>
      dict_get tg (tensor_tag_to_state (hd w)) = None ∧
      tg.1 = current_group (hd w) ∧
      (∃ l, tensor_tag_to_state (hd w')
              = dict_set tg (SList l) (tensor_tag_to_state (hd w))) ∧
      fp8_tensor_object_map (hd w')
        = dict_set tg t (fp8_tensor_object_map (hd w)) ∧
      dereferencing_list (hd w')
        = (if AsyncDoubleBufferGroupOffloadHandler.is_registered t (fp8_tensor_object_map (hd w))
           then dereferencing_list (hd w) ++ [tg]
           else dereferencing_list (hd w)) ∧
      float8_transpose_cache_valid (hd w')
        = (if decide (cls (objs w t) = Float8Tensor)
           then dict_set tg (captured_flag w t)
                  (float8_transpose_cache_valid (hd w))
           else float8_transpose_cache_valid (hd w)) ∧
      (∀ c, restores c w' = restores c w) ∧
      only_inst_of t w w'
  | Taken tg e =>
      ledger_kept w w' ∧ attrs_kept w w' ∧
      dict_get tg (tensor_tag_to_state (hd w)) = Some (SOne e) ∧
      tensor_tag_to_state (hd w') = dict_pop tg (tensor_tag_to_state (hd w))
  | Retired tg o by_reload =>
      (∃ l, dict_get tg (tensor_tag_to_state (hd w)) = Some (SList l)) ∧
      tensor_tag_to_state (hd w')
        = (if by_reload
           then dict_set tg (SOne (ERef o)) (tensor_tag_to_state (hd w))
           else dict_pop tg (tensor_tag_to_state (hd w))) ∧
      (∃ r, retired tg o r w w') ∧
      only_inst_of o w w' ∧
      if by_reload && bool_decide (cls (objs w o) = Float8Tensor) then
        ∃ f, dict_get tg (float8_transpose_cache_valid (hd w)) = Some f ∧
             float8_transpose_cache_valid (hd w')
               = dict_pop tg (float8_transpose_cache_valid (hd w)) ∧
             transpose_invalid (inst (objs w' o)) = f
      else
        float8_transpose_cache_valid (hd w')
          = float8_transpose_cache_valid (hd w)
  end.

(** The steps of [evs], one after the other. *)
Inductive trace : list event → world → world → Prop :=
| trace_nil w : trace [] w w
| trace_cons ev evs w w1 w' :
    effect ev w w1 → trace evs w1 w' → trace (ev :: evs) w w'.

(** The steps of a reverse commit. *)
Definition reload_event (ev : event) : Prop :=
  match ev with
  | Still | Reloaded _ | Retired _ _ true => True
  | _ => False
  end.

(** The steps an operation may consist of, given the world it starts in
    and what it returned. *)
Definition events_of_op (o : op) (w : world) (r : retval) (evs : list event)
    : Prop :=
  match o with
  | Push t =>
      ∃ tg, r = RTag tg ∧
        evs = [if is_quantized_class (cls (objs w t)) then Registered tg t
               else Stored tg]
  | Pop tg =>
      ∃ e, r = RTensor (SOne e) ∧
        (evs = [Taken tg e] ∨ ∃ o, e = ERef o ∧ evs = [Retired tg o false])
  | CommitForward => evs = [Quiet]
  | CommitBackward => Forall reload_event evs
  end.

(** The Float8 composite [c] exists. *)
Definition float8_object (c : addr) (w : world) : Prop :=
  cls (objs w c) = Float8Tensor ∧ (c < next_addr w)%nat.

(** [c], pushed under [tg], waits for its reload with the flag [f] saved:
    its slot is a list, [tg] is the one tag it is registered under, and the
    saved flag is [f]. *)
Definition flag_pending (tg : tag) (c : addr) (f : bool) (w : world) : Prop :=
  kind_of (dict_get tg (tensor_tag_to_state (hd w))) = KList ∧
  dict_get tg (fp8_tensor_object_map (hd w)) = Some c ∧
  dict_get tg (float8_transpose_cache_valid (hd w)) = Some f ∧
  (∀ x, dict_get x (fp8_tensor_object_map (hd w)) = Some c → x = tg) ∧
  tg.1 ≠ -1.

(** [c] has left the object map and its flag is [f]. *)
Definition flag_restored (c : addr) (f : bool) (w : world) : Prop :=
  (∀ x, dict_get x (fp8_tensor_object_map (hd w)) ≠ Some c) ∧
  transpose_invalid (inst (objs w c)) = f.

(** Steps other than a push of the composite [c]. *)
Definition not_pushing (c : addr) (ev : event) : Prop :=
  match ev with
  | Registered _ t => t ≠ c
  | _ => True
  end.

(** Steps other than a pop of the list under [tg]. *)
Definition not_popping (tg : tag) (ev : event) : Prop :=
  match ev with
  | Retired x _ false => x ≠ tg
  | _ => True
  end.

(** The restores that the object map still owes to the composite [c]: its
    entries for [c] under tags that are not on the list of duplicates. *)
Definition owed (c : addr) (w : world) : nat :=
  length (filter (fun kv : tag * addr =>
                    kv.2 = c ∧ kv.1 ∉ dereferencing_list (hd w))
            (fp8_tensor_object_map (hd w))).

(** The bookkeeping of composites is consistent: the object map has no key
    twice, the duplicates are registered tags, each once, and every
    registered tag has the list of a composite as its slot and is not the tag
    of a stray tensor. *)
Definition ledger_wf (w : world) : Prop :=
  NoDup (dict_keys (fp8_tensor_object_map (hd w))) ∧
  NoDup (dereferencing_list (hd w)) ∧
  (∀ tg, tg ∈ dereferencing_list (hd w) →
         tg ∈ dict_keys (fp8_tensor_object_map (hd w))) ∧
  (∀ tg, tg ∈ dict_keys (fp8_tensor_object_map (hd w)) →
         kind_of (dict_get tg (tensor_tag_to_state (hd w))) = KList) ∧
  (∀ tg : tag, tg ∈ dict_keys (fp8_tensor_object_map (hd w)) → tg.1 ≠ -1).

(** The operations of a forward pass that saves tensors, and those of the
    reverse pass that fetches them. *)
Definition saving_op (o : op) : Prop :=
  match o with Push _ | CommitForward => True | _ => False end.

Definition restoring_op (o : op) : Prop :=
  match o with Pop _ | CommitBackward => True | _ => False end.

(** The composite [c] is registered under [tg] and its slot is a list. *)
Definition held (tg : tag) (c : addr) (w : world) : Prop :=
  kind_of (dict_get tg (tensor_tag_to_state (hd w))) = KList ∧
  dict_get tg (fp8_tensor_object_map (hd w)) = Some c.

(** A pop of [tg] would return the composite [c]. *)
Definition yields (tg : tag) (c : addr) (w : world) : Prop :=
  held tg c w ∨
  dict_get tg (tensor_tag_to_state (hd w)) = Some (SOne (ERef c)).

(** How many restores a step adds to what is done or owed for [c]: one when
    [c] is registered for the first time. *)
Definition first_registration (c : addr) (ev : event) (w : world) : nat :=
  match ev with
  | Registered _ t =>
      if decide (t = c) then
        if AsyncDoubleBufferGroupOffloadHandler.is_registered c
             (fp8_tensor_object_map (hd w))
        then 0%nat else 1%nat
      else 0%nat
  | _ => 0%nat
  end.

(** Steps of the reverse pass. *)
Definition fetch_event (ev : event) : Prop :=
  match ev with
  | Still | Reloaded _ | Taken _ _ | Retired _ _ _ => True
  | _ => False
  end.

(** Steps of the forward pass. *)
Definition save_event (ev : event) : Prop :=
  match ev with
  | Quiet | Stored _ | Registered _ _ => True
  | _ => False
  end.

(** During a forward pass: the composite [c] is registered under the tags
    of [T1], which are not duplicates, and of [T2], which are, and under no
    other tag. *)
Definition saved_state (c : addr) (T1 T2 : list tag) (w : world) : Prop :=
  handler_cls (hd w) = AsyncDoubleBuffer ∧ ledger_wf w ∧
  0 ≤ current_group (hd w) ∧
  is_quantized_class (cls (objs w c)) = true ∧ (c < next_addr w)%nat ∧
  (∀ y, dict_get y (fp8_tensor_object_map (hd w)) = Some c ↔ y ∈ T1 ++ T2) ∧
  (∀ y, y ∈ T1 → y ∉ dereferencing_list (hd w)) ∧
  (∀ y, y ∈ T2 → y ∈ dereferencing_list (hd w)).

(** Steps other than the pop of [tg]. *)
Definition not_taking (tg : tag) (ev : event) : Prop :=
  match ev with
  | Taken x _ | Retired x _ false => x ≠ tg
  | _ => True
  end.

(** What an operation adds to [current_group]. *)
Definition group_shift (o : op) : Z :=
  match o with CommitForward => 1 | CommitBackward => -1 | _ => 0 end.

(** ** More of [MXFP8TensorBase] *)

Module MXFP8More.

(** What [restore_from_saved] returns: [tensors[4:]]. *)
Definition restore_from_saved_rest (tensors : list elem) : list elem :=
drop 4 tensors.

Definition is_none (e : elem) : bool :=
match e with ENone => true | _ => false end.

(** [update_usage(rowwise_usage, columnwise_usage)] on the instance
attributes: the attributes it leaves behind and the exception it ends with,
if any.  The defaults are taken from the data present before anything is
dropped; what the row-wise part dropped stays dropped when the column-wise
part raises. *)
Definition update_usage (f : fields) (rowwise_usage columnwise_usage : option bool)
: fields * option exn :=
let rowwise_usage :=
match rowwise_usage with
| None => negb (is_none (rowwise_data f))
| Some b => b
end in
let columnwise_usage :=
match columnwise_usage with
| None => negb (is_none (columnwise_data f))
| Some b => b
end in
let row : fields * option exn :=
if rowwise_usage then
if is_none (rowwise_data f) then (f, Some RuntimeError)
else if is_none (rowwise_scale_inv f) then (f, Some RuntimeError)
else (f, None)
else
(mkFields ENone (columnwise_data f) ENone (columnwise_scale_inv f)
 (transpose_invalid f) (other_attrs f), None) in
match row.2 with
| Some e => (row.1, Some e)
| None =>
let f1 := row.1 in
if columnwise_usage then
if is_none (columnwise_data f1) then (f1, Some RuntimeError)
else if is_none (columnwise_scale_inv f1) then (f1, Some RuntimeError)
else (f1, None)
else
(mkFields (rowwise_data f1) ENone (rowwise_scale_inv f1) ENone
 (transpose_invalid f1) (other_attrs f1), None)
end.

(** The usage a call asks for, defaults resolved. *)
Definition wants_rowwise (f : fields) (rowwise_usage : option bool) : bool :=
match rowwise_usage with
| None => negb (is_none (rowwise_data f))
| Some b => b
end.

Definition wants_columnwise (f : fields) (columnwise_usage : option bool) : bool :=
match columnwise_usage with
| None => negb (is_none (columnwise_data f))
| Some b => b
end.

End MXFP8More.

(** One attribute is what it was, or has been dropped. *)
Definition kept_or_dropped (before after : elem) : Prop :=
  after = before ∨ after = ENone.

(** The four buffers of a composite. *)
Definition buffers (f : fields) : list elem :=
  [rowwise_data f; columnwise_data f; rowwise_scale_inv f; columnwise_scale_inv f].

(** [n] contexts entered one inside the other. *)
Fixpoint enter_nested (n : nat) : M unit :=
  match n with
  | O => ret tt
  | S n' => CpuOffloadSavedTensorHook.enter ;; enter_nested n'
  end.

(** The reload buffers that [bulk_reload_group g] draws from:
    [reload_double_buffer[g % 2]]. *)
Definition buffers_of_group (g : Z) (h : handler) : list elem :=
  if decide (g `mod` 2 = 0) then (reload_double_buffer h).1
  else (reload_double_buffer h).2.

(** Steps that neither set nor remove the offload marker of a tensor that
    exists. *)
Definition markers_kept : relation world :=
  fun w w' =>
    tensor_need_offloading_checker (hd w') = tensor_need_offloading_checker (hd w) ∧
    (next_addr w ≤ next_addr w')%nat ∧
    ∀ a, (a < next_addr w)%nat →
         activation_offloading (objs w' a) = activation_offloading (objs w a).

(** The tensor [t], saved under [tg] by a handler that offloads marked
    tensors only, carries no marker and is still in its slot. *)
Definition on_device (tg : tag) (t : addr) (w : world) : Prop :=
  tensor_need_offloading_checker (hd w)
  = tensor_need_offloading_checker_activations ∧
  dict_get tg (tensor_tag_to_state (hd w)) = Some (SOne (ERef t)) ∧
  activation_offloading (objs w t) = false ∧ (t < next_addr w)%nat ∧
  tg.1 ≠ -1.

(** Steps that leave such a tensor in its slot. *)
Definition stays (tg : tag) (t : addr) : relation world :=
  fun w w' => on_device tg t w → on_device tg t w'.

(** A checker that looks at the tensor it is given and at nothing else in
    the store, as every Python function of one tensor does. *)
Definition tensor_local (chk : checker) : Prop :=
  ∀ os os' a, os a = os' a → chk os (ERef a) = chk os' (ERef a).

(** Steps that add objects and leave the ones that exist as they are. *)
Definition objects_kept : relation world :=
  fun w w' =>
    (next_addr w ≤ next_addr w')%nat ∧
    ∀ a, (a < next_addr w)%nat → objs w' a = objs w a.

(** Objects were added and nothing else outside the handler changed; the
    composite bookkeeping of the handler did not change either. *)
Definition only_objects_added (w w' : world) : Prop :=
  objects_kept w w' ∧ calls w' = calls w ∧
  fp8_tensor_object_map (hd w') = fp8_tensor_object_map (hd w) ∧
  dereferencing_list (hd w') = dereferencing_list (hd w) ∧
  CPUOffloadEnabled w' = CPUOffloadEnabled w ∧
  saved_tensors_default_hooks w' = saved_tensors_default_hooks w.

(** A reference to an object of [w] whose class is exactly [torch.Tensor]. *)
Definition is_plain_tensor (w : world) (t : elem) : bool :=
  match t with
  | ERef a =>
      bool_decide (a < next_addr w)%nat &&
      bool_decide (cls (objs w a) = TorchTensor)
  | _ => false
  end.

(** What a pass of [bulk_offload_group] from [w] to [w'] makes of the
    element [e] of a slot: a tensor that the checker selects has become the
    pair of its device and a new pinned host tensor with its size and
    contents, anything else is itself. *)
Definition host_copy_of (w w' : world) (e e' : elem) : Prop :=
  match e with
  | ERef a =>
      (a < next_addr w)%nat →
      if tensor_need_offloading_checker (hd w) (objs w) e then
        ∃ b, e' = ETuple (device (objs w a)) b ∧
             (next_addr w ≤ b < next_addr w')%nat ∧
             objs w' b = fresh_tensor Cpu (size (objs w a)) (data (objs w a)) true
      else e' = e
  | _ => e' = e
  end.

Definition offloaded_slot (w w' : world) (s s' : slot) : Prop :=
  match s, s' with
  | SOne e, SOne e' => host_copy_of w w' e e'
  | SList l, SList l' => Forall2 (host_copy_of w w') l l'
  | _, _ => False
  end.

(** The pass over group [g] that started in [w] has come to [wi]. *)
Definition offload_progress (g : Z) (w wi : world) : Prop :=
  tensor_need_offloading_checker (hd wi) = tensor_need_offloading_checker (hd w) ∧
  objects_kept w wi ∧
  ∀ x, match dict_get x (tensor_tag_to_state (hd w)) with
       | None => dict_get x (tensor_tag_to_state (hd wi)) = None
       | Some s =>
           ∃ s', dict_get x (tensor_tag_to_state (hd wi)) = Some s' ∧
                 (s' = s ∨ (x.1 = g ∧ offloaded_slot w wi s s'))
       end.

Definition offloaded_at (x : tag) (w wi : world) : Prop :=
  ∃ s s', dict_get x (tensor_tag_to_state (hd w)) = Some s ∧
          dict_get x (tensor_tag_to_state (hd wi)) = Some s' ∧
          offloaded_slot w wi s s'.

(** Steps that add objects and leave device, size and contents of the
    tensors that exist as they are. *)
Definition contents_kept : relation world :=
  fun w w' =>
    (next_addr w ≤ next_addr w')%nat ∧
    ∀ a, (a < next_addr w)%nat →
         device (objs w' a) = device (objs w a) ∧
         size (objs w' a) = size (objs w a) ∧
         data (objs w' a) = data (objs w a).

(** What a handler without double buffering keeps. *)
Definition without_buffers : relation world :=
  fun w w' =>
    double_buffering (hd w) = false →
    double_buffering (hd w') = false ∧ contents_kept w w'.

(** What a pass of [bulk_reload_group] from [w] to [wi] makes of a single
    slot that held [e]: the pair of a device and a host copy has become a
    tensor on that device with the size and the contents of the copy,
    anything else is itself. *)
Definition reloaded_elem (w wi : world) (e : elem) (s' : slot) : Prop :=
  match e with
  | ETuple d b =>
      (b < next_addr w)%nat →
      ∃ c, s' = SOne (ERef c) ∧ (c < next_addr wi)%nat ∧
           device (objs wi c) = d ∧
           size (objs wi c) = size (objs w b) ∧
           data (objs wi c) = data (objs w b)
  | _ => s' = SOne e
  end.

Definition reload_progress (g : Z) (w wi : world) : Prop :=
  double_buffering (hd wi) = false ∧ contents_kept w wi ∧
  (∀ x : tag, x.1 ≠ g →
     dict_get x (tensor_tag_to_state (hd wi))
     = dict_get x (tensor_tag_to_state (hd w))) ∧
  ∀ (x : tag) e,
    dict_get x (tensor_tag_to_state (hd w)) = Some (SOne e) →
    ∃ s', dict_get x (tensor_tag_to_state (hd wi)) = Some s' ∧
          (s' = SOne e ∨ reloaded_elem w wi e s').

Definition reloaded_at (x : tag) (w wi : world) : Prop :=
  ∀ e, dict_get x (tensor_tag_to_state (hd w)) = Some (SOne e) →
       ∃ s', dict_get x (tensor_tag_to_state (hd wi)) = Some s' ∧
             reloaded_elem w wi e s'.

(** * Properties *)

(** ** Reasoning principles for the monad and the dictionaries *)

Lemma bind_Ok {A B} (m : M A) (k : A → M B) w r :
  bind m k w = Ok r ↔ ∃ a w', m w = Ok (a, w') ∧ k a w' = Ok r.
Proof.
  unfold bind. destruct (m w) as [[a w']|e]; split.
  - eauto.
  - by intros (a0 & w0 & [= -> ->] & ?).
  - done.
  - by intros (a0 & w0 & ? & ?).
Qed.

Lemma assert_Ok b w r : assert_ b w = Ok r ↔ b = true ∧ r = (tt, w).
Proof.
  destruct b; simpl; unfold ret, raise.
  - split; [by intros [= <-]|by intros [_ ->]].
  - split; [done|by intros [? _]].
Qed.

Lemma when_false (m : M unit) w : when false m w = Ok (tt, w).
Proof. done. Qed.

(** ** Inversion of successful runs *)

Lemma ret_Ok {A} (a : A) w r : ret a w = Ok r ↔ r = (a, w).
Proof. unfold ret. split; [by intros [= <-]|by intros ->]. Qed.

Lemma gets_Ok {A} (f : world → A) w r : gets f w = Ok r ↔ r = (f w, w).
Proof. unfold gets. split; [by intros [= <-]|by intros ->]. Qed.

Lemma modify_Ok f w r : modify f w = Ok r ↔ r = (tt, f w).
Proof. unfold modify. split; [by intros [= <-]|by intros ->]. Qed.

Lemma modify_hd_Ok f w r : modify_hd f w = Ok r ↔ r = (tt, with_hd (f (hd w)) w).
Proof. exact (modify_Ok (fun w => with_hd (f (hd w)) w) w r). Qed.

Lemma update_obj_Ok a f w r :
  update_obj a f w = Ok r ↔ r = (tt, with_objs (upd a f (objs w)) w).
Proof. exact (modify_Ok (fun w => with_objs (upd a f (objs w)) w) w r). Qed.

Lemma when_Ok b (m : M unit) w r :
  when b m w = Ok r ↔ (b = true ∧ m w = Ok r) ∨ (b = false ∧ r = (tt, w)).
Proof.
  destruct b; simpl.
  - split; [by left|]. by intros [[_ ?]|[? _]].
  - rewrite ret_Ok. split; [by right|]. by intros [[? _]|[_ ?]].
Qed.

Lemma alloc_Ok o w r :
  alloc o w = Ok r ↔
  r = (next_addr w,
       mkWorld (upd (next_addr w) (fun _ => o) (objs w)) (S (next_addr w))
               (Float8Tensor_methods w) (calls w) (hd w)
               (CPUOffloadEnabled w) (inside_context w)
               (saved_tensors_default_hooks w) (debug_enabled w)).
Proof. unfold alloc. split; [by intros [= <-]|by intros ->]. Qed.

Lemma log_call_Ok c w r :
  log_call c w = Ok r ↔
  r = (tt, mkWorld (objs w) (next_addr w) (Float8Tensor_methods w) (c :: calls w)
             (hd w) (CPUOffloadEnabled w) (inside_context w)
             (saved_tensors_default_hooks w) (debug_enabled w)).
Proof. unfold log_call, modify. split; [by intros [= <-]|by intros ->]. Qed.

Lemma gets_inv {A} (f : world → A) w a w' :
  gets f w = Ok (a, w') → a = f w ∧ w' = w.
Proof. by intros [= <- <-]. Qed.

Lemma ret_inv {A} (x : A) w a w' : ret x w = Ok (a, w') → a = x ∧ w' = w.
Proof. by intros [= <- <-]. Qed.

Lemma modify_hd_inv f w u w' :
  modify_hd f w = Ok (u, w') → w' = with_hd (f (hd w)) w.
Proof. by intros [= <-]. Qed.

Lemma update_obj_inv a f w u w' :
  update_obj a f w = Ok (u, w') → w' = with_objs (upd a f (objs w)) w.
Proof. by intros [= <-]. Qed.

Lemma assert_inv b w u w' : assert_ b w = Ok (u, w') → b = true ∧ w' = w.
Proof. intros [? [= _ ->]]%assert_Ok. done. Qed.

Lemma when_inv b (m : M unit) w u w' :
  when b m w = Ok (u, w') → (b = true ∧ m w = Ok (u, w')) ∨ (b = false ∧ w' = w).
Proof.
  destruct b; simpl; [by left|]. intros [_ ->]%ret_inv. by right.
Qed.

(** Resolves a hypothesis about one primitive step. *)
Ltac inv_prim H :=
  first [ apply gets_Ok in H | apply modify_hd_Ok in H
        | apply update_obj_Ok in H | apply alloc_Ok in H
        | apply log_call_Ok in H | apply modify_Ok in H
        | apply ret_Ok in H ];
  try (injection H; clear H; intros; subst).

(** Splits a hypothesis [H : (let* x := m in k) w = Ok r] along the binds. *)
Ltac inv_run H :=
  repeat
    (lazymatch type of H with
     | bind _ _ _ = Ok _ =>
         let a := fresh "a" in
         let w := fresh "w" in
         let H1 := fresh "Hm" in
         apply bind_Ok in H as (a & w & H1 & H);
         try first [ inv_prim H1
                   | apply assert_Ok in H1 as [H1 ?]; simplify_eq ]
     | assert_ _ _ = Ok _ =>
         let Hb := fresh "Hb" in
         apply assert_Ok in H as [Hb H];
         try (injection H; clear H; intros; subst)
     | _ => inv_prim H
     end).

Section dict_facts.
Context {K V : Type} `{EqDecision K}.
Implicit Types (d : list (K * V)) (k : K) (v : V).

Lemma dict_get_set_eq k v d : dict_get k (dict_set k v d) = Some v.
Proof.
induction d as [|[k' v'] d IH]; simpl.
- by rewrite decide_True.
- destruct (decide (k = k')); simpl.
+ by rewrite decide_True.
+ by rewrite decide_False.
Qed.

Lemma dict_get_set_ne k k' v d :
k ≠ k' → dict_get k' (dict_set k v d) = dict_get k' d.
Proof.
intros Hne. induction d as [|[k0 v0] d IH]; simpl.
- by rewrite decide_False.
- destruct (decide (k = k0)) as [->|]; simpl.
+ by rewrite !decide_False.
+ by rewrite IH.
Qed.

Lemma dict_get_pop_eq k d : dict_get k (dict_pop k d) = None.
Proof.
induction d as [|[k0 v0] d IH]; simpl; [done|].
destruct (decide (k = k0)); simpl; [done|]. by rewrite decide_False.
Qed.

Lemma dict_get_pop_ne k k' d :
k ≠ k' → dict_get k' (dict_pop k d) = dict_get k' d.
Proof.
intros Hne. induction d as [|[k0 v0] d IH]; simpl; [done|].
destruct (decide (k = k0)) as [->|]; simpl.
- by rewrite decide_False.
- by rewrite IH.
Qed.

Lemma dict_mem_true k d : dict_mem k d = true ↔ is_Some (dict_get k d).
Proof.
unfold dict_mem. destruct (dict_get k d) as [v|].
- split; [by eexists|done].
- split; [done|by intros [? ?]].
Qed.

Lemma dict_mem_false k d : dict_mem k d = false ↔ dict_get k d = None.
Proof. unfold dict_mem. by destruct (dict_get k d). Qed.

Lemma dict_get_Some_keys k v d : dict_get k d = Some v → k ∈ dict_keys d.
Proof.
unfold dict_keys. induction d as [|[k0 v0] d IH]; simpl; [done|].
destruct (decide (k = k0)) as [->|]; intros; [left|right; auto].
Qed.

Lemma dict_get_None_keys k d : dict_get k d = None ↔ k ∉ dict_keys d.
Proof.
unfold dict_keys. induction d as [|[k0 v0] d IH]; simpl.
- split; [intros _; apply not_elem_of_nil|done].
- rewrite not_elem_of_cons. destruct (decide (k = k0)); naive_solver.
Qed.
End dict_facts.

(** ** The window plan (C4) *)

Lemma window_loop_prefix L G (n : nat) :
  0 < G →
  let st := foldl (AsyncDoubleBufferGroupOffloadHandler.window_step L G)
              (∅, 0) (seqZ 0 (Z.of_nat n)) in
  st.2 = Z.min (Z.of_nat n) (L `mod` G) ∧
  ∀ i, st.1 !! i =
       if decide (0 ≤ i < Z.of_nat n) then Some (window_end L G i) else None.
Proof.
  intros HG. pose proof (Z.mod_pos_bound L G HG) as Hr.
  induction n as [|n [IHc IHm]]; simpl.
  - split; [lia|]. intros i. rewrite lookup_empty. by rewrite decide_False by lia.
  - rewrite seqZ_S, foldl_app. simpl.
    set (st := foldl _ _ _) in *.
    unfold AsyncDoubleBufferGroupOffloadHandler.window_step.
    rewrite Z.add_0_l.
    destruct (decide (Z.of_nat n < L `mod` G)); simpl.
    + split; [lia|]. intros i.
      destruct (decide (i = Z.of_nat n)) as [->|Hne].
      * rewrite lookup_insert_eq, decide_True by lia.
        unfold window_end. f_equal. lia.
      * rewrite lookup_insert_ne by done. rewrite IHm.
        repeat case_decide; try done; lia.
    + split; [lia|]. intros i.
      destruct (decide (i = Z.of_nat n)) as [->|Hne].
      * rewrite lookup_insert_eq, decide_True by lia.
        unfold window_end. f_equal. lia.
      * rewrite lookup_insert_ne by done. rewrite IHm.
        repeat case_decide; try done; lia.
Qed.

Lemma build_layer_window_map_lookup L G i :
  0 < G →
  AsyncDoubleBufferGroupOffloadHandler.build_layer_window_map L G !! i =
  if decide (0 ≤ i < G) then Some (window_end L G i) else None.
Proof.
  intros HG. unfold AsyncDoubleBufferGroupOffloadHandler.build_layer_window_map.
  destruct (window_loop_prefix L G (Z.to_nat G) HG) as [_ Hm].
  rewrite Z2Nat.id in Hm by lia. apply Hm.
Qed.

Lemma window_end_step L G i :
  0 < G → 0 ≤ i →
  window_end L G (i + 1) - window_end L G i =
  L `div` G + (if decide (i + 1 < L `mod` G) then 1 else 0).
Proof.
  intros HG Hi. unfold window_end. case_decide; nia.
Qed.

Lemma window_end_last L G : 0 < G → window_end L G (G - 1) = L - 1.
Proof.
  intros HG. unfold window_end.
  pose proof (Z.mod_pos_bound L G HG). pose proof (Z.div_mod L G).
  replace (G - 1 + 1) with G by lia. rewrite Z.min_r by lia. nia.
Qed.

Lemma window_end_mono L G i j :
  0 < G → G ≤ L → 0 ≤ i → i < j → window_end L G i < window_end L G j.
Proof.
  intros HG HL Hi Hij. unfold window_end.
  assert (1 ≤ L `div` G) by (apply Z.div_le_lower_bound; lia).
  nia.
Qed.

Lemma window_end_first L G : 0 < G → G ≤ L → 0 ≤ window_end L G 0.
Proof.
  intros HG HL. unfold window_end.
  assert (1 ≤ L `div` G) by (apply Z.div_le_lower_bound; lia).
  pose proof (Z.mod_pos_bound L G HG). lia.
Qed.

(** C4. For G >= 1 offload groups and L >= G model layers the constructor
    of the asynchronous handler fills [layer_window_map] with exactly the keys
    0 .. G-1; entry i is floor(L/G)*(i+1) - 1 plus one for each of the first
    (L mod G) windows that ends at or before it, so that consecutive entries
    differ by floor(L/G) + 1 for the first (L mod G) windows and by floor(L/G)
    for the others; the map is strictly increasing and its last entry is
    L - 1. *)
Theorem layer_window_plan (G L : Z) (chk : checker) (db : bool) :
  1 ≤ G → G ≤ L →
  let m := layer_window_map (AsyncDoubleBufferGroupOffloadHandler.init G L chk db) in
  let q := L `div` G in
  let r := L `mod` G in
  (∀ i, 0 ≤ i < G → m !! i = Some (q * (i + 1) - 1 + Z.min (i + 1) r)) ∧
  (∀ i, ¬ 0 ≤ i < G → m !! i = None) ∧
  (∀ i j vi vj, i < j → m !! i = Some vi → m !! j = Some vj → vi < vj) ∧
  (∀ v0, m !! 0 = Some v0 → v0 - (-1) = q + (if decide (0 < r) then 1 else 0)) ∧
  (∀ i vi vj, m !! i = Some vi → m !! (i + 1) = Some vj →
     vj - vi = q + (if decide (i + 1 < r) then 1 else 0)) ∧
  m !! (G - 1) = Some (L - 1).
Proof.
  intros HG HL m q r. subst m. simpl.
  assert (0 < G) as HG' by lia.
  repeat split.
  - intros i Hi. rewrite build_layer_window_map_lookup by done.
    by rewrite decide_True by done.
  - intros i Hi. rewrite build_layer_window_map_lookup by done.
    by rewrite decide_False by done.
  - intros i j vi vj Hij.
    rewrite !build_layer_window_map_lookup by done.
    repeat case_decide; try done. intros [= <-] [= <-].
    apply window_end_mono; lia.
  - intros v0. rewrite build_layer_window_map_lookup by done.
    destruct (decide (0 ≤ 0 < G)); [|done]. intros [= <-]. subst q r.
    unfold window_end. pose proof (Z.mod_pos_bound L G HG'). case_decide; lia.
  - intros i vi vj. rewrite !build_layer_window_map_lookup by done.
    destruct (decide (0 ≤ i < G)); [|done].
    destruct (decide (0 ≤ i + 1 < G)); [|done].
    intros [= <-] [= <-]. apply window_end_step; lia.
  - rewrite build_layer_window_map_lookup by done.
    rewrite decide_True by lia. f_equal. by apply window_end_last.
Qed.

Lemma layer_window_plan_witness :
  let m := layer_window_map
             (AsyncDoubleBufferGroupOffloadHandler.init 2 5 checker_default false) in
  m !! 0 = Some 2 ∧ m !! 1 = Some 4 ∧ m !! 2 = None.
Proof.
  destruct (layer_window_plan 2 5 checker_default false ltac:(lia) ltac:(lia))
    as (Hin & Hout & _ & _ & _ & _).
  split; [apply (Hin 0); lia|]. split; [apply (Hin 1); lia|].
  apply Hout. lia.
Defined.

(** ** Marking (C10) *)

Lemma mark_data_tensor_Ok t w w' :
  mark_data_tensor t w = Ok (tt, w') →
  (∀ b, t = ERef b → marked w' b) ∧ (∀ b, marked w b → marked w' b).
Proof.
  destruct t as [|a|d c]; simpl.
  - intros [= <-]. split; [done|auto].
  - intros [= <-]. unfold marked; simpl. split.
    + intros b [= <-]. unfold upd. by rewrite !decide_True.
    + intros b [H1 H2]. unfold upd.
      destruct (decide (b = a)) as [->|]; simpl; auto.
      by rewrite !decide_True.
  - done.
Qed.

Lemma for_each_mark_data_tensor l w w' :
  for_each l mark_data_tensor w = Ok (tt, w') →
  (∀ b, ERef b ∈ l → marked w' b) ∧ (∀ b, marked w b → marked w' b).
Proof.
  revert w. induction l as [|t l IH]; intros w; simpl.
  - intros [= <-]. split; [|auto]. intros b Hb. by apply elem_of_nil in Hb.
  - intros H. apply bind_Ok in H as ([] & w1 & H1 & H2).
    apply mark_data_tensor_Ok in H1 as [Ha Hb]. apply IH in H2 as [Hc Hd].
    split; [|auto]. intros b [<-|Hin]%elem_of_cons; auto.
Qed.

Lemma for_each_mark_data_tensor_frame l w w' :
  for_each l mark_data_tensor w = Ok (tt, w') → debug_enabled w' = debug_enabled w.
Proof.
  revert w. induction l as [|t l IH]; intros w; simpl.
  - by intros [= <-].
  - intros H. apply bind_Ok in H as ([] & w1 & H1 & H2).
    apply IH in H2 as ->. destruct t; simpl in H1; [by injection H1 as <-| |done].
    by injection H1 as <-.
Qed.

Lemma for_each_mark_data_tensor_total l w :
  Forall (fun t => is_tuple t = false) l → ∃ w', for_each l mark_data_tensor w = Ok (tt, w').
Proof.
  intros Hl. revert w. induction Hl as [|t l Ht _ IH]; intros w; simpl.
  - by eexists.
  - unfold bind. destruct t as [|a|]; simpl in *; [apply IH|apply IH|done].
Qed.

Lemma mark_one_composite w a :
  cls (objs w a) ≠ TorchTensor → cls (objs w a) ≠ TorchParameter →
  mark_one (ERef a) w =
  match methods_of w (cls (objs w a)) with
  | None => Raise AttributeError
  | Some m => for_each (m_get_data_tensors m (inst (objs w a))) mark_data_tensor w
  end.
Proof.
  intros H1 H2. unfold mark_one, bind, gets. simpl.
  rewrite bool_decide_eq_false_2 by (intros [?|?]; done).
  unfold get_data_tensors, bind, get. destruct (methods_of _ _); done.
Qed.

(** C10. Outside debug mode [mark_activation_offload] skips [None]; an
    argument whose class is exactly [torch.Tensor] or [torch.nn.Parameter]
    only receives [activation_offloading] ([needs_force_clear] and every other
    object stay as they were); an argument of any other class takes the
    composite branch: the call raises AttributeError when the class has no
    [get_data_tensors], and otherwise it sets both attributes on every data
    tensor that is not [None].  Arguments are handled from left to right. *)
Theorem mark_activation_offload_by_exact_type (w : world) (a : addr) :
  debug_enabled w = false →
  let c := cls (objs w a) in
  mark_activation_offload [ENone] w = Ok (tt, w) ∧
  (c = TorchTensor ∨ c = TorchParameter →
     ∃ w', mark_activation_offload [ERef a] w = Ok (tt, w') ∧
       objs w' a = set_activation_offloading (objs w a) ∧
       needs_force_clear (objs w' a) = needs_force_clear (objs w a) ∧
       (∀ b, b ≠ a → objs w' b = objs w b)) ∧
  (c ≠ TorchTensor → c ≠ TorchParameter →
     (is_quantized_class c = false →
        mark_activation_offload [ERef a] w = Raise AttributeError) ∧
     (∀ m, methods_of w c = Some m →
        (∀ w', mark_activation_offload [ERef a] w = Ok (tt, w') →
           ∀ b, ERef b ∈ m_get_data_tensors m (inst (objs w a)) → marked w' b) ∧
        (Forall (fun t => is_tuple t = false) (m_get_data_tensors m (inst (objs w a))) →
           ∃ w', mark_activation_offload [ERef a] w = Ok (tt, w')))) ∧
  (∀ t ts, mark_activation_offload (t :: ts) w =
           match mark_activation_offload [t] w with
           | Ok (_, w') => mark_activation_offload ts w'
           | Raise e => Raise e
           end).
Proof.
  intros Hdbg c.
  assert (∀ ts, mark_activation_offload ts w = for_each ts mark_one w) as Hm.
  { intros ts. unfold mark_activation_offload, bind, gets. by rewrite Hdbg. }
  split; [by rewrite Hm|]. split; [|split].
  - intros Hc. eexists. rewrite Hm. simpl. unfold bind, gets. simpl.
    rewrite bool_decide_eq_true_2 by done. simpl. split; [done|]. simpl.
    unfold upd. rewrite decide_True by done. split; [done|]. split; [done|].
    intros b Hb. by rewrite decide_False.
  - intros H1 H2. split.
    + intros Hq. rewrite Hm. cbn [for_each]. unfold bind at 1.
      rewrite mark_one_composite by done. fold c.
      destruct c; simpl in *; done.
    + intros m Hmeth. split.
      * intros w'. rewrite Hm. cbn [for_each]. unfold bind at 1.
        rewrite mark_one_composite by done. fold c. rewrite Hmeth.
        destruct (for_each _ _ _) as [[[] w1]|] eqn:Hf; [|done].
        unfold ret. intros [= <-] b Hb.
        destruct (for_each_mark_data_tensor _ _ _ Hf) as [Ha _]. auto.
      * intros Hall. rewrite Hm. cbn [for_each]. unfold bind at 1.
        rewrite mark_one_composite by done. fold c. rewrite Hmeth.
        destruct (for_each_mark_data_tensor_total _ w Hall) as [w' ->]. by eexists.
  - intros t ts. rewrite !Hm. simpl. unfold bind.
    destruct (mark_one t w) as [[[] w1]|] eqn:Ht; [|done]. simpl.
    unfold mark_activation_offload, bind, gets.
    assert (debug_enabled w1 = false) as ->; [|done].
    rewrite <- Hdbg. clear -Ht.
    destruct t as [|b|]; simpl in Ht; [by injection Ht as <-| |done].
    unfold bind, gets in Ht. simpl in Ht.
    destruct (bool_decide _); simpl in Ht; [by injection Ht as <-|].
    unfold get_data_tensors, bind, get in Ht.
    destruct (methods_of _ _); [|done]. simpl in Ht.
    by apply for_each_mark_data_tensor_frame in Ht.
Qed.

Lemma mark_activation_offload_by_exact_type_witness :
  let w := world_of [plain_tensor [1; 2; 3; 4]]
             (SynchronizedGroupOffloadHandler.init 1 checker_default) in
  ∃ w', mark_activation_offload [ERef 0%nat] w = Ok (tt, w') ∧
        activation_offloading (objs w' 0%nat) = true ∧
        needs_force_clear (objs w' 0%nat) = false.
Proof.
  intros w.
  destruct (mark_activation_offload_by_exact_type w 0%nat eq_refl)
    as (_ & Hplain & _).
  destruct (Hplain (or_introl eq_refl)) as (w' & Hrun & Hobj & Hnfc & _).
  exists w'. split; [exact Hrun|]. rewrite Hnfc, Hobj. split; reflexivity.
Defined.

(** ** The attribute set by [tensor_pop] under double buffering (C9) *)

Lemma setattr_Ok e f w r :
  setattr e f w = Ok r ↔ ∃ a, e = ERef a ∧ r = (tt, with_objs (upd a f (objs w)) w).
Proof.
  destruct e as [|a|]; simpl; unfold raise.
  - split; [done|by intros (? & ? & _)].
  - rewrite update_obj_Ok. split; [eauto|]. by intros (? & [= <-] & ->).
  - split; [done|by intros (? & ? & _)].
Qed.

(** C9. With double buffering on, whatever [tensor_pop] of the asynchronous
    handler returns is an object on which [_do_not_clear] has just been set:
    this holds for every kind of slot, a plain tensor, a stray tensor passed
    through, or a restored composite alike. *)
Theorem tensor_pop_sets_do_not_clear (w w' : world) (tensor_tag : tag) (e : elem) :
  double_buffering (hd w) = true →
  AsyncDoubleBufferGroupOffloadHandler.tensor_pop tensor_tag w = Ok (e, w') →
  ∃ a, e = ERef a ∧ do_not_clear (objs w' a) = true.
Proof.
  intros Hdb H. unfold AsyncDoubleBufferGroupOffloadHandler.tensor_pop in H.
  apply bind_Ok in H as (h & w0 & Hg & H). apply gets_Ok in Hg as [= -> ->].
  destruct (dict_get _ _) as [state|]; [|done].
  apply bind_Ok in H as ([] & w1 & _ & H).
  apply bind_Ok in H as (tensor & w2 & _ & H).
  rewrite Hdb in H. simpl in H.
  apply bind_Ok in H as ([] & w3 & Hset & H).
  apply setattr_Ok in Hset as (a & -> & [= ->]).
  inv_run H. exists a. split; [done|]. simpl. unfold upd.
  by rewrite decide_True.
Qed.

Lemma tensor_pop_sets_do_not_clear_witness :
  let w0 := world_of [with_class FakeTensor (plain_tensor [7])]
              (AsyncDoubleBufferGroupOffloadHandler.init 1 1
                 tensor_need_offloading_checker_activations true) in
  let w1 := after (AsyncDoubleBufferGroupOffloadHandler.tensor_push 0%nat) w0 in
  let w2 := after (AsyncDoubleBufferGroupOffloadHandler.tensor_pop (-1, 0)) w1 in
  AsyncDoubleBufferGroupOffloadHandler.tensor_pop (-1, 0) w1 = Ok (ERef 0%nat, w2) ∧
  cls (objs w2 0%nat) = FakeTensor ∧
  do_not_clear (objs w0 0%nat) = false ∧
  do_not_clear (objs w2 0%nat) = true.
Proof.
  intros w0 w1 w2.
  assert (AsyncDoubleBufferGroupOffloadHandler.tensor_pop (-1, 0) w1
          = Ok (ERef 0%nat, w2)) as Hpop by reflexivity.
  split; [exact Hpop|]. split; [reflexivity|]. split; [reflexivity|].
  destruct (tensor_pop_sets_do_not_clear w1 w2 (-1, 0) (ERef 0%nat) eq_refl Hpop)
    as (a & Ha & Hd).
  injection Ha as <-. exact Hd.
Defined.

(** ** Round trip through the synchronous handler (C1) *)

Arguments SynchronizedGroupOffloadHandler.offload : simpl never.
Arguments SynchronizedGroupOffloadHandler.reload : simpl never.
Arguments SynchronizedGroupOffloadHandler.tensor_push : simpl never.
Arguments SynchronizedGroupOffloadHandler.tensor_pop : simpl never.

Lemma sync_offload_Ok src w e w' :
  SynchronizedGroupOffloadHandler.offload src w = Ok (e, w') →
  ∃ a, src = ERef a ∧ e = ETuple (device (objs w a)) (next_addr w) ∧
       hd w' = hd w ∧ next_addr w' = S (next_addr w) ∧
       objs w' = upd (next_addr w)
                   (fun _ => fresh_tensor Cpu (size (objs w a)) (data (objs w a)) true)
                   (objs w).
Proof.
  destruct src as [|a|]; unfold SynchronizedGroupOffloadHandler.offload;
    [done| |done].
  intros H. inv_run H. exists a. done.
Qed.

Lemma sync_reload_fresh_Ok d b w e w' :
  SynchronizedGroupOffloadHandler.reload (ETuple d b) None ENone w = Ok (e, w') →
  ∃ r, e = ERef r ∧ hd w' = hd w ∧
       data (objs w' r) = data (objs w b) ∧ size (objs w' r) = size (objs w b) ∧
       device (objs w' r) = d ∧
       (next_addr w ≤ next_addr w')%nat ∧
       ∀ a, (a < next_addr w)%nat → objs w' a = objs w a.
Proof.
  unfold SynchronizedGroupOffloadHandler.reload. intros H. inv_run H.
  destruct (decide _) as [Hd|Hd].
  - inv_run H. eauto 10.
  - inv_run H. simpl.
    eexists. split; [done|]. split; [done|]. unfold upd. rewrite decide_True by done.
    simpl. split; [done|]. split; [done|]. split; [done|]. split; [lia|].
    intros a Ha. rewrite decide_False by lia. done.
Qed.

Lemma handler_tensor_push_sync t w :
  handler_cls (hd w) = Synchronized →
  handler_tensor_push t w = SynchronizedGroupOffloadHandler.tensor_push t w.
Proof. intros H. unfold handler_tensor_push, bind, gets. by rewrite H. Qed.

Lemma handler_tensor_pop_sync tg w :
  handler_cls (hd w) = Synchronized →
  handler_tensor_pop tg w = SynchronizedGroupOffloadHandler.tensor_pop tg w.
Proof. intros H. unfold handler_tensor_pop, bind, gets. by rewrite H. Qed.

Lemma sync_tensor_push_Ok t w tg w' :
  SynchronizedGroupOffloadHandler.tensor_push t w = Ok (tg, w') →
  tg = (current_group (hd w), tensor_count_current_group (hd w)) ∧
  dict_get tg (tensor_tag_to_state (hd w)) = None ∧
  ∃ e,
    hd w' = set_tensor_tag_to_state (dict_set tg (SOne e) (tensor_tag_to_state (hd w)))
              (set_counters (current_group (hd w))
                 (tensor_count_current_group (hd w) + 1) (hd w)) ∧
    if sync_evicts w t then
      e = ETuple (device (objs w t)) (next_addr w) ∧
      next_addr w' = S (next_addr w) ∧
      objs w' = upd (next_addr w)
                  (fun _ => fresh_tensor Cpu (size (objs w t)) (data (objs w t)) true)
                  (objs w)
    else e = ERef t ∧ next_addr w' = next_addr w ∧ objs w' = objs w.
Proof.
  unfold SynchronizedGroupOffloadHandler.tensor_push. intros H.
  apply bind_Ok in H as (h & w0 & Hh & H). inv_prim Hh.
  apply bind_Ok in H as ([] & w1 & Hc & H). inv_prim Hc.
  apply bind_Ok in H as ([] & w2 & Ha & H). apply assert_Ok in Ha as [Ha [= ->]].
  apply negb_true_iff, dict_mem_false in Ha.
  apply bind_Ok in H as (need & w3 & Hn & H). unfold need_offloading in Hn. inv_prim Hn.
  apply bind_Ok in H as ([] & w4 & Hs & H). inv_prim H.
  split; [done|]. split; [done|]. simpl in Hs. unfold sync_evicts.
  destruct (_ && _).
  - apply bind_Ok in Hs as (e & w5 & Ho & Hs).
    apply sync_offload_Ok in Ho as (a & [= <-] & -> & Hhd & Hnx & Hob).
    unfold set_state in Hs. inv_prim Hs. simpl. rewrite Hhd. simpl. eauto.
  - unfold set_state in Hs. inv_prim Hs. simpl. eauto.
Qed.

Lemma sync_tensor_pop_Ok tg w r w' :
  SynchronizedGroupOffloadHandler.tensor_pop tg w = Ok (r, w') →
  ∃ st, dict_get tg (tensor_tag_to_state (hd w)) = Some st ∧
    hd w' = set_tensor_tag_to_state (dict_pop tg (tensor_tag_to_state (hd w))) (hd w) ∧
    (next_addr w ≤ next_addr w')%nat ∧
    (∀ a, (a < next_addr w)%nat → objs w' a = objs w a) ∧
    match st with
    | SOne (ETuple d b) =>
        ∃ x, r = SOne (ERef x) ∧ data (objs w' x) = data (objs w b) ∧
             size (objs w' x) = size (objs w b)
    | _ => r = st ∧ objs w' = objs w
    end.
Proof.
  unfold SynchronizedGroupOffloadHandler.tensor_pop. intros H.
  apply bind_Ok in H as (h & w0 & Hh & H). inv_prim Hh.
  destruct (dict_get tg _) as [st|]; [|done]. exists st. split; [done|].
  apply bind_Ok in H as ([] & w1 & Hp & H). inv_prim Hp.
  destruct st as [[|a|d b]|l]; try (inv_prim H; simpl; done).
  apply bind_Ok in H as (x & w2 & Hr & H). inv_prim H.
  apply sync_reload_fresh_Ok in Hr as (y & -> & Hhd & Hd & Hs & _ & Hn & Ho).
  simpl in *. rewrite Hhd. eauto 10.
Qed.

Lemma sync_commit_backward_Ok w u w' :
  SynchronizedGroupOffloadHandler.on_group_commit_backward w = Ok (u, w') →
  0 ≤ current_group (hd w) - 1 ∧
  w' = with_hd (set_counters (current_group (hd w) - 1)
                  (tensor_count_current_group (hd w)) (hd w)) w.
Proof.
  unfold SynchronizedGroupOffloadHandler.on_group_commit_backward. intros H.
  apply bind_Ok in H as ([] & w1 & Hm & H). inv_prim Hm.
  apply bind_Ok in H as (cg & w2 & Hg & H). inv_prim Hg.
  apply assert_Ok in H as [Hb [= _ <-]]. simpl in Hb.
  by apply bool_decide_eq_true in Hb.
Qed.

Lemma sync_run_op_keeps tg s n objs0 o r w w' :
  sync_keeps tg s n objs0 w →
  run_op o w = Ok (r, w') → o ≠ Pop tg →
  sync_keeps tg s n objs0 w'.
Proof.
  intros (Hcls & Hget & Hn & Hobjs) Hrun Hne.
  destruct o as [t|tg'| |]; simpl in Hrun.
  - unfold CpuOffloadSavedTensorHook.on_save_for_backward in Hrun.
    apply bind_Ok in Hrun as (tg0 & w1 & Hp & Hrun). inv_prim Hrun.
    rewrite handler_tensor_push_sync in Hp by done.
    apply sync_tensor_push_Ok in Hp as (-> & Hnone & e & Hhd & He).
    assert ((current_group (hd w), tensor_count_current_group (hd w)) ≠ tg) as Htg.
    { intros <-. congruence. }
    split; [by rewrite Hhd|]. split; [rewrite Hhd; simpl; by rewrite dict_get_set_ne|].
    destruct (sync_evicts w t).
    + destruct He as (_ & -> & ->). split; [lia|]. intros a Ha.
      unfold upd. rewrite decide_False by lia. auto.
    + destruct He as (_ & -> & ->). done.
  - unfold CpuOffloadSavedTensorHook.on_get_saved_tensor in Hrun.
    apply bind_Ok in Hrun as (tg0 & w1 & Hp & Hrun). inv_prim Hrun.
    rewrite handler_tensor_pop_sync in Hp by done.
    apply sync_tensor_pop_Ok in Hp as (st & Hst & Hhd & Hnx & Hob & _).
    assert (tg' ≠ tg) as Htg by congruence.
    split; [by rewrite Hhd|]. split; [rewrite Hhd; simpl; by rewrite dict_get_pop_ne|].
    split; [lia|]. intros a Ha. rewrite Hob by lia. auto.
  - unfold GroupCommitFunction.forward, handler_on_group_commit_forward, bind, gets in Hrun.
    rewrite Hcls in Hrun. simpl in Hrun. by injection Hrun as _ <-.
  - unfold GroupCommitFunction.backward, handler_on_group_commit_backward, bind, gets in Hrun.
    rewrite Hcls in Hrun.
    destruct (SynchronizedGroupOffloadHandler.on_group_commit_backward w)
      as [[u w1]|] eqn:Hb; [|done].
    apply sync_commit_backward_Ok in Hb as [_ ->]. by injection Hrun as _ <-.
Qed.

Lemma sync_run_keeps tg s n objs0 ops rs w w' :
  sync_keeps tg s n objs0 w →
  run ops w = Ok (rs, w') → Pop tg ∉ ops →
  sync_keeps tg s n objs0 w'.
Proof.
  revert rs w. induction ops as [|o ops IH]; intros rs w Hk Hrun Hnin; simpl in Hrun.
  - by inv_prim Hrun.
  - apply not_elem_of_cons in Hnin as [Hne Hnin].
    apply bind_Ok in Hrun as (r & w1 & Ho & Hrun).
    apply bind_Ok in Hrun as (w1' & w1'' & Hg & Hrun). unfold get in Hg.
    injection Hg as <- <-.
    apply bind_Ok in Hrun as (rest & w2 & Hrest & Hrun). inv_prim Hrun.
    eapply IH; [|done|done]. eapply sync_run_op_keeps; eauto.
Qed.

(** C1. Sound round trip through the synchronous handler.  Once [tensor_push]
    has returned a tag, and whatever the handler is asked to do next short of
    popping that tag, [tensor_pop] of the tag succeeds; when the push evicted
    the tensor (its group is below [num_offload_group] and the checker
    accepted it) the tensor popped has the size, the device and the very bits
    the pushed one had at push time; otherwise the pop returns the pushed object
    itself, and neither the push nor the pop copied or touched anything. *)
Theorem sync_push_pop_round_trip (w w1 w2 : world) (t : addr) (tg : tag)
    (ops : list op) (rs : list (retval * world)) :
  handler_cls (hd w) = Synchronized →
  SynchronizedGroupOffloadHandler.tensor_push t w = Ok (tg, w1) →
  run ops w1 = Ok (rs, w2) →
  Pop tg ∉ ops →
  ∃ r w3,
    SynchronizedGroupOffloadHandler.tensor_pop tg w2 = Ok (SOne (ERef r), w3) ∧
    if bool_decide (current_group (hd w) < num_offload_group (hd w))
       && tensor_need_offloading_checker (hd w) (objs w) (ERef t)
    then data (objs w3 r) = data (objs w t) ∧ size (objs w3 r) = size (objs w t) ∧
         device (objs w3 r) = device (objs w t)
    else r = t ∧ objs w1 = objs w ∧ objs w3 = objs w2.
Proof.
  intros Hcls Hpush Hrun Hnin.
  apply sync_tensor_push_Ok in Hpush as (-> & Hnone & e & Hhd & He).
  set (tg := (current_group (hd w), tensor_count_current_group (hd w))) in *.
  assert (sync_keeps tg (SOne e) (next_addr w1) (objs w1) w1) as Hk.
  { split; [by rewrite Hhd|]. split; [rewrite Hhd; simpl; by rewrite dict_get_set_eq|].
    done. }
  eapply sync_run_keeps in Hk as (Hcls2 & Hget & Hnx & Hob); [|done|done].
  fold (sync_evicts w t). destruct (sync_evicts w t).
  - destruct He as (-> & Hn1 & Ho1).
    unfold SynchronizedGroupOffloadHandler.tensor_pop, bind, gets. rewrite Hget.
    simpl. unfold bind.
    destruct (SynchronizedGroupOffloadHandler.reload _ _ _ _) as [[x w3]|] eqn:Hr.
    + apply sync_reload_fresh_Ok in Hr as (y & -> & _ & Hd & Hs & Hdev & _ & _).
      simpl in *. exists y, w3. split; [done|].
      rewrite Hd, Hs, Hdev, Hob by lia. rewrite Ho1. unfold upd.
      by rewrite decide_True.
    + exfalso. unfold SynchronizedGroupOffloadHandler.reload, bind, gets in Hr.
      simpl in Hr. destruct (decide _); [done|]. done.
  - destruct He as (-> & Hn1 & Ho1).
    unfold SynchronizedGroupOffloadHandler.tensor_pop, bind, gets. rewrite Hget.
    simpl. eexists _, _. split; [reflexivity|]. done.
Qed.

Lemma sync_push_pop_round_trip_witness :
  let w := world_of [plain_tensor [1; 2; 3; 4]]
             (SynchronizedGroupOffloadHandler.init 1 checker_default) in
  let w1 := after (SynchronizedGroupOffloadHandler.tensor_push 0%nat) w in
  let w2 := after (run [CommitForward; CommitBackward]) w1 in
  ∃ r w3,
    SynchronizedGroupOffloadHandler.tensor_pop (0, 0) w2 = Ok (SOne (ERef r), w3) ∧
    r ≠ 0%nat ∧ data (objs w3 r) = [1; 2; 3; 4].
Proof.
  intros w w1 w2.
  assert (Pop (0, 0) ∉ [CommitForward; CommitBackward]) as Hnin.
  { intros H. apply elem_of_cons in H as [H|H]; [discriminate|].
    apply elem_of_cons in H as [H|H]; [discriminate|]. by apply elem_of_nil in H. }
  destruct (sync_push_pop_round_trip w w1 w2 0%nat (0, 0)
              [CommitForward; CommitBackward]
              (match run [CommitForward; CommitBackward] w1 with
               | Ok (rs, _) => rs | Raise _ => [] end)
              eq_refl eq_refl eq_refl Hnin)
    as (r & w3 & Hpop & Hdata & _).
  exists r, w3. split; [exact Hpop|]. split; [|exact Hdata].
  intros ->. vm_compute in Hpop. discriminate Hpop.
Defined.

(** ** Relations kept by every step of a run *)

Section preserves.
Context (R : relation world) `{!PreOrder R}.

Lemma preserves_ret {A} (a : A) : preserves R (ret a).
Proof. intros w a' w' [= _ <-]. reflexivity. Qed.

Lemma preserves_raise {A} e : preserves R (@raise A e).
Proof. intros w a w' H. discriminate H. Qed.

Lemma preserves_gets {A} (f : world → A) : preserves R (gets f).
Proof. intros w a' w' [= _ <-]. reflexivity. Qed.

Lemma preserves_get : preserves R get.
Proof. intros w a' w' [= _ <-]. reflexivity. Qed.

Lemma preserves_assert b : preserves R (assert_ b).
Proof. intros w a w' [_ [= -> ->]]%assert_Ok. reflexivity. Qed.

Lemma preserves_bind {A B} (m : M A) (k : A → M B) :
preserves R m → (∀ a, preserves R (k a)) → preserves R (bind m k).
Proof.
intros Hm Hk w b w' (a & w1 & H1 & H2)%bind_Ok.
etrans; [by eapply Hm|by eapply Hk].
Qed.

Lemma preserves_when b m : preserves R m → preserves R (when b m).
Proof. intros Hm. destruct b; [done|apply preserves_ret]. Qed.

Lemma preserves_for_each {A} (l : list A) body :
(∀ x, preserves R (body x)) → preserves R (for_each l body).
Proof.
intros Hb. induction l as [|x l IH]; simpl.
- apply preserves_ret.
- apply preserves_bind; auto.
Qed.

Lemma preserves_fold_m {A B} (l : list A) (acc : B) body :
(∀ acc x, preserves R (body acc x)) → preserves R (fold_m l acc body).
Proof.
intros Hb. revert acc. induction l as [|x l IH]; intros acc; simpl.
- apply preserves_ret.
- apply preserves_bind; auto.
Qed.

Lemma preserves_fold_items {V B} (d : handler → list (tag * V)) (acc : B) body :
(∀ acc kv, preserves R (body acc kv)) → preserves R (fold_items d acc body).
Proof.
intros Hb. unfold fold_items. apply preserves_bind; [apply preserves_gets|].
intros keys. apply preserves_fold_m. intros acc' k.
apply preserves_bind; [apply preserves_gets|]. intros h.
destruct (dict_get k (d h)); [apply Hb|apply preserves_raise].
Qed.

Lemma preserves_for_items {V} (d : handler → list (tag * V)) body :
(∀ kv, preserves R (body kv)) → preserves R (for_items d body).
Proof. intros Hb. apply preserves_fold_items. auto. Qed.

Lemma preserves_modify f : (∀ w, R w (f w)) → preserves R (modify f).
Proof. intros Hf w a w' [= _ <-]. apply Hf. Qed.

End preserves.

(** Reduces a goal [preserves R m] to the same goal for the primitive steps
    of [m]. *)
Ltac preserves_struct :=
  repeat
    first
    [ progress intros
    | lazymatch goal with
     | |- preserves _ (bind _ _) => apply preserves_bind
     | |- preserves _ (ret _) => apply preserves_ret
     | |- preserves _ (raise _) => apply preserves_raise
     | |- preserves _ (gets _) => apply preserves_gets
     | |- preserves _ get => apply preserves_get
     | |- preserves _ (assert_ _) => apply preserves_assert
     | |- preserves _ (when _ _) => apply preserves_when
     | |- preserves _ (for_each _ _) => apply preserves_for_each
     | |- preserves _ (fold_m _ _ _) => apply preserves_fold_m
     | |- preserves _ (fold_items _ _ _) => apply preserves_fold_items
     | |- preserves _ (for_items _ _) => apply preserves_for_items
     | |- preserves _ (match ?x with _ => _ end) => destruct x
     end ];
  try exact _.

#[global] Instance same_counters_preorder : PreOrder same_counters.
Proof.
  split.
  - by intros w.
  - intros w1 w2 w3 H1 H2. unfold same_counters in *. congruence.
Qed.

Lemma same_counters_modify_hd f :
  (∀ h, counters_of (f h) = counters_of h) → preserves same_counters (modify_hd f).
Proof. intros Hf. apply preserves_modify. intros w. apply Hf. Qed.

Lemma same_counters_update_obj a f : preserves same_counters (update_obj a f).
Proof. by apply preserves_modify. Qed.

Lemma same_counters_alloc o : preserves same_counters (alloc o).
Proof. by intros w a w' [= _ <-]. Qed.

Lemma same_counters_log_call c : preserves same_counters (log_call c).
Proof. by apply preserves_modify. Qed.

Create HintDb same_counters_db.

#[global] Hint Resolve same_counters_update_obj same_counters_alloc
  same_counters_log_call : same_counters_db.

(** Closes [preserves same_counters m] for code that only assigns to maps,
    objects and the call log. *)
Ltac same_counters_tac :=
  preserves_struct;
  try first
    [ by apply same_counters_modify_hd
    | by (unfold set_state, set_buf; apply same_counters_modify_hd)
    | solve [auto with same_counters_db] ].

Import AsyncDoubleBufferGroupOffloadHandler.

Lemma same_counters_setattr e f :
  preserves same_counters (setattr e f).
Proof. unfold setattr. same_counters_tac. Qed.
#[global] Hint Resolve same_counters_setattr : same_counters_db.

Lemma same_counters_prepare_for_saving a :
  preserves same_counters (prepare_for_saving a).
Proof. unfold prepare_for_saving. same_counters_tac. Qed.
#[global] Hint Resolve same_counters_prepare_for_saving : same_counters_db.

Lemma same_counters_restore_from_saved a l :
  preserves same_counters (restore_from_saved a l).
Proof. unfold restore_from_saved. same_counters_tac. Qed.
#[global] Hint Resolve same_counters_restore_from_saved : same_counters_db.

Lemma same_counters_clear a :
  preserves same_counters (clear a).
Proof. unfold clear. same_counters_tac. Qed.
#[global] Hint Resolve same_counters_clear : same_counters_db.

Lemma same_counters_offload e :
  preserves same_counters (SynchronizedGroupOffloadHandler.offload e).
Proof. unfold SynchronizedGroupOffloadHandler.offload. same_counters_tac. Qed.
#[global] Hint Resolve same_counters_offload : same_counters_db.

Lemma same_counters_reload e nb b :
  preserves same_counters (SynchronizedGroupOffloadHandler.reload e nb b).
Proof. unfold SynchronizedGroupOffloadHandler.reload. same_counters_tac. Qed.
#[global] Hint Resolve same_counters_reload : same_counters_db.

Lemma same_counters_empty_like b :
  preserves same_counters (empty_like b).
Proof. unfold empty_like. same_counters_tac. Qed.
#[global] Hint Resolve same_counters_empty_like : same_counters_db.

Lemma same_counters_state_append tg t :
  preserves same_counters (state_append tg t).
Proof. unfold state_append. same_counters_tac. Qed.
#[global] Hint Resolve same_counters_state_append : same_counters_db.

Lemma same_counters_buf_append tg t :
  preserves same_counters (buf_append tg t).
Proof. unfold buf_append. same_counters_tac. Qed.
#[global] Hint Resolve same_counters_buf_append : same_counters_db.

Lemma same_counters_push_quantized tg t :
  preserves same_counters (push_quantized tg t).
Proof. unfold push_quantized. same_counters_tac. Qed.
#[global] Hint Resolve same_counters_push_quantized : same_counters_db.

Lemma same_counters_push_item q tg t x :
  preserves same_counters (push_item q tg t x).
Proof. unfold push_item, need_offloading. same_counters_tac. Qed.
#[global] Hint Resolve same_counters_push_item : same_counters_db.

Lemma same_counters_lookup_object tg :
  preserves same_counters (lookup_object tg).
Proof. unfold lookup_object. same_counters_tac. Qed.
#[global] Hint Resolve same_counters_lookup_object : same_counters_db.

Lemma same_counters_pop_object tg :
  preserves same_counters (pop_object tg).
Proof. unfold pop_object. same_counters_tac. Qed.
#[global] Hint Resolve same_counters_pop_object : same_counters_db.

Lemma same_counters_restore_unless_duplicate tg l :
  preserves same_counters (restore_unless_duplicate tg l).
Proof. unfold restore_unless_duplicate. same_counters_tac. Qed.
#[global] Hint Resolve same_counters_restore_unless_duplicate : same_counters_db.

Lemma same_counters_tensor_pop tg :
  preserves same_counters (tensor_pop tg).
Proof. unfold tensor_pop. same_counters_tac. Qed.
#[global] Hint Resolve same_counters_tensor_pop : same_counters_db.

Lemma same_counters_offload_item t :
  preserves same_counters (offload_item t).
Proof. unfold offload_item, need_offloading. same_counters_tac. Qed.
#[global] Hint Resolve same_counters_offload_item : same_counters_db.

Lemma same_counters_bulk_offload_group g :
  preserves same_counters (bulk_offload_group g).
Proof. unfold bulk_offload_group, bulk_offload_entry. same_counters_tac. Qed.
#[global] Hint Resolve same_counters_bulk_offload_group : same_counters_db.

Lemma same_counters_new_reload_buffer b :
  preserves same_counters (new_reload_buffer b).
Proof. unfold new_reload_buffer. same_counters_tac. Qed.
#[global] Hint Resolve same_counters_new_reload_buffer : same_counters_db.

Lemma same_counters_create_first_buffer kv :
  preserves same_counters (create_first_buffer kv).
Proof. unfold create_first_buffer, rdb_append0. same_counters_tac. Qed.
#[global] Hint Resolve same_counters_create_first_buffer : same_counters_db.

Lemma same_counters_release_buf kv :
  preserves same_counters (release_buf kv).
Proof. unfold release_buf. same_counters_tac. Qed.
#[global] Hint Resolve same_counters_release_buf : same_counters_db.

Lemma same_counters_reload_item i acc e :
  preserves same_counters (reload_item i acc e).
Proof. unfold reload_item, pick_reload_buffer. same_counters_tac. Qed.
#[global] Hint Resolve same_counters_reload_item : same_counters_db.

Lemma same_counters_write_back tg :
  preserves same_counters (write_back_transpose_flag tg).
Proof. unfold write_back_transpose_flag. same_counters_tac. Qed.
#[global] Hint Resolve same_counters_write_back : same_counters_db.

Lemma same_counters_bulk_reload_group g :
  preserves same_counters (bulk_reload_group g).
Proof. unfold bulk_reload_group, bulk_reload_entry, pick_reload_buffer. same_counters_tac. Qed.
#[global] Hint Resolve same_counters_bulk_reload_group : same_counters_db.

(** ** What each operation of the asynchronous handler does to the counters *)

Import AsyncDoubleBufferGroupOffloadHandler.

(** From [H : m w = Ok (a, w')], for [m] that only touches maps and objects,
    derives that the counters of [w'] are those of [w]. *)
Ltac counters_kept H E :=
  lazymatch type of H with
  | ?m ?w = Ok (?a, ?w') =>
      let P := fresh "P" in
      assert (preserves same_counters m) as P by same_counters_tac;
      pose proof (P w a w' H) as E; clear P;
      unfold same_counters, counters_of in E;
      injection E; clear E; do 10 (let X := fresh "Ec" in intro X)
  end.

Lemma lookup_window_Ok i w v w' :
  lookup_window i w = Ok (v, w') → w' = w ∧ layer_window_map (hd w) !! i = Some v.
Proof.
  unfold lookup_window. intros H.
  apply bind_Ok in H as (h & w1 & Hg & H). inv_prim Hg.
  destruct (layer_window_map (hd w) !! i); [|done]. by inv_prim H.
Qed.

Lemma async_commit_forward_counters w u w' :
  on_group_commit_forward w = Ok (u, w') →
  ∃ win,
    layer_window_map (hd w) !! offloaded_group_count (hd w) = Some win ∧
    counters_of (hd w') = forward_counters win (counters_of (hd w)).
Proof.
  unfold on_group_commit_forward, synchronize_on_group_commit_forward.
  intros H.
  apply bind_Ok in H as (cg & w0 & Hg & H). apply gets_inv in Hg as [-> ->].
  apply bind_Ok in H as ([] & w1 & Hs & H).
  apply modify_hd_inv in H as ->.
  apply bind_Ok in Hs as ([] & w2 & H1 & Hs). counters_kept H1 E1.
  apply bind_Ok in Hs as (h & w3 & Hg & Hs). apply gets_inv in Hg as [-> ->].
  apply bind_Ok in Hs as (win & w4 & Hw & Hs).
  apply lookup_window_Ok in Hw as [-> Hw].
  apply bind_Ok in Hs as ([] & w5 & H2 & Hs). counters_kept Hs E3.
  exists win. split; [congruence|].
  apply when_inv in H2 as [[Hc H2]|[Hc ->]].
  - apply bool_decide_eq_true in Hc.
    apply bind_Ok in H2 as ([] & w6 & H3 & H2). counters_kept H3 E4.
    apply bind_Ok in H2 as ([] & w7 & H4 & H2). counters_kept H4 E5.
    apply modify_hd_inv in H2 as ->.
    unfold forward_counters, counters_of in *. simpl in *.
    rewrite decide_True by congruence. f_equal; congruence.
  - apply bool_decide_eq_false in Hc.
    unfold forward_counters, counters_of in *. simpl in *.
    rewrite decide_False by congruence. f_equal; congruence.
Qed.

Lemma async_commit_backward_counters w u w' :
  on_group_commit_backward w = Ok (u, w') →
  0 ≤ current_group (hd w) - 1 ∧
  ∃ win,
    layer_window_map (hd w) !! (offloaded_group_count (hd w) - 1) = Some win ∧
    counters_of (hd w') = backward_counters win (counters_of (hd w)).
Proof.
  unfold on_group_commit_backward. intros H.
  apply bind_Ok in H as ([] & w0 & Hm & H). apply modify_hd_inv in Hm as ->.
  apply bind_Ok in H as (h & w1 & Hg & H). apply gets_inv in Hg as [-> ->].
  apply bind_Ok in H as ([] & w2 & Ha & H). apply assert_inv in Ha as [Ha ->].
  apply bool_decide_eq_true in Ha. simpl in Ha. split; [done|].
  apply bind_Ok in H as (win & w3 & Hw & H).
  apply lookup_window_Ok in Hw as [-> Hw]. simpl in Hw.
  exists win. split; [done|].
  apply bind_Ok in H as ([] & w4 & H1 & H2). simpl in *.
  assert (counters_of (hd w') =
          mkCounters (handler_cls (hd w4)) (num_offload_group (hd w4))
            (tensor_need_offloading_checker (hd w4)) (current_group (hd w4))
            (tensor_count_current_group (hd w4)) (torch_tensor_count (hd w4))
            (num_layers (hd w4))
            (if decide (current_group (hd w) - 1 = 0) then 0
             else offloaded_group_count (hd w4))
            (layer_window_map (hd w4)) (double_buffering (hd w4))) as E2.
  { apply when_inv in H2 as [[Hc H2]|[Hc ->]].
    - apply bool_decide_eq_true in Hc. apply modify_hd_inv in H2 as ->.
      simpl. by rewrite decide_True.
    - apply bool_decide_eq_false in Hc. by rewrite decide_False. }
  rewrite E2. clear E2 H2. unfold backward_counters. simpl.
  apply when_inv in H1 as [[Hc H1]|[Hc ->]].
  - apply bool_decide_eq_true in Hc.
    apply bind_Ok in H1 as ([] & w5 & H3 & H1). counters_kept H3 E.
    apply modify_hd_inv in H1 as ->. simpl in *.
    rewrite (decide_True (P := win = _)) by done.
    f_equal; try congruence.
    case_decide; [done|]. case_bool_decide; case_decide; lia.
  - apply bool_decide_eq_false in Hc. simpl.
    rewrite (decide_False (P := win = _)) by done. done.
Qed.

Lemma async_tensor_pop_counters tg w e w' :
  tensor_pop tg w = Ok (e, w') → counters_of (hd w') = counters_of (hd w).
Proof. apply same_counters_tensor_pop. Qed.

Lemma async_tensor_push_counters t w tg w' :
  tensor_push t w = Ok (tg, w') →
  if is_stray_class (cls (objs w t)) then
    tg = (-1, torch_tensor_count (hd w)) ∧
    counters_of (hd w') =
      counters_of (set_torch_tensor_count (torch_tensor_count (hd w) + 1) (hd w))
  else
    tg = (current_group (hd w), tensor_count_current_group (hd w)) ∧
    dict_get tg (tensor_tag_to_state (hd w)) = None ∧
    counters_of (hd w') =
      counters_of (set_counters (current_group (hd w))
                     (tensor_count_current_group (hd w) + 1) (hd w)).
Proof.
  unfold tensor_push. intros H.
  apply bind_Ok in H as (c & w0 & Hg & H). apply gets_inv in Hg as [-> ->].
  apply bind_Ok in H as (h & w0 & Hg & H). apply gets_inv in Hg as [-> ->].
  destruct (is_stray_class _); simpl in H.
  - apply bind_Ok in H as ([] & w1 & Hm & H). apply modify_hd_inv in Hm as ->.
    apply bind_Ok in H as ([] & w2 & Hs & H). apply modify_hd_inv in Hs as ->.
    apply ret_inv in H as [-> ->]. done.
  - apply bind_Ok in H as ([] & w1 & Hm & H). apply modify_hd_inv in Hm as ->.
    apply bind_Ok in H as ([] & w2 & Ha & H). apply assert_inv in Ha as [Ha ->].
    apply negb_true_iff, dict_mem_false in Ha.
    apply bind_Ok in H as (l & w3 & Hl & H). counters_kept Hl E1.
    apply bind_Ok in H as ([] & w4 & Hf & H). counters_kept Hf E2.
    apply ret_inv in H as [-> ->].
    split; [done|]. split; [done|]. unfold counters_of. simpl in *.
    f_equal; congruence.
Qed.

(** ** Tags are never handed out twice (C7) *)

Lemma handler_tensor_push_async t w :
  handler_cls (hd w) = AsyncDoubleBuffer →
  handler_tensor_push t w = AsyncDoubleBufferGroupOffloadHandler.tensor_push t w.
Proof. intros H. unfold handler_tensor_push, bind, gets. by rewrite H. Qed.

Lemma handler_tensor_pop_async tg w :
  handler_cls (hd w) = AsyncDoubleBuffer →
  handler_tensor_pop tg w =
  (let* t := AsyncDoubleBufferGroupOffloadHandler.tensor_pop tg in ret (SOne t)) w.
Proof. intros H. unfold handler_tensor_pop, bind, gets. by rewrite H. Qed.

Lemma handler_commit_forward_async w :
  handler_cls (hd w) = AsyncDoubleBuffer →
  handler_on_group_commit_forward w =
  AsyncDoubleBufferGroupOffloadHandler.on_group_commit_forward w.
Proof. intros H. unfold handler_on_group_commit_forward, bind, gets. by rewrite H. Qed.

Lemma handler_commit_backward_async w :
  handler_cls (hd w) = AsyncDoubleBuffer →
  handler_on_group_commit_backward w =
  AsyncDoubleBufferGroupOffloadHandler.on_group_commit_backward w.
Proof. intros H. unfold handler_on_group_commit_backward, bind, gets. by rewrite H. Qed.

Lemma handler_commit_forward_sync w :
  handler_cls (hd w) = Synchronized →
  handler_on_group_commit_forward w =
  SynchronizedGroupOffloadHandler.on_group_commit_forward w.
Proof. intros H. unfold handler_on_group_commit_forward, bind, gets. by rewrite H. Qed.

Lemma handler_commit_backward_sync w :
  handler_cls (hd w) = Synchronized →
  handler_on_group_commit_backward w =
  SynchronizedGroupOffloadHandler.on_group_commit_backward w.
Proof. intros H. unfold handler_on_group_commit_backward, bind, gets. by rewrite H. Qed.

(** Inversion of [run_op], one operation at a time. *)
Lemma run_op_Push_Ok t w r w' :
  run_op (Push t) w = Ok (r, w') →
  ∃ tg, r = RTag tg ∧ handler_tensor_push t w = Ok (tg, w').
Proof.
  simpl. unfold CpuOffloadSavedTensorHook.on_save_for_backward. intros H.
  apply bind_Ok in H as (tg & w1 & Hp & H). apply ret_inv in H as [-> ->]. eauto.
Qed.

Lemma run_op_Pop_Ok tg w r w' :
  run_op (Pop tg) w = Ok (r, w') →
  ∃ s, r = RTensor s ∧ handler_tensor_pop tg w = Ok (s, w').
Proof.
  simpl. unfold CpuOffloadSavedTensorHook.on_get_saved_tensor. intros H.
  apply bind_Ok in H as (s & w1 & Hp & H). apply ret_inv in H as [-> ->]. eauto.
Qed.

Lemma run_op_CommitForward_Ok w r w' :
  run_op CommitForward w = Ok (r, w') →
  r = RUnit ∧ handler_on_group_commit_forward w = Ok (tt, w').
Proof.
  simpl. unfold GroupCommitFunction.forward. intros H.
  apply bind_Ok in H as (e & w1 & Hp & H). apply ret_inv in H as [-> ->].
  apply bind_Ok in Hp as ([] & w2 & Hp & H). apply ret_inv in H as [-> ->]. done.
Qed.

Lemma run_op_CommitBackward_Ok w r w' :
  run_op CommitBackward w = Ok (r, w') →
  r = RUnit ∧ handler_on_group_commit_backward w = Ok (tt, w').
Proof.
  simpl. unfold GroupCommitFunction.backward. intros H.
  apply bind_Ok in H as (e & w1 & Hp & H). apply ret_inv in H as [-> ->].
  apply bind_Ok in Hp as ([] & w2 & Hp & H). apply ret_inv in H as [-> ->]. done.
Qed.

Lemma run_cons_Ok o ops w rs w' :
  run (o :: ops) w = Ok (rs, w') →
  ∃ r w1 rest, run_op o w = Ok (r, w1) ∧ run ops w1 = Ok (rest, w') ∧
               rs = (r, w1) :: rest.
Proof.
  simpl. intros H.
  apply bind_Ok in H as (r & w1 & Ho & H).
  apply bind_Ok in H as (w1' & w1'' & Hg & H). injection Hg as <- <-.
  apply bind_Ok in H as (rest & w2 & Hr & H). apply ret_inv in H as [-> ->].
  eauto 10.
Qed.

Lemma run_app_Ok ops1 ops2 w rs w' :
  run (ops1 ++ ops2) w = Ok (rs, w') →
  ∃ rs1 w1 rs2, run ops1 w = Ok (rs1, w1) ∧ run ops2 w1 = Ok (rs2, w') ∧
                rs = rs1 ++ rs2.
Proof.
  revert w rs. induction ops1 as [|o ops1 IH]; intros w rs H.
  - exists [], w, rs. done.
  - simpl in H. apply run_cons_Ok in H as (r & w1 & rest & Ho & Hr & ->).
    apply IH in Hr as (rs1 & w2 & rs2 & H1 & H2 & ->).
    exists ((r, w1) :: rs1), w2, rs2. split; [|done].
    simpl. unfold bind. rewrite Ho. unfold get. by rewrite H1.
Qed.

(** What a forward operation returns, and where it leaves the counters from
    which tags are made. *)
Lemma run_op_forward_counters o w r w' :
  run_op o w = Ok (r, w') → forward_op o →
  handler_cls (hd w') = handler_cls (hd w) ∧
  match o with
  | Push _ =>
      ∃ tg, r = RTag tg ∧ current_group (hd w') = current_group (hd w) ∧
        ((tg = (current_group (hd w), tensor_count_current_group (hd w)) ∧
          tensor_count_current_group (hd w')
            = tensor_count_current_group (hd w) + 1 ∧
          torch_tensor_count (hd w') = torch_tensor_count (hd w)) ∨
         (tg = (-1, torch_tensor_count (hd w)) ∧
          tensor_count_current_group (hd w') = tensor_count_current_group (hd w) ∧
          torch_tensor_count (hd w') = torch_tensor_count (hd w) + 1))
  | Pop _ =>
      tag_of (r, w') = None ∧
      current_group (hd w') = current_group (hd w) ∧
      tensor_count_current_group (hd w') = tensor_count_current_group (hd w) ∧
      torch_tensor_count (hd w') = torch_tensor_count (hd w)
  | CommitForward =>
      tag_of (r, w') = None ∧
      current_group (hd w') = current_group (hd w) + 1 ∧
      tensor_count_current_group (hd w') = 0 ∧
      torch_tensor_count (hd w') = torch_tensor_count (hd w)
  | CommitBackward => True
  end.
Proof.
  intros Hrun Hfwd. destruct (handler_cls (hd w)) eqn:Hcls.
  - (* SynchronizedGroupOffloadHandler *)
    destruct o as [t|tg| |].
    + apply run_op_Push_Ok in Hrun as (tg & -> & Hp).
      rewrite handler_tensor_push_sync in Hp by done.
      apply sync_tensor_push_Ok in Hp as (-> & _ & e & -> & _). simpl.
      split; [done|]. eexists. split; [done|]. split; [done|]. left. done.
    + apply run_op_Pop_Ok in Hrun as (s & -> & Hp).
      rewrite handler_tensor_pop_sync in Hp by done.
      apply sync_tensor_pop_Ok in Hp as (st & _ & -> & _). done.
    + apply run_op_CommitForward_Ok in Hrun as (-> & Hc).
      rewrite handler_commit_forward_sync in Hc by done.
      apply modify_hd_inv in Hc as ->. done.
    + done.
  - (* AsyncDoubleBufferGroupOffloadHandler *)
    destruct o as [t|tg| |].
    + apply run_op_Push_Ok in Hrun as (tg & -> & Hp).
      rewrite handler_tensor_push_async in Hp by done.
      apply async_tensor_push_counters in Hp.
      destruct (is_stray_class _).
      * destruct Hp as (-> & E). injection E as ? ? ? ? ? ? ? ? ? ?.
        split; [congruence|]. eexists. split; [done|]. split; [done|].
        right. done.
      * destruct Hp as (-> & _ & E). injection E as ? ? ? ? ? ? ? ? ? ?.
        split; [congruence|]. eexists. split; [done|]. split; [done|].
        left. done.
    + apply run_op_Pop_Ok in Hrun as (s & -> & Hp).
      rewrite handler_tensor_pop_async in Hp by done.
      apply bind_Ok in Hp as (e & w1 & Hp & Hr). apply ret_inv in Hr as [-> ->].
      apply async_tensor_pop_counters in Hp.
      injection Hp as ? ? ? ? ? ? ? ? ? ?. split; [congruence|]. done.
    + apply run_op_CommitForward_Ok in Hrun as (-> & Hc).
      rewrite handler_commit_forward_async in Hc by done.
      apply async_commit_forward_counters in Hc as (win & _ & E).
      injection E as ? ? ? ? ? ? ? ? ? ?. split; [congruence|]. done.
    + done.
Qed.

Lemma run_forward_tags ops w rs w' :
  Forall forward_op ops → 0 ≤ current_group (hd w) →
  run ops w = Ok (rs, w') →
  NoDup (tags_of rs) ∧ ∀ tg, tg ∈ tags_of rs → not_yet_used w tg.
Proof.
  intros Hops. revert w rs.
  induction Hops as [|o ops Ho _ IH]; intros w rs Hcg Hrun.
  - apply ret_inv in Hrun as [-> ->]. split; [constructor|].
    intros tg Htg. by apply elem_of_nil in Htg.
  - apply run_cons_Ok in Hrun as (r & w1 & rest & Hop & Hrest & ->).
    pose proof (run_op_forward_counters _ _ _ _ Hop Ho) as [_ Hc].
    unfold tags_of. simpl. fold (tags_of rest).
    destruct o as [t|tg0| |]; [| | |done].
    + destruct Hc as (tg & -> & Hcg1 & Hc). simpl.
      destruct (IH w1 rest ltac:(lia) Hrest) as [Hnd Hlater].
      assert (∀ tg', tg' ∈ tags_of rest → not_yet_used w tg' ∧ tg' ≠ tg) as Hrest'.
      { intros tg' Hin. apply Hlater in Hin. unfold not_yet_used in *.
        destruct tg' as [g n].
        destruct Hc as [(-> & Hn & Ht)|(-> & Hn & Ht)]; simpl in *;
          (split; [lia|intros [= -> ->]; lia]). }
      split.
      * constructor; [|done]. intros Hin. by apply Hrest' in Hin as [_ ?].
      * intros tg' [->|Hin]%elem_of_cons; [|by apply Hrest'].
        unfold not_yet_used.
        destruct Hc as [(-> & _)|(-> & _)]; simpl; lia.
    + destruct Hc as (-> & Hcg1 & Hn & Ht).
      destruct (IH w1 rest ltac:(lia) Hrest) as [Hnd Hlater].
      split; [done|]. intros tg' Hin. apply Hlater in Hin.
      unfold not_yet_used in *. lia.
    + destruct Hc as (-> & Hcg1 & Hn & Ht).
      destruct (IH w1 rest ltac:(lia) Hrest) as [Hnd Hlater].
      split; [done|]. intros tg' Hin. apply Hlater in Hin.
      unfold not_yet_used in *. lia.
Qed.

Lemma run_backward_tags ops w rs w' :
  Forall backward_op ops → run ops w = Ok (rs, w') → tags_of rs = [].
Proof.
  intros Hops. revert w rs. induction Hops as [|o ops Ho _ IH]; intros w rs Hrun.
  - by apply ret_inv in Hrun as [-> ->].
  - apply run_cons_Ok in Hrun as (r & w1 & rest & Hop & Hrest & ->).
    specialize (IH _ _ Hrest).
    destruct o as [t|tg0| |]; [done| | |].
    + by apply run_op_Pop_Ok in Hop as (s & -> & _).
    + by apply run_op_CommitForward_Ok in Hop as (-> & _).
    + by apply run_op_CommitBackward_Ok in Hop as (-> & _).
Qed.

(** C7, as the code has it.  In a session made of a forward pass (pushes,
    forward commits, and any pops) followed by a reverse pass (pops and
    commits, no push), run on either handler from a world whose group
    counter is not negative, the tags returned by [tensor_push] are pairwise
    distinct; and a push of a non-stray tensor whose tag
    [(current_group, tensor_count_current_group)] is still in
    [tensor_tag_to_state] raises AssertionError instead of returning it.
    A push that follows a backward commit is outside this: the forward
    commit has reset the count of its group, so the push may return a tag
    that was returned before and has been fetched since. *)
Theorem pushed_tags_are_distinct (w w' : world) (fwd bwd : list op)
    (rs : list (retval * world)) :
  0 ≤ current_group (hd w) →
  Forall forward_op fwd → Forall backward_op bwd →
  run (fwd ++ bwd) w = Ok (rs, w') →
  NoDup (tags_of rs) ∧
  ∀ w0 t,
    dict_mem (current_group (hd w0), tensor_count_current_group (hd w0))
             (tensor_tag_to_state (hd w0)) = true →
    SynchronizedGroupOffloadHandler.tensor_push t w0 = Raise AssertionError ∧
    (is_stray_class (cls (objs w0 t)) = false →
     AsyncDoubleBufferGroupOffloadHandler.tensor_push t w0 = Raise AssertionError).
Proof.
  intros Hcg Hfwd Hbwd Hrun. split.
  - apply run_app_Ok in Hrun as (rs1 & w1 & rs2 & H1 & H2 & ->).
    unfold tags_of. rewrite omap_app. fold (tags_of rs1) (tags_of rs2).
    rewrite (run_backward_tags _ _ _ _ Hbwd H2), app_nil_r.
    by eapply run_forward_tags.
  - intros w0 t Hmem. split.
    + unfold SynchronizedGroupOffloadHandler.tensor_push, bind, gets. simpl.
      by rewrite Hmem.
    + intros Hs.
      unfold AsyncDoubleBufferGroupOffloadHandler.tensor_push, bind, gets.
      rewrite Hs. simpl. by rewrite Hmem.
Qed.

Lemma run_results ops w :
  succeeds (run ops) w = true →
  run ops w = Ok (results_of ops w, after (run ops) w).
Proof.
  unfold succeeds, results_of, after. by destruct (run ops w) as [[rs w']|e].
Qed.

Lemma pushed_tags_are_distinct_witness :
  let w := world_of [plain_tensor [1]; with_class FakeTensor (plain_tensor [2])]
             (AsyncDoubleBufferGroupOffloadHandler.init 1 1
                tensor_need_offloading_checker_activations false) in
  let fwd := [Push 0%nat; Push 1%nat; Push 0%nat; CommitForward] in
  let bwd := [CommitBackward; Pop (0, 1); Pop (-1, 0); Pop (0, 0)] in
  succeeds (run (fwd ++ bwd)) w = true ∧
  tags_of (results_of (fwd ++ bwd) w) = [(0, 0); (-1, 0); (0, 1)] ∧
  NoDup (tags_of (results_of (fwd ++ bwd) w)).
Proof.
  intros w fwd bwd.
  assert (succeeds (run (fwd ++ bwd)) w = true) as Hok by (vm_compute; reflexivity).
  split; [exact Hok|]. split; [vm_compute; reflexivity|].
  assert (Forall forward_op fwd) as Hf by (repeat constructor; discriminate).
  assert (Forall backward_op bwd) as Hb by (repeat constructor).
  exact (proj1 (pushed_tags_are_distinct w _ fwd bwd _ ltac:(simpl; lia) Hf Hb
                  (run_results _ _ Hok))).
Defined.

(** The claim as stated fails: tags are not distinct over a whole session.
    When a tensor is saved during the reverse pass, after the tag [(1, 0)]
    of the forward pass has been fetched, the push returns [(1, 0)] again
    and no assertion fails, with either handler. *)
Lemma pushed_tag_repeats_counterexample :
  let os := [plain_tensor [1]; plain_tensor [2]; plain_tensor [3]] in
  let ws := world_of os (SynchronizedGroupOffloadHandler.init 2 checker_default) in
  let wa := world_of os (AsyncDoubleBufferGroupOffloadHandler.init 2 2
                           tensor_need_offloading_checker_activations false) in
  let ops := [Push 0%nat; CommitForward; Push 1%nat; CommitForward;
              CommitBackward; Pop (1, 0); Push 2%nat; Pop (1, 0);
              CommitBackward; Pop (0, 0)] in
  succeeds (run ops) ws = true ∧
  tags_of (results_of ops ws) = [(0, 0); (1, 0); (1, 0)] ∧
  succeeds (run ops) wa = true ∧
  tags_of (results_of ops wa) = [(0, 0); (1, 0); (1, 0)] ∧
  ¬ NoDup (tags_of (results_of ops ws)) ∧
  ¬ NoDup (tags_of (results_of ops wa)).
Proof.
  intros os ws wa ops.
  assert (tags_of (results_of ops ws) = [(0, 0); (1, 0); (1, 0)]) as Hs
    by (vm_compute; reflexivity).
  assert (tags_of (results_of ops wa) = [(0, 0); (1, 0); (1, 0)]) as Ha
    by (vm_compute; reflexivity).
  assert (¬ NoDup [((0, 0) : tag); (1, 0); (1, 0)]) as Hdup.
  { intros H. apply NoDup_cons in H as [_ H]. apply NoDup_cons in H as [H _].
    apply H. apply list_elem_of_here. }
  split; [vm_compute; reflexivity|]. split; [exact Hs|].
  split; [vm_compute; reflexivity|]. split; [exact Ha|].
  rewrite Hs, Ha. split; exact Hdup.
Qed.

(** ** Leaving the hook context (C8) *)

(** C8, as the code has it.  Leaving the scoped context never looks at the
    handler: whenever a pair of hooks is registered, [__exit__] succeeds
    whatever the three maps of the handler hold, clears the global flag and
    [inside_context], unregisters the pair, and leaves the handler and the
    objects as they were. *)
Theorem exit_ignores_handler_maps (w : world) (h : handler) :
  saved_tensors_default_hooks w ≠ [] →
  ∃ w', CpuOffloadSavedTensorHook.exit (with_hd h w) = Ok (tt, w') ∧
        hd w' = h ∧ objs w' = objs w ∧
        CPUOffloadEnabled w' = false ∧ inside_context w' = false ∧
        saved_tensors_default_hooks w' = tail (saved_tensors_default_hooks w).
Proof.
  intros Hne. unfold CpuOffloadSavedTensorHook.exit, bind, modify, gets. simpl.
  destruct (saved_tensors_default_hooks w) as [|p rest]; [done|].
  eexists. split; [reflexivity|]. done.
Qed.

Lemma exit_ignores_handler_maps_witness :
  saved_tensors_default_hooks leaking_world ≠ [] ∧
  succeeds CpuOffloadSavedTensorHook.exit (with_hd (hd leaking_world) leaking_world)
  = true.
Proof.
  assert (saved_tensors_default_hooks leaking_world ≠ []) as Hne
    by (vm_compute; discriminate).
  split; [exact Hne|].
  destruct (exit_ignores_handler_maps leaking_world (hd leaking_world) Hne)
    as (w' & Hrun & _).
  unfold succeeds. rewrite Hrun. reflexivity.
Defined.

(** The claim as stated fails: here two of the three maps are not empty and
    leaving the context raises nothing. *)
Lemma exit_with_nonempty_maps_counterexample :
  tensor_tag_to_state (hd leaking_world) ≠ [] ∧
  tensor_tag_to_buf (hd leaking_world) ≠ [] ∧
  succeeds CpuOffloadSavedTensorHook.exit leaking_world = true.
Proof.
  split; [vm_compute; discriminate|].
  split; [vm_compute; discriminate|].
  vm_compute. reflexivity.
Qed.

(** ** The count of offloaded groups over a session (C5) *)

Lemma run_op_async_counters o w r w' :
  handler_cls (hd w) = AsyncDoubleBuffer →
  run_op o w = Ok (r, w') →
  handler_cls (hd w') = AsyncDoubleBuffer ∧
  num_offload_group (hd w') = num_offload_group (hd w) ∧
  num_layers (hd w') = num_layers (hd w) ∧
  layer_window_map (hd w') = layer_window_map (hd w) ∧
  match o with
  | Push _ | Pop _ =>
      current_group (hd w') = current_group (hd w) ∧
      offloaded_group_count (hd w') = offloaded_group_count (hd w)
  | CommitForward =>
      ∃ win,
        layer_window_map (hd w) !! offloaded_group_count (hd w) = Some win ∧
        current_group (hd w') = current_group (hd w) + 1 ∧
        offloaded_group_count (hd w') =
          if decide (win = current_group (hd w))
          then offloaded_group_count (hd w) + 1
          else offloaded_group_count (hd w)
  | CommitBackward =>
      0 ≤ current_group (hd w) - 1 ∧
      ∃ win,
        layer_window_map (hd w) !! (offloaded_group_count (hd w) - 1) = Some win ∧
        current_group (hd w') = current_group (hd w) - 1 ∧
        offloaded_group_count (hd w') =
          if decide (current_group (hd w) - 1 = 0) then 0
          else if decide (win = current_group (hd w) - 1) then
            offloaded_group_count (hd w)
            - (if decide (1 < offloaded_group_count (hd w)) then 1 else 0)
          else offloaded_group_count (hd w)
  end.
Proof.
  intros Hcls Hrun. destruct o as [t|tg| |].
  - apply run_op_Push_Ok in Hrun as (tg & -> & Hp).
    rewrite handler_tensor_push_async in Hp by done.
    apply async_tensor_push_counters in Hp.
    destruct (is_stray_class _).
    + destruct Hp as (_ & E). injection E as ? ? ? ? ? ? ? ? ? ?.
      repeat split; congruence.
    + destruct Hp as (_ & _ & E). injection E as ? ? ? ? ? ? ? ? ? ?.
      repeat split; congruence.
  - apply run_op_Pop_Ok in Hrun as (s & -> & Hp).
    rewrite handler_tensor_pop_async in Hp by done.
    apply bind_Ok in Hp as (e & w1 & Hp & Hr). apply ret_inv in Hr as [-> ->].
    apply async_tensor_pop_counters in Hp.
    injection Hp as ? ? ? ? ? ? ? ? ? ?. repeat split; congruence.
  - apply run_op_CommitForward_Ok in Hrun as (-> & Hc).
    rewrite handler_commit_forward_async in Hc by done.
    apply async_commit_forward_counters in Hc as (win & Hw & E).
    injection E as ? ? ? ? ? ? ? ? ? ?.
    split; [congruence|]. split; [congruence|]. split; [congruence|].
    split; [congruence|]. exists win. split; [done|]. split; congruence.
  - apply run_op_CommitBackward_Ok in Hrun as (-> & Hc).
    rewrite handler_commit_backward_async in Hc by done.
    apply async_commit_backward_counters in Hc as (Hcg & win & Hw & E).
    injection E as ? ? ? ? ? ? ? ? ? ?.
    split; [congruence|]. split; [congruence|]. split; [congruence|].
    split; [congruence|]. split; [done|]. exists win. split; [done|].
    split; congruence.
Qed.

Lemma window_lookup_inv G L i win :
  0 < G →
  AsyncDoubleBufferGroupOffloadHandler.build_layer_window_map L G !! i = Some win →
  0 ≤ i < G ∧ win = window_end L G i.
Proof.
  intros HG. rewrite build_layer_window_map_lookup by done.
  case_decide; [|done]. by intros [= <-].
Qed.

Lemma window_end_mono_le L G i j :
  0 < G → G ≤ L → 0 ≤ i → i ≤ j → window_end L G i ≤ window_end L G j.
Proof.
  intros HG HL Hi Hij. destruct (decide (i = j)) as [->|]; [lia|].
  pose proof (window_end_mono L G i j HG HL Hi). lia.
Qed.

Lemma window_end_lt_inv L G i j :
  0 < G → G ≤ L → 0 ≤ j → window_end L G i < window_end L G j → i < j.
Proof.
  intros HG HL Hj Hlt. destruct (decide (i < j)); [done|].
  pose proof (window_end_mono_le L G j i HG HL Hj). lia.
Qed.

Lemma forward_inv_start G L w :
  1 ≤ G → G ≤ L → session_start G L w → forward_inv G L w.
Proof.
  intros HG HL (Hc & HGw & HLw & Hwin & Hcg & Hogc).
  split; [done|]. rewrite Hcg, Hogc. split; [done|]. split; [lia|].
  intros i Hi. pose proof (window_end_first L G ltac:(lia) HL).
  pose proof (window_end_mono_le L G 0 i ltac:(lia) HL ltac:(lia) ltac:(lia)).
  lia.
Qed.

Lemma forward_inv_step G L o w r w' :
  1 ≤ G → G ≤ L → forward_op o →
  forward_inv G L w → run_op o w = Ok (r, w') →
  forward_inv G L w' ∧
  offloaded_group_count (hd w) ≤ offloaded_group_count (hd w') ∧
  current_group (hd w') =
    current_group (hd w) + (if decide (o = CommitForward) then 1 else 0).
Proof.
  intros HG HL Hfwd ((Hcls & HGw & HLw & Hwin) & Hcg & Hogc & Hiff) Hrun.
  apply run_op_async_counters in Hrun as (Hcls' & HG' & HL' & Hwin' & Hc);
    [|done].
  assert (async_config G L w') as Hcfg by (repeat split; congruence).
  destruct o as [t|tg| |]; [| | |done].
  - destruct Hc as [Hc1 Hc2]. rewrite decide_False by done.
    split; [|lia]. split; [done|]. rewrite Hc1, Hc2. auto.
  - destruct Hc as [Hc1 Hc2]. rewrite decide_False by done.
    split; [|lia]. split; [done|]. rewrite Hc1, Hc2. auto.
  - destruct Hc as (win & Hw & Hcg' & Hogc').
    rewrite (decide_True (P := CommitForward = CommitForward)) by done.
    rewrite Hwin in Hw. apply window_lookup_inv in Hw as [Hrange ->]; [|lia].
    unfold forward_inv. rewrite Hcg', Hogc'. clear Hcg' Hogc'.
    set (ogc := offloaded_group_count (hd w)) in *.
    set (cg := current_group (hd w)) in *.
    assert (cg ≤ window_end L G ogc) as Hge.
    { destruct (Hiff ogc Hrange) as [_ H2].
      destruct (decide (window_end L G ogc < cg)) as [Hlt|]; [|lia].
      specialize (H2 Hlt). lia. }
    case_decide as Heq.
    + split; [|lia]. split; [done|]. split; [lia|]. split; [lia|].
      intros i Hi. split.
      * intros Hlt. destruct (decide (i = ogc)) as [->|]; [lia|].
        assert (i < ogc) as Hi' by lia. apply Hiff in Hi'; [lia|done].
      * intros Hlt. destruct (decide (i < ogc + 1)); [done|].
        pose proof (window_end_mono L G ogc i ltac:(lia) HL ltac:(lia) ltac:(lia)).
        lia.
    + split; [|lia]. split; [done|]. split; [lia|]. split; [lia|].
      intros i Hi. split.
      * intros Hlt. apply Hiff in Hlt; [lia|done].
      * intros Hlt. destruct (decide (i < ogc)); [done|].
        pose proof (window_end_mono_le L G ogc i ltac:(lia) HL ltac:(lia) ltac:(lia)).
        lia.
Qed.

Lemma forward_inv_run G L ops w rs w' :
  1 ≤ G → G ≤ L → Forall forward_op ops →
  forward_inv G L w → run ops w = Ok (rs, w') →
  forward_inv G L w' ∧
  Sorted Z.le (offloaded_group_count (hd w) :: group_counts rs) ∧
  current_group (hd w') = current_group (hd w) + Z.of_nat (commits_forward ops).
Proof.
  intros HG HL Hops. revert w rs.
  induction Hops as [|o ops Ho _ IH]; intros w rs Hinv Hrun.
  - apply ret_inv in Hrun as [-> ->]. split; [done|].
    split; [repeat constructor|]. unfold commits_forward. simpl. lia.
  - apply run_cons_Ok in Hrun as (r & w1 & rest & Hop & Hrest & ->).
    destruct (forward_inv_step G L o w r w1 HG HL Ho Hinv Hop) as (Hinv1 & Hle & Hcg).
    destruct (IH w1 rest Hinv1 Hrest) as (Hinv' & Hs & Hcg').
    split; [done|]. split.
    + simpl. constructor; [done|]. by constructor.
    + rewrite Hcg', Hcg. unfold commits_forward. rewrite filter_cons.
      repeat case_decide; simpl; try done; lia.
Qed.

Lemma forward_inv_end G L w :
  1 ≤ G → G ≤ L → forward_inv G L w → current_group (hd w) = L →
  offloaded_group_count (hd w) = G.
Proof.
  intros HG HL (_ & _ & Hogc & Hiff) Hcg.
  destruct (Hiff (G - 1) ltac:(lia)) as [_ H2].
  rewrite window_end_last, Hcg in H2 by lia. specialize (H2 ltac:(lia)). lia.
Qed.

Lemma backward_inv_start G L w :
  1 ≤ G → G ≤ L → forward_inv G L w → current_group (hd w) = L →
  backward_inv G L w.
Proof.
  intros HG HL Hinv Hcg. pose proof (forward_inv_end G L w HG HL Hinv Hcg) as Hogc.
  destruct Hinv as (Hcfg & _). split; [done|]. right.
  rewrite Hcg, Hogc. split; [lia|]. split; [lia|]. split; [intros; lia|].
  intros i Hi.
  pose proof (window_end_mono_le L G i (G - 1) ltac:(lia) HL ltac:(lia) ltac:(lia)).
  rewrite window_end_last in H by lia. lia.
Qed.

Lemma backward_inv_step G L o w r w' :
  1 ≤ G → G ≤ L → o ≠ CommitForward →
  backward_inv G L w → run_op o w = Ok (r, w') →
  backward_inv G L w' ∧
  offloaded_group_count (hd w') ≤ offloaded_group_count (hd w) ∧
  current_group (hd w') =
    current_group (hd w) - (if decide (o = CommitBackward) then 1 else 0).
Proof.
  intros HG HL Hbwd ((Hcls & HGw & HLw & Hwin) & Hinv) Hrun.
  apply run_op_async_counters in Hrun as (Hcls' & HG' & HL' & Hwin' & Hc);
    [|done].
  assert (async_config G L w') as Hcfg by (repeat split; congruence).
  destruct o as [t|tg| |]; [| |done|].
  - destruct Hc as [Hc1 Hc2]. rewrite decide_False by done.
    split; [|lia]. split; [done|]. rewrite Hc1, Hc2. auto.
  - destruct Hc as [Hc1 Hc2]. rewrite decide_False by done.
    split; [|lia]. split; [done|]. rewrite Hc1, Hc2. auto.
  - destruct Hc as (Hcg & win & Hw & Hcg' & Hogc').
    rewrite (decide_True (P := CommitBackward = CommitBackward)) by done.
    destruct Hinv as [[Hz _]|(Hcg1 & Hogc & Ha & Hb)]; [lia|].
    rewrite Hwin in Hw. apply window_lookup_inv in Hw as [Hrange ->]; [|lia].
    unfold backward_inv. rewrite Hcg', Hogc'. clear Hcg' Hogc'.
    set (ogc := offloaded_group_count (hd w)) in *.
    set (cg := current_group (hd w)) in *.
    case_decide as Hzero.
    { split; [|lia]. split; [done|]. left. split; [lia|done]. }
    case_decide as Heq.
    + split; [|case_decide; lia]. split; [done|]. right.
      split; [lia|]. split; [case_decide; lia|]. split.
      * intros i Hi Hlt. rewrite <- Heq in Hlt.
        apply window_end_lt_inv in Hlt; [|lia|lia|lia]. case_decide; lia.
      * intros i Hi. rewrite <- Heq. apply window_end_mono; [lia|lia|lia|].
        case_decide; lia.
    + split; [|lia]. split; [done|]. right.
      split; [lia|]. split; [lia|]. split.
      * intros i Hi Hlt. apply Ha; [done|lia].
      * intros i Hi. destruct (decide (i = ogc - 1)) as [->|].
        -- specialize (Hb (ogc - 1) ltac:(lia)). lia.
        -- specialize (Hb (ogc - 1) ltac:(lia)).
           pose proof (window_end_mono L G i (ogc - 1) ltac:(lia) HL ltac:(lia) ltac:(lia)).
           lia.
Qed.

Lemma backward_inv_run G L ops w rs w' :
  1 ≤ G → G ≤ L → Forall (fun o => o ≠ CommitForward) ops →
  backward_inv G L w → run ops w = Ok (rs, w') →
  backward_inv G L w' ∧
  Sorted Z.ge (offloaded_group_count (hd w) :: group_counts rs) ∧
  current_group (hd w') = current_group (hd w) - Z.of_nat (commits_backward ops).
Proof.
  intros HG HL Hops. revert w rs.
  induction Hops as [|o ops Ho _ IH]; intros w rs Hinv Hrun.
  - apply ret_inv in Hrun as [-> ->]. split; [done|].
    split; [repeat constructor|]. unfold commits_backward. simpl. lia.
  - apply run_cons_Ok in Hrun as (r & w1 & rest & Hop & Hrest & ->).
    destruct (backward_inv_step G L o w r w1 HG HL Ho Hinv Hop) as (Hinv1 & Hle & Hcg).
    destruct (IH w1 rest Hinv1 Hrest) as (Hinv' & Hs & Hcg').
    split; [done|]. split.
    + simpl. constructor; [done|]. constructor. lia.
    + rewrite Hcg', Hcg. unfold commits_backward. rewrite filter_cons.
      repeat case_decide; simpl; try done; lia.
Qed.

Lemma commit_forward_empty_maps w win :
  empty_maps w →
  layer_window_map (hd w) !! offloaded_group_count (hd w) = Some win →
  ∃ w', AsyncDoubleBufferGroupOffloadHandler.on_group_commit_forward w = Ok (tt, w') ∧
        untouched w w' ∧ empty_maps w'.
Proof.
  destruct w as [ob nx f8 cl h en ic st dbg].
  destruct h as [k G chk cg cnt tc S L B O C D ogc wm db [r0 r1] created].
  unfold empty_maps, untouched. simpl. intros (-> & -> & ->) Hw.
  unfold AsyncDoubleBufferGroupOffloadHandler.on_group_commit_forward,
    AsyncDoubleBufferGroupOffloadHandler.synchronize_on_group_commit_forward,
    AsyncDoubleBufferGroupOffloadHandler.bulk_offload_group,
    AsyncDoubleBufferGroupOffloadHandler.lookup_window,
    SynchronizedGroupOffloadHandler.on_group_commit_forward,
    for_items, fold_items, bind, gets, modify_hd, modify, when. simpl.
  destruct (bool_decide (cg = 0)); destruct created; simpl; rewrite Hw; simpl;
    destruct (bool_decide (win = cg)); simpl;
    repeat (match goal with |- context [bool_decide ?P] => destruct (bool_decide P) end;
            simpl);
    eexists; (split; [reflexivity|]); simpl; done.
Qed.

Lemma commit_backward_empty_maps w win :
  empty_maps w →
  1 ≤ current_group (hd w) →
  offloaded_group_count (hd w) - 1 < num_offload_group (hd w) →
  layer_window_map (hd w) !! (offloaded_group_count (hd w) - 1) = Some win →
  ∃ w', AsyncDoubleBufferGroupOffloadHandler.on_group_commit_backward w = Ok (tt, w') ∧
        untouched w w' ∧ empty_maps w'.
Proof.
  destruct w as [ob nx f8 cl h en ic st dbg].
  destruct h as [k G chk cg cnt tc S L B O C D ogc wm db [r0 r1] created].
  unfold empty_maps, untouched. simpl. intros (-> & -> & ->) Hcg Hogc Hw.
  unfold AsyncDoubleBufferGroupOffloadHandler.on_group_commit_backward,
    AsyncDoubleBufferGroupOffloadHandler.bulk_reload_group,
    AsyncDoubleBufferGroupOffloadHandler.lookup_window,
    for_items, fold_items, bind, gets, modify_hd, modify, when. simpl.
  rewrite bool_decide_eq_true_2 by lia. simpl. rewrite Hw. simpl.
  destruct (bool_decide (win = cg - 1)); simpl.
  - rewrite bool_decide_eq_true_2 by lia. simpl.
    destruct (bool_decide (cg - 1 = 0)); simpl;
      eexists; (split; [reflexivity|]); simpl; done.
  - destruct (bool_decide (cg - 1 = 0)); simpl;
      eexists; (split; [reflexivity|]); simpl; done.
Qed.

#[global] Instance untouched_preorder : PreOrder untouched.
Proof.
  split.
  - intros w. by repeat split.
  - intros w1 w2 w3 (? & ? & ? & ? & ? & ? & ?) (? & ? & ? & ? & ? & ? & ?).
    repeat split; congruence.
Qed.

Lemma run_op_CommitForward_async w w' :
  handler_cls (hd w) = AsyncDoubleBuffer →
  AsyncDoubleBufferGroupOffloadHandler.on_group_commit_forward w = Ok (tt, w') →
  run_op CommitForward w = Ok (RUnit, w').
Proof.
  intros Hcls H. simpl. unfold GroupCommitFunction.forward, bind.
  rewrite handler_commit_forward_async by done. by rewrite H.
Qed.

Lemma run_op_CommitBackward_async w w' :
  handler_cls (hd w) = AsyncDoubleBuffer →
  AsyncDoubleBufferGroupOffloadHandler.on_group_commit_backward w = Ok (tt, w') →
  run_op CommitBackward w = Ok (RUnit, w').
Proof.
  intros Hcls H. simpl. unfold GroupCommitFunction.backward, bind.
  rewrite handler_commit_backward_async by done. by rewrite H.
Qed.

Lemma run_cons_run o ops w r w1 rest w' :
  run_op o w = Ok (r, w1) → run ops w1 = Ok (rest, w') →
  run (o :: ops) w = Ok ((r, w1) :: rest, w').
Proof.
  intros H1 H2. cbn [run]. unfold bind at 1. rewrite H1.
  unfold bind, get. by rewrite H2.
Qed.

Lemma forward_commits_run G L (n : nat) w :
  1 ≤ G → G ≤ L → forward_inv G L w → empty_maps w →
  current_group (hd w) + Z.of_nat n ≤ L →
  ∃ rs w', run (replicate n CommitForward) w = Ok (rs, w') ∧
           untouched w w' ∧ empty_maps w' ∧ forward_inv G L w' ∧
           current_group (hd w') = current_group (hd w) + Z.of_nat n.
Proof.
  intros HG HL. revert w. induction n as [|n IH]; intros w Hinv Hemp Hcg.
  - exists [], w. split; [done|]. split; [reflexivity|]. split; [done|].
    split; [done|]. lia.
  - pose proof Hinv as ((Hcls & HGw & HLw & Hwin) & Hcg0 & Hogc & Hiff).
    assert (offloaded_group_count (hd w) < G) as Hlt.
    { destruct (Hiff (G - 1) ltac:(lia)) as [H1 _].
      rewrite window_end_last in H1 by lia.
      destruct (decide (G - 1 < offloaded_group_count (hd w))) as [Hc|]; [|lia].
      specialize (H1 Hc). lia. }
    destruct (commit_forward_empty_maps w
                (window_end L G (offloaded_group_count (hd w))) Hemp)
      as (w1 & Hrun1 & Hun1 & Hemp1).
    { rewrite Hwin, build_layer_window_map_lookup by lia.
      by rewrite decide_True by lia. }
    apply run_op_CommitForward_async in Hrun1; [|done].
    destruct (forward_inv_step G L CommitForward w RUnit w1 HG HL
                ltac:(done) Hinv Hrun1) as (Hinv1 & _ & Hcg1).
    rewrite decide_True in Hcg1 by done.
    destruct (IH w1 Hinv1 Hemp1 ltac:(lia)) as (rs & w' & Hrun & Hun & Hemp' & Hinv' & Hcg').
    exists ((RUnit, w1) :: rs), w'. split.
    { by apply (run_cons_run CommitForward). }
    split; [by etrans|]. split; [done|]. split; [done|]. lia.
Qed.

Lemma backward_commits_run G L (n : nat) w :
  1 ≤ G → G ≤ L → backward_inv G L w → empty_maps w →
  Z.of_nat n ≤ current_group (hd w) →
  ∃ rs w', run (replicate n CommitBackward) w = Ok (rs, w') ∧
           untouched w w' ∧ empty_maps w' ∧ backward_inv G L w' ∧
           current_group (hd w') = current_group (hd w) - Z.of_nat n.
Proof.
  intros HG HL. revert w. induction n as [|n IH]; intros w Hinv Hemp Hcg.
  - exists [], w. split; [done|]. split; [reflexivity|]. split; [done|].
    split; [done|]. lia.
  - pose proof Hinv as ((Hcls & HGw & HLw & Hwin) & [[Hz _]|(Hcg1 & Hogc & _)]);
      [lia|].
    destruct (commit_backward_empty_maps w
                (window_end L G (offloaded_group_count (hd w) - 1)) Hemp)
      as (w1 & Hrun1 & Hun1 & Hemp1); [lia|lia| |].
    { rewrite Hwin, build_layer_window_map_lookup by lia.
      by rewrite decide_True by lia. }
    apply run_op_CommitBackward_async in Hrun1; [|done].
    destruct (backward_inv_step G L CommitBackward w RUnit w1 HG HL
                ltac:(done) Hinv Hrun1) as (Hinv1 & _ & Hcg').
    rewrite decide_True in Hcg' by done.
    destruct (IH w1 Hinv1 Hemp1 ltac:(lia)) as (rs & w' & Hrun & Hun & Hemp' & Hinv' & Hcg'').
    exists ((RUnit, w1) :: rs), w'. split.
    { by apply (run_cons_run CommitBackward). }
    split; [by etrans|]. split; [done|]. split; [done|]. lia.
Qed.

Lemma run_app_run ops1 ops2 w rs1 w1 rs2 w2 :
  run ops1 w = Ok (rs1, w1) → run ops2 w1 = Ok (rs2, w2) →
  run (ops1 ++ ops2) w = Ok (rs1 ++ rs2, w2).
Proof.
  revert w rs1. induction ops1 as [|o ops1 IH]; intros w rs1 H1 H2.
  - by apply ret_inv in H1 as [-> ->].
  - apply run_cons_Ok in H1 as (r & wa & rest & Ho & Hr & ->).
    simpl app. eapply run_cons_run; [done|]. by apply IH.
Qed.

(** C5. Take the asynchronous handler for G >= 1 offload groups over
    L >= G layers at the start of a session.  Over any forward pass with L
    forward commits (tensors may be pushed and popped in between) that runs
    to its end, [offloaded_group_count] never decreases and ends at G, with
    [current_group] at L; over any reverse pass with L backward commits that
    follows and runs to its end, it never increases and ends at 0, with
    [current_group] back at 0.  And the session made of the 2L commits alone
    does run to its end when the handler holds no tensor. *)
Theorem offloaded_group_count_over_session (G L : Z) (w : world) :
  1 ≤ G → G ≤ L → session_start G L w →
  (∀ fwd bwd rs1 w1 rs2 w2,
     Forall forward_op fwd → Z.of_nat (commits_forward fwd) = L →
     Forall (fun o => o ≠ CommitForward) bwd → Z.of_nat (commits_backward bwd) = L →
     run fwd w = Ok (rs1, w1) → run bwd w1 = Ok (rs2, w2) →
     Sorted Z.le (offloaded_group_count (hd w) :: group_counts rs1) ∧
     offloaded_group_count (hd w1) = G ∧ current_group (hd w1) = L ∧
     Sorted Z.ge (offloaded_group_count (hd w1) :: group_counts rs2) ∧
     offloaded_group_count (hd w2) = 0 ∧ current_group (hd w2) = 0) ∧
  (empty_maps w →
   succeeds (run (replicate (Z.to_nat L) CommitForward
                  ++ replicate (Z.to_nat L) CommitBackward)) w = true).
Proof.
  intros HG HL Hstart.
  pose proof (forward_inv_start G L w HG HL Hstart) as Hinv.
  destruct Hstart as (_ & _ & _ & _ & Hcg0 & _).
  split.
  - intros fwd bwd rs1 w1 rs2 w2 Hfwd Hnf Hbwd Hnb Hrun1 Hrun2.
    destruct (forward_inv_run G L fwd w rs1 w1 HG HL Hfwd Hinv Hrun1)
      as (Hinv1 & Hs1 & Hcg1).
    assert (current_group (hd w1) = L) as HcgL by lia.
    pose proof (forward_inv_end G L w1 HG HL Hinv1 HcgL) as HogcG.
    pose proof (backward_inv_start G L w1 HG HL Hinv1 HcgL) as Hbinv.
    destruct (backward_inv_run G L bwd w1 rs2 w2 HG HL Hbwd Hbinv Hrun2)
      as (Hbinv2 & Hs2 & Hcg2).
    assert (current_group (hd w2) = 0) as Hcg20 by lia.
    repeat split; try done.
    destruct Hbinv2 as (_ & [[_ ?]|[? _]]); [done|lia].
  - intros Hemp.
    destruct (forward_commits_run G L (Z.to_nat L) w HG HL Hinv Hemp ltac:(lia))
      as (rs1 & w1 & Hrun1 & _ & Hemp1 & Hinv1 & Hcg1).
    assert (current_group (hd w1) = L) as HcgL by lia.
    pose proof (backward_inv_start G L w1 HG HL Hinv1 HcgL) as Hbinv.
    destruct (backward_commits_run G L (Z.to_nat L) w1 HG HL Hbinv Hemp1 ltac:(lia))
      as (rs2 & w2 & Hrun2 & _).
    unfold succeeds. by rewrite (run_app_run _ _ _ _ _ _ _ Hrun1 Hrun2).
Qed.

Lemma offloaded_group_count_over_session_witness :
  let w := world_of [set_activation_offloading (plain_tensor [1; 2])]
             (AsyncDoubleBufferGroupOffloadHandler.init 2 3
                tensor_need_offloading_checker_activations false) in
  let fwd := [Push 0%nat; CommitForward; CommitForward; CommitForward] in
  let bwd := [CommitBackward; CommitBackward; CommitBackward; Pop (0, 0)] in
  let w1 := after (run fwd) w in
  let w2 := after (run bwd) w1 in
  group_counts (results_of fwd w) = [0; 0; 1; 2] ∧
  group_counts (results_of bwd w1) = [1; 1; 0; 0] ∧
  offloaded_group_count (hd w1) = 2 ∧ current_group (hd w1) = 3 ∧
  offloaded_group_count (hd w2) = 0 ∧ current_group (hd w2) = 0.
Proof.
  intros w fwd bwd w1 w2.
  assert (succeeds (run fwd) w = true) as Hok1 by (vm_compute; reflexivity).
  assert (succeeds (run bwd) w1 = true) as Hok2 by (vm_compute; reflexivity).
  assert (session_start 2 3 w) as Hstart by (repeat split).
  assert (Forall forward_op fwd) as Hf by (repeat constructor; discriminate).
  assert (Forall (fun o => o ≠ CommitForward) bwd) as Hb
    by (repeat constructor; discriminate).
  destruct (proj1 (offloaded_group_count_over_session 2 3 w ltac:(lia) ltac:(lia)
                     Hstart)
              fwd bwd _ _ _ _ Hf eq_refl Hb eq_refl
              (run_results _ _ Hok1) (run_results _ _ Hok2))
    as (_ & H1 & H2 & _ & H3 & H4).
  split; [vm_compute; reflexivity|]. split; [vm_compute; reflexivity|].
  exact (conj H1 (conj H2 (conj H3 H4))).
Defined.

(** ** The factory with offloading disabled (C2) *)

Lemma apply_commit_async a w w1 :
  handler_cls (hd w) = AsyncDoubleBuffer →
  AsyncDoubleBufferGroupOffloadHandler.on_group_commit_forward w = Ok (tt, w1) →
  GroupCommitFunction.is_torch_tensor (cls (objs w1 a)) = true →
  apply_synchronizer group_prefetch_offload_commit_async (ERef a) w
  = Ok (ERef (next_addr w1),
        after (alloc (GroupCommitFunction.view_as_self (objs w1 a))) w1).
Proof.
  intros Hcls H Ht. unfold apply_synchronizer, group_prefetch_offload_commit,
    GroupCommitFunction.apply, GroupCommitFunction.forward.
  unfold bind at 1. unfold bind at 1.
  rewrite handler_commit_forward_async by done. rewrite H.
  unfold ret at 1. unfold bind at 1. unfold gets at 1. rewrite Ht.
  reflexivity.
Qed.

Lemma is_plain_tensor_later w w' t :
  (next_addr w ≤ next_addr w')%nat →
  (∀ a, (a < next_addr w)%nat → objs w' a = objs w a) →
  is_plain_tensor w t = true → is_plain_tensor w' t = true.
Proof.
  intros Hn Ho. destruct t as [|a|d b]; simpl; try done.
  intros [Ha Hc]%andb_prop. apply bool_decide_eq_true in Ha.
  apply bool_decide_eq_true in Hc.
  rewrite Ho by done. rewrite Hc.
  rewrite bool_decide_eq_true_2 by lia. by rewrite bool_decide_eq_true_2.
Qed.

Lemma apply_each_empty_maps G L ts :
  1 ≤ G → G ≤ L →
  ∀ w,
    forward_inv G L w → empty_maps w →
    Forall (fun t => is_plain_tensor w t = true) ts →
    current_group (hd w) + Z.of_nat (length ts) ≤ L →
    ∃ w', apply_each group_prefetch_offload_commit_async ts w
          = Ok (ERef <$> seq (next_addr w) (length ts), w') ∧
          next_addr w' = (next_addr w + length ts)%nat ∧
          (∀ (i : nat) a, ts !! i = Some (ERef a) →
             objs w' (next_addr w + i)%nat
             = GroupCommitFunction.view_as_self (objs w a)) ∧
          only_objects_added w w' ∧ empty_maps w' ∧
          current_group (hd w') = current_group (hd w) + Z.of_nat (length ts).
Proof.
  intros HG HL. induction ts as [|t ts IH]; intros w Hinv Hemp Hplain Hcg.
  - exists w. split; [done|]. split; [simpl; lia|]. split; [done|].
    split; [by repeat split|]. split; [done|]. simpl. lia.
  - simpl length in Hcg.
    apply Forall_cons in Hplain as [Ht Hplain].
    destruct t as [|a|d b]; simpl in Ht; try done.
    apply andb_prop in Ht as [Ha Hc]. apply bool_decide_eq_true in Ha.
    apply bool_decide_eq_true in Hc.
    pose proof Hinv as ((Hcls & HGw & HLw & Hwin) & Hcg0 & Hogc & Hiff).
    assert (offloaded_group_count (hd w) < G) as Hlt.
    { destruct (Hiff (G - 1) ltac:(lia)) as [H1 _].
      rewrite window_end_last in H1 by lia.
      destruct (decide (G - 1 < offloaded_group_count (hd w))) as [Hx|]; [|lia].
      specialize (H1 Hx). lia. }
    destruct (commit_forward_empty_maps w
                (window_end L G (offloaded_group_count (hd w))) Hemp)
      as (w1 & Hrun1 & Hun1 & Hemp1).
    { rewrite Hwin, build_layer_window_map_lookup by lia.
      by rewrite decide_True by lia. }
    pose proof (run_op_CommitForward_async w w1 Hcls Hrun1) as Hop.
    destruct (forward_inv_step G L CommitForward w RUnit w1 HG HL
                ltac:(done) Hinv Hop) as (Hinv1 & _ & Hcg1).
    rewrite decide_True in Hcg1 by done.
    destruct Hun1 as (Ho1 & Hn1 & Hcalls1 & HO1 & HD1 & Hen1 & Hst1).
    assert (GroupCommitFunction.is_torch_tensor (cls (objs w1 a)) = true) as Htt
      by (by rewrite Ho1, Hc).
    pose proof (apply_commit_async a w w1 Hcls Hrun1 Htt) as Hsync.
    set (w2 := after (alloc (GroupCommitFunction.view_as_self (objs w1 a))) w1)
      in Hsync.
    assert (next_addr w2 = S (next_addr w)) as Hn2 by (simpl; by rewrite Hn1).
    assert (∀ x, (x < next_addr w)%nat → objs w2 x = objs w x) as Ho2.
    { intros x Hx. simpl. unfold upd. rewrite decide_False by lia.
      by rewrite Ho1. }
    assert (objs w2 (next_addr w)
            = GroupCommitFunction.view_as_self (objs w a)) as Hnew.
    { simpl. unfold upd. rewrite Hn1, decide_True by done. by rewrite Ho1. }
    destruct (IH w2) as (w' & Hrun & Hn' & Hviews & Hadd & Hemp' & Hcg').
    { exact Hinv1. }
    { exact Hemp1. }
    { eapply Forall_impl; [exact Hplain|]. intros x Hx.
      apply (is_plain_tensor_later w); [lia|exact Ho2|exact Hx]. }
    { change (current_group (hd w2)) with (current_group (hd w1)). lia. }
    destruct Hadd as ([Hnn Hkept] & Hcalls & HO & HD & Hen & Hst).
    exists w'. split; [|split; [|split; [|split; [|split]]]].
    + cbn [apply_each]. unfold bind at 1. rewrite Hsync. unfold bind.
      rewrite Hrun. unfold ret. rewrite Hn2. simpl. by rewrite Hn1.
    + rewrite Hn', Hn2. simpl. lia.
    + intros [|i] x Hx; simpl in Hx.
      * injection Hx as <-. rewrite Nat.add_0_r.
        rewrite Hkept by lia. exact Hnew.
      * replace (next_addr w + S i)%nat with (next_addr w2 + i)%nat by lia.
        rewrite (Hviews i x Hx). f_equal. apply Ho2.
        assert (is_plain_tensor w (ERef x) = true) as Hpx.
        { rewrite Forall_forall in Hplain. apply Hplain.
          by eapply list_elem_of_lookup_2. }
        simpl in Hpx. apply andb_prop in Hpx as [Hpx _].
        by apply bool_decide_eq_true in Hpx.
    + split; [split; [lia|]|].
      * intros x Hx. rewrite Hkept by lia. by apply Ho2.
      * split; [by rewrite Hcalls|]. split; [by rewrite HO|].
        split; [by rewrite HD|]. split; [by rewrite Hen|by rewrite Hst].
    + done.
    + rewrite Hcg'. change (current_group (hd w2)) with (current_group (hd w1)).
      simpl length. lia.
Qed.

(** C2, as the code has it.  With [enabled=False] and activations requested,
    for G >= 1 offload groups over L >= G layers, the factory builds the
    asynchronous handler all the same and returns the no-op context together
    with the ordinary commit synchronizer over that handler.  Entering and
    leaving the context changes nothing.  Applied to plain tensors at up to
    L layer boundaries in a row, the synchronizer does not return the tensor
    it is given but, each time, a new object: the view of its input, with
    the device, size and contents of the input and without the attributes
    set on it.  The objects that existed and the (empty) maps of the handler
    stay as they were, but every call advances [current_group] by one. *)
Theorem disabled_factory_synchronizer (G L : Z) (offload_weights db : bool)
    (w : world) (ts : list elem) :
  1 ≤ G → G ≤ L → Z.of_nat (length ts) ≤ L →
  Forall (fun t => is_plain_tensor w t = true) ts →
  ∃ w0 w',
    get_cpu_offload_context false G L true offload_weights db w
      = Ok ((nullcontext, group_prefetch_offload_commit_async), w0) ∧
    hd w0 = AsyncDoubleBufferGroupOffloadHandler.init G L
              tensor_need_offloading_checker_activations db ∧
    objs w0 = objs w ∧ next_addr w0 = next_addr w ∧
    context_enter nullcontext w0 = Ok (tt, w0) ∧
    context_exit nullcontext w0 = Ok (tt, w0) ∧
    apply_each group_prefetch_offload_commit_async ts w0
      = Ok (ERef <$> seq (next_addr w0) (length ts), w') ∧
    next_addr w' = (next_addr w0 + length ts)%nat ∧
    (∀ (i : nat) a, ts !! i = Some (ERef a) →
       objs w' (next_addr w0 + i)%nat
       = GroupCommitFunction.view_as_self (objs w0 a)) ∧
    only_objects_added w0 w' ∧ empty_maps w' ∧
    current_group (hd w0) = 0 ∧
    current_group (hd w') = Z.of_nat (length ts).
Proof.
  intros HG HL Hlen Hplain.
  set (w0 := with_hd (AsyncDoubleBufferGroupOffloadHandler.init G L
                        tensor_need_offloading_checker_activations db) w).
  assert (session_start G L w0) as Hstart by (repeat split).
  assert (empty_maps w0) as Hemp by (repeat split).
  destruct (apply_each_empty_maps G L ts HG HL w0
              (forward_inv_start G L w0 HG HL Hstart) Hemp Hplain
              ltac:(simpl; lia))
    as (w' & Hrun & Hn & Hviews & Hadd & Hemp' & Hcg).
  exists w0, w'. split; [by destruct offload_weights|].
  split; [done|]. split; [done|]. split; [done|]. split; [done|].
  split; [done|]. split; [exact Hrun|]. split; [exact Hn|].
  split; [exact Hviews|]. split; [exact Hadd|]. split; [exact Hemp'|].
  split; [done|]. exact Hcg.
Qed.

Lemma disabled_factory_synchronizer_witness :
  let w := world_of [set_activation_offloading (plain_tensor [1; 2])]
             (SynchronizedGroupOffloadHandler.init 0 checker_default) in
  let w0 := after (get_cpu_offload_context false 1 2 true false false) w in
  let w' := after (apply_each group_prefetch_offload_commit_async
                     [ERef 0%nat; ERef 0%nat]) w0 in
  value_of (apply_each group_prefetch_offload_commit_async [ERef 0%nat; ERef 0%nat]) w0
    = Some [ERef 1%nat; ERef 2%nat] ∧
  activation_offloading (objs w' 0%nat) = true ∧
  objs w' 1%nat = plain_tensor [1; 2] ∧
  current_group (hd w') = 2.
Proof.
  intros w w0 w'.
  assert (Forall (fun t => is_plain_tensor w t = true) [ERef 0%nat; ERef 0%nat])
    as Hplain by (repeat constructor).
  destruct (disabled_factory_synchronizer 1 2 false false w [ERef 0%nat; ERef 0%nat]
              ltac:(lia) ltac:(lia) ltac:(simpl; lia) Hplain)
    as (x0 & x' & Hf & _ & _ & _ & _ & _ & Hrun & _ & Hviews & _ & _ & _ & Hcg).
  assert (x0 = w0) as -> by (unfold w0, after; by rewrite Hf).
  assert (x' = w') as -> by (unfold w', after; by rewrite Hrun).
  split; [unfold value_of; by rewrite Hrun|].
  split; [vm_compute; reflexivity|].
  split; [|exact Hcg].
  exact (Hviews 0%nat 0%nat eq_refl).
Defined.

(** The claim as stated fails: the synchronizer returned with
    [enabled=False] is not an identity.  It hands back another object than
    the tensor it was given, and it changes the state of the handler. *)
Lemma disabled_synchronizer_counterexample :
  let w := world_of [plain_tensor [1; 2]]
             (SynchronizedGroupOffloadHandler.init 0 checker_default) in
  let w0 := after (get_cpu_offload_context false 1 1 true false false) w in
  let w' := after (apply_synchronizer group_prefetch_offload_commit_async
                     (ERef 0%nat)) w0 in
  value_of (get_cpu_offload_context false 1 1 true false false) w
    = Some (nullcontext, group_prefetch_offload_commit_async) ∧
  value_of (apply_synchronizer group_prefetch_offload_commit_async (ERef 0%nat)) w0
    = Some (ERef 1%nat) ∧
  hd w' ≠ hd w0.
Proof.
  intros w w0 w'. split; [vm_compute; reflexivity|].
  split; [vm_compute; reflexivity|].
  intros Heq. apply (f_equal current_group) in Heq. vm_compute in Heq.
  discriminate Heq.
Qed.

(** ** Steps that leave the bookkeeping of composites alone *)

#[global] Instance bookkeeping_kept_preorder : PreOrder bookkeeping_kept.
Proof.
  split.
  - intros w. unfold bookkeeping_kept. repeat split; auto.
  - intros w1 w2 w3 (HO & HD & HC & Hc & HF & Hn & Hcls & Hinst & Hk)
      (HO' & HD' & HC' & Hc' & HF' & Hn' & Hcls' & Hinst' & Hk').
    unfold bookkeeping_kept.
    split; [congruence|]. split; [congruence|]. split; [congruence|].
    split; [congruence|]. split; [congruence|]. split; [lia|].
    split; [|split].
    + intros a. destruct (Hcls a) as [E|?]; [|right; lia].
      destruct (Hcls' a) as [E'|?]; [left; congruence|].
      right. lia.
    + intros a. destruct (Hinst a) as [E|?]; [|right; lia].
      destruct (Hinst' a) as [E'|?]; [left; congruence|].
      right. lia.
    + intros tg. by rewrite Hk', Hk.
Qed.

Lemma bookkeeping_kept_modify_hd f :
  (∀ h, fp8_tensor_object_map (f h) = fp8_tensor_object_map h ∧
        dereferencing_list (f h) = dereferencing_list h ∧
        float8_transpose_cache_valid (f h) = float8_transpose_cache_valid h ∧
        tensor_tag_to_state (f h) = tensor_tag_to_state h) →
  preserves bookkeeping_kept (modify_hd f).
Proof.
  intros Hf. apply preserves_modify. intros w.
  destruct (Hf (hd w)) as (? & ? & ? & HS). unfold bookkeeping_kept. simpl.
  rewrite HS. repeat split; auto.
Qed.

Lemma bookkeeping_kept_update_obj a f :
  (∀ o, cls (f o) = cls o ∧ inst (f o) = inst o) →
  preserves bookkeeping_kept (update_obj a f).
Proof.
  intros Hf. apply preserves_modify. intros w. unfold bookkeeping_kept. simpl.
  repeat split; auto; intros x; left; unfold upd; case_decide; subst;
    try done; apply Hf.
Qed.

Lemma bookkeeping_kept_alloc o : preserves bookkeeping_kept (alloc o).
Proof.
  intros w a w' [= _ <-]. unfold bookkeeping_kept. simpl.
  repeat split; auto; intros x; unfold upd; case_decide; subst; auto.
Qed.

Lemma bookkeeping_kept_set_buf tg s : preserves bookkeeping_kept (set_buf tg s).
Proof. unfold set_buf. by apply bookkeeping_kept_modify_hd. Qed.

Lemma bookkeeping_kept_set_state tg s w u w' :
  kind_of (dict_get tg (tensor_tag_to_state (hd w))) = kind_of (Some s) →
  set_state tg s w = Ok (u, w') → bookkeeping_kept w w'.
Proof.
  intros Hk H. apply modify_hd_inv in H as ->. unfold bookkeeping_kept. simpl.
  repeat split; auto. intros x. destruct (decide (tg = x)) as [->|].
  - by rewrite dict_get_set_eq.
  - by rewrite dict_get_set_ne.
Qed.

Create HintDb bookkeeping_db.

#[global] Hint Resolve bookkeeping_kept_alloc bookkeeping_kept_set_buf
  : bookkeeping_db.

Ltac bookkeeping_tac :=
  preserves_struct;
  try first
    [ by apply bookkeeping_kept_modify_hd
    | by apply bookkeeping_kept_update_obj
    | solve [auto with bookkeeping_db] ].

(** From [H : m w = Ok (a, w')], for a boring [m], derives
    [E : bookkeeping_kept w w']. *)
Ltac bookkeeping_of H E :=
  lazymatch type of H with
  | ?m ?w = Ok (?a, ?w') =>
      let P := fresh "P" in
      assert (preserves bookkeeping_kept m) as P by bookkeeping_tac;
      pose proof (P w a w' H) as E; clear P
  end.

Import AsyncDoubleBufferGroupOffloadHandler.

Lemma bookkeeping_kept_offload e :
  preserves bookkeeping_kept (SynchronizedGroupOffloadHandler.offload e).
Proof. unfold SynchronizedGroupOffloadHandler.offload. bookkeeping_tac. Qed.
#[global] Hint Resolve bookkeeping_kept_offload : bookkeeping_db.

Lemma bookkeeping_kept_reload e nb b :
  preserves bookkeeping_kept (SynchronizedGroupOffloadHandler.reload e nb b).
Proof. unfold SynchronizedGroupOffloadHandler.reload. bookkeeping_tac. Qed.
#[global] Hint Resolve bookkeeping_kept_reload : bookkeeping_db.

Lemma bookkeeping_kept_empty_like b : preserves bookkeeping_kept (empty_like b).
Proof. unfold empty_like. bookkeeping_tac. Qed.
#[global] Hint Resolve bookkeeping_kept_empty_like : bookkeeping_db.

Lemma bookkeeping_kept_setattr_do_not_clear e :
  preserves bookkeeping_kept (setattr e set_do_not_clear).
Proof. unfold setattr. bookkeeping_tac. Qed.
#[global] Hint Resolve bookkeeping_kept_setattr_do_not_clear : bookkeeping_db.

Lemma bookkeeping_kept_state_append tg t : preserves bookkeeping_kept (state_append tg t).
Proof.
  intros w u w' H. unfold state_append in H.
  apply bind_Ok in H as (h & w0 & Hg & H). apply gets_inv in Hg as [-> ->].
  destruct (dict_get tg _) as [[e|l]|] eqn:Hget; try done.
  eapply bookkeeping_kept_set_state; [|done]. by rewrite Hget.
Qed.
#[global] Hint Resolve bookkeeping_kept_state_append : bookkeeping_db.

Lemma bookkeeping_kept_buf_append tg t : preserves bookkeeping_kept (buf_append tg t).
Proof. unfold buf_append. bookkeeping_tac. Qed.
#[global] Hint Resolve bookkeeping_kept_buf_append : bookkeeping_db.

Lemma bookkeeping_kept_offload_item t : preserves bookkeeping_kept (offload_item t).
Proof. unfold offload_item, need_offloading. bookkeeping_tac. Qed.
#[global] Hint Resolve bookkeeping_kept_offload_item : bookkeeping_db.

(** A loop over the items of a dictionary, when the body is only known to
    behave on the value it finds under its key. *)
Lemma preserves_fold_items_live (R : relation world) `{!PreOrder R} {V B}
    (d : handler → list (tag * V)) (acc : B) body :
  (∀ acc k v w a w', dict_get k (d (hd w)) = Some v →
                     body acc (k, v) w = Ok (a, w') → R w w') →
  preserves R (fold_items d acc body).
Proof.
  intros Hb. unfold fold_items.
  apply (preserves_bind R); [apply (preserves_gets R)|].
  intros keys. apply (preserves_fold_m R). intros acc' k w a w' H.
  apply bind_Ok in H as (h & w0 & Hg & H). apply gets_inv in Hg as [-> ->].
  destruct (dict_get k (d (hd w))) eqn:Hget; [|done]. by eapply Hb.
Qed.

Lemma bookkeeping_kept_bulk_offload_group g :
  preserves bookkeeping_kept (bulk_offload_group g).
Proof.
  unfold bulk_offload_group, for_items.
  apply (preserves_fold_items_live bookkeeping_kept).
  intros [] tg st w a w' Hget H. unfold bulk_offload_entry in H.
  apply when_inv in H as [[_ H]|[_ ->]]; [|reflexivity].
  destruct st as [e|l].
  - assert ((let* s := offload_item e in set_state tg (SOne s)) w = Ok (a, w')) as H'
      by (by destruct e).
    clear H. apply bind_Ok in H' as (s & w1 & H1 & H2).
    apply bookkeeping_kept_offload_item in H1.
    etrans; [done|]. eapply bookkeeping_kept_set_state; [|done].
    destruct H1 as (_ & _ & _ & _ & _ & _ & _ & _ & Hk). by rewrite Hk, Hget.
  - apply bind_Ok in H as ([] & w1 & H1 & H2).
    etrans; [eapply bookkeeping_kept_set_state; [|done]; by rewrite Hget|].
    bookkeeping_of H2 E. exact E.
Qed.
#[global] Hint Resolve bookkeeping_kept_bulk_offload_group : bookkeeping_db.

Lemma bookkeeping_kept_new_reload_buffer b :
  preserves bookkeeping_kept (new_reload_buffer b).
Proof. unfold new_reload_buffer. bookkeeping_tac. Qed.
#[global] Hint Resolve bookkeeping_kept_new_reload_buffer : bookkeeping_db.

Lemma bookkeeping_kept_create_first_buffer kv :
  preserves bookkeeping_kept (create_first_buffer kv).
Proof. unfold create_first_buffer, rdb_append0. bookkeeping_tac. Qed.
#[global] Hint Resolve bookkeeping_kept_create_first_buffer : bookkeeping_db.

Lemma bookkeeping_kept_release_buf kv : preserves bookkeeping_kept (release_buf kv).
Proof. unfold release_buf. bookkeeping_tac. Qed.
#[global] Hint Resolve bookkeeping_kept_release_buf : bookkeeping_db.

Lemma bookkeeping_kept_commit_forward :
  preserves bookkeeping_kept on_group_commit_forward.
Proof.
  unfold on_group_commit_forward, synchronize_on_group_commit_forward,
    lookup_window, rdb_append1,
    SynchronizedGroupOffloadHandler.on_group_commit_forward.
  bookkeeping_tac.
Qed.

Lemma bookkeeping_kept_reload_item i acc e :
  preserves bookkeeping_kept (reload_item i acc e).
Proof. unfold reload_item, pick_reload_buffer. bookkeeping_tac. Qed.
#[global] Hint Resolve bookkeeping_kept_reload_item : bookkeeping_db.

(** ** What the calls on a composite change *)

Lemma for_each_empty_storage l w u w' :
  for_each l (fun a => update_obj a empty_storage) w = Ok (u, w') →
  hd w' = hd w ∧ calls w' = calls w ∧ only_inst_of 0%nat w w' ∧
  ∀ a, inst (objs w' a) = inst (objs w a).
Proof.
  revert w. induction l as [|a l IH]; intros w H; simpl in H.
  - apply ret_inv in H as [_ ->]. unfold only_inst_of. repeat split; auto.
  - apply bind_Ok in H as ([] & w1 & H1 & H2). apply update_obj_inv in H1 as ->.
    apply IH in H2 as (Hh & Hc & (Hn & HF & Hcls & _) & Hinst). simpl in *.
    split; [done|]. split; [done|].
    assert (∀ x, cls (objs w' x) = cls (objs w x)) as Hcls'.
    { intros x. rewrite Hcls. unfold upd. by case_decide; subst. }
    assert (∀ x, inst (objs w' x) = inst (objs w x)) as Hinst'.
    { intros x. rewrite Hinst. unfold upd. by case_decide; subst. }
    unfold only_inst_of. repeat split; auto.
Qed.

Lemma prepare_for_saving_Ok self w l w' :
  prepare_for_saving self w = Ok (l, w') →
  hd w' = hd w ∧ calls w' = CallPrepareForSaving self :: calls w ∧
  only_inst_of self w w' ∧
  ∃ m, methods_of w (cls (objs w self)) = Some m ∧
       l = (m_prepare_for_saving m (inst (objs w self))).1 ∧
       inst (objs w' self) = (m_prepare_for_saving m (inst (objs w self))).2.
Proof.
  unfold prepare_for_saving. intros H.
  apply bind_Ok in H as (w0 & w1 & Hg & H). injection Hg as <- <-.
  destruct (methods_of _ _) as [m|] eqn:Hm; [|done].
  apply bind_Ok in H as ([] & w1 & H1 & H). apply update_obj_inv in H1 as ->.
  apply bind_Ok in H as ([] & w2 & H2 & H). apply log_call_Ok in H2. injection H2 as ->.
  apply ret_inv in H as [-> ->]. simpl.
  split; [done|]. split; [done|]. split.
  - unfold only_inst_of. simpl. repeat split; auto; intros a; unfold upd;
      case_decide; subst; done.
  - exists m. split; [done|]. split; [done|]. unfold upd. by rewrite decide_True.
Qed.

Lemma clear_Ok self w u w' :
  clear self w = Ok (u, w') →
  hd w' = hd w ∧ calls w' = CallClear self :: calls w ∧ only_inst_of self w w'.
Proof.
  unfold clear. intros H.
  apply bind_Ok in H as (w0 & w1 & Hg & H). injection Hg as <- <-.
  destruct (methods_of _ _) as [m|] eqn:Hm; [|done].
  apply bind_Ok in H as ([] & w1 & H1 & H). apply log_call_Ok in H1. injection H1 as ->.
  simpl in H. destruct (m_clear _ _) as [[f emptied]|]; [|done].
  apply bind_Ok in H as ([] & w2 & H2 & H). apply update_obj_inv in H2 as ->.
  apply for_each_empty_storage in H as (Hh & Hc & (Hn & HF & Hcls & _) & Hinst).
  simpl in *. split; [done|]. split; [done|].
  unfold only_inst_of. split; [done|]. split; [done|]. split.
  - intros a. rewrite Hcls. unfold upd. by case_decide; subst.
  - intros a Ha. rewrite Hinst. unfold upd. by rewrite decide_False.
Qed.

Lemma restore_from_saved_Ok self l w u w' :
  restore_from_saved self l w = Ok (u, w') →
  hd w' = hd w ∧ calls w' = CallRestoreFromSaved self l :: calls w ∧
  only_inst_of self w w'.
Proof.
  unfold restore_from_saved. intros H.
  apply bind_Ok in H as (w0 & w1 & Hg & H). injection Hg as <- <-.
  destruct (methods_of _ _) as [m|] eqn:Hm; [|done].
  apply bind_Ok in H as ([] & w1 & H1 & H). apply log_call_Ok in H1. injection H1 as ->.
  simpl in H. destruct (m_restore_from_saved _ _ _) as [f|]; [|done].
  apply update_obj_inv in H as ->. simpl.
  split; [done|]. split; [done|]. unfold only_inst_of. simpl.
  repeat split; auto; intros a; unfold upd; case_decide; subst; done.
Qed.

Import AsyncDoubleBufferGroupOffloadHandler.

Lemma lookup_object_Ok tg w o w' :
  lookup_object tg w = Ok (o, w') →
  w' = w ∧ dict_get tg (fp8_tensor_object_map (hd w)) = Some o.
Proof.
  unfold lookup_object. intros H.
  apply bind_Ok in H as (h & w0 & Hg & H). apply gets_inv in Hg as [-> ->].
  destruct (dict_get _ _); [|done]. by apply ret_inv in H as [-> ->].
Qed.

Lemma pop_object_Ok tg w o w' :
  pop_object tg w = Ok (o, w') →
  dict_get tg (fp8_tensor_object_map (hd w)) = Some o ∧
  w' = with_hd (set_fp8_tensor_object_map
                  (dict_pop tg (fp8_tensor_object_map (hd w))) (hd w)) w.
Proof.
  unfold pop_object. intros H.
  apply bind_Ok in H as (o' & w0 & Hl & H). apply lookup_object_Ok in Hl as [-> Hl].
  apply bind_Ok in H as ([] & w1 & Hm & H). apply modify_hd_inv in Hm as ->.
  by apply ret_inv in H as [-> ->].
Qed.

(** [restore_unless_duplicate]: a tag on the list of duplicates is taken off
    it; for any other tag the composite registered under it is restored. *)
Lemma restore_unless_duplicate_Ok tg l w u w' :
  restore_unless_duplicate tg l w = Ok (u, w') →
  (tg ∈ dereferencing_list (hd w) ∧
   w' = with_hd (set_dereferencing_list
                   (list_remove_first tg (dereferencing_list (hd w))) (hd w)) w) ∨
  (tg ∉ dereferencing_list (hd w) ∧ hd w' = hd w ∧
   ∃ o, dict_get tg (fp8_tensor_object_map (hd w)) = Some o ∧
        calls w' = CallRestoreFromSaved o l :: calls w ∧ only_inst_of o w w').
Proof.
  unfold restore_unless_duplicate. intros H.
  apply bind_Ok in H as (h & w0 & Hg & H). apply gets_inv in Hg as [-> ->].
  case_bool_decide as Hin.
  - left. apply modify_hd_inv in H as ->. done.
  - right. apply bind_Ok in H as (o & w1 & Hl & H).
    apply lookup_object_Ok in Hl as [-> Hl].
    apply restore_from_saved_Ok in H as (? & ? & ?). eauto 10.
Qed.

(** [write_back_transpose_flag]: for a [Float8Tensor] the flag saved under
    the tag is assigned to the composite and taken out of the cache. *)
Lemma write_back_transpose_flag_Ok tg w u w' :
  write_back_transpose_flag tg w = Ok (u, w') →
  ∃ o, dict_get tg (fp8_tensor_object_map (hd w)) = Some o ∧
    if decide (cls (objs w o) = Float8Tensor) then
      ∃ flag, dict_get tg (float8_transpose_cache_valid (hd w)) = Some flag ∧
        w' = with_objs (upd o (fun x => set_inst (set_transpose_invalid flag (inst x)) x)
                          (objs w))
               (with_hd (set_float8_transpose_cache_valid
                           (dict_pop tg (float8_transpose_cache_valid (hd w)))
                           (hd w)) w)
    else w' = w.
Proof.
  unfold write_back_transpose_flag. intros H.
  apply bind_Ok in H as (o & w0 & Hl & H). apply lookup_object_Ok in Hl as [-> Hl].
  apply bind_Ok in H as (c & w0 & Hg & H). apply gets_inv in Hg as [-> ->].
  exists o. split; [done|].
  apply when_inv in H as [[Hc H]|[Hc ->]].
  - apply bool_decide_eq_true in Hc. rewrite decide_True by done.
    apply bind_Ok in H as (h & w0 & Hg & H). apply gets_inv in Hg as [-> ->].
    destruct (dict_get tg (float8_transpose_cache_valid _)) as [flag|]; [|done].
    apply bind_Ok in H as ([] & w1 & Hm & H). apply modify_hd_inv in Hm as ->.
    apply update_obj_inv in H as ->. eauto.
  - apply bool_decide_eq_false in Hc. by rewrite decide_False.
Qed.

(** ** Steps on the store alone *)

#[global] Instance store_only_preorder : PreOrder store_only.
Proof.
  split.
  - intros w. unfold store_only. repeat split; auto.
  - intros w1 w2 w3 (Hh & Hc & HF & Hn & Hcls & Hinst)
      (Hh' & Hc' & HF' & Hn' & Hcls' & Hinst').
    unfold store_only.
    split; [congruence|]. split; [congruence|]. split; [congruence|].
    split; [lia|]. split.
    + intros a. destruct (Hcls a) as [E|?]; [|right; lia].
      destruct (Hcls' a) as [E'|?]; [left; congruence|]. right. lia.
    + intros a. destruct (Hinst a) as [E|?]; [|right; lia].
      destruct (Hinst' a) as [E'|?]; [left; congruence|]. right. lia.
Qed.

Lemma store_only_bookkeeping_kept w w' : store_only w w' → bookkeeping_kept w w'.
Proof.
  intros (Hh & Hc & HF & Hn & Hcls & Hinst). unfold bookkeeping_kept.
  rewrite Hh. repeat split; auto.
Qed.

Lemma store_only_update_obj a f :
  (∀ o, cls (f o) = cls o ∧ inst (f o) = inst o) →
  preserves store_only (update_obj a f).
Proof.
  intros Hf. apply preserves_modify. intros w. unfold store_only. simpl.
  repeat split; auto; intros x; left; unfold upd; case_decide; subst;
    try done; apply Hf.
Qed.

Lemma store_only_alloc o : preserves store_only (alloc o).
Proof.
  intros w a w' [= _ <-]. unfold store_only. simpl.
  repeat split; auto; intros x; unfold upd; case_decide; subst; auto.
Qed.

Create HintDb store_db.
#[global] Hint Resolve store_only_alloc : store_db.

Ltac store_tac :=
  preserves_struct;
  try first
    [ by apply store_only_update_obj
    | solve [auto with store_db] ].

Import AsyncDoubleBufferGroupOffloadHandler.

Lemma store_only_reload e nb b :
  preserves store_only (SynchronizedGroupOffloadHandler.reload e nb b).
Proof. unfold SynchronizedGroupOffloadHandler.reload. store_tac. Qed.
#[global] Hint Resolve store_only_reload : store_db.

Lemma store_only_reload_item i acc e : preserves store_only (reload_item i acc e).
Proof. unfold reload_item, pick_reload_buffer. store_tac. Qed.
#[global] Hint Resolve store_only_reload_item : store_db.

Lemma store_only_pick_reload_buffer i n : preserves store_only (pick_reload_buffer i n).
Proof. unfold pick_reload_buffer. store_tac. Qed.
#[global] Hint Resolve store_only_pick_reload_buffer : store_db.

Lemma store_only_setattr_do_not_clear e :
  preserves store_only (setattr e set_do_not_clear).
Proof. unfold setattr. store_tac. Qed.
#[global] Hint Resolve store_only_setattr_do_not_clear : store_db.

(** ** Popping a tag and reloading a group, as seen by the bookkeeping *)

Lemma retire_Ok tg l w u1 w1 o w2 :
  restore_unless_duplicate tg l w = Ok (u1, w1) →
  pop_object tg w1 = Ok (o, w2) →
  retired tg o l w w2 ∧
  tensor_tag_to_state (hd w2) = tensor_tag_to_state (hd w) ∧
  float8_transpose_cache_valid (hd w2) = float8_transpose_cache_valid (hd w) ∧
  only_inst_of o w w2.
Proof.
  intros H1 H2. apply pop_object_Ok in H2 as [Hget ->].
  apply restore_unless_duplicate_Ok in H1 as [[Hin ->]|(Hnin & Hh & o' & Hget' & Hc & Hi)].
  - simpl in *. split; [|split; [done|split; [done|]]].
    + split; [done|]. split; [done|]. left. done.
    + unfold only_inst_of. simpl. repeat split; auto.
  - rewrite Hh in *. assert (o' = o) as -> by congruence. simpl.
    split; [|split; [done|split; [done|]]].
    + split; [done|]. split; [done|]. right. done.
    + exact Hi.
Qed.

(** [tensor_pop], as seen by the bookkeeping. *)
Lemma tensor_pop_Ok tg w e w' :
  tensor_pop tg w = Ok (e, w') →
  ∃ st, dict_get tg (tensor_tag_to_state (hd w)) = Some st ∧
    tensor_tag_to_state (hd w') = dict_pop tg (tensor_tag_to_state (hd w)) ∧
    float8_transpose_cache_valid (hd w') = float8_transpose_cache_valid (hd w) ∧
    next_addr w' = next_addr w ∧
    Float8Tensor_methods w' = Float8Tensor_methods w ∧
    (∀ a, cls (objs w' a) = cls (objs w a)) ∧
    match st with
    | SList l =>
        ∃ o, e = ERef o ∧ retired tg o l w w' ∧
             ∀ a, a ≠ o → inst (objs w' a) = inst (objs w a)
    | SOne x =>
        e = x ∧
        fp8_tensor_object_map (hd w') = fp8_tensor_object_map (hd w) ∧
        dereferencing_list (hd w') = dereferencing_list (hd w) ∧
        calls w' = calls w ∧
        ∀ a, inst (objs w' a) = inst (objs w a)
    end.
Proof.
  unfold tensor_pop. intros H.
  apply bind_Ok in H as (h & w0 & Hg & H). apply gets_inv in Hg as [-> ->].
  destruct (dict_get tg (tensor_tag_to_state (hd w))) as [st|] eqn:Hst; [|done].
  exists st. split; [done|].
  apply bind_Ok in H as ([] & w1 & Hm & H). apply modify_hd_inv in Hm as ->.
  apply bind_Ok in H as (tensor & w2 & Ht & H).
  apply bind_Ok in H as ([] & w3 & Hd & H).
  assert (store_only w2 w3) as Hs.
  { apply when_inv in Hd as [[_ Hd]|[_ ->]]; [|reflexivity].
    by apply store_only_setattr_do_not_clear in Hd. }
  assert (next_addr w3 = next_addr w2 ∧
          (∀ a, cls (objs w3 a) = cls (objs w2 a)) ∧
          (∀ a, inst (objs w3 a) = inst (objs w2 a))) as (Hn3 & Hc3 & Hi3).
  { apply when_inv in Hd as [[_ Hd]|[_ ->]]; [|done].
    apply setattr_Ok in Hd as (a & _ & [= ->]). simpl.
    split; [done|]. split; intros x; unfold upd; by case_decide; subst. }
  destruct Hs as (Hh3 & Hcl3 & HF3 & _).
  apply bind_Ok in H as ([] & w4 & Hm & H). apply modify_hd_inv in Hm as ->.
  apply bind_Ok in H as ([] & w5 & Ha & H). apply assert_inv in Ha as [_ ->].
  apply ret_inv in H as [-> ->]. simpl. rewrite Hh3.
  destruct st as [x|l].
  - apply ret_inv in Ht as [-> ->]. simpl.
    split; [done|]. split; [done|]. split; [done|]. split; [done|].
    split; [done|]. auto.
  - apply bind_Ok in Ht as ([] & wa & Hr & Ht).
    apply bind_Ok in Ht as (o & wb & Hp & Ht). apply ret_inv in Ht as [-> ->].
    destruct (retire_Ok _ _ _ _ _ _ _ Hr Hp) as (Hret & HS & HC & Hn & HF & Hcls & Hinst).
    unfold retired in *. simpl in *. split; [by rewrite HS|]. split; [done|]. split; [lia|].
    split; [congruence|].
    split; [intros a; by rewrite Hc3, Hcls|].
    exists o. split; [done|]. split.
    + destruct Hret as (Hget & HO & HD). split; [done|]. split; [done|].
      rewrite Hcl3. done.
    + intros a Ha. rewrite Hi3. by apply Hinst.
Qed.

(** ** More on dictionaries *)

Section dict_more.
Context {K V : Type} `{EqDecision K}.
Implicit Types (k : K) (v : V) (d : list (K * V)).

Lemma dict_set_set k v v' d : dict_set k v (dict_set k v' d) = dict_set k v d.
Proof.
induction d as [|[k' x] d IH]; simpl.
- by rewrite decide_True.
- case_decide; simpl.
+ by rewrite decide_True.
+ rewrite decide_False by done. by rewrite IH.
Qed.

Lemma dict_set_new k v d : dict_get k d = None → dict_set k v d = d ++ [(k, v)].
Proof.
induction d as [|[k' x] d IH]; simpl; [done|].
case_decide; [done|]. intros Hd. by rewrite IH.
Qed.

Lemma dict_pop_filter k d : dict_pop k d = filter (fun kv => kv.1 ≠ k) d.
Proof.
induction d as [|[k' x] d IH]; simpl; [done|].
case_decide; subst.
- rewrite filter_cons_False by (simpl; naive_solver). done.
- rewrite filter_cons_True by (simpl; naive_solver). by rewrite IH.
Qed.

Lemma dict_get_elem_of k v d : dict_get k d = Some v → (k, v) ∈ d.
Proof.
induction d as [|[k' x] d IH]; simpl; [done|].
case_decide; subst.
- intros [= ->]. left.
- intros Hd. right. auto.
Qed.

Lemma dict_elem_of_get k v d :
NoDup (dict_keys d) → (k, v) ∈ d → dict_get k d = Some v.
Proof.
unfold dict_keys.
induction d as [|[k' x] d IH]; simpl; [by intros _ ?%elem_of_nil|].
intros [Hk Hnd]%NoDup_cons [Heq|Hin]%elem_of_cons.
- injection Heq as -> ->. by rewrite decide_True.
- case_decide; subst; [|by apply IH].
exfalso. apply Hk. apply list_elem_of_fmap. by exists (k', v).
Qed.

Lemma dict_keys_pop k d :
dict_keys (dict_pop k d) = filter (fun x => x ≠ k) (dict_keys d).
Proof.
unfold dict_keys.
induction d as [|[k' x] d IH]; simpl; [done|].
case_decide; subst.
- rewrite filter_cons_False by naive_solver. done.
- rewrite filter_cons_True by naive_solver. rewrite fmap_cons. simpl.
f_equal. exact IH.
Qed.

Lemma dict_get_pop_Some k k' v d :
dict_get k' (dict_pop k d) = Some v → k' ≠ k ∧ dict_get k' d = Some v.
Proof.
intros H. destruct (decide (k = k')) as [->|Hne].
- by rewrite dict_get_pop_eq in H.
- rewrite dict_get_pop_ne in H by done. done.
Qed.
End dict_more.

(** ** The calls recorded *)

Lemma restores_cons c cl w w' :
  calls w' = cl :: calls w →
  restores c w' = ((if is_restore_of c cl then 1 else 0) + restores c w)%nat.
Proof.
  unfold restores. intros ->.
  destruct (is_restore_of c cl) eqn:E.
  - by rewrite filter_cons_True.
  - rewrite filter_cons_False; [done|]. by rewrite E.
Qed.

Lemma restores_same c w w' : calls w' = calls w → restores c w' = restores c w.
Proof. unfold restores. by intros ->. Qed.

(** ** What a push does *)

Import AsyncDoubleBufferGroupOffloadHandler.

Lemma only_inst_of_refl self w : only_inst_of self w w.
Proof. unfold only_inst_of. auto. Qed.

Lemma only_inst_of_trans self w1 w2 w3 :
  only_inst_of self w1 w2 → only_inst_of self w2 w3 → only_inst_of self w1 w3.
Proof.
  intros (Hn & HF & Hc & Hi) (Hn' & HF' & Hc' & Hi'). unfold only_inst_of.
  split; [congruence|]. split; [congruence|]. split.
  - intros a. by rewrite Hc', Hc.
  - intros a Ha. by rewrite Hi', Hi.
Qed.

Lemma push_quantized_Ok tg t w l w' :
  push_quantized tg t w = Ok (l, w') →
  tensor_tag_to_state (hd w') = dict_set tg (SList []) (tensor_tag_to_state (hd w)) ∧
  fp8_tensor_object_map (hd w') = dict_set tg t (fp8_tensor_object_map (hd w)) ∧
  dereferencing_list (hd w')
    = (if is_registered t (fp8_tensor_object_map (hd w))
       then dereferencing_list (hd w) ++ [tg] else dereferencing_list (hd w)) ∧
  float8_transpose_cache_valid (hd w')
    = (if decide (cls (objs w t) = Float8Tensor)
       then dict_set tg (captured_flag w t) (float8_transpose_cache_valid (hd w))
       else float8_transpose_cache_valid (hd w)) ∧
  calls w' = CallPrepareForSaving t :: calls w ∧
  only_inst_of t w w'.
Proof.
  unfold push_quantized. intros H.
  apply bind_Ok in H as (l0 & w1 & Hp & H).
  apply prepare_for_saving_Ok in Hp as (Hh & Hc & Hi & m & Hm & -> & Hinst).
  apply bind_Ok in H as ([] & w2 & H2 & H). apply modify_hd_inv in H2 as ->.
  apply bind_Ok in H as ([] & w3 & H3 & H). apply modify_hd_inv in H3 as ->.
  apply bind_Ok in H as (h & w4 & H4 & H). apply gets_inv in H4 as [-> ->].
  apply bind_Ok in H as ([] & w5 & H5 & H).
  apply bind_Ok in H as ([] & w6 & H6 & H). apply modify_hd_inv in H6 as ->.
  apply bind_Ok in H as (o & w7 & H7 & H). apply gets_inv in H7 as [-> ->].
  apply bind_Ok in H as ([] & w8 & H8 & H). apply ret_inv in H as [-> ->].
  destruct Hi as (Hn & HF & Hcls & Hio).
  assert (captured_flag w t = transpose_invalid (inst (objs w1 t)) ∨
          cls (objs w t) ≠ Float8Tensor) as Hflag.
  { destruct (decide (cls (objs w t) = Float8Tensor)) as [Hf|Hf]; [left|by right].
    unfold captured_flag. rewrite Hinst.
    rewrite Hf in Hm. simpl in Hm. by injection Hm as <-. }
  simpl in H5. rewrite Hh in H5.
  apply when_inv in H5 as [[Hr H5]|[Hr ->]];
    [apply modify_hd_inv in H5 as ->|];
    simpl in H8; rewrite Hcls in H8;
    (apply when_inv in H8 as [[Hf H8]|[Hf ->]];
     [apply modify_hd_inv in H8 as ->; apply bool_decide_eq_true in Hf
     |apply bool_decide_eq_false in Hf]);
    simpl in Hr; simpl; rewrite ?Hh, Hr;
    [rewrite (decide_True (P := cls (objs w t) = Float8Tensor)) by done
    |rewrite (decide_False (P := cls (objs w t) = Float8Tensor)) by done
    |rewrite (decide_True (P := cls (objs w t) = Float8Tensor)) by done
    |rewrite (decide_False (P := cls (objs w t) = Float8Tensor)) by done];
    destruct Hflag as [Hfl|?]; try done; rewrite ?Hfl;
    repeat split; auto.
Qed.

Lemma dict_set_same {K V} `{EqDecision K} (k : K) (v : V) d :
  dict_get k d = Some v → dict_set k v d = d.
Proof.
  induction d as [|[k' x] d IH]; simpl; [done|].
  case_decide; subst.
  - by intros [= ->].
  - intros Hd. by rewrite IH.
Qed.

Lemma state_append_Ok tg x w u w' :
  state_append tg x w = Ok (u, w') →
  ∃ l, dict_get tg (tensor_tag_to_state (hd w)) = Some (SList l) ∧
       w' = with_hd (set_tensor_tag_to_state
                       (dict_set tg (SList (l ++ [x])) (tensor_tag_to_state (hd w)))
                       (hd w)) w.
Proof.
  unfold state_append. intros H.
  apply bind_Ok in H as (h & w1 & Hg & H). apply gets_inv in Hg as [-> ->].
  destruct (dict_get tg (tensor_tag_to_state (hd w))) as [[e|l]|] eqn:E; try done.
  exists l. split; [done|]. by apply modify_hd_inv in H.
Qed.

Lemma buf_append_Ok tg x w u w' :
  buf_append tg x w = Ok (u, w') →
  ∃ b, w' = with_hd (set_tensor_tag_to_buf b (hd w)) w.
Proof.
  unfold buf_append. intros H.
  apply bind_Ok in H as (h & w1 & Hg & H). apply gets_inv in Hg as [-> ->].
  destruct (dict_get tg (tensor_tag_to_buf (hd w))) as [[e|l]|] eqn:E; try done.
  eexists. by apply modify_hd_inv in H.
Qed.

Lemma push_item_quantized_Ok tg t x w u w' :
  push_item true tg t x w = Ok (u, w') →
  ∃ l, dict_get tg (tensor_tag_to_state (hd w)) = Some (SList l) ∧
    tensor_tag_to_state (hd w')
      = dict_set tg (SList (l ++ [x])) (tensor_tag_to_state (hd w)) ∧
    fp8_tensor_object_map (hd w') = fp8_tensor_object_map (hd w) ∧
    dereferencing_list (hd w') = dereferencing_list (hd w) ∧
    float8_transpose_cache_valid (hd w') = float8_transpose_cache_valid (hd w) ∧
    current_group (hd w') = current_group (hd w) ∧
    (∀ c, restores c w' = restores c w) ∧
    only_inst_of t w w'.
Proof.
  unfold push_item. intros H.
  apply bind_Ok in H as ([] & w1 & Hs & H).
  apply state_append_Ok in Hs as (l & Hl & ->). exists l. split; [done|].
  apply bind_Ok in H as (h & w2 & Hg & H). apply gets_inv in Hg as [-> ->].
  apply bind_Ok in H as (need & w3 & Hn & H). apply gets_inv in Hn as [-> ->].
  apply when_inv in H as [[_ H]|[_ ->]].
  - apply bind_Ok in H as ([] & w4 & Hb & H).
    apply buf_append_Ok in Hb as (b & ->).
    apply clear_Ok in H as (Hh & Hc & Hi). rewrite Hh. simpl.
    repeat split; try apply Hi; auto.
    intros c. rewrite (restores_cons c _ _ _ Hc). done.
  - simpl. repeat split; auto.
Qed.

Lemma push_items_quantized_Ok tg t l :
  ∀ w l0 u w',
    dict_get tg (tensor_tag_to_state (hd w)) = Some (SList l0) →
    for_each l (push_item true tg t) w = Ok (u, w') →
    (∃ l1, tensor_tag_to_state (hd w')
             = dict_set tg (SList l1) (tensor_tag_to_state (hd w))) ∧
    fp8_tensor_object_map (hd w') = fp8_tensor_object_map (hd w) ∧
    dereferencing_list (hd w') = dereferencing_list (hd w) ∧
    float8_transpose_cache_valid (hd w') = float8_transpose_cache_valid (hd w) ∧
    current_group (hd w') = current_group (hd w) ∧
    (∀ c, restores c w' = restores c w) ∧
    only_inst_of t w w'.
Proof.
  induction l as [|x l IH]; intros w l0 u w' Hl H.
  - apply ret_inv in H as [-> ->].
    split; [exists l0; by rewrite dict_set_same|].
    repeat split; auto.
  - cbn [for_each] in H. apply bind_Ok in H as ([] & w1 & Hx & H).
    apply push_item_quantized_Ok in Hx
      as (l' & Hl' & HS & HO & HD & HC & Hg & Hr & Hi).
    eapply IH in H as ((l1 & HS1) & HO1 & HD1 & HC1 & Hg1 & Hr1 & Hi1);
      [|rewrite HS; apply dict_get_set_eq].
    split; [exists l1; by rewrite HS1, HS, dict_set_set|].
    split; [congruence|]. split; [congruence|]. split; [congruence|].
    split; [congruence|]. split; [intros c; by rewrite Hr1, Hr|].
    by eapply only_inst_of_trans.
Qed.

Lemma attrs_kept_refl w : attrs_kept w w.
Proof. unfold attrs_kept. auto. Qed.

(** [tensor_push] registers a composite and stores anything else. *)
Lemma tensor_push_effect t w tg w' :
  tensor_push t w = Ok (tg, w') →
  effect (if is_quantized_class (cls (objs w t)) then Registered tg t
          else Stored tg) w w'.
Proof.
  intros H. pose proof (async_tensor_push_counters _ _ _ _ H) as Hc.
  unfold tensor_push in H.
  apply bind_Ok in H as (c & w1 & Hg & H). apply gets_inv in Hg as [-> ->].
  apply bind_Ok in H as (h & w1 & Hg & H). apply gets_inv in Hg as [-> ->].
  destruct (is_stray_class (cls (objs w t))) eqn:Hstray; simpl in H.
  - destruct Hc as [-> _].
    assert (is_quantized_class (cls (objs w t)) = false) as ->
      by (by destruct (cls (objs w t))).
    apply bind_Ok in H as ([] & w1 & Hm & H). apply modify_hd_inv in Hm as ->.
    apply bind_Ok in H as ([] & w2 & Hm & H). apply modify_hd_inv in Hm as ->.
    apply ret_inv in H as [_ ->]. simpl.
    split; [done|]. split; [by repeat split|]. split; [by left|].
    by eexists.
  - destruct Hc as (-> & Hnone & _).
    apply bind_Ok in H as ([] & w1 & Hm & H). apply modify_hd_inv in Hm as ->.
    apply bind_Ok in H as ([] & w2 & Ha & H). apply assert_inv in Ha as [_ ->].
    apply bind_Ok in H as (l & w3 & Hl & H).
    apply bind_Ok in H as ([] & w4 & Hloop & H). apply ret_inv in H as [_ ->].
    destruct (is_quantized_class (cls (objs w t))) eqn:Hq.
    + apply push_quantized_Ok in Hl as (HS & HO & HD & HC & Hcl & Hi).
      eapply push_items_quantized_Ok in Hloop
        as ((l1 & HS1) & HO1 & HD1 & HC1 & Hg1 & Hr1 & Hi1);
        [|rewrite HS; apply dict_get_set_eq].
      simpl in *. split; [done|]. split; [done|].
      split; [exists l1; by rewrite HS1, HS, dict_set_set|].
      split; [congruence|]. split; [congruence|].
      split; [rewrite HC1, HC; reflexivity|].
      split; [|by eapply only_inst_of_trans].
      intros c. rewrite Hr1. by rewrite (restores_cons c _ _ _ Hcl).
    + apply ret_inv in Hl as [-> ->]. cbn [for_each] in Hloop.
      apply bind_Ok in Hloop as ([] & w5 & Hx & Hloop).
      apply ret_inv in Hloop as [_ ->].
      unfold push_item in Hx.
      apply bind_Ok in Hx as ([] & w6 & Hs & Hx). apply modify_hd_inv in Hs as ->.
      apply bind_Ok in Hx as (h & w2 & Hg & Hx). apply gets_inv in Hg as [-> ->].
      apply bind_Ok in Hx as (need & w3 & Hn & Hx). apply gets_inv in Hn as [-> ->].
      apply when_inv in Hx as [[_ Hx]|[_ ->]].
      * apply modify_hd_inv in Hx as ->. simpl.
        split; [done|]. split; [by repeat split|]. split; [by right|].
        by eexists.
      * simpl.
        split; [done|]. split; [by repeat split|]. split; [by right|].
        by eexists.
Qed.

(** ** What a pop does *)

Lemma tensor_pop_effect tg w e w' :
  tensor_pop tg w = Ok (e, w') →
  effect (Taken tg e) w w' ∨ ∃ o, e = ERef o ∧ effect (Retired tg o false) w w'.
Proof.
  intros H. apply tensor_pop_Ok in H
    as (st & Hst & HS & HC & Hn & HF & Hcls & H).
  destruct st as [x|l].
  - destruct H as (-> & HO & HD & Hcalls & Hinst). left. simpl.
    split; [done|]. split; [done|]. done.
  - destruct H as (o & -> & Hret & Hinst). right. exists o. split; [done|].
    simpl. split; [by exists l|]. split; [done|]. split; [by exists l|].
    split; [done|]. done.
Qed.

(** ** What the commits do *)

Lemma commit_forward_effect w u w' :
  on_group_commit_forward w = Ok (u, w') → effect Quiet w w'.
Proof. apply bookkeeping_kept_commit_forward. Qed.

Lemma trace_app evs1 evs2 w1 w2 w3 :
  trace evs1 w1 w2 → trace evs2 w2 w3 → trace (evs1 ++ evs2) w1 w3.
Proof.
  induction 1 as [|ev evs w wa wb He Ht IH]; intros H2; simpl; [done|].
  econstructor; [done|]. by apply IH.
Qed.

Lemma trace_one ev w w' : effect ev w w' → trace [ev] w w'.
Proof. intros H. econstructor; [done|]. constructor. Qed.

Lemma pick_reload_buffer_Ok i n w b w' :
  pick_reload_buffer i n w = Ok (b, w') → w' = w.
Proof.
  unfold pick_reload_buffer. intros H.
  apply bind_Ok in H as (h & w1 & Hg & H). apply gets_inv in Hg as [-> ->].
  destruct (double_buffering (hd w)); [|by apply ret_inv in H as [_ ->]].
  destruct (_ !! n); [|done]. by apply ret_inv in H as [_ ->].
Qed.

Lemma effect_Still_store_only w w' : store_only w w' → effect Still w w'.
Proof.
  intros H. split; [by apply store_only_bookkeeping_kept|].
  destruct H as [-> _]. done.
Qed.

(** One entry of the dictionary in [bulk_reload_group]. *)
Lemma bulk_reload_entry_trace g idx tg st w idx' w' :
  dict_get tg (tensor_tag_to_state (hd w)) = Some st →
  bulk_reload_entry g idx (tg, st) w = Ok (idx', w') →
  ∃ evs, trace evs w w' ∧ Forall reload_event evs ∧
    (∀ x, x ≠ tg → dict_get x (tensor_tag_to_state (hd w'))
                   = dict_get x (tensor_tag_to_state (hd w))) ∧
    (tg.1 = g → kind_of (dict_get tg (tensor_tag_to_state (hd w'))) = KOne).
Proof.
  intros Hst H. unfold bulk_reload_entry in H.
  destruct (bool_decide (tg.1 = g)) eqn:Hg.
  2:{ apply ret_inv in H as [_ ->]. exists []. split; [constructor|].
      split; [constructor|]. split; [done|].
      apply bool_decide_eq_false in Hg. done. }
  apply bind_Ok in H as (rb & w0 & Hp & H).
  apply pick_reload_buffer_Ok in Hp as ->.
  destruct st as [[| a |d b]|l].
  - apply ret_inv in H as [_ ->]. exists []. split; [constructor|].
    split; [constructor|]. split; [done|]. by rewrite Hst.
  - apply ret_inv in H as [_ ->]. exists []. split; [constructor|].
    split; [constructor|]. split; [done|]. by rewrite Hst.
  - apply bind_Ok in H as (r & w1 & Hr & H).
    apply store_only_reload in Hr.
    apply bind_Ok in H as ([] & w2 & Hs & H). apply ret_inv in H as [_ ->].
    pose proof Hr as (Hh & _).
    assert (bookkeeping_kept w1 w2) as Hk.
    { eapply bookkeeping_kept_set_state; [|done]. by rewrite Hh, Hst. }
    apply modify_hd_inv in Hs as ->.
    exists [Reloaded tg]. split.
    + apply trace_one. simpl. split.
      * etrans; [by apply store_only_bookkeeping_kept|done].
      * exists d, b, r. by rewrite Hh.
    + split; [repeat constructor|]. simpl. rewrite Hh. split.
      * intros x Hx. by rewrite dict_get_set_ne.
      * intros _. by rewrite dict_get_set_eq.
  - apply bind_Ok in H as (r & wa & Hf & H).
    assert (store_only w wa) as Hsa.
    { revert Hf. apply (preserves_fold_m store_only).
      intros acc x. apply store_only_reload_item. }
    pose proof Hsa as (Hha & _).
    apply bind_Ok in H as ([] & wb & Hr & H).
    apply bind_Ok in H as ([] & wc & Hw & H).
    apply bind_Ok in H as (o & wd & Hpo & H).
    apply bind_Ok in H as ([] & we & Hs & H). apply ret_inv in H as [_ ->].
    apply modify_hd_inv in Hs as ->.
    apply pop_object_Ok in Hpo as [HOc ->].
    apply write_back_transpose_flag_Ok in Hw as (o' & HOb & Hw).
    assert (fp8_tensor_object_map (hd wb) = fp8_tensor_object_map (hd wa) ∧
            tensor_tag_to_state (hd wb) = tensor_tag_to_state (hd wa) ∧
            float8_transpose_cache_valid (hd wb)
              = float8_transpose_cache_valid (hd wa) ∧
            (∀ x, dict_get tg (fp8_tensor_object_map (hd wa)) = Some x →
                  only_inst_of x wa wb) ∧
            ((tg ∈ dereferencing_list (hd wa) ∧
              dereferencing_list (hd wb)
                = list_remove_first tg (dereferencing_list (hd wa)) ∧
              calls wb = calls wa) ∨
             (tg ∉ dereferencing_list (hd wa) ∧
              dereferencing_list (hd wb) = dereferencing_list (hd wa) ∧
              ∃ x, dict_get tg (fp8_tensor_object_map (hd wa)) = Some x ∧
                   calls wb = CallRestoreFromSaved x r.1 :: calls wa)))
      as (HOab & HSab & HCab & Hiab & HDab).
    { apply restore_unless_duplicate_Ok in Hr
        as [[Hin ->]|(Hnin & Hh & x & Hx & Hc & Hi)].
      - simpl. repeat split; auto; by left.
      - rewrite Hh. split; [done|]. split; [done|]. split; [done|]. split.
        + intros y Hy. by assert (y = x) as -> by congruence.
        + right. split; [done|]. split; [done|]. by exists x. }
    assert (fp8_tensor_object_map (hd wc) = fp8_tensor_object_map (hd wb) ∧
            tensor_tag_to_state (hd wc) = tensor_tag_to_state (hd wb) ∧
            dereferencing_list (hd wc) = dereferencing_list (hd wb) ∧
            calls wc = calls wb ∧ only_inst_of o' wb wc ∧
            if bool_decide (cls (objs wb o') = Float8Tensor) then
              ∃ f, dict_get tg (float8_transpose_cache_valid (hd wb)) = Some f ∧
                   float8_transpose_cache_valid (hd wc)
                     = dict_pop tg (float8_transpose_cache_valid (hd wb)) ∧
                   transpose_invalid (inst (objs wc o')) = f
            else float8_transpose_cache_valid (hd wc)
                   = float8_transpose_cache_valid (hd wb))
      as (HObc & HSbc & HDbc & Hcbc & Hibc & HCbc).
    { destruct (decide (cls (objs wb o') = Float8Tensor)) as [Hfl|Hfl].
      - destruct Hw as (f & Hf' & ->).
        rewrite (bool_decide_eq_true_2 _ Hfl). simpl.
        repeat split; auto.
        + intros a. simpl. unfold upd. by destruct (decide (a = o')) as [->|?].
        + intros a Ha. simpl. unfold upd. by rewrite decide_False.
        + exists f. split; [done|]. split; [done|].
          simpl. unfold upd. by rewrite decide_True.
      - subst wc. rewrite (bool_decide_eq_false_2 _ Hfl).
        repeat split; auto. }
    assert (o' = o) as -> by congruence.
    rewrite HOab in HOb.
    specialize (Hiab o HOb).
    exists [Still; Retired tg o true]. split.
    + econstructor; [by apply effect_Still_store_only|]. apply trace_one.
      simpl. split; [exists l; by rewrite Hha|].
      split; [by rewrite HSbc, HSab|].
      split.
      { exists r.1. unfold retired. simpl. split; [done|].
        split; [by rewrite HObc, HOab|].
        rewrite HDbc, Hcbc.
        destruct HDab as [(? & ? & ?)|(? & ? & x & Hx & ?)]; [by left|right].
        assert (x = o) as -> by congruence. done. }
      split.
      { eapply only_inst_of_trans; [done|]. done. }
      destruct Hiab as (_ & _ & Hclsab & _). rewrite Hclsab in HCbc.
      destruct (bool_decide (cls (objs wa o) = Float8Tensor)); simpl.
      * destruct HCbc as (f & Hf1 & Hf2 & Hf3). exists f.
        rewrite <- HCab. done.
      * by rewrite HCbc.
    + split; [repeat constructor|]. simpl. rewrite HSbc, HSab, Hha. split.
      * intros x Hx. by rewrite dict_get_set_ne.
      * intros _. by rewrite dict_get_set_eq.
Qed.

(** A loop whose invariant may mention what is left to do. *)
Lemma fold_m_inv {A B} (I : list A → world → Prop) (body : B → A → M B) :
  (∀ x rest acc w acc' w',
      I (x :: rest) w → body acc x w = Ok (acc', w') → I rest w') →
  ∀ l acc w r w', I l w → fold_m l acc body w = Ok (r, w') → I [] w'.
Proof.
  intros Hstep. induction l as [|x l IH]; intros acc w r w' HI H.
  - by apply ret_inv in H as [_ ->].
  - cbn [fold_m] in H. apply bind_Ok in H as (acc1 & w1 & Hb & H).
    eapply IH; [|done]. by eapply Hstep.
Qed.

(** After [bulk_reload_group g] no slot of group [g] is the list of a
    composite any more. *)
Lemma bulk_reload_group_trace g w u w' :
  bulk_reload_group g w = Ok (u, w') →
  ∃ evs, trace evs w w' ∧ Forall reload_event evs ∧
    ∀ tg : tag, tg.1 = g →
          kind_of (dict_get tg (tensor_tag_to_state (hd w'))) ≠ KList.
Proof.
  unfold bulk_reload_group. intros H.
  apply bind_Ok in H as (h & w1 & Hg & H). apply gets_inv in Hg as [-> ->].
  apply bind_Ok in H as ([] & w1 & Ha & H). apply assert_inv in Ha as [_ ->].
  apply bind_Ok in H as (n & w1 & Hf & H). apply ret_inv in H as [_ ->].
  unfold fold_items in Hf.
  apply bind_Ok in Hf as (keys & w2 & Hg & Hf). apply gets_inv in Hg as [-> ->].
  pose (I := fun (rem : list tag) (wc : world) =>
    (∃ evs, trace evs w wc ∧ Forall reload_event evs) ∧
    ∀ tg : tag, tg.1 = g →
          kind_of (dict_get tg (tensor_tag_to_state (hd wc))) = KList →
          tg ∈ rem).
  assert (I [] w1) as [(evs & Ht & He) Hk].
  { eapply (fold_m_inv I); [|..|exact Hf].
    - intros x rest acc wc acc' wc' [(evs & Ht & He) Hk] Hb.
      apply bind_Ok in Hb as (h & w3 & Hg & Hb). apply gets_inv in Hg as [-> ->].
      destruct (dict_get x (tensor_tag_to_state (hd wc))) as [v|] eqn:Hx; [|done].
      apply bulk_reload_entry_trace in Hb as (evs' & Ht' & He' & Hoth & Hone);
        [|done].
      split.
      + exists (evs ++ evs'). split; [by eapply trace_app|].
        by apply Forall_app.
      + intros tg Htg Hkind. destruct (decide (tg = x)) as [->|Hne].
        * assert (KOne = KList) as E by (rewrite <- (Hone Htg); exact Hkind).
          done.
        * assert (kind_of (dict_get tg (tensor_tag_to_state (hd wc))) = KList)
            as Hkind' by (rewrite <- (Hoth _ Hne); exact Hkind).
          specialize (Hk tg Htg Hkind').
          apply elem_of_cons in Hk as [?|?]; done.
    - split; [exists []; split; constructor|].
      intros tg _ Hkind.
      destruct (dict_get tg (tensor_tag_to_state (hd w))) eqn:E; [|done].
      by eapply dict_get_Some_keys. }
  exists evs. split; [done|]. split; [done|].
  intros tg Htg Hkind. specialize (Hk tg Htg Hkind). by apply elem_of_nil in Hk.
Qed.

Lemma effect_Still_modify_hd f w :
  (∀ h, fp8_tensor_object_map (f h) = fp8_tensor_object_map h ∧
        dereferencing_list (f h) = dereferencing_list h ∧
        float8_transpose_cache_valid (f h) = float8_transpose_cache_valid h ∧
        tensor_tag_to_state (f h) = tensor_tag_to_state h) →
  effect Still w (with_hd (f (hd w)) w).
Proof.
  intros Hf. split.
  - by eapply (bookkeeping_kept_modify_hd f Hf w tt).
  - simpl. apply Hf.
Qed.

Lemma commit_backward_trace w u w' :
  on_group_commit_backward w = Ok (u, w') →
  ∃ evs, trace evs w w' ∧ Forall reload_event evs.
Proof.
  unfold on_group_commit_backward. intros H.
  apply bind_Ok in H as ([] & w1 & Hm & H). apply modify_hd_inv in Hm as ->.
  apply bind_Ok in H as (h & w1 & Hg & H). apply gets_inv in Hg as [-> ->].
  apply bind_Ok in H as ([] & w1 & Ha & H). apply assert_inv in Ha as [_ ->].
  apply bind_Ok in H as (win & w1 & Hl & H). apply lookup_window_Ok in Hl as [-> _].
  apply bind_Ok in H as ([] & w2 & H1 & H2).
  assert (∃ evs, trace evs w w2 ∧ Forall reload_event evs) as (evs1 & Ht1 & He1).
  { apply when_inv in H1 as [[_ H1]|[_ ->]].
    - apply bind_Ok in H1 as ([] & w3 & Hb & Hm). apply modify_hd_inv in Hm as ->.
      apply bulk_reload_group_trace in Hb as (evs & Ht & He & _).
      exists (Still :: evs ++ [Still]). split.
      + eapply trace_cons; [|eapply trace_app; [exact Ht|apply trace_one]].
        all: by apply effect_Still_modify_hd.
      + constructor; [exact I|]. apply Forall_app. split; [done|].
        by repeat constructor.
    - exists [Still]. split; [|by repeat constructor].
      apply trace_one. by apply effect_Still_modify_hd. }
  apply when_inv in H2 as [[_ H2]|[_ ->]].
  - apply modify_hd_inv in H2 as ->. exists (evs1 ++ [Still]). split.
    + eapply trace_app; [done|]. apply trace_one.
      by apply effect_Still_modify_hd.
    + apply Forall_app. split; [done|]. by repeat constructor.
  - by exists evs1.
Qed.

(** Every operation of a session is made of such steps. *)
Lemma run_op_trace o w r w' :
  handler_cls (hd w) = AsyncDoubleBuffer →
  run_op o w = Ok (r, w') →
  ∃ evs, trace evs w w' ∧ events_of_op o w r evs.
Proof.
  intros Hcls H. destruct o as [t|tg| |].
  - apply run_op_Push_Ok in H as (tg & -> & H).
    rewrite handler_tensor_push_async in H by done.
    apply tensor_push_effect in H.
    eexists. split; [by apply trace_one|]. by exists tg.
  - apply run_op_Pop_Ok in H as (s & -> & H).
    rewrite handler_tensor_pop_async in H by done.
    apply bind_Ok in H as (e & w1 & H & Hr). apply ret_inv in Hr as [-> ->].
    apply tensor_pop_effect in H as [H|(o & -> & H)].
    + exists [Taken tg e]. split; [by apply trace_one|].
      exists e. split; [done|]. by left.
    + exists [Retired tg o false]. split; [by apply trace_one|].
      exists (ERef o). split; [done|]. right. by exists o.
  - apply run_op_CommitForward_Ok in H as (-> & H).
    rewrite handler_commit_forward_async in H by done.
    apply commit_forward_effect in H.
    exists [Quiet]. split; [by apply trace_one|done].
  - apply run_op_CommitBackward_Ok in H as (-> & H).
    rewrite handler_commit_backward_async in H by done.
    apply commit_backward_trace in H as (evs & Ht & He).
    by exists evs.
Qed.

(** ** The transpose flag of a Float8 composite (C6) *)

Import AsyncDoubleBufferGroupOffloadHandler.

Lemma is_registered_false c (m : list (tag * addr)) :
  is_registered c m = false ↔ c ∉ m.*2.
Proof.
  unfold is_registered. induction m as [|[k v] m IH]; simpl.
  - split; [intros _ ?%elem_of_nil; done|done].
  - rewrite orb_false_iff, IH, bool_decide_eq_false, not_elem_of_cons.
    naive_solver.
Qed.

Lemma is_registered_true c (m : list (tag * addr)) :
  is_registered c m = true ↔ c ∈ m.*2.
Proof.
  destruct (is_registered c m) eqn:E.
  - split; [intros _|done]. destruct (decide (c ∈ m.*2)) as [|Hn]; [done|].
    apply is_registered_false in Hn. congruence.
  - split; [done|]. intros Hin. by apply is_registered_false in E.
Qed.

Lemma dict_get_values (x : tag) (c : addr) (m : list (tag * addr)) :
  dict_get x m = Some c → c ∈ m.*2.
Proof.
  intros H%dict_get_elem_of. apply list_elem_of_fmap. by exists (x, c).
Qed.

Lemma float8_object_bookkeeping_kept c w w' :
  bookkeeping_kept w w' → float8_object c w → float8_object c w'.
Proof.
  intros (_ & _ & _ & _ & _ & Hn & Hcls & _) [Hc Hlt]. split; [|lia].
  destruct (Hcls c) as [->|?]; [done|lia].
Qed.

Lemma float8_object_only_inst_of o c w w' :
  only_inst_of o w w' → float8_object c w → float8_object c w'.
Proof.
  intros (Hn & _ & Hcls & _) [Hc Hlt]. split; [by rewrite Hcls|lia].
Qed.

Lemma float8_object_attrs_kept c w w' :
  attrs_kept w w' → float8_object c w → float8_object c w'.
Proof.
  intros (Hn & _ & Hcls & _) [Hc Hlt]. split; [by rewrite Hcls|lia].
Qed.

Lemma float8_object_effect c ev w w' :
  effect ev w w' → float8_object c w → float8_object c w'.
Proof.
  destruct ev; simpl.
  - apply float8_object_bookkeeping_kept.
  - intros [H _]. by apply float8_object_bookkeeping_kept.
  - intros [H _]. by apply float8_object_bookkeeping_kept.
  - intros (_ & H & _). by apply float8_object_attrs_kept.
  - intros (_ & _ & _ & _ & _ & _ & _ & H). by eapply float8_object_only_inst_of.
  - intros (_ & H & _). by apply float8_object_attrs_kept.
  - intros (_ & _ & _ & H & _). by eapply float8_object_only_inst_of.
Qed.

Lemma flag_pending_bookkeeping_kept tg c f w w' :
  bookkeeping_kept w w' → flag_pending tg c f w → flag_pending tg c f w'.
Proof.
  intros (HO & HD & HC & _ & _ & _ & _ & _ & Hk) (Hkind & Hreg & Hf & Huniq & Htg).
  unfold flag_pending. rewrite Hk, HO, HC. done.
Qed.

Lemma flag_restored_bookkeeping_kept c f w w' :
  bookkeeping_kept w w' → float8_object c w →
  flag_restored c f w → flag_restored c f w'.
Proof.
  intros (HO & _ & _ & _ & _ & _ & _ & Hinst & _) [_ Hlt] [Hno Hf].
  unfold flag_restored. rewrite HO. split; [done|].
  destruct (Hinst c) as [->|?]; [done|lia].
Qed.

(** A step that is neither a push of [c] nor a pop of [tg] keeps the saved
    flag, or writes it back. *)
Lemma flag_pending_effect tg c f ev w w' :
  effect ev w w' → not_pushing c ev → not_popping tg ev →
  float8_object c w → flag_pending tg c f w →
  flag_pending tg c f w' ∨ flag_restored c f w'.
Proof.
  intros He Hev Hev' Hobj Hp. destruct ev as [| |x|x|x t|x e|x o b]; simpl in He.
  - left. by eapply flag_pending_bookkeeping_kept.
  - left. destruct He. by eapply flag_pending_bookkeeping_kept.
  - left. destruct He. by eapply flag_pending_bookkeeping_kept.
  - left. destruct He as ((HO & HD & HC & _) & _ & Hx & e & HS).
    destruct Hp as (Hkind & Hreg & Hf & Huniq & Htg).
    assert (x ≠ tg) as Hne.
    { intros ->. destruct Hx as [?|Hx]; [done|]. by rewrite Hx in Hkind. }
    unfold flag_pending. rewrite HS, HO, HC, dict_get_set_ne by done. done.
  - left. destruct He as (Hx & _ & (l & HS) & HO & _ & HC & _).
    destruct Hp as (Hkind & Hreg & Hf & Huniq & Htg). simpl in Hev.
    assert (x ≠ tg) as Hne by (intros ->; by rewrite Hx in Hkind).
    unfold flag_pending. rewrite HS, HO, HC, !dict_get_set_ne by done.
    split; [done|]. split; [done|]. split.
    { destruct (decide _); [by rewrite dict_get_set_ne|done]. }
    split; [|done]. intros y Hy. destruct (decide (x = y)) as [->|Hxy].
    + rewrite dict_get_set_eq in Hy. congruence.
    + rewrite dict_get_set_ne in Hy by done. auto.
  - left. destruct He as ((HO & HD & HC & _) & _ & Hx & HS).
    destruct Hp as (Hkind & Hreg & Hf & Huniq & Htg).
    assert (x ≠ tg) as Hne by (intros ->; by rewrite Hx in Hkind).
    unfold flag_pending. rewrite HS, HO, HC, dict_get_pop_ne by done. done.
  - destruct He as ((l & Hx) & HS & (r & HOx & HO & _) & Hi & HC).
    destruct Hp as (Hkind & Hreg & Hf & Huniq & Htg).
    destruct (decide (x = tg)) as [->|Hne].
    + right. destruct b; [|done].
      assert (o = c) as -> by congruence.
      destruct Hobj as [Hcls _].
      rewrite (bool_decide_eq_true_2 _ Hcls) in HC. simpl in HC.
      destruct HC as (f' & Hf' & _ & Hflag).
      assert (f' = f) as -> by congruence.
      split; [|done]. intros y Hy. rewrite HO in Hy.
      apply dict_get_pop_Some in Hy as [Hne Hy]. by apply Hne, Huniq.
    + left. unfold flag_pending. rewrite HO, dict_get_pop_ne by done.
      split.
      { rewrite HS. destruct b; [by rewrite dict_get_set_ne|by rewrite dict_get_pop_ne]. }
      split; [done|]. split.
      { destruct (b && _).
        - destruct HC as (_ & _ & -> & _). by rewrite dict_get_pop_ne.
        - by rewrite HC. }
      split; [|done]. intros y Hy.
      apply dict_get_pop_Some in Hy as [_ Hy]. auto.
Qed.

(** Once written back, the flag stays as long as [c] is not pushed again. *)
Lemma flag_restored_effect c f ev w w' :
  effect ev w w' → not_pushing c ev →
  float8_object c w → flag_restored c f w → flag_restored c f w'.
Proof.
  intros He Hev Hobj Hr. destruct ev as [| |x|x|x t|x e|x o b]; simpl in He.
  - by eapply flag_restored_bookkeeping_kept.
  - destruct He. by eapply flag_restored_bookkeeping_kept.
  - destruct He. by eapply flag_restored_bookkeeping_kept.
  - destruct He as ((HO & _) & (_ & _ & _ & Hinst) & _). destruct Hr as [Hno Hf].
    unfold flag_restored. by rewrite HO, Hinst.
  - destruct He as (_ & _ & _ & HO & _ & _ & _ & (_ & _ & _ & Hinst)).
    destruct Hr as [Hno Hf]. simpl in Hev.
    unfold flag_restored. rewrite HO, Hinst by done. split; [|done].
    intros y Hy. destruct (decide (x = y)) as [->|Hxy].
    + rewrite dict_get_set_eq in Hy. congruence.
    + rewrite dict_get_set_ne in Hy by done. by eapply Hno.
  - destruct He as ((HO & _) & (_ & _ & _ & Hinst) & _). destruct Hr as [Hno Hf].
    unfold flag_restored. by rewrite HO, Hinst.
  - destruct He as (_ & _ & (r & HOx & HO & _) & (_ & _ & _ & Hinst) & _).
    destruct Hr as [Hno Hf].
    assert (c ≠ o) as Hne by (intros ->; by eapply Hno).
    unfold flag_restored. rewrite HO, Hinst by done. split; [|done].
    intros y Hy. apply dict_get_pop_Some in Hy as [_ Hy]. by eapply Hno.
Qed.

Lemma flag_restored_trace c f evs w w' :
  trace evs w w' → Forall (not_pushing c) evs →
  float8_object c w → flag_restored c f w →
  float8_object c w' ∧ flag_restored c f w'.
Proof.
  induction 1 as [|ev evs w w1 w' He Ht IH]; intros Hall Hobj Hr; [done|].
  apply Forall_cons in Hall as [Hev Hall].
  apply IH; [done|by eapply float8_object_effect|].
  by eapply flag_restored_effect.
Qed.

Lemma flag_pending_trace tg c f evs w w' :
  trace evs w w' → Forall (not_pushing c) evs → Forall (not_popping tg) evs →
  float8_object c w → flag_pending tg c f w →
  float8_object c w' ∧ (flag_pending tg c f w' ∨ flag_restored c f w').
Proof.
  induction 1 as [|ev evs w w1 w' He Ht IH]; intros Hall Hall' Hobj Hp; [by auto|].
  apply Forall_cons in Hall as [Hev Hall].
  apply Forall_cons in Hall' as [Hev' Hall'].
  pose proof (float8_object_effect _ _ _ _ He Hobj) as Hobj1.
  destruct (flag_pending_effect _ _ _ _ _ _ He Hev Hev' Hobj Hp) as [Hp1|Hr1].
  - by apply IH.
  - destruct (flag_restored_trace _ _ _ _ _ Ht Hall Hobj1 Hr1). auto.
Qed.

Lemma reload_event_not_pushing c evs :
  Forall reload_event evs → Forall (not_pushing c) evs.
Proof.
  intros H. eapply Forall_impl; [exact H|]. by intros [| | | | | |x o [|]].
Qed.

Lemma reload_event_not_popping tg evs :
  Forall reload_event evs → Forall (not_popping tg) evs.
Proof.
  intros H. eapply Forall_impl; [exact H|]. by intros [| | | | | |x o [|]].
Qed.

Lemma events_of_op_not_pushing c o w r evs :
  events_of_op o w r evs → o ≠ Push c → Forall (not_pushing c) evs.
Proof.
  destruct o as [t|x| |]; simpl; intros He Hpush.
  - destruct He as (x & _ & ->). repeat constructor.
    destruct (is_quantized_class _); simpl; [|done]. congruence.
  - destruct He as (e & _ & [->|(o & _ & ->)]); by repeat constructor.
  - subst. by repeat constructor.
  - by apply reload_event_not_pushing.
Qed.

Lemma events_of_op_not_popping tg o w r evs :
  events_of_op o w r evs → o ≠ Pop tg → Forall (not_popping tg) evs.
Proof.
  destruct o as [t|x| |]; simpl; intros He Hpop.
  - destruct He as (x & _ & ->). repeat constructor.
    by destruct (is_quantized_class _).
  - destruct He as (e & _ & [->|(o & _ & ->)]); repeat constructor.
    simpl. congruence.
  - subst. by repeat constructor.
  - by apply reload_event_not_popping.
Qed.

Lemma flag_restored_run c f ops :
  ∀ w rs w',
    handler_cls (hd w) = AsyncDoubleBuffer →
    run ops w = Ok (rs, w') → Push c ∉ ops →
    float8_object c w → flag_restored c f w →
    handler_cls (hd w') = AsyncDoubleBuffer ∧
    float8_object c w' ∧ flag_restored c f w'.
Proof.
  induction ops as [|o ops IH]; intros w rs w' Hcls Hrun Hpush Hobj Hr.
  - by apply ret_inv in Hrun as [_ ->].
  - apply run_cons_Ok in Hrun as (r & w1 & rest & Hop & Hrun & _).
    apply not_elem_of_cons in Hpush as [Hne Hpush].
    destruct (run_op_async_counters _ _ _ _ Hcls Hop) as (Hcls1 & _).
    destruct (run_op_trace _ _ _ _ Hcls Hop) as (evs & Ht & He).
    destruct (flag_restored_trace c f _ _ _ Ht) as [Hobj1 Hr1]; try done.
    { eapply events_of_op_not_pushing; [done|]. congruence. }
    by eapply IH.
Qed.

Lemma flag_pending_run tg c f ops :
  ∀ w rs w',
    handler_cls (hd w) = AsyncDoubleBuffer →
    run ops w = Ok (rs, w') → Push c ∉ ops → Pop tg ∉ ops →
    float8_object c w → flag_pending tg c f w →
    handler_cls (hd w') = AsyncDoubleBuffer ∧
    float8_object c w' ∧ (flag_pending tg c f w' ∨ flag_restored c f w').
Proof.
  induction ops as [|o ops IH]; intros w rs w' Hcls Hrun Hpush Hpop Hobj Hp.
  - apply ret_inv in Hrun as [_ ->]. auto.
  - apply run_cons_Ok in Hrun as (r & w1 & rest & Hop & Hrun & _).
    apply not_elem_of_cons in Hpush as [Hne Hpush].
    apply not_elem_of_cons in Hpop as [Hne' Hpop].
    destruct (run_op_async_counters _ _ _ _ Hcls Hop) as (Hcls1 & _).
    destruct (run_op_trace _ _ _ _ Hcls Hop) as (evs & Ht & He).
    destruct (flag_pending_trace tg c f _ _ _ Ht) as [Hobj1 [Hp1|Hr1]]; try done.
    { eapply events_of_op_not_pushing; [done|]. congruence. }
    { eapply events_of_op_not_popping; [done|]. congruence. }
    + by eapply IH.
    + destruct (flag_restored_run c f ops w1 rest w') as (? & ? & ?); auto.
Qed.

(** The push of an unregistered Float8 composite saves its flag. *)
Lemma tensor_push_flag_pending c w tg w' :
  float8_object c w → 0 ≤ current_group (hd w) →
  is_registered c (fp8_tensor_object_map (hd w)) = false →
  tensor_push c w = Ok (tg, w') →
  handler_cls (hd w') = handler_cls (hd w) ∧
  float8_object c w' ∧ flag_pending tg c (captured_flag w c) w'.
Proof.
  intros Hobj Hcg Hreg H.
  pose proof (async_tensor_push_counters _ _ _ _ H) as Hc.
  pose proof (tensor_push_effect _ _ _ _ H) as He.
  destruct Hobj as [Hcls Hlt]. rewrite Hcls in Hc, He. simpl in Hc, He.
  destruct Hc as (_ & _ & Hc).
  destruct He as (Hx & Htg & (l & HS) & HO & _ & HC & _ & Hi).
  split; [by injection Hc|].
  split; [by eapply float8_object_only_inst_of|].
  unfold flag_pending. rewrite HS, HO, HC, !dict_get_set_eq.
  rewrite (decide_True (P := cls (objs w c) = Float8Tensor)) by done.
  rewrite dict_get_set_eq.
  split; [done|]. split; [done|]. split; [done|]. split; [|lia].
  intros y Hy. destruct (decide (tg = y)) as [->|Hne]; [done|].
  rewrite dict_get_set_ne in Hy by done.
  apply dict_get_values in Hy. by apply is_registered_false in Hreg.
Qed.

(** The reload of the group of [tg] writes the saved flag back. *)
Lemma bulk_reload_group_flag tg c f w u w' :
  float8_object c w →
  flag_pending tg c f w ∨ flag_restored c f w →
  bulk_reload_group tg.1 w = Ok (u, w') →
  handler_cls (hd w') = handler_cls (hd w) ∧
  float8_object c w' ∧ flag_restored c f w'.
Proof.
  intros Hobj Hst H.
  pose proof (same_counters_bulk_reload_group _ _ _ _ H) as Hc.
  apply bulk_reload_group_trace in H as (evs & Ht & He & Hk).
  split; [by injection Hc|].
  destruct Hst as [Hp|Hr].
  - destruct (flag_pending_trace tg c f _ _ _ Ht) as [Hobj' [Hp'|Hr']];
      try done.
    + by apply reload_event_not_pushing.
    + by apply reload_event_not_popping.
    + destruct Hp' as [Hkind _]. by apply Hk in Hkind.
  - eapply flag_restored_trace; try done. by apply reload_event_not_pushing.
Qed.

(** X1. The asynchronous handler pushes a Float8 composite [c] that is not
    registered yet and hands out the tag [tg].  The flag it saves under [tg]
    is the [_transpose_invalid] that [c] has when the push reads it, that
    is, once [prepare_for_saving] has run.  Let the session go on with any
    operations other than a second push of [c] and a pop of [tg]: then
    either [c] is still registered under [tg] with the same flag saved, or
    [c] is registered under no tag any more and carries that flag.  When the group of
    [tg] is then reloaded in bulk, [c] carries that flag, and it keeps it for
    the rest of the session as long as it is not pushed again. *)
Theorem transpose_flag_written_back w0 c tg w1 ops rs w2 u w3 ops' rs' w4 :
  handler_cls (hd w0) = AsyncDoubleBuffer →
  cls (objs w0 c) = Float8Tensor →
  (c < next_addr w0)%nat →
  0 ≤ current_group (hd w0) →
  is_registered c (fp8_tensor_object_map (hd w0)) = false →
  tensor_push c w0 = Ok (tg, w1) →
  Push c ∉ ops → Pop tg ∉ ops →
  run ops w1 = Ok (rs, w2) →
  bulk_reload_group tg.1 w2 = Ok (u, w3) →
  Push c ∉ ops' →
  run ops' w3 = Ok (rs', w4) →
  dict_get tg (float8_transpose_cache_valid (hd w1)) = Some (captured_flag w0 c) ∧
  ((dict_get tg (fp8_tensor_object_map (hd w2)) = Some c ∧
    dict_get tg (float8_transpose_cache_valid (hd w2))
      = Some (captured_flag w0 c)) ∨
   ((∀ x, dict_get x (fp8_tensor_object_map (hd w2)) ≠ Some c) ∧
    transpose_invalid (inst (objs w2 c)) = captured_flag w0 c)) ∧
  transpose_invalid (inst (objs w3 c)) = captured_flag w0 c ∧
  transpose_invalid (inst (objs w4 c)) = captured_flag w0 c.
Proof.
  intros Hcls Hc Hlt Hcg Hreg Hpush Hops Hops2 Hrun Hreload Hops' Hrun'.
  destruct (tensor_push_flag_pending c w0 tg w1) as (Hcls1 & Hobj1 & Hp1);
    try done.
  rewrite Hcls in Hcls1.
  destruct (flag_pending_run tg c (captured_flag w0 c) ops w1 rs w2)
    as (Hcls2 & Hobj2 & Hst2); try done.
  destruct (bulk_reload_group_flag tg c (captured_flag w0 c) w2 u w3)
    as (Hcls3 & Hobj3 & Hr3); try done.
  rewrite Hcls2 in Hcls3.
  destruct (flag_restored_run c (captured_flag w0 c) ops' w3 rs' w4)
    as (_ & _ & Hr4); try done.
  split; [apply Hp1|]. split.
  - destruct Hst2 as [(_ & HO & HC & _)|Hr2]; [by left|by right].
  - split; [apply Hr3|apply Hr4].
Qed.

Lemma run_value {A} (m : M A) w a :
  value_of m w = Some a → m w = Ok (a, after m w).
Proof.
  unfold value_of, after. destruct (m w) as [[a' w']|]; [|done].
  by intros [= ->].
Qed.


Lemma transpose_flag_written_back_witness :
  let w0 := world_of
              [set_activation_offloading (plain_tensor [1; 2; 3; 4]);
               plain_tensor [5];
               composite Float8Tensor (ERef 0%nat) ENone (ERef 1%nat) ENone false]
              (init 1 1 tensor_need_offloading_checker_activations false) in
  let w1 := after (tensor_push 2%nat) w0 in
  let w2 := after (run [CommitForward]) w1 in
  let w3 := after (bulk_reload_group 0) w2 in
  let w4 := after (run [CommitBackward; Pop (0, 0)]) w3 in
  transpose_invalid (inst (objs w0 2%nat)) = false ∧
  transpose_invalid (inst (objs w1 2%nat)) = true ∧
  transpose_invalid (inst (objs w3 2%nat)) = false ∧
  transpose_invalid (inst (objs w4 2%nat)) = false.
Proof.
  intros w0 w1 w2 w3 w4.
  assert (tensor_push 2%nat w0 = Ok ((0, 0), w1)) as Hpush
    by (apply (run_value (tensor_push 2%nat) w0 (0, 0)); vm_compute; reflexivity).
  assert (run [CommitForward] w1 = Ok (results_of [CommitForward] w1, w2))
    as Hrun by (apply run_results; vm_compute; reflexivity).
  assert (bulk_reload_group 0 w2 = Ok (tt, w3)) as Hreload
    by (apply (run_value (bulk_reload_group 0) w2 tt); vm_compute; reflexivity).
  assert (run [CommitBackward; Pop (0, 0)] w3
          = Ok (results_of [CommitBackward; Pop (0, 0)] w3, w4))
    as Hrun' by (apply run_results; vm_compute; reflexivity).
  assert (Push 2%nat ∉ [CommitForward]) as Hops
    by (apply not_elem_of_cons; split; [discriminate|apply not_elem_of_nil]).
  assert (Pop (0, 0) ∉ [CommitForward]) as Hops2
    by (apply not_elem_of_cons; split; [discriminate|apply not_elem_of_nil]).
  assert (Push 2%nat ∉ [CommitBackward; Pop (0, 0)]) as Hops'
    by (repeat (apply not_elem_of_cons; split; [discriminate|]);
        apply not_elem_of_nil).
  assert (handler_cls (hd w0) = AsyncDoubleBuffer) as H1 by reflexivity.
  assert (cls (objs w0 2%nat) = Float8Tensor) as H2 by reflexivity.
  assert (2 < next_addr w0)%nat as H3 by (vm_compute; lia).
  assert (0 ≤ current_group (hd w0)) as H4 by (vm_compute; congruence).
  assert (is_registered 2%nat (fp8_tensor_object_map (hd w0)) = false) as H5 by reflexivity.
  pose proof (transpose_flag_written_back w0 2%nat (0, 0) w1 [CommitForward]
              _ w2 tt w3 [CommitBackward; Pop (0, 0)] _ w4
              H1 H2 H3 H4 H5 Hpush Hops Hops2 Hrun Hreload Hops' Hrun') as HT.
  destruct HT as (_ & _ & HT3 & HT4).
  split; [reflexivity|]. split; [vm_compute; reflexivity|].
  split; [exact HT3|exact HT4].
Defined.

(** ** A composite saved twice (deduplication) *)

Import AsyncDoubleBufferGroupOffloadHandler.

Lemma elem_of_list_remove_first (x y : tag) l :
  NoDup l → y ∈ list_remove_first x l ↔ y ∈ l ∧ y ≠ x.
Proof.
  induction l as [|z l IH]; simpl; intros Hnd.
  - split; [by intros ?%elem_of_nil|by intros [?%elem_of_nil _]].
  - apply NoDup_cons in Hnd as [Hz Hnd]. case_decide; subst.
    + rewrite elem_of_cons. split.
      * intros Hy. split; [by right|]. by intros ->.
      * by intros [[->|?] ?].
    + rewrite !elem_of_cons, IH by done. naive_solver.
Qed.

Lemma NoDup_list_remove_first (x : tag) l :
  NoDup l → NoDup (list_remove_first x l).
Proof.
  induction l as [|z l IH]; simpl; intros Hnd; [done|].
  apply NoDup_cons in Hnd as [Hz Hnd]. case_decide; [done|].
  apply NoDup_cons. split; [|by apply IH].
  rewrite elem_of_list_remove_first by done. naive_solver.
Qed.

Lemma dict_pop_absent {K V} `{EqDecision K} (k : K) (d : list (K * V)) :
  dict_get k d = None → dict_pop k d = d.
Proof.
  induction d as [|[k' v] d IH]; simpl; [done|].
  case_decide; [done|]. intros Hd. by rewrite IH.
Qed.

Lemma dict_keys_set_new {K V} `{EqDecision K} (k : K) (v : V) d :
  dict_get k d = None → dict_keys (dict_set k v d) = dict_keys d ++ [k].
Proof.
  intros H. rewrite dict_set_new by done. unfold dict_keys.
  by rewrite fmap_app.
Qed.

Lemma dict_elem_of_keys {K V} `{EqDecision K} (kv : K * V) d :
  kv ∈ d → kv.1 ∈ dict_keys d.
Proof. intros H. unfold dict_keys. apply list_elem_of_fmap. by exists kv. Qed.

(** Counting the entries that satisfy [P] when one key goes. *)
Lemma filter_pop_count {V} (P : tag * V → Prop) `{!∀ kv, Decision (P kv)}
    (x : tag) (o : V) (d : list (tag * V)) :
  NoDup (dict_keys d) → dict_get x d = Some o →
  length (filter P d)
  = ((if decide (P (x, o)) then 1 else 0) + length (filter P (dict_pop x d)))%nat.
Proof.
  unfold dict_keys. induction d as [|[k v] d IH]; simpl; [done|].
  intros [Hk Hnd]%NoDup_cons. destruct (decide (x = k)) as [->|Hne].
  - intros [= ->].
    assert (dict_get k d = None) as Hnone.
    { apply dict_get_None_keys. exact Hk. }
    rewrite (dict_pop_absent _ _ Hnone).
    destruct (decide (P (k, o))).
    + by rewrite filter_cons_True.
    + by rewrite filter_cons_False.
  - intros Hd. specialize (IH Hnd Hd).
    destruct (decide (P (k, v))).
    + rewrite !filter_cons_True by done. simpl. lia.
    + rewrite !filter_cons_False by done. done.
Qed.

Lemma filter_length_ext {A} (P Q : A → Prop) `{!∀ x, Decision (P x)}
    `{!∀ x, Decision (Q x)} (l : list A) :
  (∀ x, x ∈ l → P x ↔ Q x) → length (filter P l) = length (filter Q l).
Proof.
  induction l as [|a l IH]; intros Hext; [done|].
  assert (P a ↔ Q a) as Ha by (apply Hext; left).
  assert (length (filter P l) = length (filter Q l)) as IH'.
  { apply IH. intros x Hx. apply Hext. by right. }
  destruct (decide (P a)) as [Hp|Hp].
  - rewrite !filter_cons_True by tauto. simpl. lia.
  - rewrite !filter_cons_False by tauto. done.
Qed.

Lemma owed_same c w w' :
  fp8_tensor_object_map (hd w') = fp8_tensor_object_map (hd w) →
  dereferencing_list (hd w') = dereferencing_list (hd w) →
  owed c w' = owed c w.
Proof. unfold owed. by intros -> ->. Qed.

Lemma owed_unregistered c w :
  c ∉ (fp8_tensor_object_map (hd w)).*2 → owed c w = 0%nat.
Proof.
  unfold owed. generalize (fp8_tensor_object_map (hd w)).
  induction l as [|kv l IH]; [done|].
  rewrite fmap_cons. intros [Hne Hl]%not_elem_of_cons.
  rewrite filter_cons_False; [by apply IH|]. by intros [? _].
Qed.

(** ** Consistency of the bookkeeping, step by step *)

Lemma ledger_wf_bookkeeping_kept w w' :
  bookkeeping_kept w w' → ledger_wf w → ledger_wf w'.
Proof.
  intros (HO & HD & _ & _ & _ & _ & _ & _ & Hk) (H1 & H2 & H3 & H4 & H5).
  unfold ledger_wf. rewrite HO, HD. repeat split; auto.
  intros tg Htg. rewrite Hk. auto.
Qed.

Lemma ledger_wf_effect ev w w' :
  effect ev w w' → (save_event ev → current_group (hd w) ≠ -1) →
  ledger_wf w → ledger_wf w'.
Proof.
  intros He Hcg Hwf. destruct ev as [| |x|x|x t|x e|x o b]; simpl in He.
  - by eapply ledger_wf_bookkeeping_kept.
  - destruct He. by eapply ledger_wf_bookkeeping_kept.
  - destruct He. by eapply ledger_wf_bookkeeping_kept.
  - destruct He as ((HO & HD & _) & _ & Hx & e & HS).
    destruct Hwf as (H1 & H2 & H3 & H4 & H5).
    unfold ledger_wf. rewrite HO, HD, HS. repeat split; auto.
    intros tg Htg. rewrite dict_get_set_ne; [by apply H4|].
    intros ->. destruct Hx as [Hx|Hx].
    + by apply H5 in Htg.
    + apply H4 in Htg. by rewrite Hx in Htg.
  - destruct He as (Hx & Htg & (l & HS) & HO & HD & _).
    destruct Hwf as (H1 & H2 & H3 & H4 & H5).
    assert (x ∉ dict_keys (fp8_tensor_object_map (hd w))) as Hnew.
    { intros Hin. apply H4 in Hin. by rewrite Hx in Hin. }
    assert (dict_get x (fp8_tensor_object_map (hd w)) = None) as Hnone
      by (by apply dict_get_None_keys).
    assert (x ∉ dereferencing_list (hd w)) as HnD by (intros ?; by apply Hnew, H3).
    unfold ledger_wf. rewrite HO, HD, HS, dict_keys_set_new by done.
    split; [|split; [|split; [|split]]].
    + apply NoDup_app. split; [done|]. split; [|apply NoDup_singleton].
      intros y Hy ->%list_elem_of_singleton. done.
    + destruct (is_registered _ _); [|done].
      apply NoDup_app. split; [done|]. split; [|apply NoDup_singleton].
      intros y Hy ->%list_elem_of_singleton. done.
    + intros tg. rewrite elem_of_app.
      destruct (is_registered _ _); [rewrite elem_of_app|]; naive_solver.
    + intros tg [Hin|Heq%list_elem_of_singleton]%elem_of_app.
      * rewrite dict_get_set_ne; [by apply H4|]. by intros ->.
      * subst tg. by rewrite dict_get_set_eq.
    + intros tg [Hin|Heq%list_elem_of_singleton]%elem_of_app; [by apply H5|].
      subst tg. rewrite Htg. by apply Hcg.
  - destruct He as ((HO & HD & _) & _ & Hx & HS).
    destruct Hwf as (H1 & H2 & H3 & H4 & H5).
    unfold ledger_wf. rewrite HO, HD, HS. repeat split; auto.
    intros tg Htg. rewrite dict_get_pop_ne; [by apply H4|].
    intros ->. apply H4 in Htg. by rewrite Hx in Htg.
  - destruct He as (_ & HS & (r & HOx & HO & HD) & _).
    destruct Hwf as (H1 & H2 & H3 & H4 & H5).
    assert (∀ y, y ∈ dereferencing_list (hd w') →
                 y ∈ dereferencing_list (hd w) ∧ y ≠ x) as HD'.
    { intros y Hy. destruct HD as [(Hin & HD & _)|(Hnin & HD & _)];
        rewrite HD in Hy.
      - by apply elem_of_list_remove_first in Hy.
      - split; [done|]. by intros ->. }
    unfold ledger_wf. rewrite HO, dict_keys_pop.
    split; [by apply NoDup_filter|]. split.
    { destruct HD as [(_ & -> & _)|(_ & -> & _)]; [|done].
      by apply NoDup_list_remove_first. }
    split.
    { intros y Hy. apply HD' in Hy as [Hy Hne].
      apply list_elem_of_filter. split; [done|]. by apply H3. }
    split.
    { intros tg [Hne Htg]%list_elem_of_filter. rewrite HS.
      destruct b; [rewrite dict_get_set_ne by done|rewrite dict_get_pop_ne by done];
        by apply H4. }
    intros tg [Hne Htg]%list_elem_of_filter. by apply H5.
Qed.

(** ** Restores done and restores owed *)

Lemma balance_kept c w w' :
  fp8_tensor_object_map (hd w') = fp8_tensor_object_map (hd w) →
  dereferencing_list (hd w') = dereferencing_list (hd w) →
  calls w' = calls w →
  (restores c w' + owed c w' = restores c w + owed c w)%nat.
Proof.
  intros HO HD Hc. by rewrite (owed_same _ _ _ HO HD), (restores_same _ _ _ Hc).
Qed.

(** What is restored plus what is owed to [c] changes only when [c] is
    registered for the first time. *)
Lemma balance_effect c ev w w' :
  ledger_wf w → effect ev w w' →
  (restores c w' + owed c w'
   = restores c w + owed c w + first_registration c ev w)%nat.
Proof.
  intros (H1 & H2 & H3 & H4 & H5) He.
  destruct ev as [| |x|x|x t|x e|x o b]; simpl in He; simpl;
    rewrite ?Nat.add_0_r.
  - destruct He as (HO & HD & _ & Hc & _). by apply balance_kept.
  - destruct He as [(HO & HD & _ & Hc & _) _]. by apply balance_kept.
  - destruct He as [(HO & HD & _ & Hc & _) _]. by apply balance_kept.
  - destruct He as ((HO & HD & _ & Hc) & _). by apply balance_kept.
  - destruct He as (Hx & _ & _ & HO & HD & _ & Hr & _).
    assert (x ∉ dict_keys (fp8_tensor_object_map (hd w))) as Hnew.
    { intros Hin. apply H4 in Hin. by rewrite Hx in Hin. }
    assert (dict_get x (fp8_tensor_object_map (hd w)) = None) as Hnone
      by (by apply dict_get_None_keys).
    assert (x ∉ dereferencing_list (hd w)) as HnD by (intros ?; by apply Hnew, H3).
    rewrite Hr. unfold owed. rewrite HO, HD, dict_set_new by done.
    rewrite filter_app, length_app.
    rewrite (filter_length_ext _
               (fun kv : tag * addr => kv.2 = c ∧ kv.1 ∉ dereferencing_list (hd w))
               (fp8_tensor_object_map (hd w))).
    2:{ intros kv Hkv. apply dict_elem_of_keys in Hkv.
        assert (kv.1 ≠ x) by (intros E; by rewrite E in Hkv).
        destruct (is_registered _ _); [rewrite elem_of_app, list_elem_of_singleton|];
          naive_solver. }
    assert (length (filter (fun kv : tag * addr =>
                kv.2 = c ∧ kv.1 ∉ (if is_registered t (fp8_tensor_object_map (hd w))
                                   then dereferencing_list (hd w) ++ [x]
                                   else dereferencing_list (hd w))) [(x, t)])
            = if decide (t = c) then
                if is_registered c (fp8_tensor_object_map (hd w)) then 0 else 1
              else 0)%nat as ->; [|lia].
    destruct (decide (t = c)) as [->|Hne].
    + destruct (is_registered c _).
      * rewrite filter_cons_False; [done|]. simpl. intros [_ Hn]. apply Hn.
        apply elem_of_app. right. by apply list_elem_of_singleton.
      * by rewrite filter_cons_True.
    + rewrite filter_cons_False; [done|]. simpl. by intros [? _].
  - destruct He as ((HO & HD & _ & Hc) & _). by apply balance_kept.
  - destruct He as (_ & _ & (r & HOx & HO & HD) & _).
    unfold owed. rewrite HO.
    destruct HD as [(Hin & HD & Hc)|(Hnin & HD & Hc)]; rewrite HD.
    + rewrite (restores_same _ _ _ Hc). f_equal.
      rewrite (filter_pop_count _ x o (fp8_tensor_object_map (hd w))) by done.
      rewrite decide_False by (simpl; tauto). simpl.
      apply filter_length_ext. intros kv Hkv.
      assert (kv.1 ≠ x) as Hne.
      { rewrite dict_pop_filter in Hkv. by apply list_elem_of_filter in Hkv as [? _]. }
      rewrite elem_of_list_remove_first by done. naive_solver.
    + rewrite (restores_cons c _ _ _ Hc). simpl.
      rewrite (filter_pop_count
                 (fun kv : tag * addr => kv.2 = c ∧ kv.1 ∉ dereferencing_list (hd w))
                 x o (fp8_tensor_object_map (hd w))) by done.
      simpl. destruct (decide (o = c)) as [->|Hne].
      * rewrite bool_decide_eq_true_2 by done.
        rewrite decide_True by done. lia.
      * rewrite bool_decide_eq_false_2 by done.
        rewrite decide_False by tauto. lia.
Qed.

(** ** The forward pass *)

Lemma class_effect c ev w w' :
  effect ev w w' → (c < next_addr w)%nat →
  cls (objs w' c) = cls (objs w c) ∧ (c < next_addr w')%nat.
Proof.
  assert (∀ w w', bookkeeping_kept w w' → (c < next_addr w)%nat →
                  cls (objs w' c) = cls (objs w c) ∧ (c < next_addr w')%nat) as Hk.
  { intros v v' (_ & _ & _ & _ & _ & Hn & Hcls & _) Hlt. split; [|lia].
    destruct (Hcls c) as [->|?]; [done|lia]. }
  destruct ev; simpl.
  - apply Hk.
  - intros [H _]. by apply Hk.
  - intros [H _]. by apply Hk.
  - intros (_ & (Hn & _ & Hcls & _) & _) Hlt. split; [done|lia].
  - intros (_ & _ & _ & _ & _ & _ & _ & (Hn & _ & Hcls & _)) Hlt.
    split; [done|lia].
  - intros (_ & (Hn & _ & Hcls & _) & _) Hlt. split; [done|lia].
  - intros (_ & _ & _ & (Hn & _ & Hcls & _) & _) Hlt. split; [done|lia].
Qed.

Lemma registered_iff c w :
  ledger_wf w →
  is_registered c (fp8_tensor_object_map (hd w)) = true
  ↔ ∃ y, dict_get y (fp8_tensor_object_map (hd w)) = Some c.
Proof.
  intros (H1 & _). rewrite is_registered_true. split.
  - intros ([k v] & -> & Hin)%list_elem_of_fmap. exists k.
    by apply dict_elem_of_get.
  - intros (y & Hy). by eapply dict_get_values.
Qed.

(** A step of the forward pass that does not push [c]. *)
Lemma saved_state_effect c T1 T2 ev w w' :
  effect ev w w' → save_event ev → not_pushing c ev →
  ledger_wf w →
  (∀ y, dict_get y (fp8_tensor_object_map (hd w)) = Some c ↔ y ∈ T1 ++ T2) →
  (∀ y, y ∈ T1 → y ∉ dereferencing_list (hd w)) →
  (∀ y, y ∈ T2 → y ∈ dereferencing_list (hd w)) →
  (∀ y, dict_get y (fp8_tensor_object_map (hd w')) = Some c ↔ y ∈ T1 ++ T2) ∧
  (∀ y, y ∈ T1 → y ∉ dereferencing_list (hd w')) ∧
  (∀ y, y ∈ T2 → y ∈ dereferencing_list (hd w')) ∧
  restores c w' = restores c w.
Proof.
  intros He Hsave Hpush Hwf HT H1 H2.
  destruct ev as [| |x|x|x t|x e|x o b]; simpl in He, Hsave, Hpush; try done.
  - destruct He as (HO & HD & _ & Hc & _). rewrite HO, HD.
    by rewrite (restores_same _ _ _ Hc).
  - destruct He as ((HO & HD & _ & Hc) & _). rewrite HO, HD.
    by rewrite (restores_same _ _ _ Hc).
  - destruct He as (Hx & _ & _ & HO & HD & _ & Hr & _).
    destruct Hwf as (W1 & W2 & W3 & W4 & W5).
    assert (x ∉ dict_keys (fp8_tensor_object_map (hd w))) as Hnew.
    { intros Hin. apply W4 in Hin. by rewrite Hx in Hin. }
    assert (∀ y, y ∈ T1 ++ T2 → y ≠ x) as Hne.
    { intros y Hy%HT ->. by apply dict_get_Some_keys in Hy. }
    rewrite HO, HD. split; [|split; [|split]]; [| | |done].
    + intros y. destruct (decide (x = y)) as [->|Hxy].
      * rewrite dict_get_set_eq. split; [congruence|].
        intros Hy. by apply Hne in Hy.
      * by rewrite dict_get_set_ne.
    + intros y Hy. destruct (is_registered _ _); [|by apply H1].
      rewrite elem_of_app, list_elem_of_singleton. intros [?| ->].
      * by eapply H1.
      * eapply Hne; [|done]. apply elem_of_app. by left.
    + intros y Hy. destruct (is_registered _ _); [|by apply H2].
      apply elem_of_app. left. by apply H2.
Qed.

Lemma saving_run c T1 T2 ops :
  ∀ w rs w',
    saved_state c T1 T2 w → Forall saving_op ops → Push c ∉ ops →
    run ops w = Ok (rs, w') →
    saved_state c T1 T2 w' ∧ restores c w' = restores c w ∧
    owed c w' = owed c w.
Proof.
  induction ops as [|o ops IH]; intros w rs w' Hst Hops Hpush Hrun.
  - by apply ret_inv in Hrun as [_ ->].
  - apply run_cons_Ok in Hrun as (r & w1 & rest & Hop & Hrun & _).
    apply Forall_cons in Hops as [Ho Hops].
    apply not_elem_of_cons in Hpush as [Hne Hpush].
    destruct Hst as (Hcls & Hwf & Hcg & Hq & Hlt & HT & H1 & H2).
    destruct (run_op_async_counters _ _ _ _ Hcls Hop) as (Hcls1 & _ & _ & _ & Hcnt).
    destruct (run_op_trace _ _ _ _ Hcls Hop) as (evs & Ht & He).
    assert (∃ ev, evs = [ev] ∧ save_event ev ∧ not_pushing c ev) as (ev & -> & Hs & Hn).
    { destruct o as [t|x| |]; simpl in He, Ho; try done.
      - destruct He as (x & _ & ->). eexists. split; [done|].
        destruct (is_quantized_class (cls (objs w t))); simpl; [|by split].
        split; [done|]. congruence.
      - subst. by exists Quiet. }
    inversion Ht as [|? ? ? ? ? Hev Ht']; subst. inversion Ht'; subst.
    destruct (saved_state_effect c T1 T2 _ _ _ Hev Hs Hn Hwf HT H1 H2)
      as (HT1 & H11 & H21 & Hr1).
    destruct (class_effect c _ _ _ Hev Hlt) as [Hc1 Hlt1].
    assert (saved_state c T1 T2 w1) as Hst1.
    { split; [done|]. split; [eapply ledger_wf_effect; [done| |done]; lia|].
      split; [destruct o; simpl in Hcnt, Ho; try done;
              [destruct Hcnt as [-> _]; lia
              |destruct Hcnt as (? & _ & -> & _); lia]|].
      split; [by rewrite Hc1|]. done. }
    destruct (IH _ _ _ Hst1 Hops Hpush Hrun) as (Hst' & Hr' & Ho').
    pose proof (balance_effect c _ _ _ Hwf Hev) as Hbal.
    assert (first_registration c ev w = 0%nat) as Hz.
    { destruct ev; simpl in Hn; simpl; try done. by rewrite decide_False. }
    split; [done|]. split; [congruence|]. lia.
Qed.

(** The first push of [c] registers it, and a restore is owed. *)
Lemma push_first c w tg w' :
  saved_state c [] [] w →
  run_op (Push c) w = Ok (RTag tg, w') →
  saved_state c [tg] [] w' ∧ restores c w' = restores c w ∧
  owed c w' = 1%nat.
Proof.
  intros (Hcls & Hwf & Hcg & Hq & Hlt & HT & H1 & H2) Hop.
  destruct (run_op_async_counters _ _ _ _ Hcls Hop) as (Hcls1 & _ & _ & _ & Hcg1 & _).
  destruct (run_op_trace _ _ _ _ Hcls Hop) as (evs & Ht & He).
  simpl in He. destruct He as (x & [= <-] & ->). rewrite Hq in Ht.
  inversion Ht as [|? ? ? ? ? Hev Ht']; subst. inversion Ht'; subst.
  assert (is_registered c (fp8_tensor_object_map (hd w)) = false) as Hreg.
  { destruct (is_registered c _) eqn:E; [|done].
    apply registered_iff in E as (y & Hy); [|done].
    apply HT in Hy. by apply elem_of_nil in Hy. }
  pose proof (balance_effect c _ _ _ Hwf Hev) as Hbal.
  simpl in Hbal. rewrite decide_True, Hreg in Hbal by done.
  assert (owed c w = 0%nat) as Hzero.
  { apply owed_unregistered. by apply is_registered_false. }
  destruct (class_effect c _ _ _ Hev Hlt) as [Hc1 Hlt1].
  pose proof (ledger_wf_effect _ _ _ Hev ltac:(lia) Hwf) as Hwf1.
  simpl in Hev. destruct Hev as (Hx & _ & _ & HO & HD & _ & Hr & _).
  rewrite Hreg in HD.
  split; [|split; [apply Hr|rewrite Hr in Hbal; lia]].
  split; [done|]. split; [done|]. split; [lia|]. split; [by rewrite Hc1|].
  split; [done|]. rewrite HO, HD. split; [|split].
  - intros y. simpl. rewrite list_elem_of_singleton.
    destruct (decide (tg = y)) as [->|Hne].
    + by rewrite dict_get_set_eq.
    + rewrite dict_get_set_ne by done. split; [|congruence].
      intros Hy%HT. by apply elem_of_nil in Hy.
  - intros y ->%list_elem_of_singleton Hin.
    destruct Hwf as (_ & _ & W3 & W4 & _).
    apply W3, W4 in Hin. by rewrite Hx in Hin.
  - by intros y ?%elem_of_nil.
Qed.

(** A further push of [c] in the same pass gets another tag, which goes on
    the list of duplicates; nothing more is owed. *)
Lemma push_again c tg1 w tg w' :
  saved_state c [tg1] [] w →
  run_op (Push c) w = Ok (RTag tg, w') →
  tg ≠ tg1 ∧ saved_state c [tg1] [tg] w' ∧ restores c w' = restores c w ∧
  owed c w' = owed c w.
Proof.
  intros (Hcls & Hwf & Hcg & Hq & Hlt & HT & H1 & H2) Hop.
  destruct (run_op_async_counters _ _ _ _ Hcls Hop) as (Hcls1 & _ & _ & _ & Hcg1 & _).
  destruct (run_op_trace _ _ _ _ Hcls Hop) as (evs & Ht & He).
  simpl in He. destruct He as (x & [= <-] & ->). rewrite Hq in Ht.
  inversion Ht as [|? ? ? ? ? Hev Ht']; subst. inversion Ht'; subst.
  assert (dict_get tg1 (fp8_tensor_object_map (hd w)) = Some c) as Hreg1.
  { apply HT. simpl. by left. }
  assert (is_registered c (fp8_tensor_object_map (hd w)) = true) as Hreg.
  { apply registered_iff; [done|]. by exists tg1. }
  pose proof (balance_effect c _ _ _ Hwf Hev) as Hbal.
  simpl in Hbal. rewrite decide_True, Hreg in Hbal by done.
  destruct (class_effect c _ _ _ Hev Hlt) as [Hc1 Hlt1].
  pose proof (ledger_wf_effect _ _ _ Hev ltac:(lia) Hwf) as Hwf1.
  simpl in Hev. destruct Hev as (Hx & _ & _ & HO & HD & _ & Hr & _).
  rewrite Hreg in HD.
  assert (tg ≠ tg1) as Hne.
  { intros ->. destruct Hwf as (_ & _ & _ & W4 & _).
    apply dict_get_Some_keys, W4 in Hreg1. by rewrite Hx in Hreg1. }
  split; [done|].
  split; [|split; [apply Hr|rewrite Hr in Hbal; lia]].
  split; [done|]. split; [done|]. split; [lia|]. split; [by rewrite Hc1|].
  split; [done|]. rewrite HO, HD. split; [|split].
  - intros y. simpl. rewrite elem_of_cons, list_elem_of_singleton.
    destruct (decide (tg = y)) as [->|Hny].
    + rewrite dict_get_set_eq. naive_solver.
    + rewrite dict_get_set_ne by done. rewrite HT. simpl.
      rewrite list_elem_of_singleton. naive_solver.
  - intros y ->%list_elem_of_singleton.
    rewrite elem_of_app, list_elem_of_singleton.
    intros [Hin|?]; [|done]. eapply H1; [|done]. by left.
  - intros y ->%list_elem_of_singleton. apply elem_of_app. right.
    by apply list_elem_of_singleton.
Qed.

(** ** The reverse pass *)

Lemma reload_event_fetch_event evs :
  Forall reload_event evs → Forall fetch_event evs.
Proof.
  intros H. eapply Forall_impl; [exact H|]. by intros [| | | | | |x o [|]].
Qed.

Lemma events_of_restoring_op o w r evs :
  events_of_op o w r evs → restoring_op o → Forall fetch_event evs.
Proof.
  destruct o as [t|x| |]; simpl; intros He Ho; try done.
  - destruct He as (e & _ & [->|(o & _ & ->)]); by repeat constructor.
  - by apply reload_event_fetch_event.
Qed.

(** In the reverse pass the object map only loses entries. *)
Lemma fetch_event_shrinks ev w w' :
  effect ev w w' → fetch_event ev →
  ∀ y v, dict_get y (fp8_tensor_object_map (hd w')) = Some v →
         dict_get y (fp8_tensor_object_map (hd w)) = Some v.
Proof.
  intros He Hf y v. destruct ev as [| |x|x|x t|x e|x o b]; simpl in He, Hf;
    try done.
  - destruct He as [(-> & _) _]. done.
  - destruct He as [(-> & _) _]. done.
  - destruct He as ((-> & _) & _). done.
  - destruct He as (_ & _ & (r & _ & -> & _) & _).
    by intros [_ ?]%dict_get_pop_Some.
Qed.

Lemma fetch_trace c evs w w' :
  trace evs w w' → Forall fetch_event evs → ledger_wf w →
  ledger_wf w' ∧
  (restores c w' + owed c w' = restores c w + owed c w)%nat ∧
  ∀ y v, dict_get y (fp8_tensor_object_map (hd w')) = Some v →
         dict_get y (fp8_tensor_object_map (hd w)) = Some v.
Proof.
  induction 1 as [|ev evs w w1 w' He Ht IH]; intros Hall Hwf; [by auto|].
  apply Forall_cons in Hall as [Hev Hall].
  assert (ledger_wf w1) as Hwf1.
  { eapply ledger_wf_effect; [done| |done]. by destruct ev. }
  destruct (IH Hall Hwf1) as (Hwf' & Hbal & Hsh).
  split; [done|]. split.
  - rewrite Hbal, (balance_effect c _ _ _ Hwf He).
    destruct ev; simpl in Hev; try done; simpl; lia.
  - intros y v Hy. eapply fetch_event_shrinks; [done..|]. by apply Hsh.
Qed.

(** After its pop a tag is registered no more. *)
Lemma pop_unregisters tg w r w' :
  handler_cls (hd w) = AsyncDoubleBuffer → ledger_wf w →
  run_op (Pop tg) w = Ok (r, w') →
  dict_get tg (fp8_tensor_object_map (hd w')) = None ∧
  dict_get tg (tensor_tag_to_state (hd w')) = None.
Proof.
  intros Hcls (_ & _ & _ & W4 & _) Hop.
  destruct (run_op_trace _ _ _ _ Hcls Hop) as (evs & Ht & He).
  simpl in He. destruct He as (e & _ & [->|(o & _ & ->)]);
    inversion Ht as [|? ? ? ? ? Hev Ht']; subst; inversion Ht'; subst;
    simpl in Hev.
  - destruct Hev as ((-> & _) & _ & Hx & ->). split; [|apply dict_get_pop_eq].
    apply dict_get_None_keys. intros Hin%W4. by rewrite Hx in Hin.
  - destruct Hev as (_ & -> & (r' & _ & -> & _) & _).
    split; apply dict_get_pop_eq.
Qed.

(** When every tag of [c] is popped in the reverse pass, nothing is owed to
    [c] at its end. *)
Lemma restoring_run c bwd :
  ∀ w rs w',
    handler_cls (hd w) = AsyncDoubleBuffer → ledger_wf w →
    Forall restoring_op bwd →
    run bwd w = Ok (rs, w') →
    (∀ y, dict_get y (fp8_tensor_object_map (hd w)) = Some c → Pop y ∈ bwd) →
    ledger_wf w' ∧
    (restores c w' + owed c w' = restores c w + owed c w)%nat ∧
    (∀ y, dict_get y (fp8_tensor_object_map (hd w')) ≠ Some c).
Proof.
  induction bwd as [|o bwd IH]; intros w rs w' Hcls Hwf Hops Hrun Hpops.
  - apply ret_inv in Hrun as [_ ->]. split; [done|]. split; [done|].
    intros y Hy. apply Hpops in Hy. by apply elem_of_nil in Hy.
  - apply run_cons_Ok in Hrun as (r & w1 & rest & Hop & Hrun & _).
    apply Forall_cons in Hops as [Ho Hops].
    destruct (run_op_async_counters _ _ _ _ Hcls Hop) as (Hcls1 & _).
    destruct (run_op_trace _ _ _ _ Hcls Hop) as (evs & Ht & He).
    pose proof (events_of_restoring_op _ _ _ _ He Ho) as Hf.
    destruct (fetch_trace c _ _ _ Ht Hf Hwf) as (Hwf1 & Hbal1 & Hsh).
    destruct (IH w1 rest w' Hcls1 Hwf1 Hops Hrun) as (Hwf' & Hbal' & Hno).
    { intros y Hy. pose proof (Hpops y (Hsh _ _ Hy)) as Hin.
      apply elem_of_cons in Hin as [<-|Hin]; [|done].
      destruct (pop_unregisters _ _ _ _ Hcls Hwf Hop) as [Hnone _]. congruence. }
    split; [done|]. split; [lia|done].
Qed.

Lemma yields_effect tg c ev w w' :
  effect ev w w' → fetch_event ev → not_taking tg ev →
  yields tg c w → yields tg c w'.
Proof.
  intros He Hf Hn Hy. unfold yields, held in *.
  destruct ev as [| |x|x|x t|x e|x o b]; simpl in He, Hf, Hn; try done.
  - destruct He as [(-> & _) ->]. done.
  - destruct He as [(-> & _) (d & b & r & Hx & ->)].
    assert (x ≠ tg) as Hne.
    { intros ->. rewrite Hx in Hy. by destruct Hy as [[? _]|?]. }
    by rewrite dict_get_set_ne.
  - destruct He as ((-> & _) & _ & Hx & ->). by rewrite dict_get_pop_ne.
  - destruct He as ((l & Hx) & -> & (r & HOx & -> & _) & _).
    destruct (decide (x = tg)) as [->|Hne].
    + destruct b; [|done]. right. rewrite dict_get_set_eq.
      destruct Hy as [[_ Hy]|Hy]; congruence.
    + rewrite (dict_get_pop_ne x tg) by done.
      destruct b; [by rewrite dict_get_set_ne|by rewrite dict_get_pop_ne].
Qed.

Lemma absent_effect (tg : tag) ev w w' :
  effect ev w w' → fetch_event ev →
  dict_get tg (tensor_tag_to_state (hd w)) = None →
  dict_get tg (tensor_tag_to_state (hd w')) = None.
Proof.
  intros He Hf Hy.
  destruct ev as [| |x|x|x t|x e|x o b]; simpl in He, Hf; try done.
  - destruct He as [_ ->]. done.
  - destruct He as [_ (d & b & r & Hx & ->)].
    rewrite dict_get_set_ne; [done|]. intros ->. congruence.
  - destruct He as (_ & _ & Hx & ->).
    rewrite dict_get_pop_ne; [done|]. intros ->. congruence.
  - destruct He as ((l & Hx) & -> & _).
    assert (x ≠ tg) by (intros ->; congruence).
    destruct b; [by rewrite dict_get_set_ne|by rewrite dict_get_pop_ne].
Qed.

Lemma yields_trace tg c evs w w' :
  trace evs w w' → Forall fetch_event evs → Forall (not_taking tg) evs →
  (yields tg c w → yields tg c w') ∧
  (dict_get tg (tensor_tag_to_state (hd w)) = None →
   dict_get tg (tensor_tag_to_state (hd w')) = None).
Proof.
  induction 1 as [|ev evs w w1 w' He Ht IH]; intros Hall Hall'; [by auto|].
  apply Forall_cons in Hall as [Hev Hall].
  apply Forall_cons in Hall' as [Hev' Hall'].
  destruct (IH Hall Hall') as [IH1 IH2]. split.
  - intros Hy. apply IH1. by eapply yields_effect.
  - intros Hy. apply IH2. by eapply absent_effect.
Qed.

Lemma events_of_op_not_taking tg o w r evs :
  events_of_op o w r evs → restoring_op o → o ≠ Pop tg →
  Forall (not_taking tg) evs.
Proof.
  destruct o as [t|x| |]; simpl; intros He Ho Hne; try done.
  - destruct He as (e & _ & [->|(o & _ & ->)]); repeat constructor;
      simpl; congruence.
  - eapply Forall_impl; [exact He|]. by intros [| | | | | |y o [|]].
Qed.

Lemma pop_drops_slot tg w r w' :
  handler_cls (hd w) = AsyncDoubleBuffer →
  run_op (Pop tg) w = Ok (r, w') →
  dict_get tg (tensor_tag_to_state (hd w')) = None.
Proof.
  intros Hcls Hop.
  destruct (run_op_trace _ _ _ _ Hcls Hop) as (evs & Ht & He).
  simpl in He. destruct He as (e & _ & [->|(o & _ & ->)]);
    inversion Ht as [|? ? ? ? ? Hev Ht']; subst; inversion Ht'; subst;
    simpl in Hev.
  - destruct Hev as (_ & _ & _ & ->). apply dict_get_pop_eq.
  - destruct Hev as (_ & -> & _). apply dict_get_pop_eq.
Qed.

(** Every pop of [tg] in the reverse pass returns [c]. *)
Lemma restoring_run_pops tg c bwd :
  ∀ w rs w',
    handler_cls (hd w) = AsyncDoubleBuffer →
    Forall restoring_op bwd →
    run bwd w = Ok (rs, w') →
    yields tg c w ∨ dict_get tg (tensor_tag_to_state (hd w)) = None →
    ∀ i r wi, bwd !! i = Some (Pop tg) → rs !! i = Some (r, wi) →
              r = RTensor (SOne (ERef c)).
Proof.
  induction bwd as [|o bwd IH]; intros w rs w' Hcls Hops Hrun Hst i r wi Hi Hr.
  - done.
  - apply run_cons_Ok in Hrun as (r0 & w1 & rest & Hop & Hrun & ->).
    apply Forall_cons in Hops as [Ho Hops].
    destruct (run_op_async_counters _ _ _ _ Hcls Hop) as (Hcls1 & _).
    destruct (run_op_trace _ _ _ _ Hcls Hop) as (evs & Ht & He).
    destruct i as [|i]; simpl in Hi, Hr.
    + injection Hi as ->. injection Hr as -> ->.
      simpl in He. destruct He as (e & -> & [->|(o & -> & ->)]);
        inversion Ht as [|? ? ? ? ? Hev Ht']; subst; inversion Ht'; subst;
        simpl in Hev.
      * destruct Hev as (_ & _ & Hx & _).
        destruct Hst as [[[Hk _]|Hy]|Hy]; [by rewrite Hx in Hk| |]; congruence.
      * destruct Hev as ((l & Hx) & _ & (r' & HOx & _) & _).
        destruct Hst as [[[_ Hy]|Hy]|Hy]; congruence.
    + eapply (IH w1 rest w' Hcls1 Hops Hrun); [|done..].
      destruct (decide (o = Pop tg)) as [->|Hne].
      * right. exact (pop_drops_slot _ _ _ _ Hcls Hop).
      * pose proof (events_of_restoring_op _ _ _ _ He Ho) as Hf.
        pose proof (events_of_op_not_taking tg _ _ _ _ He Ho Hne) as Hn.
        destruct (yields_trace tg c _ _ _ Ht Hf Hn) as [Y1 Y2].
        destruct Hst; [left|right]; auto.
Qed.

Lemma ledger_wf_fresh w :
  fp8_tensor_object_map (hd w) = [] → dereferencing_list (hd w) = [] →
  ledger_wf w.
Proof.
  intros HO HD. unfold ledger_wf. rewrite HO, HD. simpl.
  split; [constructor|]. split; [constructor|].
  repeat split; intros tg Htg; by apply elem_of_nil in Htg.
Qed.

(** X2. The asynchronous handler, in a forward pass of pushes and forward
    commits, is given the same composite [c] twice: the pushes hand out two
    different tags, the second of which goes on the list of duplicates.  In a
    reverse pass of pops and backward commits that pops both tags,
    [restore_from_saved] is called on [c] exactly once (and never during the
    forward pass), and each of the two pops returns [c] itself. *)
Theorem shared_composite_restored_once
    w0 c f1 r1 wa tg1 wb f2 r2 wc tg2 wd f3 r3 w1 bwd rs w2 :
  handler_cls (hd w0) = AsyncDoubleBuffer →
  ledger_wf w0 →
  0 ≤ current_group (hd w0) →
  is_quantized_class (cls (objs w0 c)) = true →
  (c < next_addr w0)%nat →
  is_registered c (fp8_tensor_object_map (hd w0)) = false →
  Forall saving_op f1 → Push c ∉ f1 → run f1 w0 = Ok (r1, wa) →
  run_op (Push c) wa = Ok (RTag tg1, wb) →
  Forall saving_op f2 → Push c ∉ f2 → run f2 wb = Ok (r2, wc) →
  run_op (Push c) wc = Ok (RTag tg2, wd) →
  Forall saving_op f3 → Push c ∉ f3 → run f3 wd = Ok (r3, w1) →
  Forall restoring_op bwd → Pop tg1 ∈ bwd → Pop tg2 ∈ bwd →
  run bwd w1 = Ok (rs, w2) →
  tg1 ≠ tg2 ∧
  tg1 ∉ dereferencing_list (hd w1) ∧ tg2 ∈ dereferencing_list (hd w1) ∧
  restores c w1 = restores c w0 ∧
  restores c w2 = S (restores c w0) ∧
  ∀ i tg r wi,
    bwd !! i = Some (Pop tg) → tg = tg1 ∨ tg = tg2 →
    rs !! i = Some (r, wi) → r = RTensor (SOne (ERef c)).
Proof.
  intros Hcls Hwf Hcg Hq Hlt Hreg Hf1 Hp1 Hrun1 Hpush1 Hf2 Hp2 Hrun2 Hpush2
    Hf3 Hp3 Hrun3 Hbwd Hpop1 Hpop2 Hrun.
  assert (saved_state c [] [] w0) as Hst0.
  { split; [done|]. split; [done|]. split; [done|]. split; [done|].
    split; [done|]. split; [|split].
    - intros y. split.
      + intros Hy. apply dict_get_values in Hy.
        by apply is_registered_false in Hreg.
      + by intros ?%elem_of_nil.
    - by intros y ?%elem_of_nil.
    - by intros y ?%elem_of_nil. }
  destruct (saving_run c [] [] f1 w0 r1 wa Hst0 Hf1 Hp1 Hrun1) as (Hsta & Hra & Hoa).
  destruct (push_first c wa tg1 wb Hsta Hpush1) as (Hstb & Hrb & Hob).
  destruct (saving_run c [tg1] [] f2 wb r2 wc Hstb Hf2 Hp2 Hrun2) as (Hstc & Hrc & Hoc).
  destruct (push_again c tg1 wc tg2 wd Hstc Hpush2) as (Hne & Hstd & Hrd & Hod).
  destruct (saving_run c [tg1] [tg2] f3 wd r3 w1 Hstd Hf3 Hp3 Hrun3)
    as (Hst1 & Hr1 & Ho1).
  destruct Hst1 as (Hcls1 & Hwf1 & _ & _ & _ & HT & HT1 & HT2).
  assert (∀ tg, tg = tg1 ∨ tg = tg2 → yields tg c w1) as Hyields.
  { intros tg Htg. left.
    assert (dict_get tg (fp8_tensor_object_map (hd w1)) = Some c) as Hy.
    { apply HT. simpl. rewrite elem_of_cons, list_elem_of_singleton. tauto. }
    split; [|done]. destruct Hwf1 as (_ & _ & _ & W4 & _).
    by apply W4, (dict_get_Some_keys _ c). }
  destruct (restoring_run c bwd w1 rs w2 Hcls1 Hwf1 Hbwd Hrun) as (Hwf2 & Hbal & Hno).
  { intros y Hy%HT. simpl in Hy.
    apply elem_of_cons in Hy as [->|Hy%list_elem_of_singleton]; by subst. }
  assert (owed c w2 = 0%nat) as Hzero.
  { apply owed_unregistered.
    intros ([k v] & -> & Hin)%list_elem_of_fmap. apply (Hno k).
    apply dict_elem_of_get; [apply Hwf2|done]. }
  split; [congruence|].
  split; [apply HT1; by left|]. split; [apply HT2; by left|].
  split; [congruence|]. split; [lia|].
  intros i tg r wi Hi Htg Hr.
  eapply (restoring_run_pops tg c bwd w1 rs w2); try done.
  left. by apply Hyields.
Qed.

Lemma shared_composite_restored_once_witness :
  let w0 := world_of
              [set_activation_offloading (plain_tensor [1; 2; 3; 4]);
               plain_tensor [5];
               composite MXFP8TensorBase (ERef 0%nat) ENone (ERef 1%nat) ENone
                 false]
              (init 2 2 tensor_need_offloading_checker_activations false) in
  let wb := after (run_op (Push 2%nat)) w0 in
  let wc := after (run [CommitForward]) wb in
  let wd := after (run_op (Push 2%nat)) wc in
  let w1 := after (run [CommitForward]) wd in
  let bwd := [CommitBackward; Pop (1, 0); CommitBackward; Pop (0, 0)] in
  let w2 := after (run bwd) w1 in
  restores 2%nat w1 = 0%nat ∧ restores 2%nat w2 = 1%nat ∧
  fst <$> results_of bwd w1
  = [RUnit; RTensor (SOne (ERef 2%nat)); RUnit; RTensor (SOne (ERef 2%nat))].
Proof.
  intros w0 wb wc wd w1 bwd w2.
  assert (run [] w0 = Ok ([], w0)) as Hrun1 by reflexivity.
  assert (run_op (Push 2%nat) w0 = Ok (RTag (0, 0), wb)) as Hpush1
    by (apply (run_value (run_op (Push 2%nat)) w0 (RTag (0, 0)));
        vm_compute; reflexivity).
  assert (run [CommitForward] wb = Ok (results_of [CommitForward] wb, wc))
    as Hrun2 by (apply run_results; vm_compute; reflexivity).
  assert (run_op (Push 2%nat) wc = Ok (RTag (1, 0), wd)) as Hpush2
    by (apply (run_value (run_op (Push 2%nat)) wc (RTag (1, 0)));
        vm_compute; reflexivity).
  assert (run [CommitForward] wd = Ok (results_of [CommitForward] wd, w1))
    as Hrun3 by (apply run_results; vm_compute; reflexivity).
  assert (run bwd w1 = Ok (results_of bwd w1, w2))
    as Hrun by (apply run_results; vm_compute; reflexivity).
  assert (Forall saving_op [CommitForward]) as Hf
    by (constructor; [exact I|constructor]).
  assert (Push 2%nat ∉ [CommitForward]) as Hp
    by (apply not_elem_of_cons; split; [discriminate|apply not_elem_of_nil]).
  assert (Forall restoring_op bwd) as Hbwd
    by (repeat (constructor; [exact I|]); constructor).
  assert (Pop (0, 0) ∈ bwd) as Hpop1
    by (do 3 apply list_elem_of_further; apply list_elem_of_here).
  assert (Pop (1, 0) ∈ bwd) as Hpop2
    by (apply list_elem_of_further; apply list_elem_of_here).
  assert (ledger_wf w0) as Hwf by (apply ledger_wf_fresh; reflexivity).
  assert (0 ≤ current_group (hd w0)) as Hcg by (vm_compute; discriminate).
  assert (2 < next_addr w0)%nat as Hlt by (vm_compute; lia).
  pose proof (shared_composite_restored_once w0 2%nat
                [] [] w0 (0, 0) wb [CommitForward] _ wc (1, 0) wd
                [CommitForward] _ w1 bwd _ w2
                eq_refl Hwf Hcg eq_refl Hlt eq_refl
                (Forall_nil_2 _) (not_elem_of_nil _) Hrun1 Hpush1
                Hf Hp Hrun2 Hpush2 Hf Hp Hrun3 Hbwd Hpop1 Hpop2 Hrun)
    as (_ & _ & _ & H1 & H2 & _).
  split; [exact H1|]. split; [exact H2|]. vm_compute. reflexivity.
Defined.

(** ** Errors of the hook and of the commits *)

Lemma bind_Raise {A B} (m : M A) (k : A → M B) w e :
  m w = Raise e → bind m k w = Raise e.
Proof. unfold bind. by intros ->. Qed.

Lemma bind_step {A B} (m : M A) (k : A → M B) w a w1 :
  m w = Ok (a, w1) → bind m k w = k a w1.
Proof. unfold bind. by intros ->. Qed.

Lemma run_op_Pop_run tg w s w' :
  handler_tensor_pop tg w = Ok (s, w') →
  run_op (Pop tg) w = Ok (RTensor s, w').
Proof.
  intros H. simpl. unfold CpuOffloadSavedTensorHook.on_get_saved_tensor.
  by rewrite (bind_step _ _ _ _ _ H).
Qed.

(** A tag that is not stored cannot be fetched. *)
Lemma fetch_unknown_tag tg w :
  dict_get tg (tensor_tag_to_state (hd w)) = None →
  CpuOffloadSavedTensorHook.on_get_saved_tensor tg w = Raise AssertionError.
Proof.
  intros Hnone. unfold CpuOffloadSavedTensorHook.on_get_saved_tensor,
    handler_tensor_pop, bind, gets.
  destruct (handler_cls (hd w)).
  - unfold SynchronizedGroupOffloadHandler.tensor_pop, bind, gets.
    by rewrite Hnone.
  - unfold AsyncDoubleBufferGroupOffloadHandler.tensor_pop, bind, gets.
    by rewrite Hnone.
Qed.

(** X3. Whatever the handler, a saved tensor can be fetched once: when
    [on_get_saved_tensor] has returned for a tag, the tag is stored no more,
    and fetching it again raises AssertionError. *)
Theorem saved_tensor_fetched_once tg w r w' :
  CpuOffloadSavedTensorHook.on_get_saved_tensor tg w = Ok (r, w') →
  dict_get tg (tensor_tag_to_state (hd w')) = None ∧
  CpuOffloadSavedTensorHook.on_get_saved_tensor tg w' = Raise AssertionError.
Proof.
  intros H.
  assert (dict_get tg (tensor_tag_to_state (hd w')) = None) as Hnone.
  { unfold CpuOffloadSavedTensorHook.on_get_saved_tensor in H.
    destruct (handler_cls (hd w)) eqn:Hcls.
    - rewrite handler_tensor_pop_sync in H by done.
      apply sync_tensor_pop_Ok in H as (st & _ & -> & _). simpl.
      apply dict_get_pop_eq.
    - apply run_op_Pop_run in H. by eapply pop_drops_slot. }
  split; [done|]. by apply fetch_unknown_tag.
Qed.

Lemma saved_tensor_fetched_once_witness :
  let w0 := world_of [plain_tensor [7]]
              (SynchronizedGroupOffloadHandler.init 1 checker_default) in
  let w1 := after (CpuOffloadSavedTensorHook.on_save_for_backward 0%nat) w0 in
  let w2 := after (CpuOffloadSavedTensorHook.on_get_saved_tensor (0, 0)) w1 in
  succeeds (CpuOffloadSavedTensorHook.on_get_saved_tensor (0, 0)) w1 = true ∧
  CpuOffloadSavedTensorHook.on_get_saved_tensor (0, 0) w2 = Raise AssertionError.
Proof.
  intros w0 w1 w2.
  assert (CpuOffloadSavedTensorHook.on_get_saved_tensor (0, 0) w1
          = Ok (SOne (ERef 2%nat), w2)) as Hpop
    by (apply (run_value (CpuOffloadSavedTensorHook.on_get_saved_tensor (0, 0))
                 w1 (SOne (ERef 2%nat))); vm_compute; reflexivity).
  split; [vm_compute; reflexivity|].
  exact (proj2 (saved_tensor_fetched_once (0, 0) w1 _ w2 Hpop)).
Defined.

(** ** [current_group] over a session *)

Lemma run_op_current_group o w r w' :
  run_op o w = Ok (r, w') →
  handler_cls (hd w') = handler_cls (hd w) ∧
  current_group (hd w') = current_group (hd w) + group_shift o ∧
  (o = CommitBackward → 0 ≤ current_group (hd w')).
Proof.
  intros H. destruct (handler_cls (hd w)) eqn:Hcls.
  - destruct o as [t|tg| |]; simpl.
    + apply run_op_Push_Ok in H as (tg & _ & H).
      rewrite handler_tensor_push_sync in H by done.
      apply sync_tensor_push_Ok in H as (_ & _ & e & -> & _). simpl.
      split; [done|]. split; [lia|done].
    + apply run_op_Pop_Ok in H as (s & _ & H).
      rewrite handler_tensor_pop_sync in H by done.
      apply sync_tensor_pop_Ok in H as (st & _ & -> & _). simpl.
      split; [done|]. split; [lia|done].
    + apply run_op_CommitForward_Ok in H as (_ & H).
      rewrite handler_commit_forward_sync in H by done.
      apply modify_hd_inv in H as ->. simpl. split; [done|]. split; [lia|done].
    + apply run_op_CommitBackward_Ok in H as (_ & H).
      rewrite handler_commit_backward_sync in H by done.
      apply sync_commit_backward_Ok in H as (Hge & ->). simpl.
      split; [done|]. split; [lia|]. intros _. lia.
  - destruct (run_op_async_counters _ _ _ _ Hcls H) as (Hcls' & _ & _ & _ & Ho).
    split; [done|]. destruct o as [t|tg| |]; simpl.
    + destruct Ho as [-> _]. split; [lia|done].
    + destruct Ho as [-> _]. split; [lia|done].
    + destruct Ho as (win & _ & -> & _). split; [lia|done].
    + destruct Ho as (Hge & win & _ & -> & _). split; [lia|]. intros _. lia.
Qed.

Lemma commit_backward_at_zero w :
  current_group (hd w) ≤ 0 →
  run_op CommitBackward w = Raise AssertionError.
Proof.
  intros Hcg. simpl.
  unfold GroupCommitFunction.backward, handler_on_group_commit_backward.
  unfold bind at 1. unfold bind at 1. unfold bind at 1. unfold gets at 1.
  destruct (handler_cls (hd w)).
  - unfold SynchronizedGroupOffloadHandler.on_group_commit_backward,
      bind, modify_hd, modify, gets. simpl.
    by rewrite bool_decide_eq_false_2 by lia.
  - unfold AsyncDoubleBufferGroupOffloadHandler.on_group_commit_backward, bind, modify_hd, modify, gets. simpl.
    by rewrite bool_decide_eq_false_2 by lia.
Qed.

(** X5. Whatever the handler, [current_group] counts the forward commits
    minus the backward commits of a session, and a session that starts with
    a non-negative [current_group] never sees a negative one: a backward
    commit that would make it negative, that is, one issued while
    [current_group] is zero or less, raises AssertionError instead. *)
Theorem current_group_counts_commits ops w rs w' :
  0 ≤ current_group (hd w) →
  run ops w = Ok (rs, w') →
  Forall (fun rw => 0 ≤ current_group (hd rw.2)) rs ∧
  current_group (hd w')
  = current_group (hd w) + Z.of_nat (commits_forward ops)
    - Z.of_nat (commits_backward ops) ∧
  ∀ w0, current_group (hd w0) ≤ 0 →
        run_op CommitBackward w0 = Raise AssertionError.
Proof.
  intros Hcg0 Hrun0.
  enough (Forall (fun rw => 0 ≤ current_group (hd rw.2)) rs ∧
          current_group (hd w')
          = current_group (hd w) + Z.of_nat (commits_forward ops)
            - Z.of_nat (commits_backward ops)) as [H1 H2].
  { split; [exact H1|]. split; [exact H2|]. apply commit_backward_at_zero. }
  revert w rs Hcg0 Hrun0.
  induction ops as [|o ops IH]; intros w rs Hcg Hrun.
  - apply ret_inv in Hrun as [-> ->]. split; [constructor|].
    unfold commits_forward, commits_backward. simpl. lia.
  - apply run_cons_Ok in Hrun as (r & w1 & rest & Hop & Hrun & ->).
    destruct (run_op_current_group _ _ _ _ Hop) as (_ & Hshift & Hback).
    assert (0 ≤ current_group (hd w1)) as Hcg1.
    { destruct o; simpl in Hshift; try lia. by apply Hback. }
    destruct (IH w1 rest Hcg1 Hrun) as [Hall Heq].
    split; [by constructor|]. rewrite Heq, Hshift.
    unfold commits_forward, commits_backward. rewrite !filter_cons.
    destruct o; simpl; repeat case_decide; simpl; try done; lia.
Qed.

Lemma current_group_counts_commits_witness :
  let w0 := world_of [] (SynchronizedGroupOffloadHandler.init 1 checker_default) in
  let ops := [CommitForward; CommitForward; CommitBackward] in
  let w1 := after (run (ops ++ [CommitBackward])) w0 in
  current_group (hd (after (run ops) w0)) = 1 ∧
  current_group (hd w1) = 0 ∧
  run_op CommitBackward w1 = Raise AssertionError ∧
  succeeds (run (ops ++ [CommitBackward; CommitBackward])) w0 = false.
Proof.
  intros w0 ops w1.
  assert (run ops w0 = Ok (results_of ops w0, after (run ops) w0)) as Hrun
    by (apply run_results; vm_compute; reflexivity).
  assert (0 ≤ current_group (hd w0)) as Hcg by (vm_compute; discriminate).
  assert (current_group (hd w1) ≤ 0) as Hz by (vm_compute; discriminate).
  destruct (current_group_counts_commits ops w0 _ _ Hcg Hrun)
    as (_ & Hcount & Hraise).
  split; [exact Hcount|]. split; [vm_compute; reflexivity|].
  split; [exact (Hraise w1 Hz)|vm_compute; reflexivity].
Defined.

(** ** One commit too many *)

Import AsyncDoubleBufferGroupOffloadHandler.

Lemma commit_forward_without_window w :
  handler_cls (hd w) = AsyncDoubleBuffer →
  current_group (hd w) ≠ 0 →
  layer_window_map (hd w) !! offloaded_group_count (hd w) = None →
  run_op CommitForward w = Raise KeyError.
Proof.
  intros Hcls Hcg Hwin. simpl.
  unfold GroupCommitFunction.forward, handler_on_group_commit_forward.
  unfold bind at 1. unfold bind at 1. unfold bind at 1. unfold gets at 1.
  rewrite Hcls.
  unfold on_group_commit_forward, synchronize_on_group_commit_forward.
  unfold bind at 1. unfold gets at 1. unfold bind at 1. unfold bind at 1.
  rewrite bool_decide_eq_false_2 by done. simpl.
  unfold lookup_window, bind, gets. by rewrite Hwin.
Qed.

(** X4. A handler built for [G] offload groups over [L] layers serves [L]
    layer boundaries in each direction.  After a forward pass with [L]
    forward commits a further forward commit raises KeyError (no window is
    left in [layer_window_map]); after a reverse pass with [L] backward
    commits a further backward commit raises AssertionError. *)
Theorem commits_beyond_the_layers G L w fwd rs1 w1 :
  1 ≤ G → G ≤ L → session_start G L w →
  Forall forward_op fwd → Z.of_nat (commits_forward fwd) = L →
  run fwd w = Ok (rs1, w1) →
  run_op CommitForward w1 = Raise KeyError ∧
  ∀ bwd rs2 w2,
    Forall (fun o => o ≠ CommitForward) bwd →
    Z.of_nat (commits_backward bwd) = L →
    run bwd w1 = Ok (rs2, w2) →
    run_op CommitBackward w2 = Raise AssertionError.
Proof.
  intros HG HL Hstart Hfwd Hn Hrun.
  pose proof (forward_inv_start G L w HG HL Hstart) as Hinv.
  destruct Hstart as (_ & _ & _ & _ & Hcg0 & _).
  destruct (forward_inv_run G L fwd w rs1 w1 HG HL Hfwd Hinv Hrun)
    as (Hinv1 & _ & Hcg1).
  rewrite Hcg0, Hn in Hcg1. simpl in Hcg1.
  pose proof (forward_inv_end G L w1 HG HL Hinv1 Hcg1) as Hogc.
  split.
  - destruct Hinv1 as ((Hcls & _ & _ & Hmap) & _).
    apply commit_forward_without_window; [done|lia|].
    rewrite Hmap, Hogc, build_layer_window_map_lookup by lia.
    by rewrite decide_False by lia.
  - intros bwd rs2 w2 Hbwd Hm Hrun2.
    pose proof (backward_inv_start G L w1 HG HL Hinv1 Hcg1) as Hb.
    destruct (backward_inv_run G L bwd w1 rs2 w2 HG HL Hbwd Hb Hrun2)
      as (_ & _ & Hcg2).
    apply commit_backward_at_zero. lia.
Qed.

Lemma commits_beyond_the_layers_witness :
  let w0 := world_of [set_activation_offloading (plain_tensor [1; 2])]
              (init 2 3 tensor_need_offloading_checker_activations false) in
  let fwd := [Push 0%nat; CommitForward; CommitForward; CommitForward] in
  let bwd := [CommitBackward; CommitBackward; CommitBackward; Pop (0, 0)] in
  let w1 := after (run fwd) w0 in
  let w2 := after (run bwd) w1 in
  run_op CommitForward w1 = Raise KeyError ∧
  run_op CommitBackward w2 = Raise AssertionError.
Proof.
  intros w0 fwd bwd w1 w2.
  assert (run fwd w0 = Ok (results_of fwd w0, w1)) as Hrun
    by (apply run_results; vm_compute; reflexivity).
  assert (run bwd w1 = Ok (results_of bwd w1, w2)) as Hrun2
    by (apply run_results; vm_compute; reflexivity).
  assert (session_start 2 3 w0) as Hstart by (repeat split).
  assert (Forall forward_op fwd) as Hfwd
    by (repeat (constructor; [discriminate|]); constructor).
  assert (Forall (fun o => o ≠ CommitForward) bwd) as Hbwd
    by (repeat (constructor; [discriminate|]); constructor).
  destruct (commits_beyond_the_layers 2 3 w0 fwd _ w1
              ltac:(lia) ltac:(lia) Hstart Hfwd eq_refl Hrun) as [H1 H2].
  split; [exact H1|].
  exact (H2 bwd _ w2 Hbwd eq_refl Hrun2).
Defined.

(** ** [MXFP8TensorBase]: saving, restoring, clearing, usages *)

Lemma upd_same a f (m : addr → obj) : upd a f m a = f (m a).
Proof. unfold upd. by rewrite decide_True. Qed.

Lemma upd_other a b f (m : addr → obj) : b ≠ a → upd a f m b = m b.
Proof. intros H. unfold upd. by rewrite decide_False. Qed.

Lemma fields_eta f :
  mkFields (rowwise_data f) (columnwise_data f) (rowwise_scale_inv f)
    (columnwise_scale_inv f) (transpose_invalid f) (other_attrs f) = f.
Proof. by destruct f. Qed.

Lemma set_inst_same o : set_inst (inst o) o = o.
Proof. by destruct o. Qed.

(** X6. [prepare_for_saving] on an MXFP8TensorBase always succeeds: it hands
    out the four buffers in the order row-wise data, column-wise data,
    row-wise scales, column-wise scales, and leaves the object without
    them.  [restore_from_saved] of that very list puts every object back as
    it was and has nothing left over to return; given fewer than four
    tensors it raises IndexError. *)
Theorem mxfp8_prepare_restore_round_trip a w :
  cls (objs w a) = MXFP8TensorBase →
  ∃ w1 w2,
    prepare_for_saving a w = Ok (buffers (inst (objs w a)), w1) ∧
    buffers (inst (objs w1 a)) = [ENone; ENone; ENone; ENone] ∧
    restore_from_saved a (buffers (inst (objs w a))) w1 = Ok (tt, w2) ∧
    MXFP8More.restore_from_saved_rest (buffers (inst (objs w a))) = [] ∧
    (∀ b, objs w2 b = objs w b) ∧ hd w2 = hd w ∧
    ∀ l, (length l < 4)%nat → restore_from_saved a l w1 = Raise IndexError.
Proof.
  intros Hcls. unfold prepare_for_saving, restore_from_saved.
  unfold bind at 1. unfold get at 1. rewrite Hcls. simpl.
  eexists. eexists. split; [reflexivity|]. simpl.
  rewrite upd_same. simpl. split; [done|].
  unfold bind at 1. unfold get at 1. simpl. rewrite upd_same. simpl.
  rewrite Hcls. simpl.
  split; [reflexivity|]. split; [done|]. simpl. split; [|split; [done|]].
  - intros b. destruct (decide (b = a)) as [->|Hne].
    + rewrite !upd_same. simpl.
      destruct (objs w a) as [c d s dt p ao nf dn [r1 r2 r3 r4 ti oa]]. done.
    + by rewrite !upd_other.
  - intros l Hl. unfold bind at 1. unfold get at 1. simpl. rewrite upd_same.
    simpl. rewrite Hcls. simpl.
    destruct l as [|t0 [|t1 [|t2 [|t3 l]]]]; simpl in Hl; try lia; done.
Qed.

Lemma mxfp8_prepare_restore_round_trip_witness :
  let w := world_of
             [plain_tensor [1; 2]; plain_tensor [3];
              composite MXFP8TensorBase (ERef 0%nat) ENone (ERef 1%nat) ENone
                false]
             (AsyncDoubleBufferGroupOffloadHandler.init 1 1 checker_default false) in
  ∃ w1 w2,
    prepare_for_saving 2%nat w = Ok ([ERef 0%nat; ENone; ERef 1%nat; ENone], w1) ∧
    restore_from_saved 2%nat [ERef 0%nat; ENone; ERef 1%nat; ENone] w1
      = Ok (tt, w2) ∧
    objs w2 2%nat = objs w 2%nat.
Proof.
  intros w.
  destruct (mxfp8_prepare_restore_round_trip 2%nat w eq_refl)
    as (w1 & w2 & H1 & _ & H2 & _ & H3 & _).
  exists w1, w2. split; [exact H1|]. split; [exact H2|]. apply H3.
Defined.

(** X7. [update_usage] only ever disables: whatever the arguments, and even
    when it raises, each of the four buffers is afterwards what it was or
    [None]; it can only raise RuntimeError.  When it succeeds, a usage asked
    for (by default: the usages whose data is present) has kept both its
    data and its scales, which are present, a usage not asked for has lost
    both, and repeating the call changes nothing. *)
Theorem mxfp8_update_usage_only_disables f r c :
  Forall2 kept_or_dropped (buffers f) (buffers (MXFP8More.update_usage f r c).1) ∧
  transpose_invalid (MXFP8More.update_usage f r c).1 = transpose_invalid f ∧
  other_attrs (MXFP8More.update_usage f r c).1 = other_attrs f ∧
  (∀ e, (MXFP8More.update_usage f r c).2 = Some e → e = RuntimeError) ∧
  ((MXFP8More.update_usage f r c).2 = None →
   (if MXFP8More.wants_rowwise f r then
      rowwise_data (MXFP8More.update_usage f r c).1 = rowwise_data f ∧
      rowwise_scale_inv (MXFP8More.update_usage f r c).1 = rowwise_scale_inv f ∧
      rowwise_data f ≠ ENone ∧ rowwise_scale_inv f ≠ ENone
    else
      rowwise_data (MXFP8More.update_usage f r c).1 = ENone ∧
      rowwise_scale_inv (MXFP8More.update_usage f r c).1 = ENone) ∧
   (if MXFP8More.wants_columnwise f c then
      columnwise_data (MXFP8More.update_usage f r c).1 = columnwise_data f ∧
      columnwise_scale_inv (MXFP8More.update_usage f r c).1
        = columnwise_scale_inv f ∧
      columnwise_data f ≠ ENone ∧ columnwise_scale_inv f ≠ ENone
    else
      columnwise_data (MXFP8More.update_usage f r c).1 = ENone ∧
      columnwise_scale_inv (MXFP8More.update_usage f r c).1 = ENone) ∧
   MXFP8More.update_usage (MXFP8More.update_usage f r c).1 r c
   = ((MXFP8More.update_usage f r c).1, None)).
Proof.
  destruct f as [[| |] [| |] [| |] [| |] ti oa], r as [[|]|], c as [[|]|];
    cbv [MXFP8More.update_usage MXFP8More.wants_rowwise
         MXFP8More.wants_columnwise MXFP8More.is_none buffers negb fst snd
         rowwise_data columnwise_data rowwise_scale_inv columnwise_scale_inv
         transpose_invalid other_attrs];
    (split; [repeat constructor; first [by left|by right]|]);
    (split; [reflexivity|]); (split; [reflexivity|]);
    (split; [by intros e [= <-]|]);
    first [by intros [=] | intros _; repeat split; done].
Qed.

(** X8. [clear] on an MXFP8TensorBase that still holds its buffers empties
    the storage of each buffer that is not [None], keeps the references and
    touches no other object.  In [tensor_push], however, [clear] runs after
    [prepare_for_saving]: then the object holds no buffer any more and
    [clear] changes no object at all. *)
Theorem mxfp8_clear_empties_what_is_held a w :
  cls (objs w a) = MXFP8TensorBase →
  (∀ d b, ETuple d b ∉ buffers (inst (objs w a))) →
  (∃ w', clear a w = Ok (tt, w') ∧
     inst (objs w' a) = inst (objs w a) ∧
     (∀ b, ERef b ∈ buffers (inst (objs w a)) →
           data (objs w' b) = [] ∧ size (objs w' b) = [0]) ∧
     (∀ b, ERef b ∉ buffers (inst (objs w a)) → objs w' b = objs w b)) ∧
  (∃ l w1 w2, prepare_for_saving a w = Ok (l, w1) ∧
     clear a w1 = Ok (tt, w2) ∧ ∀ b, objs w2 b = objs w1 b).
Proof.
  intros Hcls Htup. split.
  - unfold clear. unfold bind at 1. unfold get at 1. rewrite Hcls. simpl.
    unfold MXFP8.clear.
    destruct (objs w a) as [c dv s dt p ao nf dn [r1 r2 r3 r4 ti oa]] eqn:Ha.
    simpl in *.
    assert (∀ e, e ∈ [r1; r2; r3; r4] → ∀ d b, e ≠ ETuple d b) as Hno.
    { intros e He d b ->. by eapply Htup. }
    assert (∀ d b, r1 ≠ ETuple d b) as H1 by (apply Hno; set_solver).
    assert (∀ d b, r2 ≠ ETuple d b) as H2 by (apply Hno; set_solver).
    assert (∀ d b, r3 ≠ ETuple d b) as H3 by (apply Hno; set_solver).
    assert (∀ d b, r4 ≠ ETuple d b) as H4 by (apply Hno; set_solver).
    clear Hno Htup.
    destruct r1 as [|b1|]; try (exfalso; eapply H1; reflexivity);
    destruct r2 as [|b2|]; try (exfalso; eapply H2; reflexivity);
    destruct r3 as [|b3|]; try (exfalso; eapply H3; reflexivity);
    destruct r4 as [|b4|]; try (exfalso; eapply H4; reflexivity);
    clear H1 H2 H3 H4;
    simpl; eexists; (split; [reflexivity|]); simpl;
    (split; [unfold upd; repeat case_decide; subst; simpl; by rewrite ?Ha|]);
    (split;
     [intros b Hb; unfold buffers in Hb; simpl in Hb;
      repeat (apply elem_of_cons in Hb as [Hb|Hb]; [try done; injection Hb as ->|]);
      try (by apply elem_of_nil in Hb);
      unfold upd; repeat case_decide; subst; simpl; done
     |intros b Hb; unfold buffers in Hb; simpl in Hb;
      rewrite ?not_elem_of_cons in Hb;
      unfold upd; repeat case_decide; subst; simpl;
      rewrite ?Ha; try done; naive_solver]).
  - destruct (mxfp8_prepare_restore_round_trip a w Hcls)
      as (w1 & _ & Hp & Hb & _).
    exists (buffers (inst (objs w a))), w1.
    assert (cls (objs w1 a) = MXFP8TensorBase) as Hcls1.
    { apply prepare_for_saving_Ok in Hp as (_ & _ & (_ & _ & Hc & _) & _).
      by rewrite Hc. }
    unfold clear. unfold bind at 1. unfold get at 1. rewrite Hcls1. simpl.
    unfold MXFP8.clear. unfold buffers in Hb. injection Hb as -> -> -> ->.
    simpl. eexists. split; [done|]. split; [reflexivity|]. simpl.
    intros b. unfold upd. case_decide; subst; [|done].
    by rewrite set_inst_same.
Qed.

Lemma mxfp8_clear_empties_what_is_held_witness :
  let w := world_of
             [plain_tensor [1; 2]; plain_tensor [3];
              composite MXFP8TensorBase (ERef 0%nat) ENone (ERef 1%nat) ENone
                false]
             (AsyncDoubleBufferGroupOffloadHandler.init 1 1 checker_default false) in
  ∃ w', clear 2%nat w = Ok (tt, w') ∧
        data (objs w' 0%nat) = [] ∧ data (objs w' 1%nat) = [] ∧
        objs w' 2%nat = objs w 2%nat.
Proof.
  intros w.
  assert (∀ d b, ETuple d b ∉ buffers (inst (objs w 2%nat))) as Hno.
  { intros d b H.
    repeat (apply elem_of_cons in H as [H|H]; [discriminate H|]).
    apply elem_of_nil in H. exact H. }
  destruct (mxfp8_clear_empties_what_is_held 2%nat w eq_refl Hno)
    as [(w' & Hc & _ & He & Hk) _].
  exists w'. split; [exact Hc|].
  split; [apply He, list_elem_of_here|].
  split; [apply He; do 2 apply list_elem_of_further; apply list_elem_of_here|].
  apply Hk. intros H.
  repeat (apply elem_of_cons in H as [H|H]; [discriminate H|]).
  apply elem_of_nil in H. exact H.
Defined.

(** ** The scoped hook *)

Lemma enter_nested_Ok n w :
  enter_nested n w
  = Ok (tt, if n is O then w
            else set_hook_state true true
                   (replicate n HookPair ++ saved_tensors_default_hooks w) w).
Proof.
  revert w. induction n as [|n IH]; intros w; [done|].
  cbn [enter_nested]. unfold bind at 1. unfold CpuOffloadSavedTensorHook.enter.
  unfold modify at 1. rewrite IH. destruct n as [|n]; [done|].
  simpl. by rewrite cons_middle, app_assoc, <- replicate_cons_app.
Qed.

(** X9. The offload flag is one process-wide boolean, not a counter: when
    [n + 1] contexts have been entered one inside the other, leaving the
    innermost one already makes [is_cpu_offload_enabled] answer False,
    although the hook pairs of the [n] outer contexts are still registered.
    Neither entering nor leaving touches the handler or the tensors. *)
Theorem exit_of_inner_context_clears_flag n w :
  ∃ w',
    (enter_nested (S n) ;; CpuOffloadSavedTensorHook.exit) w = Ok (tt, w') ∧
    is_cpu_offload_enabled w' = Ok (false, w') ∧
    saved_tensors_default_hooks w'
    = replicate n HookPair ++ saved_tensors_default_hooks w ∧
    hd w' = hd w ∧ objs w' = objs w.
Proof.
  unfold bind at 1. rewrite enter_nested_Ok.
  unfold CpuOffloadSavedTensorHook.exit, bind, modify, gets. simpl.
  eexists. split; [reflexivity|]. simpl. done.
Qed.

(** ** Fetching before the reload *)

(** X10. The asynchronous handler does not reload on demand: fetching a tag
    whose slot still holds a host copy [(device, cpu_backup)] fails, with
    AssertionError, or, when double buffering is on, already with the
    AttributeError of setting [_do_not_clear] on a tuple.  The synchronous
    handler reloads such a slot in [tensor_pop] itself: the fetch returns a
    tensor with the size and the bits of the host copy. *)
Theorem fetch_before_reload tg d b w :
  dict_get tg (tensor_tag_to_state (hd w)) = Some (SOne (ETuple d b)) →
  match handler_cls (hd w) with
  | AsyncDoubleBuffer =>
      CpuOffloadSavedTensorHook.on_get_saved_tensor tg w
      = Raise (if double_buffering (hd w) then AttributeError
               else AssertionError)
  | Synchronized =>
      ∃ x w', CpuOffloadSavedTensorHook.on_get_saved_tensor tg w
              = Ok (SOne (ERef x), w') ∧
              data (objs w' x) = data (objs w b) ∧
              size (objs w' x) = size (objs w b)
  end.
Proof.
  intros Hst. unfold CpuOffloadSavedTensorHook.on_get_saved_tensor.
  destruct (handler_cls (hd w)) eqn:Hcls.
  - rewrite handler_tensor_pop_sync by done.
    unfold SynchronizedGroupOffloadHandler.tensor_pop, bind, gets.
    rewrite Hst. unfold modify_hd, modify.
    unfold SynchronizedGroupOffloadHandler.reload, bind, gets. simpl.
    destruct (decide (d = device (objs w b))) as [->|Hne].
    + exists b. eexists. split; [reflexivity|]. done.
    + unfold alloc. simpl. eexists. eexists. split; [reflexivity|]. simpl.
      by rewrite upd_same.
  - rewrite handler_tensor_pop_async by done.
    unfold AsyncDoubleBufferGroupOffloadHandler.tensor_pop, bind, gets.
    rewrite Hst. unfold modify_hd, modify. simpl.
    by destruct (double_buffering (hd w)).
Qed.

Lemma fetch_before_reload_witness :
  let w0 := world_of [set_activation_offloading (plain_tensor [1; 2])]
              (AsyncDoubleBufferGroupOffloadHandler.init 1 1
                 tensor_need_offloading_checker_activations false) in
  let w1 := after (run [Push 0%nat; CommitForward]) w0 in
  succeeds (run [Push 0%nat; CommitForward]) w0 = true ∧
  CpuOffloadSavedTensorHook.on_get_saved_tensor (0, 0) w1 = Raise AssertionError ∧
  succeeds (run [CommitBackward; Pop (0, 0)]) w1 = true.
Proof.
  intros w0 w1.
  assert (dict_get (0, 0) (tensor_tag_to_state (hd w1))
          = Some (SOne (ETuple (Cuda 0) 1%nat))) as Hst
    by (vm_compute; reflexivity).
  split; [vm_compute; reflexivity|].
  split; [|vm_compute; reflexivity].
  exact (fetch_before_reload (0, 0) (Cuda 0) 1%nat w1 Hst).
Defined.

(** ** [offload] and [reload] *)

(** X11. [offload] of a tensor always succeeds: it allocates a pinned host
    tensor with the size and the bits of the source, leaves the source as it
    was, and returns the pair of the source's device and the new tensor.
    [reload] of that pair into a copy buffer of the same size writes the
    bits to the buffer and returns the buffer itself (on the buffer's
    device); into a buffer of another size it raises AssertionError.
    Without a buffer, [reload] returns a tensor on the source's device with
    the size and the bits of the source. *)
Theorem offload_then_reload a buf w :
  (a < next_addr w)%nat → (buf < next_addr w)%nat →
  let st := ETuple (device (objs w a)) (next_addr w) in
  ∃ w1,
    SynchronizedGroupOffloadHandler.offload (ERef a) w = Ok (st, w1) ∧
    objs w1 (next_addr w)
    = fresh_tensor Cpu (size (objs w a)) (data (objs w a)) true ∧
    (∀ x, (x < next_addr w)%nat → objs w1 x = objs w x) ∧
    (if decide (size (objs w a) = size (objs w buf)) then
       ∃ w2, SynchronizedGroupOffloadHandler.reload st (Some true) (ERef buf) w1
             = Ok (ERef buf, w2) ∧
             data (objs w2 buf) = data (objs w a) ∧
             size (objs w2 buf) = size (objs w buf) ∧
             device (objs w2 buf) = device (objs w buf) ∧
             (∀ x, x ≠ buf → objs w2 x = objs w1 x)
     else
       SynchronizedGroupOffloadHandler.reload st (Some true) (ERef buf) w1
       = Raise AssertionError) ∧
    ∃ r w2, SynchronizedGroupOffloadHandler.reload st None ENone w1
            = Ok (ERef r, w2) ∧
            data (objs w2 r) = data (objs w a) ∧
            size (objs w2 r) = size (objs w a) ∧
            device (objs w2 r) = device (objs w a) ∧
            (∀ x, (x < next_addr w)%nat → objs w2 x = objs w x).
Proof.
  intros Ha Hbuf st. subst st.
  unfold SynchronizedGroupOffloadHandler.offload, bind, gets, alloc. simpl.
  eexists. split; [reflexivity|]. simpl. rewrite upd_same.
  split; [done|]. split; [intros x Hx; apply upd_other; lia|]. split.
  - unfold SynchronizedGroupOffloadHandler.reload, bind, gets. simpl.
    rewrite upd_same, (upd_other _ buf) by lia. simpl.
    destruct (decide (size (objs w a) = size (objs w buf))) as [He|Hne].
    + rewrite bool_decide_eq_true_2 by done. simpl.
      unfold update_obj, modify. eexists. split; [reflexivity|]. simpl.
      rewrite !upd_same, (upd_other _ buf) by lia. simpl.
      split; [done|]. split; [done|]. split; [done|].
      intros x Hx. by rewrite (upd_other buf).
    + by rewrite bool_decide_eq_false_2 by done.
  - unfold SynchronizedGroupOffloadHandler.reload, bind, gets. simpl.
    rewrite upd_same. simpl.
    destruct (decide (device (objs w a) = Cpu)) as [Hd|Hd].
    + exists (next_addr w). eexists. split; [reflexivity|]. simpl.
      rewrite upd_same. simpl. split; [done|]. split; [done|]. split; [done|].
      intros x Hx. apply upd_other. lia.
    + unfold alloc. simpl. eexists. eexists. split; [reflexivity|]. simpl.
      rewrite upd_same. simpl. split; [done|]. split; [done|]. split; [done|].
      intros x Hx. rewrite !upd_other by lia. done.
Qed.

Lemma offload_then_reload_witness :
  let w := world_of [plain_tensor [1; 2; 3]; plain_tensor [0; 0; 0];
                     plain_tensor [0]]
             (SynchronizedGroupOffloadHandler.init 1 checker_default) in
  let w1 := after (SynchronizedGroupOffloadHandler.offload (ERef 0%nat)) w in
  (∃ w2, SynchronizedGroupOffloadHandler.reload (ETuple (Cuda 0) 3%nat)
           (Some true) (ERef 1%nat) w1 = Ok (ERef 1%nat, w2) ∧
         data (objs w2 1%nat) = [1; 2; 3]) ∧
  SynchronizedGroupOffloadHandler.reload (ETuple (Cuda 0) 3%nat)
    (Some true) (ERef 2%nat) w1 = Raise AssertionError.
Proof.
  intros w w1.
  assert (0 < next_addr w)%nat as H0 by (vm_compute; lia).
  assert (1 < next_addr w)%nat as H1 by (vm_compute; lia).
  assert (2 < next_addr w)%nat as H2 by (vm_compute; lia).
  split.
  - destruct (offload_then_reload 0%nat 1%nat w H0 H1)
      as (w1' & Ho & _ & _ & Hr & _).
    assert (w1' = w1) as -> by (unfold w1, after; rewrite Ho; reflexivity).
    destruct Hr as (w2 & Hr & Hd & _). exists w2. split; [exact Hr|exact Hd].
  - destruct (offload_then_reload 0%nat 2%nat w H0 H2)
      as (w1' & Ho & _ & _ & Hr & _).
    assert (w1' = w1) as -> by (unfold w1, after; rewrite Ho; reflexivity).
    exact Hr.
Defined.

(** ** Double buffering without buffers *)

Import AsyncDoubleBufferGroupOffloadHandler.

Lemma bulk_reload_entry_no_buffer g idx tg st w :
  double_buffering (hd w) = true → buffers_of_group g (hd w) = [] →
  bulk_reload_entry g idx (tg, st) w
  = if bool_decide (tg.1 = g) then Raise IndexError else Ok (idx, w).
Proof.
  intros Hdb Hbuf. unfold bulk_reload_entry.
  destruct (bool_decide (tg.1 = g)); [|done].
  apply bind_Raise. unfold pick_reload_buffer, bind, gets. rewrite Hdb.
  unfold buffers_of_group in Hbuf. rewrite Hbuf. done.
Qed.

(** X12. With double buffering on, [bulk_reload_group] takes a reload buffer
    for every slot of the group before it looks at what the slot holds.  So
    when the double buffer of the group is empty (no tensor was offloadable
    when the buffers were created), reloading a group that holds any saved
    tensor, offloaded or not, raises IndexError. *)
Theorem double_buffering_needs_buffers g w (tg : tag) :
  double_buffering (hd w) = true →
  g < num_offload_group (hd w) →
  buffers_of_group g (hd w) = [] →
  tg ∈ dict_keys (tensor_tag_to_state (hd w)) → tg.1 = g →
  bulk_reload_group g w = Raise IndexError.
Proof.
  intros Hdb Hg Hbuf Hin Htg. unfold bulk_reload_group.
  unfold bind at 1. unfold gets at 1. unfold bind at 1.
  rewrite bool_decide_eq_true_2 by done. simpl.
  apply bind_Raise. unfold fold_items. unfold bind at 1. unfold gets at 1.
  assert (∀ k, k ∈ dict_keys (tensor_tag_to_state (hd w)) →
               is_Some (dict_get k (tensor_tag_to_state (hd w)))) as Hall.
  { intros k Hk. destruct (dict_get k _) eqn:E; [done|].
    by apply dict_get_None_keys in E. }
  revert Hin Hall. generalize (dict_keys (tensor_tag_to_state (hd w))).
  generalize 0%nat.
  intros n keys. revert n. induction keys as [|k keys IH]; intros n Hin Hall.
  - by apply elem_of_nil in Hin.
  - cbn [fold_m]. unfold bind at 1. unfold bind at 1. unfold gets at 1.
    destruct (Hall k ltac:(left)) as [v ->].
    rewrite bulk_reload_entry_no_buffer by done.
    destruct (decide (k.1 = g)) as [Hk|Hk].
    + by rewrite bool_decide_eq_true_2.
    + rewrite bool_decide_eq_false_2 by done.
      apply IH.
      * apply elem_of_cons in Hin as [->|Hin]; [done|done].
      * intros k' Hk'. apply Hall. by right.
Qed.

Lemma double_buffering_needs_buffers_witness :
  let w0 := world_of [plain_tensor [1; 2]]
              (init 1 1 tensor_need_offloading_checker_activations true) in
  let w1 := after (run [Push 0%nat; CommitForward]) w0 in
  succeeds (run [Push 0%nat; CommitForward]) w0 = true ∧
  bulk_reload_group 0 w1 = Raise IndexError ∧
  succeeds (run [CommitBackward]) w1 = false.
Proof.
  intros w0 w1.
  assert ((0, 0) ∈ dict_keys (tensor_tag_to_state (hd w1))) as Hin
    by (vm_compute; apply list_elem_of_here).
  assert (0 < num_offload_group (hd w1)) as Hg by (vm_compute; reflexivity).
  split; [vm_compute; reflexivity|].
  split; [|vm_compute; reflexivity].
  exact (double_buffering_needs_buffers 0 w1 (0, 0) eq_refl Hg eq_refl Hin eq_refl).
Defined.

(** ** Tensors without the marker *)

#[global] Instance markers_kept_preorder : PreOrder markers_kept.
Proof.
  split.
  - intros w. split; [done|]. split; [lia|done].
  - intros w1 w2 w3 (Hc & Hn & H) (Hc' & Hn' & H'). split; [congruence|].
    split; [lia|]. intros a Ha. rewrite H' by lia. by apply H.
Qed.

Lemma markers_kept_modify_hd f :
  (∀ h, tensor_need_offloading_checker (f h) = tensor_need_offloading_checker h) →
  preserves markers_kept (modify_hd f).
Proof.
  intros Hf. apply preserves_modify. intros w. split; [apply Hf|].
  split; [simpl; lia|done].
Qed.

Lemma markers_kept_update_obj a f :
  (∀ o, activation_offloading (f o) = activation_offloading o) →
  preserves markers_kept (update_obj a f).
Proof.
  intros Hf. apply preserves_modify. intros w. split; [done|].
  split; [simpl; lia|].
  intros x Hx. simpl. unfold upd. case_decide; subst; [apply Hf|done].
Qed.

Lemma markers_kept_alloc o : preserves markers_kept (alloc o).
Proof.
  intros w a w' [= _ <-]. split; [done|]. split; [simpl; lia|].
  intros x Hx. simpl. unfold upd. case_decide; [lia|done].
Qed.

Lemma markers_kept_log_call c : preserves markers_kept (log_call c).
Proof.
  apply preserves_modify. intros w. split; [done|]. split; [simpl; lia|done].
Qed.

Create HintDb markers_db.
#[global] Hint Resolve markers_kept_alloc markers_kept_log_call : markers_db.

(** Closes [preserves markers_kept m] for code that assigns neither the
    marker of an object nor the checker of the handler. *)
Ltac markers_tac :=
  preserves_struct;
  try first
    [ by apply markers_kept_update_obj
    | by apply markers_kept_modify_hd
    | by (unfold set_state, set_buf; apply markers_kept_modify_hd)
    | solve [auto with markers_db] ].

Import AsyncDoubleBufferGroupOffloadHandler.

Lemma markers_kept_setattr_do_not_clear e :
  preserves markers_kept (setattr e set_do_not_clear).
Proof. unfold setattr. markers_tac. Qed.
#[global] Hint Resolve markers_kept_setattr_do_not_clear : markers_db.

Lemma markers_kept_prepare_for_saving a :
  preserves markers_kept (prepare_for_saving a).
Proof. unfold prepare_for_saving. markers_tac. Qed.
#[global] Hint Resolve markers_kept_prepare_for_saving : markers_db.

Lemma markers_kept_restore_from_saved a l :
  preserves markers_kept (restore_from_saved a l).
Proof. unfold restore_from_saved. markers_tac. Qed.
#[global] Hint Resolve markers_kept_restore_from_saved : markers_db.

Lemma markers_kept_clear a : preserves markers_kept (clear a).
Proof. unfold clear. markers_tac. Qed.
#[global] Hint Resolve markers_kept_clear : markers_db.

Lemma markers_kept_offload e :
  preserves markers_kept (SynchronizedGroupOffloadHandler.offload e).
Proof. unfold SynchronizedGroupOffloadHandler.offload. markers_tac. Qed.
#[global] Hint Resolve markers_kept_offload : markers_db.

Lemma markers_kept_reload e nb b :
  preserves markers_kept (SynchronizedGroupOffloadHandler.reload e nb b).
Proof. unfold SynchronizedGroupOffloadHandler.reload. markers_tac. Qed.
#[global] Hint Resolve markers_kept_reload : markers_db.

Lemma markers_kept_empty_like b : preserves markers_kept (empty_like b).
Proof. unfold empty_like. markers_tac. Qed.
#[global] Hint Resolve markers_kept_empty_like : markers_db.

Lemma markers_kept_offload_item e : preserves markers_kept (offload_item e).
Proof. unfold offload_item, need_offloading. markers_tac. Qed.
#[global] Hint Resolve markers_kept_offload_item : markers_db.

Lemma markers_kept_state_append tg e : preserves markers_kept (state_append tg e).
Proof. unfold state_append. markers_tac. Qed.
#[global] Hint Resolve markers_kept_state_append : markers_db.

Lemma markers_kept_new_reload_buffer b : preserves markers_kept (new_reload_buffer b).
Proof. unfold new_reload_buffer. markers_tac. Qed.
#[global] Hint Resolve markers_kept_new_reload_buffer : markers_db.

Lemma markers_kept_create_first_buffer kv :
  preserves markers_kept (create_first_buffer kv).
Proof. unfold create_first_buffer, rdb_append0. markers_tac. Qed.
#[global] Hint Resolve markers_kept_create_first_buffer : markers_db.

Lemma markers_kept_release_buf kv : preserves markers_kept (release_buf kv).
Proof. unfold release_buf. markers_tac. Qed.
#[global] Hint Resolve markers_kept_release_buf : markers_db.

Lemma markers_kept_commit_forward : preserves markers_kept on_group_commit_forward.
Proof.
  unfold on_group_commit_forward, synchronize_on_group_commit_forward,
    lookup_window, rdb_append1, bulk_offload_group, bulk_offload_entry,
    SynchronizedGroupOffloadHandler.on_group_commit_forward.
  markers_tac.
Qed.

Lemma markers_kept_tensor_push t : preserves markers_kept (tensor_push t).
Proof.
  unfold tensor_push, push_quantized, push_item, state_append, buf_append,
    need_offloading.
  markers_tac.
Qed.

Lemma markers_kept_tensor_pop tg : preserves markers_kept (tensor_pop tg).
Proof.
  unfold tensor_pop, restore_unless_duplicate, pop_object, lookup_object.
  markers_tac.
Qed.

Lemma markers_kept_commit_backward : preserves markers_kept on_group_commit_backward.
Proof.
  unfold on_group_commit_backward, lookup_window, bulk_reload_group,
    bulk_reload_entry, reload_item, pick_reload_buffer,
    write_back_transpose_flag, restore_unless_duplicate, pop_object,
    lookup_object.
  markers_tac.
Qed.

(** ** A tensor that is left on the device *)

#[global] Instance stays_preorder tg t : PreOrder (stays tg t).
Proof.
  split.
  - intros w H. exact H.
  - intros w1 w2 w3 H1 H2 H. apply H2, H1, H.
Qed.

Lemma stays_intro tg t w w' :
  markers_kept w w' →
  (on_device tg t w →
   dict_get tg (tensor_tag_to_state (hd w'))
   = dict_get tg (tensor_tag_to_state (hd w))) →
  stays tg t w w'.
Proof.
  intros (Hc & Hn & Hm) HS Hon. specialize (HS Hon).
  destruct Hon as (Hchk & Hslot & Hflag & Hlt & Hg).
  split; [congruence|]. split; [congruence|].
  split; [by rewrite Hm|]. split; [lia|done].
Qed.

(** A step that keeps markers and leaves the slots alone. *)
Lemma stays_of_markers {A} (m : M A) tg t :
  preserves markers_kept m →
  (∀ w a w', m w = Ok (a, w') →
             tensor_tag_to_state (hd w') = tensor_tag_to_state (hd w)) →
  preserves (stays tg t) m.
Proof.
  intros Hm HS w a w' H. apply stays_intro; [by eapply Hm|].
  intros _. by rewrite (HS _ _ _ H).
Qed.

Lemma stays_modify_hd tg t f :
  (∀ h, tensor_need_offloading_checker (f h) = tensor_need_offloading_checker h) →
  (∀ h, tensor_tag_to_state (f h) = tensor_tag_to_state h) →
  preserves (stays tg t) (modify_hd f).
Proof.
  intros Hc HS. apply stays_of_markers; [by apply markers_kept_modify_hd|].
  intros w a w' H. apply modify_hd_inv in H as ->. apply HS.
Qed.

Lemma stays_update_obj tg t a f :
  (∀ o, activation_offloading (f o) = activation_offloading o) →
  preserves (stays tg t) (update_obj a f).
Proof.
  intros Hf. apply stays_of_markers; [by apply markers_kept_update_obj|].
  by intros w u w' [= _ <-].
Qed.

Lemma stays_alloc tg t o : preserves (stays tg t) (alloc o).
Proof.
  apply stays_of_markers; [apply markers_kept_alloc|].
  by intros w u w' [= _ <-].
Qed.

Lemma stays_set_state tg t x s :
  x ≠ tg → preserves (stays tg t) (set_state x s).
Proof.
  intros Hne w a w' H. apply stays_intro.
  - revert H. apply markers_kept_modify_hd. done.
  - intros _. apply modify_hd_inv in H as ->. simpl. by rewrite dict_get_set_ne.
Qed.

Lemma stays_state_append tg t x e :
  x ≠ tg → preserves (stays tg t) (state_append x e).
Proof.
  intros Hne. unfold state_append. preserves_struct.
  by apply stays_set_state.
Qed.

Lemma stays_offload_item tg t e : preserves (stays tg t) (offload_item e).
Proof.
  apply stays_of_markers; [apply markers_kept_offload_item|].
  intros w a w' H. unfold offload_item in H.
  apply bind_Ok in H as (n & w1 & Hg & H). apply gets_inv in Hg as [-> ->].
  destruct (tensor_need_offloading_checker _ _ _).
  - destruct e as [|x|]; try done.
    apply bind_Ok in H as (o & w1 & Hg & H). apply gets_inv in Hg as [-> ->].
    apply bind_Ok in H as (b & w1 & Hal & H). injection Hal as _ <-.
    by apply ret_inv in H as [_ ->].
  - by apply ret_inv in H as [_ ->].
Qed.

(** The tensor under [tg] is not marked, so the pass over its group puts it
    back as it is. *)
Lemma stays_bulk_offload_group tg t g :
  preserves (stays tg t) (bulk_offload_group g).
Proof.
  unfold bulk_offload_group, for_items.
  apply (preserves_fold_items_live (stays tg t)).
  intros [] x st w a w' Hget H. unfold bulk_offload_entry in H.
  apply when_inv in H as [[_ H]|[_ ->]]; [|reflexivity].
  destruct (decide (x = tg)) as [->|Hne].
  - intros Hon. pose proof Hon as (Hchk & Hslot & Hflag & Hlt & Hg).
    rewrite Hget in Hslot. injection Hslot as Hst. subst st.
    apply bind_Ok in H as (s & w1 & H1 & H2).
    unfold offload_item, need_offloading in H1.
    apply bind_Ok in H1 as (n & w2 & Hn & H1). apply gets_inv in Hn as [-> ->].
    rewrite Hchk in H1. simpl in H1. rewrite Hflag in H1.
    apply ret_inv in H1 as [-> ->].
    apply modify_hd_inv in H2 as ->.
    split; [done|]. split; [simpl; by rewrite dict_get_set_eq|]. done.
  - destruct st as [e|l].
    + assert (preserves (stays tg t)
                (let* s := offload_item e in set_state x (SOne s))) as P.
      { preserves_struct; [apply stays_offload_item|by apply stays_set_state]. }
      apply (P w a w'). by destruct e.
    + assert (preserves (stays tg t)
                (set_state x (SList []) ;;
                 for_each l (fun tensor_on_device =>
                   let* s := offload_item tensor_on_device in
                   state_append x s))) as P.
      { preserves_struct;
          [by apply stays_set_state|apply stays_offload_item
          |by apply stays_state_append]. }
      exact (P w a w' H).
Qed.

Lemma stays_new_reload_buffer tg t b : preserves (stays tg t) (new_reload_buffer b).
Proof.
  apply stays_of_markers; [apply markers_kept_new_reload_buffer|].
  intros w a w' H. unfold new_reload_buffer in H.
  apply bind_Ok in H as (db & w1 & Hg & H). apply gets_inv in Hg as [-> ->].
  destruct (double_buffering (hd w)); [|by apply ret_inv in H as [_ ->]].
  enough (preserves store_only (empty_like b)) as P by (by destruct (P _ _ _ H) as [-> _]).
  unfold empty_like. store_tac.
Qed.

Lemma stays_commit_forward tg t : preserves (stays tg t) on_group_commit_forward.
Proof.
  unfold on_group_commit_forward, synchronize_on_group_commit_forward,
    lookup_window, create_first_buffer, rdb_append1, rdb_append0, release_buf,
    SynchronizedGroupOffloadHandler.on_group_commit_forward.
  preserves_struct;
    try first
      [ apply stays_bulk_offload_group
      | apply stays_new_reload_buffer
      | by apply stays_update_obj
      | by apply stays_modify_hd
      | by (unfold set_buf; apply stays_modify_hd) ].
Qed.

Lemma slot_kept_trace tg t evs w w' :
  trace evs w w' → Forall (λ ev, ev ≠ Quiet) evs →
  Forall (not_taking tg) evs → tg.1 ≠ -1 →
  dict_get tg (tensor_tag_to_state (hd w)) = Some (SOne (ERef t)) →
  dict_get tg (tensor_tag_to_state (hd w')) = Some (SOne (ERef t)).
Proof.
  intros Ht Hq Hn Hg. induction Ht as [|ev evs w w1 w' He Ht IH]; [done|].
  apply Forall_cons in Hq as [Hev Hq]. apply Forall_cons in Hn as [Hev' Hn].
  intros Hslot. apply IH; [done|done|]. clear IH Ht Hq Hn.
  destruct ev as [| |x|x|x c|x e|x o b]; simpl in He, Hev'; try done.
  - destruct He as [_ ->]. done.
  - destruct He as [_ (d & b & r & Hx & ->)].
    rewrite dict_get_set_ne; [done|]. intros ->. congruence.
  - destruct He as (_ & _ & Hx & e & ->).
    rewrite dict_get_set_ne; [done|]. intros ->.
    destruct Hx as [Hx|Hx]; [done|congruence].
  - destruct He as (Hx & _ & (l & ->) & _).
    rewrite dict_get_set_ne; [done|]. intros ->. congruence.
  - destruct He as (_ & _ & _ & ->). by rewrite dict_get_pop_ne.
  - destruct He as ((l & Hx) & -> & _).
    assert (x ≠ tg) as Hne by (intros ->; congruence).
    destruct b; [by rewrite dict_get_set_ne|by rewrite dict_get_pop_ne].
Qed.

Lemma run_op_markers_kept o w r w' :
  handler_cls (hd w) = AsyncDoubleBuffer →
  run_op o w = Ok (r, w') → markers_kept w w'.
Proof.
  intros Hcls H. destruct o as [t|tg| |].
  - apply run_op_Push_Ok in H as (tg & _ & H).
    rewrite handler_tensor_push_async in H by done.
    by apply markers_kept_tensor_push in H.
  - apply run_op_Pop_Ok in H as (s & _ & H).
    rewrite handler_tensor_pop_async in H by done.
    apply bind_Ok in H as (e & w1 & H & Hr). apply ret_inv in Hr as [_ ->].
    by apply markers_kept_tensor_pop in H.
  - apply run_op_CommitForward_Ok in H as (_ & H).
    rewrite handler_commit_forward_async in H by done.
    by apply markers_kept_commit_forward in H.
  - apply run_op_CommitBackward_Ok in H as (_ & H).
    rewrite handler_commit_backward_async in H by done.
    by apply markers_kept_commit_backward in H.
Qed.

(** An operation other than the fetch of [tg] leaves the tensor where it
    is. *)
Lemma run_op_on_device tg t o w r w' :
  handler_cls (hd w) = AsyncDoubleBuffer →
  run_op o w = Ok (r, w') → o ≠ Pop tg →
  on_device tg t w → on_device tg t w'.
Proof.
  intros Hcls Hop Hne Hon.
  destruct (decide (o = CommitForward)) as [->|Hcf].
  - apply run_op_CommitForward_Ok in Hop as (_ & H).
    rewrite handler_commit_forward_async in H by done.
    exact (stays_commit_forward tg t _ _ _ H Hon).
  - pose proof (run_op_markers_kept _ _ _ _ Hcls Hop) as Hm.
    destruct (run_op_trace _ _ _ _ Hcls Hop) as (evs & Ht & He).
    refine (stays_intro tg t w w' Hm _ Hon). intros (_ & Hslot & _ & _ & Hg).
    rewrite Hslot. eapply slot_kept_trace; [exact Ht| | |done|done].
    + destruct o as [x|x| |]; simpl in He; try done.
      * destruct He as (y & _ & ->). constructor; [|constructor].
        by destruct (is_quantized_class _).
      * destruct He as (e & _ & [->|(c & _ & ->)]); by repeat constructor.
      * eapply Forall_impl; [exact He|]. by intros [].
    + destruct o as [x|x| |]; simpl in He; try done.
      * destruct He as (y & _ & ->). constructor; [|constructor].
        by destruct (is_quantized_class _).
      * destruct He as (e & _ & [->|(c & _ & ->)]); repeat constructor;
          simpl; congruence.
      * eapply Forall_impl; [exact He|]. by intros [| | | | | |y c [|]].
Qed.

Lemma run_on_device tg t ops :
  ∀ w rs w',
    handler_cls (hd w) = AsyncDoubleBuffer →
    run ops w = Ok (rs, w') → Pop tg ∉ ops →
    on_device tg t w →
    handler_cls (hd w') = AsyncDoubleBuffer ∧ on_device tg t w'.
Proof.
  induction ops as [|o ops IH]; intros w rs w' Hcls Hrun Hpop Hon.
  - apply ret_inv in Hrun as [_ ->]. auto.
  - apply run_cons_Ok in Hrun as (r & w1 & rest & Hop & Hrun & _).
    apply not_elem_of_cons in Hpop as [Hne Hpop].
    destruct (run_op_async_counters _ _ _ _ Hcls Hop) as (Hcls1 & _).
    eapply IH; [done|done|done|].
    eapply run_op_on_device; [exact Hcls|exact Hop|congruence|done].
Qed.

(** Saving a plain tensor without the marker stores the tensor itself. *)
Lemma push_unmarked t w tg w' :
  handler_cls (hd w) = AsyncDoubleBuffer →
  tensor_need_offloading_checker (hd w)
  = tensor_need_offloading_checker_activations →
  is_stray_class (cls (objs w t)) = false →
  is_quantized_class (cls (objs w t)) = false →
  activation_offloading (objs w t) = false →
  (t < next_addr w)%nat → 0 ≤ current_group (hd w) →
  run_op (Push t) w = Ok (RTag tg, w') →
  on_device tg t w'.
Proof.
  intros Hcls Hchk Hstray Hq Hflag Hlt Hcg Hop.
  pose proof (run_op_markers_kept _ _ _ _ Hcls Hop) as (Hc & Hn & Hm).
  apply run_op_Push_Ok in Hop as (x & [= <-] & H).
  rewrite handler_tensor_push_async in H by done.
  pose proof (async_tensor_push_counters _ _ _ _ H) as Hctr.
  rewrite Hstray in Hctr. destruct Hctr as (Htg & _ & _).
  split; [congruence|]. split; [|split; [by rewrite Hm|split; [lia|]]].
  2: { rewrite Htg. simpl. lia. }
  unfold tensor_push in H.
  apply bind_Ok in H as (c & w1 & Hg & H). apply gets_inv in Hg as [-> ->].
  apply bind_Ok in H as (h & w1 & Hg & H). apply gets_inv in Hg as [-> ->].
  rewrite Hstray, Hq in H. simpl in H.
  apply bind_Ok in H as ([] & w1 & Hmod & H). apply modify_hd_inv in Hmod as ->.
  apply bind_Ok in H as ([] & w1 & Ha & H). apply assert_inv in Ha as [_ ->].
  apply bind_Ok in H as (l & w1 & Hr & H). apply ret_inv in Hr as [-> ->].
  apply bind_Ok in H as ([] & w1 & Hf & H). apply ret_inv in H as [-> ->].
  simpl in Hf.
  apply bind_Ok in Hf as ([] & w2 & Hi & Hf). apply ret_inv in Hf as [_ ->].
  unfold push_item in Hi.
  apply bind_Ok in Hi as ([] & w3 & Hs & Hi). apply modify_hd_inv in Hs as ->.
  apply bind_Ok in Hi as (h & w3 & Hg & Hi). apply gets_inv in Hg as [-> ->].
  apply bind_Ok in Hi as (n & w3 & Hg & Hi). apply gets_inv in Hg as [-> ->].
  simpl in Hi.
  assert (tensor_need_offloading_checker (hd w) (objs w) (ERef t) = false) as Hno
    by (by rewrite Hchk).
  simpl in Hno. rewrite Hno in Hi. rewrite andb_false_r in Hi.
  apply ret_inv in Hi as [_ ->]. simpl. by rewrite dict_get_set_eq.
Qed.

(** Fetching the tag of a tensor that was left on the device returns the
    tensor. *)
Lemma pop_on_device tg t w :
  handler_cls (hd w) = AsyncDoubleBuffer →
  dict_get tg (tensor_tag_to_state (hd w)) = Some (SOne (ERef t)) →
  ∃ w', run_op (Pop tg) w = Ok (RTensor (SOne (ERef t)), w').
Proof.
  intros Hcls Hslot.
  enough (∃ w', tensor_pop tg w = Ok (ERef t, w')) as (w' & H).
  { exists w'. apply run_op_Pop_run. rewrite handler_tensor_pop_async by done.
    by rewrite (bind_step _ _ _ _ _ H). }
  unfold tensor_pop, bind, gets, modify_hd, when, setattr, update_obj, modify,
    assert_, ret. simpl. rewrite Hslot. simpl.
  destruct (double_buffering (hd w)); simpl; eauto.
Qed.

(** X13. Take the asynchronous handler with the checker that offloads marked
    tensors only, [tensor_need_offloading_checker_activations].  A plain
    tensor that exists and does not carry the marker, saved while
    [current_group] is not negative, is stored as itself; whatever saves,
    fetches of other tags and commits in either direction follow and run to
    their end, its slot still holds the tensor itself and never a host copy;
    and fetching its tag then succeeds and returns that very tensor. *)
Theorem unmarked_tensor_stays_on_device w0 t tg w1 ops rs w2 :
  handler_cls (hd w0) = AsyncDoubleBuffer →
  tensor_need_offloading_checker (hd w0)
  = tensor_need_offloading_checker_activations →
  is_stray_class (cls (objs w0 t)) = false →
  is_quantized_class (cls (objs w0 t)) = false →
  activation_offloading (objs w0 t) = false →
  (t < next_addr w0)%nat →
  0 ≤ current_group (hd w0) →
  run_op (Push t) w0 = Ok (RTag tg, w1) →
  Pop tg ∉ ops →
  run ops w1 = Ok (rs, w2) →
  dict_get tg (tensor_tag_to_state (hd w1)) = Some (SOne (ERef t)) ∧
  dict_get tg (tensor_tag_to_state (hd w2)) = Some (SOne (ERef t)) ∧
  ∃ w3, run_op (Pop tg) w2 = Ok (RTensor (SOne (ERef t)), w3).
Proof.
  intros Hcls Hchk Hstray Hq Hflag Hlt Hcg Hpush Hpop Hrun.
  destruct (run_op_async_counters _ _ _ _ Hcls Hpush) as (Hcls1 & _).
  pose proof (push_unmarked _ _ _ _ Hcls Hchk Hstray Hq Hflag Hlt Hcg Hpush)
    as Hon1.
  destruct (run_on_device tg t ops _ _ _ Hcls1 Hrun Hpop Hon1) as (Hcls2 & Hon2).
  split; [apply Hon1|]. split; [apply Hon2|].
  apply pop_on_device; [done|apply Hon2].
Qed.

Lemma unmarked_tensor_stays_on_device_witness :
  let w0 := world_of [plain_tensor [1; 2];
                      set_activation_offloading (plain_tensor [3])]
              (init 1 2 tensor_need_offloading_checker_activations false) in
  let w1 := after (run_op (Push 0%nat)) w0 in
  let ops := [Push 1%nat; CommitForward; CommitForward; CommitBackward;
              CommitBackward; Pop (0, 1)] in
  let w2 := after (run ops) w1 in
  dict_get (0, 1)
    (tensor_tag_to_state (hd (after (run [Push 1%nat; CommitForward]) w1)))
  = Some (SOne (ETuple (Cuda 0) 2%nat)) ∧
  dict_get (0, 0) (tensor_tag_to_state (hd w1)) = Some (SOne (ERef 0%nat)) ∧
  dict_get (0, 0) (tensor_tag_to_state (hd w2)) = Some (SOne (ERef 0%nat)) ∧
  ∃ w3, run_op (Pop (0, 0)) w2 = Ok (RTensor (SOne (ERef 0%nat)), w3).
Proof.
  intros w0 w1 ops w2.
  assert (run_op (Push 0%nat) w0 = Ok (RTag (0, 0), w1)) as Hpush
    by (apply (run_value (run_op (Push 0%nat)) w0 (RTag (0, 0)));
        vm_compute; reflexivity).
  assert (run ops w1 = Ok (results_of ops w1, w2)) as Hrun
    by (apply (run_results ops w1); vm_compute; reflexivity).
  assert (Pop (0, 0) ∉ ops) as Hpop.
  { unfold ops. intros Hin. repeat (apply elem_of_cons in Hin as [Hin|Hin];
      [discriminate Hin|]). by apply elem_of_nil in Hin. }
  assert (0 < next_addr w0)%nat as Hlt by (vm_compute; lia).
  assert (0 ≤ current_group (hd w0)) as Hcg by (vm_compute; discriminate).
  split; [vm_compute; reflexivity|].
  exact (unmarked_tensor_stays_on_device w0 0%nat (0, 0) w1 ops
           (results_of ops w1) w2 eq_refl eq_refl eq_refl eq_refl eq_refl
           Hlt Hcg Hpush Hpop Hrun).
Defined.

(** ** What [bulk_offload_group] makes of a group *)

Import AsyncDoubleBufferGroupOffloadHandler.

#[global] Instance objects_kept_preorder : PreOrder objects_kept.
Proof.
  split.
  - intros w. split; [lia|done].
  - intros w1 w2 w3 [Hn H] [Hn' H']. split; [lia|].
    intros a Ha. rewrite H' by lia. by apply H.
Qed.

Lemma offload_item_Ok e w s w' :
  offload_item e w = Ok (s, w') →
  hd w' = hd w ∧ objects_kept w w' ∧
  if tensor_need_offloading_checker (hd w) (objs w) e then
    ∃ a, e = ERef a ∧ s = ETuple (device (objs w a)) (next_addr w) ∧
         next_addr w' = S (next_addr w) ∧
         objs w' (next_addr w)
         = fresh_tensor Cpu (size (objs w a)) (data (objs w a)) true
  else s = e ∧ w' = w.
Proof.
  unfold offload_item, need_offloading. intros H.
  apply bind_Ok in H as (n & w1 & Hg & H). apply gets_inv in Hg as [-> ->].
  destruct (tensor_need_offloading_checker (hd w) (objs w) e).
  - destruct e as [|a|]; try done.
    apply bind_Ok in H as (o & w1 & Hg & H). apply gets_inv in Hg as [-> ->].
    apply bind_Ok in H as (b & w1 & Hal & H). injection Hal as <- <-.
    apply ret_inv in H as [-> ->]. simpl.
    split; [done|]. split.
    + split; [simpl; lia|]. intros x Hx. simpl. by rewrite upd_other by lia.
    + exists a. by rewrite upd_same.
  - apply ret_inv in H as [-> ->]. split; [done|]. split; [reflexivity|done].
Qed.

Lemma host_copy_of_item e w s w' :
  offload_item e w = Ok (s, w') → host_copy_of w w' e s.
Proof.
  intros H. apply offload_item_Ok in H as (_ & _ & H).
  destruct e as [|a|d b]; simpl.
  - destruct (tensor_need_offloading_checker _ _ _);
      [by destruct H as (? & ? & _)|by destruct H].
  - intros Ha. destruct (tensor_need_offloading_checker _ _ _); [|by destruct H].
    destruct H as (a' & [= <-] & -> & Hn & Ho).
    exists (next_addr w). split; [done|]. split; [lia|done].
  - destruct (tensor_need_offloading_checker _ _ _);
      [by destruct H as (? & ? & _)|by destruct H].
Qed.

(** The copy stays a copy when more objects are added. *)
Lemma host_copy_of_later w w1 w2 e s :
  objects_kept w1 w2 → host_copy_of w w1 e s → host_copy_of w w2 e s.
Proof.
  intros [Hn Ho] H. destruct e as [|a|d b]; simpl in *; try done.
  intros Ha. specialize (H Ha).
  destruct (tensor_need_offloading_checker _ _ _); [|done].
  destruct H as (b & -> & Hb & Hob). exists b. split; [done|].
  split; [lia|]. rewrite Ho by lia. done.
Qed.

(** A copy made from a later world is a copy of what the tensor was. *)
Lemma host_copy_of_earlier w w1 w2 e s :
  tensor_local (tensor_need_offloading_checker (hd w)) →
  tensor_need_offloading_checker (hd w1) = tensor_need_offloading_checker (hd w) →
  objects_kept w w1 → host_copy_of w1 w2 e s → host_copy_of w w2 e s.
Proof.
  intros Hloc Hchk [Hn Ho] H. destruct e as [|a|d b]; simpl in *; try done.
  intros Ha. assert (a < next_addr w1)%nat as Ha1 by lia. specialize (H Ha1).
  rewrite Hchk in H.
  rewrite (Hloc (objs w1) (objs w) a (Ho a Ha)) in H.
  destruct (tensor_need_offloading_checker _ _ _); [|done].
  destruct H as (b & -> & Hb & Hob). exists b. rewrite <- (Ho a Ha).
  split; [done|]. split; [lia|done].
Qed.

(** Going over a slot a second time changes nothing. *)
Lemma host_copy_of_twice w w1 w2 e0 e s :
  tensor_local (tensor_need_offloading_checker (hd w)) →
  tensor_need_offloading_checker (hd w1) = tensor_need_offloading_checker (hd w) →
  objects_kept w w1 → objects_kept w1 w2 →
  host_copy_of w w1 e0 e → host_copy_of w1 w2 e s → host_copy_of w w2 e0 s.
Proof.
  intros Hloc Hchk H01 H12 H1 H2.
  destruct e0 as [|a|d b]; simpl in H1 |- *.
  - subst e. exact H2.
  - intros Ha. specialize (H1 Ha).
    pose proof (host_copy_of_earlier w w1 w2 (ERef a) s Hloc Hchk H01) as H3.
    simpl in H3.
    destruct (tensor_need_offloading_checker (hd w) (objs w) (ERef a)).
    + destruct H1 as (b & -> & Hb & Hob). simpl in H2. subst s.
      exists b. split; [done|]. destruct H12 as [Hn Ho].
      split; [lia|]. rewrite Ho by lia. done.
    + subst e. by apply H3.
  - subst e. exact H2.
Qed.

Lemma Forall2_compose {A} (R1 R2 R : A → A → Prop) l1 l2 l3 :
  (∀ x y z, R1 x y → R2 y z → R x z) →
  Forall2 R1 l1 l2 → Forall2 R2 l2 l3 → Forall2 R l1 l3.
Proof.
  intros HR H1. revert l3. induction H1 as [|x y l1 l2 Hxy H1 IH]; intros l3 H2.
  - inversion H2. constructor.
  - inversion H2 as [|? z ? l3' Hyz H2']; subst. constructor; [by eapply HR|].
    by apply IH.
Qed.

Lemma offloaded_slot_later w w1 w2 s s' :
  objects_kept w1 w2 → offloaded_slot w w1 s s' → offloaded_slot w w2 s s'.
Proof.
  intros H12. destruct s as [e|l], s' as [e'|l']; simpl; try done.
  - by apply host_copy_of_later.
  - intros H. eapply Forall2_impl; [exact H|]. intros x y. by apply host_copy_of_later.
Qed.

Lemma offloaded_slot_earlier w w1 w2 s s' :
  tensor_local (tensor_need_offloading_checker (hd w)) →
  tensor_need_offloading_checker (hd w1) = tensor_need_offloading_checker (hd w) →
  objects_kept w w1 → offloaded_slot w1 w2 s s' → offloaded_slot w w2 s s'.
Proof.
  intros Hloc Hchk H01. destruct s as [e|l], s' as [e'|l']; simpl; try done.
  - by apply host_copy_of_earlier.
  - intros H. eapply Forall2_impl; [exact H|]. intros x y. by apply host_copy_of_earlier.
Qed.

Lemma offloaded_slot_twice w w1 w2 s0 s s' :
  tensor_local (tensor_need_offloading_checker (hd w)) →
  tensor_need_offloading_checker (hd w1) = tensor_need_offloading_checker (hd w) →
  objects_kept w w1 → objects_kept w1 w2 →
  offloaded_slot w w1 s0 s → offloaded_slot w1 w2 s s' → offloaded_slot w w2 s0 s'.
Proof.
  intros Hloc Hchk H01 H12.
  destruct s0 as [e0|l0], s as [e|l], s' as [e'|l']; simpl; try done.
  - by apply host_copy_of_twice.
  - intros H1 H2. eapply Forall2_compose; [|exact H1|exact H2].
    intros x y z. by apply host_copy_of_twice.
Qed.

Lemma offload_list_Ok (k : tag) l :
  ∀ acc w1 u w2,
    tensor_local (tensor_need_offloading_checker (hd w1)) →
    dict_get k (tensor_tag_to_state (hd w1)) = Some (SList acc) →
    for_each l (fun tensor_on_device =>
      let* s := offload_item tensor_on_device in state_append k s) w1
    = Ok (u, w2) →
    ∃ l', tensor_tag_to_state (hd w2)
          = dict_set k (SList (acc ++ l')) (tensor_tag_to_state (hd w1)) ∧
          Forall2 (host_copy_of w1 w2) l l' ∧ objects_kept w1 w2 ∧
          tensor_need_offloading_checker (hd w2)
          = tensor_need_offloading_checker (hd w1).
Proof.
  induction l as [|e l IH]; intros acc w1 u w2 Hloc Hget H.
  - apply ret_inv in H as [_ ->]. exists []. rewrite app_nil_r.
    split; [by rewrite dict_set_same|]. split; [constructor|].
    split; [reflexivity|done].
  - simpl in H. apply bind_Ok in H as ([] & wb & Hb & H).
    apply bind_Ok in Hb as (s & wa & Ha & Hb).
    pose proof (host_copy_of_item _ _ _ _ Ha) as Hcopy.
    apply offload_item_Ok in Ha as (Hhd & Hkept & _).
    unfold state_append in Hb.
    apply bind_Ok in Hb as (h & w' & Hg & Hb). apply gets_inv in Hg as [-> ->].
    rewrite Hhd, Hget in Hb. apply modify_hd_inv in Hb as ->.
    apply (IH (acc ++ [s])) in H as (l' & HS & Hall & Hk & Hc);
      [|simpl; by rewrite Hhd|simpl; apply dict_get_set_eq].
    simpl in HS, Hc. rewrite Hhd in HS, Hc.
    assert (objects_kept w1 (with_hd
              (set_tensor_tag_to_state
                 (dict_set k (SList (acc ++ [s])) (tensor_tag_to_state (hd w1)))
                 (hd wa)) wa)) as Hk1 by exact Hkept.
    exists (s :: l'). split; [|split; [|split]].
    + rewrite HS, dict_set_set. by rewrite <- app_assoc.
    + constructor.
      * eapply host_copy_of_later; [|exact Hcopy]. exact Hk.
      * eapply Forall2_impl; [exact Hall|]. intros x y.
        apply host_copy_of_earlier; [done| |done]. simpl. by rewrite Hhd.
    + etrans; [exact Hk1|exact Hk].
    + done.
Qed.

Lemma bulk_offload_entry_Ok g (k : tag) v wi u wj :
  tensor_local (tensor_need_offloading_checker (hd wi)) →
  k.1 = g →
  dict_get k (tensor_tag_to_state (hd wi)) = Some v →
  bulk_offload_entry g (k, v) wi = Ok (u, wj) →
  ∃ v', tensor_tag_to_state (hd wj)
        = dict_set k v' (tensor_tag_to_state (hd wi)) ∧
        offloaded_slot wi wj v v' ∧ objects_kept wi wj ∧
        tensor_need_offloading_checker (hd wj)
        = tensor_need_offloading_checker (hd wi).
Proof.
  intros Hloc Hg Hget H. unfold bulk_offload_entry in H.
  rewrite bool_decide_eq_true_2 in H by done. simpl in H.
  destruct v as [e|l].
  - assert ((let* s := offload_item e in set_state k (SOne s)) wi = Ok (u, wj)) as H'
      by (by destruct e).
    clear H. apply bind_Ok in H' as (s & w1 & H1 & H2).
    pose proof (host_copy_of_item _ _ _ _ H1) as Hcopy.
    apply offload_item_Ok in H1 as (Hhd & Hkept & _).
    apply modify_hd_inv in H2 as ->. simpl. rewrite Hhd.
    exists (SOne s). split; [done|]. split; [|split; [exact Hkept|done]].
    simpl. eapply host_copy_of_later; [|exact Hcopy]. split; [simpl; lia|done].
  - apply bind_Ok in H as ([] & w1 & H1 & H2). apply modify_hd_inv in H1 as ->.
    apply offload_list_Ok with (acc := []) in H2 as (l' & HS & Hall & Hk & Hc).
    + exists (SList l'). simpl in HS, Hc. rewrite dict_set_set in HS.
      split; [done|]. split; [|split; [exact Hk|done]].
      simpl. eapply Forall2_impl; [exact Hall|]. intros x y Hxy.
      destruct x as [|a|d b]; simpl in Hxy |- *; done.
    + done.
    + simpl. apply dict_get_set_eq.
Qed.

Lemma offload_progress_start g w : offload_progress g w w.
Proof.
  split; [done|]. split; [reflexivity|]. intros x.
  destruct (dict_get x _) as [s|]; [|done]. exists s. auto.
Qed.

Lemma offloaded_at_later (x : tag) w w1 w2 :
  objects_kept w1 w2 →
  dict_get x (tensor_tag_to_state (hd w2)) = dict_get x (tensor_tag_to_state (hd w1)) →
  offloaded_at x w w1 → offloaded_at x w w2.
Proof.
  intros Hk Heq (s & s' & H0 & H1 & Hs). exists s, s'. split; [done|].
  split; [congruence|]. by eapply offloaded_slot_later.
Qed.

Lemma bulk_offload_entry_progress g w wi (k : tag) v u wj :
  tensor_local (tensor_need_offloading_checker (hd w)) →
  offload_progress g w wi →
  dict_get k (tensor_tag_to_state (hd wi)) = Some v →
  bulk_offload_entry g (k, v) wi = Ok (u, wj) →
  offload_progress g w wj ∧
  (k.1 = g → offloaded_at k w wj) ∧
  (∀ x, offloaded_at x w wi → offloaded_at x w wj).
Proof.
  intros Hloc (Hchk & Hkept & Hslots) Hget H.
  destruct (decide (k.1 = g)) as [Hg|Hg].
  2: { unfold bulk_offload_entry in H.
       rewrite bool_decide_eq_false_2 in H by done.
       apply ret_inv in H as [_ ->].
       split; [exact (conj Hchk (conj Hkept Hslots))|].
       split; [by intros ?|by intros x ?]. }
  apply bulk_offload_entry_Ok in H as (v' & HS & Hv & Hk & Hc); [|by rewrite Hchk|done..].
  pose proof (Hslots k) as Hk0.
  destruct (dict_get k (tensor_tag_to_state (hd w))) as [s0|] eqn:H0;
    [|congruence].
  destruct Hk0 as (s' & Hs' & Hrel). rewrite Hget in Hs'. injection Hs' as <-.
  assert (offloaded_slot w wj s0 v') as Hdone.
  { destruct Hrel as [->|[_ Hrel]].
    - by eapply offloaded_slot_earlier.
    - by eapply offloaded_slot_twice. }
  assert (offloaded_at k w wj) as Hat.
  { exists s0, v'. split; [done|]. split; [|done].
    rewrite HS. apply dict_get_set_eq. }
  split; [|split; [done|]].
  - split; [congruence|]. split; [by etrans|]. intros x.
    destruct (decide (x = k)) as [->|Hne].
    + rewrite H0. exists v'. split; [by rewrite HS, dict_get_set_eq|]. auto.
    + specialize (Hslots x). rewrite HS, dict_get_set_ne by done.
      destruct (dict_get x (tensor_tag_to_state (hd w))) as [s|]; [|done].
      destruct Hslots as (s' & Hs' & [->|[Hx Hs]]).
      * exists s. auto.
      * exists s'. split; [done|]. right. split; [done|].
        by eapply offloaded_slot_later.
  - intros x Hx. destruct (decide (x = k)) as [->|Hne]; [done|].
    eapply offloaded_at_later; [exact Hk| |exact Hx].
    rewrite HS. by rewrite dict_get_set_ne.
Qed.

Lemma bulk_offload_fold_progress g w ks :
  ∀ wi u wj,
    tensor_local (tensor_need_offloading_checker (hd w)) →
    offload_progress g w wi →
    fold_m ks tt (fun acc k =>
      let* h := gets hd in
      match dict_get k (tensor_tag_to_state h) with
      | Some v => bulk_offload_entry g (k, v)
      | None => raise RuntimeError
      end) wi = Ok (u, wj) →
    offload_progress g w wj ∧
    (∀ k, k ∈ ks → k.1 = g → offloaded_at k w wj) ∧
    (∀ x, offloaded_at x w wi → offloaded_at x w wj).
Proof.
  induction ks as [|k ks IH]; intros wi u wj Hloc Hp H.
  - apply ret_inv in H as [_ ->]. split; [done|]. split; [|done].
    by intros k ?%elem_of_nil.
  - simpl in H. apply bind_Ok in H as ([] & w1 & H1 & H).
    apply bind_Ok in H1 as (h & w0 & Hg & H1). apply gets_inv in Hg as [-> ->].
    destruct (dict_get k (tensor_tag_to_state (hd wi))) as [v|] eqn:Hget; [|done].
    destruct (bulk_offload_entry_progress _ _ _ _ _ _ _ Hloc Hp Hget H1)
      as (Hp1 & Hk1 & Hmono1).
    destruct (IH _ _ _ Hloc Hp1 H) as (Hp2 & Hks & Hmono2).
    split; [done|]. split; [|by auto].
    intros x [->|Hx]%elem_of_cons Hg; [by auto|by apply Hks].
Qed.

Lemma tensor_local_activations :
  tensor_local tensor_need_offloading_checker_activations.
Proof. intros os os' a H. simpl. by rewrite H. Qed.

Lemma tensor_local_default : tensor_local checker_default.
Proof. by intros os os' a H. Qed.

(** X14. [bulk_offload_group g], when it returns, has gone over the slots of
    group [g] and of no other group.  With a checker that judges a tensor
    by the tensor alone: every tensor of the group that the checker selects
    has been replaced, in its slot, by the pair of its device and a new
    pinned host tensor with the same size and contents; the elements the
    checker does not select, in single slots and in the lists of
    composites, are where they were; no object that existed has been
    changed; slots of other groups are the same; no slot has appeared. *)
Theorem bulk_offload_group_copies g w u w' :
  tensor_local (tensor_need_offloading_checker (hd w)) →
  bulk_offload_group g w = Ok (u, w') →
  objects_kept w w' ∧
  (∀ x : tag, x.1 ≠ g →
     dict_get x (tensor_tag_to_state (hd w'))
     = dict_get x (tensor_tag_to_state (hd w))) ∧
  (∀ x : tag, dict_get x (tensor_tag_to_state (hd w)) = None →
     dict_get x (tensor_tag_to_state (hd w')) = None) ∧
  (∀ (x : tag) s, x.1 = g →
     dict_get x (tensor_tag_to_state (hd w)) = Some s →
     ∃ s', dict_get x (tensor_tag_to_state (hd w')) = Some s' ∧
           offloaded_slot w w' s s').
Proof.
  intros Hloc H. unfold bulk_offload_group, for_items, fold_items in H.
  apply bind_Ok in H as (ks & w0 & Hg & H). apply gets_inv in Hg as [-> ->].
  apply (bulk_offload_fold_progress g w) in H
    as ((_ & Hkept & Hslots) & Hdone & _);
    [|done|apply offload_progress_start].
  split; [done|]. split; [|split].
  - intros x Hx. specialize (Hslots x).
    destruct (dict_get x (tensor_tag_to_state (hd w))) as [s|]; [|done].
    destruct Hslots as (s' & -> & [->|[? _]]); done.
  - intros x Hx. specialize (Hslots x). by rewrite Hx in Hslots.
  - intros x s Hx Hget.
    destruct (Hdone x) as (s0 & s' & H0 & H1 & Hs); [|done|].
    + by eapply dict_get_Some_keys.
    + exists s'. split; [done|]. congruence.
Qed.

Lemma bulk_offload_group_copies_witness :
  let w0 := world_of [plain_tensor [1; 2];
                      set_activation_offloading (plain_tensor [3])]
              (init 1 2 tensor_need_offloading_checker_activations false) in
  let w := after (run [Push 0%nat; Push 1%nat]) w0 in
  let w' := after (bulk_offload_group 0) w in
  dict_get (0, 0) (tensor_tag_to_state (hd w')) = Some (SOne (ERef 0%nat)) ∧
  dict_get (0, 1) (tensor_tag_to_state (hd w'))
  = Some (SOne (ETuple (Cuda 0) 2%nat)) ∧
  objects_kept w w' ∧
  ∃ s', dict_get (0, 1) (tensor_tag_to_state (hd w')) = Some s' ∧
        offloaded_slot w w' (SOne (ERef 1%nat)) s'.
Proof.
  intros w0 w w'.
  assert (bulk_offload_group 0 w = Ok (tt, w')) as Hrun
    by (apply (run_value (bulk_offload_group 0) w tt); vm_compute; reflexivity).
  assert (dict_get (0, 1) (tensor_tag_to_state (hd w)) = Some (SOne (ERef 1%nat)))
    as Hget by (vm_compute; reflexivity).
  split; [vm_compute; reflexivity|]. split; [vm_compute; reflexivity|].
  destruct (bulk_offload_group_copies 0 w tt w' tensor_local_activations Hrun)
    as (Hk & _ & _ & Hs).
  split; [exact Hk|]. exact (Hs (0, 1) (SOne (ERef 1%nat)) eq_refl Hget).
Defined.

(** ** What [bulk_reload_group] makes of a group *)

#[global] Instance contents_kept_preorder : PreOrder contents_kept.
Proof.
  split.
  - intros w. split; [lia|done].
  - intros w1 w2 w3 [Hn H] [Hn' H']. split; [lia|].
    intros a Ha. destruct (H a Ha) as (<- & <- & <-). apply H'. lia.
Qed.

#[global] Instance without_buffers_preorder : PreOrder without_buffers.
Proof.
  split.
  - intros w H. split; [exact H|reflexivity].
  - intros w1 w2 w3 H1 H2 H. destruct (H1 H) as [Hdb Hk].
    destruct (H2 Hdb) as [Hdb' Hk']. split; [exact Hdb'|]. by etrans.
Qed.

Lemma objects_kept_contents_kept w w' : objects_kept w w' → contents_kept w w'.
Proof.
  intros [Hn H]. split; [done|]. intros a Ha. by rewrite (H a Ha).
Qed.

Lemma without_buffers_modify_hd f :
  (∀ h, double_buffering (f h) = double_buffering h) →
  preserves without_buffers (modify_hd f).
Proof.
  intros Hf. apply preserves_modify. intros w Hdb. simpl.
  split; [by rewrite Hf|]. split; [simpl; lia|done].
Qed.

Lemma without_buffers_update_obj a f :
  (∀ o, device (f o) = device o ∧ size (f o) = size o ∧ data (f o) = data o) →
  preserves without_buffers (update_obj a f).
Proof.
  intros Hf. apply preserves_modify. intros w Hdb. split; [done|].
  split; [simpl; lia|]. intros x Hx. simpl. unfold upd.
  case_decide; subst; [apply Hf|done].
Qed.

Lemma without_buffers_alloc o : preserves without_buffers (alloc o).
Proof.
  intros w a w' [= _ <-] Hdb. split; [done|]. split; [simpl; lia|].
  intros x Hx. simpl. by rewrite upd_other by lia.
Qed.

Lemma without_buffers_log_call c : preserves without_buffers (log_call c).
Proof.
  apply preserves_modify. intros w Hdb. split; [done|].
  split; [simpl; lia|done].
Qed.

Create HintDb buffers_db.
#[global] Hint Resolve without_buffers_alloc without_buffers_log_call : buffers_db.

Ltac buffers_tac :=
  preserves_struct;
  try first
    [ by apply without_buffers_update_obj
    | by apply without_buffers_modify_hd
    | by (unfold set_state, set_buf; apply without_buffers_modify_hd)
    | solve [auto with buffers_db] ].

Lemma without_buffers_reload_none e nb :
  preserves without_buffers (SynchronizedGroupOffloadHandler.reload e nb ENone).
Proof. unfold SynchronizedGroupOffloadHandler.reload. buffers_tac. Qed.

Lemma pick_reload_buffer_none i n w :
  double_buffering (hd w) = false → pick_reload_buffer i n w = Ok (ENone, w).
Proof. intros H. unfold pick_reload_buffer, bind, gets. by rewrite H. Qed.

Lemma without_buffers_reload_item i acc e :
  preserves without_buffers (reload_item i acc e).
Proof.
  intros w a w' H Hdb. unfold reload_item in H.
  rewrite (bind_step _ _ _ _ _ (pick_reload_buffer_none i acc.2 w Hdb)) in H.
  destruct (is_tuple e).
  - apply bind_Ok in H as (r & w1 & Hr & H). apply ret_inv in H as [_ ->].
    exact (without_buffers_reload_none _ _ _ _ _ Hr Hdb).
  - apply ret_inv in H as [_ ->]. split; [done|reflexivity].
Qed.
#[global] Hint Resolve without_buffers_reload_item : buffers_db.

Lemma without_buffers_restore_from_saved a l :
  preserves without_buffers (restore_from_saved a l).
Proof. unfold restore_from_saved. buffers_tac. Qed.
#[global] Hint Resolve without_buffers_restore_from_saved : buffers_db.

Lemma without_buffers_bulk_reload_entry g idx kv :
  preserves without_buffers (bulk_reload_entry g idx kv).
Proof.
  intros w a w' H Hdb. destruct kv as [k v]. unfold bulk_reload_entry in H.
  destruct (bool_decide (k.1 = g)).
  2: { apply ret_inv in H as [_ ->]. split; [done|reflexivity]. }
  rewrite (bind_step _ _ _ _ _ (pick_reload_buffer_none _ idx w Hdb)) in H.
  lazymatch type of H with
  | ?m w = _ => assert (preserves without_buffers m) as P
  end.
  { unfold restore_unless_duplicate, write_back_transpose_flag, pop_object,
      lookup_object.
    buffers_tac. apply without_buffers_reload_none. }
  exact (P _ _ _ H Hdb).
Qed.

Lemma reload_none_Ok d b nb w r w' :
  SynchronizedGroupOffloadHandler.reload (ETuple d b) nb ENone w = Ok (r, w') →
  ∃ c, r = ERef c ∧ hd w' = hd w ∧
       ((b < next_addr w)%nat → (c < next_addr w')%nat) ∧
       device (objs w' c) = d ∧
       size (objs w' c) = size (objs w b) ∧
       data (objs w' c) = data (objs w b).
Proof.
  unfold SynchronizedGroupOffloadHandler.reload. intros H.
  apply bind_Ok in H as (o & w1 & Hg & H). apply gets_inv in Hg as [-> ->].
  destruct (decide (d = device (objs w b))) as [->|Hne].
  - apply ret_inv in H as [-> ->]. exists b. done.
  - apply bind_Ok in H as (t & w1 & Hal & H). injection Hal as <- <-.
    apply ret_inv in H as [-> ->]. exists (next_addr w). simpl.
    rewrite upd_same. simpl. split; [done|]. split; [done|].
    split; [lia|done].
Qed.

(** One single slot of the group. *)
Lemma bulk_reload_entry_single g idx (k : tag) e w idx' w' :
  double_buffering (hd w) = false → k.1 = g →
  bulk_reload_entry g idx (k, SOne e) w = Ok (idx', w') →
  match e with
  | ETuple d b =>
      ∃ c, dict_get k (tensor_tag_to_state (hd w')) = Some (SOne (ERef c)) ∧
           ((b < next_addr w)%nat → (c < next_addr w')%nat) ∧
           device (objs w' c) = d ∧
           size (objs w' c) = size (objs w b) ∧
           data (objs w' c) = data (objs w b)
  | _ => w' = w
  end.
Proof.
  intros Hdb Hg H. unfold bulk_reload_entry in H.
  rewrite bool_decide_eq_true_2 in H by done.
  rewrite (bind_step _ _ _ _ _ (pick_reload_buffer_none _ idx w Hdb)) in H.
  destruct e as [|a|d b]; try (by apply ret_inv in H as [_ ->]).
  apply bind_Ok in H as (r & w1 & Hr & H).
  apply reload_none_Ok in Hr as (c & -> & Hhd & Hlt & Hdev & Hsz & Hdt).
  apply bind_Ok in H as ([] & w2 & Hs & H). apply ret_inv in H as [_ ->].
  apply modify_hd_inv in Hs as ->. simpl. exists c.
  split; [apply dict_get_set_eq|done].
Qed.

Lemma reloaded_elem_later w w1 w2 e s :
  contents_kept w1 w2 → reloaded_elem w w1 e s → reloaded_elem w w2 e s.
Proof.
  intros [Hn Hk] H. destruct e as [|a|d b]; simpl in *; try done.
  intros Hb. destruct (H Hb) as (c & -> & Hc & Hdev & Hsz & Hdt).
  exists c. split; [done|]. split; [lia|].
  destruct (Hk c Hc) as (-> & -> & ->). done.
Qed.

Lemma reload_progress_start g w :
  double_buffering (hd w) = false → reload_progress g w w.
Proof.
  intros Hdb. split; [done|]. split; [reflexivity|]. split; [done|].
  intros x e Hx. exists (SOne e). auto.
Qed.

Lemma bulk_reload_entry_progress g w wi idx (k : tag) v idx' wj :
  reload_progress g w wi →
  dict_get k (tensor_tag_to_state (hd wi)) = Some v →
  bulk_reload_entry g idx (k, v) wi = Ok (idx', wj) →
  reload_progress g w wj ∧
  (k.1 = g → reloaded_at k w wj) ∧
  (∀ x, reloaded_at x w wi → reloaded_at x w wj).
Proof.
  intros (Hdb & Hkept & Hother & Hslots) Hget H.
  destruct (decide (k.1 = g)) as [Hg|Hg].
  2: { unfold bulk_reload_entry in H.
       rewrite bool_decide_eq_false_2 in H by done.
       apply ret_inv in H as [_ ->].
       split; [exact (conj Hdb (conj Hkept (conj Hother Hslots)))|].
       split; [by intros ?|by intros x ?]. }
  destruct (without_buffers_bulk_reload_entry _ _ _ _ _ _ H Hdb) as [Hdb' Hk'].
  destruct (bulk_reload_entry_trace _ _ _ _ _ _ _ Hget H)
    as (_ & _ & _ & Hoth & Hone).
  specialize (Hone Hg).
  assert (reloaded_at k w wj) as Hat.
  { intros e He. destruct (Hslots k e He) as (s' & Hs' & Hrel).
    rewrite Hget in Hs'. injection Hs' as <-.
    destruct (dict_get k (tensor_tag_to_state (hd wj))) as [[e''|l]|] eqn:Hk;
      try done.
    exists (SOne e''). split; [done|].
    assert (v = SOne e → reloaded_elem w wj e (SOne e'')) as Hfresh.
    { intros ->.
      pose proof (bulk_reload_entry_single _ _ _ _ _ _ _ Hdb Hg H) as Hs.
      destruct e as [|a|d b]; simpl.
      - subst wj. congruence.
      - subst wj. congruence.
      - intros Hb. destruct Hs as (c & Hc & Hlt & Hdev & Hsz & Hdt).
        rewrite Hk in Hc. injection Hc as ->. exists c. split; [done|].
        destruct Hkept as [Hn Hkept].
        destruct (Hkept b Hb) as (_ & Hsz' & Hdt').
        split; [apply Hlt; lia|]. split; [done|]. split; congruence. }
    destruct Hrel as [->|Hrel]; [by apply Hfresh|].
    destruct e as [|a|d b]; simpl in Hrel |- *.
    - by apply Hfresh.
    - by apply Hfresh.
    - intros Hb. destruct (Hrel Hb) as (c & -> & Hc & Hdev & Hsz & Hdt).
      pose proof (bulk_reload_entry_single _ _ _ _ _ _ _ Hdb Hg H) as Hs.
      simpl in Hs. subst wj. rewrite Hget in Hk. injection Hk as <-.
      exists c. done. }
  split; [|split; [done|]].
  - split; [done|]. split; [by etrans|]. split.
    + intros x Hx. rewrite Hoth by congruence. by apply Hother.
    + intros x e He. destruct (decide (x = k)) as [->|Hne].
      * destruct (Hat e He) as (s' & Hs' & Hrel). exists s'. auto.
      * rewrite Hoth by done. destruct (Hslots x e He) as (s' & Hs' & Hrel).
        exists s'. split; [done|]. destruct Hrel as [->|Hrel]; [by left|].
        right. by eapply reloaded_elem_later.
  - intros x Hx. destruct (decide (x = k)) as [->|Hne]; [done|].
    intros e He. destruct (Hx e He) as (s' & Hs' & Hrel). exists s'.
    rewrite Hoth by done. split; [done|]. by eapply reloaded_elem_later.
Qed.

Lemma bulk_reload_fold_progress g w ks :
  ∀ idx wi idx' wj,
    reload_progress g w wi →
    fold_m ks idx (fun acc k =>
      let* h := gets hd in
      match dict_get k (tensor_tag_to_state h) with
      | Some v => bulk_reload_entry g acc (k, v)
      | None => raise RuntimeError
      end) wi = Ok (idx', wj) →
    reload_progress g w wj ∧
    (∀ k : tag, k ∈ ks → k.1 = g → reloaded_at k w wj) ∧
    (∀ x, reloaded_at x w wi → reloaded_at x w wj).
Proof.
  induction ks as [|k ks IH]; intros idx wi idx' wj Hp H.
  - apply ret_inv in H as [_ ->]. split; [done|]. split; [|done].
    by intros k ?%elem_of_nil.
  - simpl in H. apply bind_Ok in H as (idx1 & w1 & H1 & H).
    apply bind_Ok in H1 as (h & w0 & Hg & H1). apply gets_inv in Hg as [-> ->].
    destruct (dict_get k (tensor_tag_to_state (hd wi))) as [v|] eqn:Hget; [|done].
    destruct (bulk_reload_entry_progress _ _ _ _ _ _ _ _ Hp Hget H1)
      as (Hp1 & Hk1 & Hmono1).
    destruct (IH _ _ _ _ Hp1 H) as (Hp2 & Hks & Hmono2).
    split; [done|]. split; [|by auto].
    intros x [->|Hx]%elem_of_cons Hg; [by auto|by apply Hks].
Qed.

(** The whole of [bulk_reload_group] without double buffering. *)
Lemma bulk_reload_group_Ok g w u w' :
  double_buffering (hd w) = false →
  bulk_reload_group g w = Ok (u, w') →
  reload_progress g w w' ∧
  ∀ x : tag, x.1 = g → reloaded_at x w w'.
Proof.
  intros Hdb H. unfold bulk_reload_group in H.
  apply bind_Ok in H as (h & w1 & Hg & H). apply gets_inv in Hg as [-> ->].
  apply bind_Ok in H as ([] & w1 & Ha & H). apply assert_inv in Ha as [_ ->].
  apply bind_Ok in H as (n & w1 & Hf & H). apply ret_inv in H as [_ ->].
  unfold fold_items in Hf.
  apply bind_Ok in Hf as (ks & w2 & Hg & Hf). apply gets_inv in Hg as [-> ->].
  apply (bulk_reload_fold_progress g w) in Hf as (Hp & Hdone & _);
    [|by apply reload_progress_start].
  split; [done|]. intros x Hx e He. apply Hdone; [|done..].
  by eapply dict_get_Some_keys.
Qed.

(** The whole of [bulk_offload_group]. *)
Lemma bulk_offload_group_Ok g w u w' :
  tensor_local (tensor_need_offloading_checker (hd w)) →
  bulk_offload_group g w = Ok (u, w') →
  offload_progress g w w' ∧
  ∀ (x : tag) s, x.1 = g →
    dict_get x (tensor_tag_to_state (hd w)) = Some s →
    ∃ s', dict_get x (tensor_tag_to_state (hd w')) = Some s' ∧
          offloaded_slot w w' s s'.
Proof.
  intros Hloc H. unfold bulk_offload_group, for_items, fold_items in H.
  apply bind_Ok in H as (ks & w0 & Hg & H). apply gets_inv in Hg as [-> ->].
  apply (bulk_offload_fold_progress g w) in H as (Hp & Hdone & _);
    [|done|apply offload_progress_start].
  split; [done|]. intros x s Hx Hget.
  destruct (Hdone x) as (s0 & s' & H0 & H1 & Hs); [|done|].
  - by eapply dict_get_Some_keys.
  - exists s'. split; [done|]. congruence.
Qed.

(** X15. Without double buffering, [bulk_reload_group g] returns only for
    [g] below [num_offload_group], and then: every single slot of group [g]
    that held the pair of a device and a host copy that exists holds a
    tensor on that device with the size and the contents of the copy;
    every other single slot of the group holds what it held; the slots of
    other groups are the same; and no tensor that existed has changed its
    device, size or contents. *)
Theorem bulk_reload_group_restores g w u w' :
  double_buffering (hd w) = false →
  bulk_reload_group g w = Ok (u, w') →
  g < num_offload_group (hd w) ∧
  contents_kept w w' ∧
  (∀ x : tag, x.1 ≠ g →
     dict_get x (tensor_tag_to_state (hd w'))
     = dict_get x (tensor_tag_to_state (hd w))) ∧
  (∀ (x : tag) e, x.1 = g →
     dict_get x (tensor_tag_to_state (hd w)) = Some (SOne e) →
     ∃ s', dict_get x (tensor_tag_to_state (hd w')) = Some s' ∧
           reloaded_elem w w' e s').
Proof.
  intros Hdb H. split.
  - unfold bulk_reload_group in H.
    apply bind_Ok in H as (h & w1 & Hg & H). apply gets_inv in Hg as [-> ->].
    apply bind_Ok in H as ([] & w1 & Ha & H). apply assert_inv in Ha as [Ha _].
    by apply bool_decide_eq_true in Ha.
  - destruct (bulk_reload_group_Ok _ _ _ _ Hdb H)
      as ((_ & Hk & Hother & _) & Hdone).
    split; [done|]. split; [done|]. intros x e Hx He. by apply Hdone.
Qed.

Lemma bulk_reload_group_restores_witness :
  let w0 := world_of [plain_tensor [1; 2];
                      set_activation_offloading (plain_tensor [3])]
              (init 1 2 tensor_need_offloading_checker_activations false) in
  let w := after (run [Push 0%nat; Push 1%nat; CommitForward]) w0 in
  let w' := after (bulk_reload_group 0) w in
  dict_get (0, 1) (tensor_tag_to_state (hd w')) = Some (SOne (ERef 3%nat)) ∧
  data (objs w' 3%nat) = [3] ∧
  contents_kept w w' ∧
  ∃ s', dict_get (0, 1) (tensor_tag_to_state (hd w')) = Some s' ∧
        reloaded_elem w w' (ETuple (Cuda 0) 2%nat) s'.
Proof.
  intros w0 w w'.
  assert (bulk_reload_group 0 w = Ok (tt, w')) as Hrun
    by (apply (run_value (bulk_reload_group 0) w tt); vm_compute; reflexivity).
  assert (dict_get (0, 1) (tensor_tag_to_state (hd w))
          = Some (SOne (ETuple (Cuda 0) 2%nat)))
    as Hget by (vm_compute; reflexivity).
  split; [vm_compute; reflexivity|]. split; [vm_compute; reflexivity|].
  destruct (bulk_reload_group_restores 0 w tt w' eq_refl Hrun)
    as (_ & Hk & _ & Hs).
  split; [exact Hk|]. exact (Hs (0, 1) (ETuple (Cuda 0) 2%nat) eq_refl Hget).
Defined.

(** X16. Take a handler without double buffering whose checker judges a
    tensor by the tensor alone.  If [bulk_offload_group g] and then
    [bulk_reload_group g] return, every single slot of group [g] that held
    a tensor holds a tensor again, on the same device, with the same size
    and the same contents as the tensor had before the offload; it is the
    very same tensor when the checker did not select it. *)
Theorem offload_reload_round_trip g w u w1 u' w2 :
  tensor_local (tensor_need_offloading_checker (hd w)) →
  double_buffering (hd w) = false →
  bulk_offload_group g w = Ok (u, w1) →
  bulk_reload_group g w1 = Ok (u', w2) →
  ∀ (x : tag) a, x.1 = g →
    dict_get x (tensor_tag_to_state (hd w)) = Some (SOne (ERef a)) →
    (a < next_addr w)%nat →
    ∃ c, dict_get x (tensor_tag_to_state (hd w2)) = Some (SOne (ERef c)) ∧
         device (objs w2 c) = device (objs w a) ∧
         size (objs w2 c) = size (objs w a) ∧
         data (objs w2 c) = data (objs w a) ∧
         (tensor_need_offloading_checker (hd w) (objs w) (ERef a) = false →
          c = a).
Proof.
  intros Hloc Hdb Hoff Hrel x a Hx Hget Ha.
  assert (double_buffering (hd w1) = double_buffering (hd w)) as Hdb1.
  { pose proof (same_counters_bulk_offload_group g _ _ _ Hoff) as E.
    unfold same_counters, counters_of in E. by injection E. }
  rewrite Hdb in Hdb1.
  destruct (bulk_offload_group_Ok _ _ _ _ Hloc Hoff)
    as ((_ & [Hn Hobj] & _) & Hdone).
  destruct (Hdone x _ Hx Hget) as (s' & Hs' & Hcopy).
  destruct (bulk_reload_group_Ok _ _ _ _ Hdb1 Hrel)
    as ((_ & [Hn' Hcont] & _) & Hback).
  destruct s' as [e'|l']; [|done]. simpl in Hcopy. specialize (Hcopy Ha).
  destruct (Hback x Hx e' Hs') as (s'' & Hs'' & Hrest).
  destruct (tensor_need_offloading_checker (hd w) (objs w) (ERef a)).
  - destruct Hcopy as (b & -> & Hb & Hob). simpl in Hrest.
    destruct Hrest as (c & -> & Hc & Hdev & Hsz & Hdt); [lia|].
    exists c. rewrite Hob in Hsz, Hdt. done.
  - subst e'. simpl in Hrest. subst s''. exists a. split; [done|].
    destruct (Hcont a) as (-> & -> & ->); [lia|]. by rewrite (Hobj a Ha).
Qed.

Lemma offload_reload_round_trip_witness :
  let w0 := world_of [plain_tensor [1; 2];
                      set_activation_offloading (plain_tensor [3])]
              (init 1 2 tensor_need_offloading_checker_activations false) in
  let w := after (run [Push 0%nat; Push 1%nat]) w0 in
  let w1 := after (bulk_offload_group 0) w in
  let w2 := after (bulk_reload_group 0) w1 in
  dict_get (0, 1) (tensor_tag_to_state (hd w1))
  = Some (SOne (ETuple (Cuda 0) 2%nat)) ∧
  dict_get (0, 1) (tensor_tag_to_state (hd w2)) = Some (SOne (ERef 3%nat)) ∧
  ∃ c, dict_get (0, 1) (tensor_tag_to_state (hd w2)) = Some (SOne (ERef c)) ∧
       device (objs w2 c) = device (objs w 1%nat) ∧
       size (objs w2 c) = size (objs w 1%nat) ∧
       data (objs w2 c) = data (objs w 1%nat) ∧
       (tensor_need_offloading_checker (hd w) (objs w) (ERef 1%nat) = false →
        c = 1%nat).
Proof.
  intros w0 w w1 w2.
  assert (bulk_offload_group 0 w = Ok (tt, w1)) as Hoff
    by (apply (run_value (bulk_offload_group 0) w tt); vm_compute; reflexivity).
  assert (bulk_reload_group 0 w1 = Ok (tt, w2)) as Hrel
    by (apply (run_value (bulk_reload_group 0) w1 tt); vm_compute; reflexivity).
  assert (dict_get (0, 1) (tensor_tag_to_state (hd w)) = Some (SOne (ERef 1%nat)))
    as Hget by (vm_compute; reflexivity).
  assert (1 < next_addr w)%nat as Hlt by (vm_compute; lia).
  split; [vm_compute; reflexivity|]. split; [vm_compute; reflexivity|].
  exact (offload_reload_round_trip 0 w tt w1 tt w2 tensor_local_activations
           eq_refl Hoff Hrel (0, 1) 1%nat eq_refl Hget Hlt).
Defined.
